(* ===== verification/_CoqProject ===== *)
-Q . S2P
Prelude.v
Authz.v
Utf8.v
Regex.v
GoStrings.v
Decimals.v
GoTime.v
GoFmt.v
GoJson.v
GoJsonParse.v
Sha256.v
Pg.v
Credential.v
SafeError.v
JobTable.v
Jobs.v
JobSystem.v
JobHealth.v
OwnerStore.v
AuditLog.v
OwnerClaim.v
OwnerSystem.v
Limiter.v
SearchHmac.v
Origin.v
ClaimBody.v
ClaimHttp.v
Config.v
Search.v
Probes.v
Migrate.v
Gauges.v
Stores.v
Healthcheck.v
Versions.v
EnvFile.v
Doctor.v
HttpServer.v
ClaimFlow.v
RuneRegex.v
Redact.v
StoredError.v
Commands.v
Leader.v
WorkerLoop.v
WorkerServe.v
Fleet.v
ApiProcess.v
ApiServe.v
RequestSite.v
SiteTable.v
Querier.v
Bytes.v
Raster.v
Codecs.v
Files.v
LoadCorpus.v
TestTmp.v
TestChild.v
IsoBmff.v
WebP.v
Png.v
Jpeg.v
Ebml.v
MediaReaders.v
GifFiles.v
Fixtures.v
FixtureManifest.v
FixtureGen.v
