(* ===== verification/Prelude.v ===== *)
(** * Verification of vizra-core

    vizra-core (src/) is the server of a self-hosted photo site, in Go.  This
    library models the parts that carry its decisions and its state, as
    executable definitions, and proves what makes them correct.

    ** The program and its parts

    - Authorization (src/internal/authz): one function decides every read.
      Modelled in [Authz]; the specification is the frozen surface x visibility
      matrix of src/internal/authz/testdata/adr007_matrix.tsv.
    - Job queue (src/internal/jobs, src/internal/store/sqlcgen/jobs.sql.go,
      src/migrations/0002_jobs.up.sql): producers insert rows in their own
      transaction, workers claim with a lease, run, renew and record, a leader
      sweeps elapsed leases.  [JobTable] has the table with its constraints and
      each SQL statement as a function on the list of rows; [Jobs] has Enqueue,
      claim, run, heartbeat, sweepOnce and the retry ladder; [SafeError] what is
      written to last_error; [JobSystem] the interleavings of producers, workers,
      sweep and stopping processes as a step relation; [StoredError] what of an
      error reaches the table after redaction; [JobHealth] the claim loop
      of a site and the worker's readiness; [WorkerLoop] the life of that loop,
      its drain, and the start of the worker process (src/cmd/worker),
      [WorkerServe] its way from the signal to the exit; [Leader] the election
      of the process that sweeps; [Fleet] any number of processes on one table,
      composed of the statements, the election and the claim loops; [Gauges] the
      queue's aggregates and metrics.
    - Owner claim (src/internal/ownerclaim, src/internal/audit,
      src/internal/credential, owner_claim.sql.go, audit.sql.go, migrations 0003
      and 0005): a one-time token is minted, printed and redeemed for the only
      owner.  [OwnerStore] has the tables and statements, [AuditLog] the audit
      writer, [Credential] the password verifiers, [OwnerClaim] Mint, Claim,
      SupersedeLive and Boot as sequences of statements, [OwnerSystem] the
      theorems on them and on any interleaving of them.
    - Setup endpoints (src/internal/httpapi/setup.go, setup_limits.go,
      middleware.go) with the rate limiter (src/internal/cache/ratelimit.go) and
      origins and sites (src/internal/config/origin.go, src/internal/site):
      [ClaimBody] decodes the body of a claim, [ClaimHttp] has the handlers,
      [Limiter] and [Origin] what they ask.  [ClaimFlow] follows a token from its
      mint through the whole server to the stored credential.
    - The api (src/internal/httpapi/server.go, middleware.go, probes.go,
      modules.go, src/internal/buildinfo, src/cmd/api): [Probes] has readiness
      and its cache, [HttpServer] a request through the whole chain,
      [RequestSite] how a request gets its site and pool, [ApiProcess] the
      start of the process, [ApiServe] its serving, its drain and its exit, with
      the closing of the pools that may outlive the grace.
    - Search boundary (src/internal/search): [SearchHmac] signs and verifies the
      internal requests, [Search] has the SQL searcher, the signing client and
      the composition that falls back.
    - Configuration (src/internal/config): [Config] has the key registry and the
      one validator.
    - Schema migrations (src/internal/migrate): [Migrate]; the site and storage
      registries the migrations seed: [SiteTable]; every statement behind one
      interface (src/internal/store/sqlcgen/querier.go): [Querier].
    - Connections (src/internal/db, src/internal/cache/cache.go): [Stores].
    - The operator's command (src/cmd/vizra): [Commands] dispatches; [Doctor]
      with [Versions] and [EnvFile] is vizra doctor (src/internal/doctor),
      [Healthcheck] the container probe (src/internal/healthcheck).
    - Log redaction (src/internal/obs): [Redact], over [RuneRegex], the
      leftmost-first matching of Go's regexp package on runes.
    - Test media (src/internal/fixtures): [Raster] paints, [Jpeg], [Png],
      [GifFiles], [WebP], [IsoBmff] (MP4) and [Ebml] (WebM, AVIF) write files and
      read them back, [MediaReaders] collects what the readers do on any bytes,
      [Fixtures] has the corpus with its generation, [FixtureManifest] the
      manifest and its verification, [Codecs] the parameters for the encoders of
      the standard library.  The two commands: [FixtureGen]
      (src/cmd/fixturegen) and [LoadCorpus] (src/cmd/loadcorpusgen).
    - Test support (src/internal/testtmp): [TestTmp] has the temporary roots and
      their sweep, [TestChild] the child processes.
    - What the program uses of Go's library and of PostgreSQL: [Utf8], [Regex]
      (a matcher by derivatives with its specification), [GoStrings], [Decimals],
      [GoTime], [GoFmt] (quoting, flags, host:port), [GoJson] and
      [GoJsonParse] (the encoder and the decoder of encoding/json), [Sha256] (with HMAC and hexadecimal), [Bytes] (slices, byte
      orders, CRC-32), [Files] (paths and a disk) and [Pg].

    ** Conventions

    Strings are byte strings, as in Go; a Go defined string type stays a string,
    so that values outside its constants are covered.  Integers are in Z, with
    ranges and wrap-around written out where the code depends on them.  A
    fallible call returns [result]; a statement that fails leaves its tables.
    Durations are nanoseconds, database instants microseconds; process time and
    database time are separate arguments.  A table is the list of its rows in
    any physical order.  An operation made of several statements takes the state
    each of them meets, and the failure it may meet instead, so a theorem covers
    every interleaving with other transactions; the step relations of
    [JobSystem], [Leader], [WorkerLoop], [Fleet], [WorkerServe], [ApiServe],
    [OwnerSystem] and [Probes] then range over executions.  A read outside a slice is [Panic], apart from
    the errors the code returns; because a Go slice may be extended up to its
    capacity, the boxes and chunks that are cut out of a file carry the bytes
    that follow them.  A COMMIT either takes effect and is answered or does
    neither; a reply that is lost after the effect is not modelled.

    ** What the theorems show

    - [Authz]: [decide_refines_matrix] relates [Decide] to the matrix for every
      subject and resource; [private_confined], [published_is_public],
      [download_setting_only_narrows] and others state what it may never allow.
    - Jobs: [truncate_storable] (an error text can be stored),
      [claim_takes_first], [sweep_reclaims], [lost_lease_writes_nothing]
      (fencing), [run_records_outcome] on every branch and
      [slow_outcome_unrecorded] where it is not, [enqueue_idempotent],
      [enqueue_all_or_nothing]; for every execution [queue_invariant],
      [deliveries_bounded] and [no_job_stuck] (over steps that write no
      outcome); [ready_iff] and
      [iteration_is_progress] for the worker's health; [one_sweeper] for the
      election, [drain_is_bounded] and [worker_stops_in_order] for stopping,
      [worker_boot_contract] for starting; [fleet_refines] shows that every
      execution of a fleet is one of the statements, of the election and of each
      loop, so that the theorems on the parts hold of the whole, and
      [stale_runs_are_fenced] that a run whose job was handed to another worker
      changes nothing; [collect_is_the_table] equates gauges and snapshot with the
      table, [queue_age_degrades] carries the age to readiness;
      [stored_error_has_no_token] for what an error leaves in the table.
    - Owner claim: [accepted_input_meets_checks], [hash_only_after_token],
      [refusal_classified], [claim_creates_owner], [mint_replaces_token],
      [minted_token_claims] (from a mint to a credential that verifies),
      [boot_mints_on_request]; for every execution [one_owner] and
      [claimed_is_final].  [stored_password_verifies] is what the credential
      store promises to it.
    - Setup endpoints: [guard_admits], [claimed_instance_inert],
      [claim_answer_effects], [unstorable_email_is_500]; [claim_body_contract]
      for the bytes of a request; [memory_window_bound] and [fallback_decides]
      for the limiter behind them; [posted_token_claims] composes mint, body,
      server, claim and verifier end to end.
    - Configuration: [boot_is_fail_secure] and [refusal_hides_secrets].
    - Search: [signed_request_verifies], [accepted_request] (what a signature
      proves, with the canonical string injective), [remote_fault_contained].
    - The api: [readiness_rules], [single_flight] under concurrent callers;
      [unclaimed_surface] and [every_answer_is_hardened] for any request;
      [api_boot_contract] composes configuration, pools, owner claim and
      readiness; [api_stops_in_order] for every execution after the signal;
      [routed_request_has_pool] for the pool of a request.
    - Migrations and registries: [embedded_version_iff], [apply_all_reports],
      [registry_reads_agree], [open_all_or_nothing] for the pools,
      [exec_frame] for what each statement leaves alone.
    - The operator's command: [only_migrate_and_claim_write] and
      [claim_token_prints_once]; [doctor_passes_iff],
      [version_floor_is_lexicographic], [quoted_env_read_back];
      [one_request_decides], and [probe_reads_the_service], which composes the
      probe with the readiness of the api and of the worker; [probe_word] for
      the word it prints.
    - Redaction: [match_search_is_exact] (the search finds exactly the matches
      the expressions denote), [redaction_terminates], [no_token_survives],
      [secret_values_never_logged].
    - Test media: [scene_is_naive] equates the three fast passes with the naive
      loop; [boxes_exact] and [vp8l_reads_back] are the round trips of the
      containers, [built_film_verifies] and [orientation_fixture_verifies] carry
      a built file through its assertions; [one_wrong_byte_is_caught] for the
      checksum of a chunk, [media_readers_never_panic] for any bytes (for EXIF
      within what 32-bit offsets address);
      [generated_corpus_verifies], [verify_reports_nothing_iff] and
      [manifest_round_trip] for the corpus and its manifest; [corpus_is_declared] and [isqrt_is_sqrt] for the load
      corpus.
    - encoding/json: [parse_indented] and [first_compact] (what the encoder
      wrote is read back), [decode_typed] (decoding keeps the type of a
      variable), [enough_fuel].
    - Test support: [sweep_spares_the_living], [clean_exit_leaves_nothing],
      [killed_child_is_gone].
    Behaviour the code has and its comments deny is stated as it is:
    [slow_outcome_unrecorded], [invalid_error_unrecorded],
    [unstorable_email_is_500], [cancelled_probe_is_served],
    [module_versions_collide], [blank_address_diverges],
    [env_file_hides_blank_hatch], [normalised_dsn_survives],
    [second_site_is_silent], [redact_leaves_quoted_cookie],
    [redact_leaves_token_after_key], [url_value_keeps_signature],
    [dropped_byte_joins_a_token], [accepts_while_metrics_close],
    [fourth_frame_panics], [short_ihdr_panics], [edited_entries_pass],
    [empty_digest_panics], [unreadable_input_is_reported_twice],
    [own_reclaim_is_not_fenced], [bodies_accepted], [pool_waits_for_the_job],
    [pool_waits_for_the_request], [encoded_probe_passes_the_guard] and
    [exif_offset_wraps].

    ** Fuel

    Recursion that is not structural takes the length of the text it consumes
    (UTF-8 decoding, trimming, durations, scanning), or the number of binary
    digits of the number it prints; every round consumes at least one, and the
    lemmas on these functions are proved for every input.  The replacement of
    matches takes one round per rune, which [redaction_terminates] shows to be
    enough; the flags of a command line one round per argument ([parse_enough]).
    The readers of media files take the length of the file and consume at least
    one byte a round; Newton's loop takes [isqrt_rounds], which [isqrt_is_sqrt]
    shows to be enough, and the waits for a child [looks] and [probes] rounds
    ([killed_child_is_gone]).  The reader of JSON takes two rounds per byte, and
    more change nothing ([more_fuel], [enough_fuel]).  Nothing else is bounded.

    ** Parameters

    Code outside src/ is an argument, and a theorem with a law about it has a
    witness with a concrete instance: the Unicode tables above ASCII
    ([Unicode]), the URL functions ([NetUrl], [UrlPrint], [NewRequest]), IP
    addresses ([Netip]), the JSON of search calls and job payloads ([Codec],
    [Jsonb] and the payload encoder), the text of a JSON error ([JsonErrors]) and
    of a time ([TimeText]), the database's own lower-casing and white space ([Server]), the
    cache server ([WindowCounter]), argon2 ([Argon2]), the migration library
    ([Ledger]), the connection drivers ([PgxPool], [Redis]), the router
    ([Router] with [RouterLaws]), the UUID parser ([UuidParse]), the tables of
    printable runes ([Printable]), the collation of the database ([Collation]), the image and
    compression codecs ([JpegEncoder], [JpegDecoder], [PngCodec], [GifCodec],
    [Zlib]) and the two committed encoded files ([CodecFiles]), content sniffing
    and XML ([Sniffer], [XmlReader]), the toolchain ([GoRuntime]), what the system refuses ([Os]) and which processes
    live ([Kernel]), randomness,
    identifiers, clocks and the HTTP transport.  [Jobs] and [JobHealth] hold for
    every function in the place of the log redaction; [WorkerLoop] puts [Redact]
    there.

    ** Not modelled

    How net/http accepts and closes connections (only which requests are open),
    the metrics format, the tracing attribute of a request, how slog encodes a
    record, the hook of seam_integration.go and the test suites.  The JSON of
    search calls stays a parameter because its scores are floating-point
    numbers; the URL parser is one because it is as large as the parts that call
    it.  What is left of the sources otherwise is declarations that only name
    types or forward a call.

    This file holds the shared vocabulary: byte strings, results, small lemmas
    on lists, and the tactics and hints the other files use. *)

From stdpp Require Export base gmap strings list.
From Stdlib Require Export ZArith Lia Ascii String.
From stdpp Require Export strings list.

(** ** Strings as Go has them: sequences of bytes *)

Declare Scope vz_scope.
Delimit Scope vz_scope with vz.

Notation "a =s b" := (String.eqb a b) (at level 70, no associativity) : vz_scope.
Notation "a <>s b" := (negb (String.eqb a b)) (at level 70, no associativity) : vz_scope.

#[global] Open Scope Z_scope.
#[global] Open Scope vz_scope.

(** [len s] is Go's [len] on a string: its number of bytes. *)
Definition len (s : string) : Z := Z.of_nat (String.length s).

Lemma len_nonneg s : 0 <= len s.
Proof. unfold len. lia. Qed.

(** [code c] is the value of one byte, 0 to 255. *)
Definition code (c : ascii) : Z := Z.of_N (N_of_ascii c).

Lemma code_range c : 0 <= code c <= 255.
Proof. unfold code. pose proof (N_ascii_bounded c). lia. Qed.

(** [stake n s] is the Go slice [s[:n]] and [sdrop n s] is [s[n:]], for
    [n <= len(s)]. *)
Fixpoint stake (n : nat) (s : string) : string :=
  match n, s with
  | S n, String c s => String c (stake n s)
  | _, _ => EmptyString
  end.

Fixpoint sdrop (n : nat) (s : string) : string :=
  match n, s with
  | S n, String c s => sdrop n s
  | _, _ => s
  end.

(** [sget n s] is the byte [s[n]], if there is one. *)
Fixpoint sget (n : nat) (s : string) : option ascii :=
  match n, s with
  | _, EmptyString => None
  | O, String c _ => Some c
  | S n, String _ s => sget n s
  end.

Lemma sapp_nil b : ("" +:+ b)%string = b.
Proof. reflexivity. Qed.

Lemma sapp_cons c a b : (String c a +:+ b)%string = String c (a +:+ b).
Proof. reflexivity. Qed.

Create Rewrite HintDb str.
#[export] Hint Rewrite sapp_nil sapp_cons : str.

Lemma stake_sdrop n s : (stake n s +:+ sdrop n s)%string = s.
Proof.
  revert s; induction n as [|n IH]; intros [|c s]; try done.
  simpl. autorewrite with str. f_equal. apply IH.
Qed.

Lemma length_stake n s : String.length (stake n s) = Nat.min n (String.length s).
Proof. revert s; induction n as [|n IH]; intros [|c s]; simpl; auto. Qed.

Lemma length_sdrop n s : String.length (sdrop n s) = (String.length s - n)%nat.
Proof. revert s; induction n as [|n IH]; intros [|c s]; simpl; auto. Qed.

Lemma sdrop_sdrop n m s : sdrop n (sdrop m s) = sdrop (m + n) s.
Proof.
  revert s; induction m as [|m IH]; intros [|c s]; simpl; try done.
  by destruct n.
Qed.

Lemma sget_sdrop n m s : sget n (sdrop m s) = sget (m + n) s.
Proof.
  revert s; induction m as [|m IH]; intros [|c s]; simpl; try done.
  by destruct n.
Qed.

Lemma stake_all n s : (String.length s <= n)%nat -> stake n s = s.
Proof.
  revert s; induction n as [|n IH]; intros [|c s] H; simpl in *; try done; try lia.
  rewrite IH; [done|lia].
Qed.

Lemma stake_add n m s : stake (n + m) s = (stake n s +:+ stake m (sdrop n s))%string.
Proof.
  revert s; induction n as [|n IH]; intros [|c s]; simpl; autorewrite with str; try done.
  - by destruct m.
  - f_equal. apply IH.
Qed.

Lemma length_sapp a b : String.length (a +:+ b)%string = (String.length a + String.length b)%nat.
Proof. induction a as [|c a IH]; autorewrite with str; simpl; [done|]. f_equal. apply IH. Qed.

Lemma len_app a b : len (a +:+ b)%string = len a + len b.
Proof. unfold len. rewrite length_sapp. lia. Qed.

Lemma sapp_assoc (a b c : string) : ((a +:+ b) +:+ c = a +:+ (b +:+ c))%string.
Proof. induction a as [|x a IH]; autorewrite with str; [done|]. f_equal. apply IH. Qed.

Lemma sapp_nil_r (a : string) : (a +:+ "" = a)%string.
Proof. induction a as [|x a IH]; autorewrite with str; [done|]. by rewrite IH. Qed.

Lemma sapp_inj_r (a b c : string) : (a +:+ c = b +:+ c)%string -> a = b.
Proof.
  revert b; induction a as [|x a IH]; intros [|y b] H; [done| | |].
  - apply (f_equal String.length) in H. rewrite !length_sapp in H. simpl in H. lia.
  - apply (f_equal String.length) in H. rewrite !length_sapp in H. simpl in H. lia.
  - rewrite !sapp_cons in H. injection H as -> H. f_equal. by apply IH.
Qed.

Lemma stake_prefix n a b : (n <= String.length a)%nat -> stake n (a +:+ b)%string = stake n a.
Proof.
  revert n. induction a as [|x a IH]; intros [|n] Hn; cbn [String.length] in Hn; try lia; [by destruct b|done|].
  autorewrite with str. cbn [stake]. by rewrite IH by lia.
Qed.

(** A Go [switch] over string constants: membership in a list of them. *)
Definition one_of (s : string) (l : list string) : bool :=
  existsb (String.eqb s) l.

Lemma one_of_spec s l : one_of s l = true <-> List.In s l.
Proof.
  unfold one_of. rewrite existsb_exists. split.
  - intros (x & Hin & Heq). apply String.eqb_eq in Heq. by subst.
  - intros Hin. exists s. split; [done | apply String.eqb_refl].
Qed.

(** A Go map literal from strings, read with the comma-ok form. *)
Fixpoint map_get {A} (k : string) (l : list (string * A)) : option A :=
  match l with
  | [] => None
  | (k', v) :: l => if k =s k' then Some v else map_get k l
  end.

Arguments map_get : simpl never.

Lemma map_get_some_in {A} k (l : list (string * A)) v :
  map_get k l = Some v -> List.In (k, v) l.
Proof.
  induction l as [|[k' v'] l IH]; unfold map_get; simpl; fold (@map_get A); [done|].
  destruct (String.eqb_spec k k') as [->|_]; intros H; [left; congruence | right; auto].
Qed.

Lemma map_get_none_iff {A} k (l : list (string * A)) :
  map_get k l = None <-> ~ List.In k (map fst l).
Proof.
  induction l as [|[k' v'] l IH]; unfold map_get; simpl; fold (@map_get A); [tauto|].
  destruct (String.eqb_spec k k') as [->|Hne]; [split; [done|tauto]|].
  rewrite IH. intuition congruence.
Qed.

(** ** Results

    A Go call that returns a value and an error. *)
Inductive result (E A : Type) : Type :=
| Ok (a : A)
| Err (e : E).
Arguments Ok {E A} a.
Arguments Err {E A} e.

Notation "'let?' x := a 'in' b" :=
  (match a with Ok x => b | Err e => Err e end)
  (at level 10, x pattern, b at level 200) : vz_scope.

Definition is_ok {E A} (r : result E A) : bool :=
  match r with Ok _ => true | Err _ => false end.

(** ** Fixed-width integers *)

Definition int16_range (z : Z) : bool := (-32768 <=? z) && (z <=? 32767).
Definition int32_range (z : Z) : bool := (-2147483648 <=? z) && (z <=? 2147483647).

(** ** Lists *)

Lemma omap_sublist {A B} (f g : A -> option B) (l : list A) :
  (forall x, List.In x l -> f x = g x \/ f x = None) -> sublist (omap f l) (omap g l).
Proof.
  intros H. induction l as [|x l IH]; simpl; [done|].
  assert (IH' : sublist (omap f l) (omap g l)) by (apply IH; intros; apply H; by right).
  destruct (H x (or_introl eq_refl)) as [->| ->]; destruct (g x); by try constructor.
Qed.

Lemma omap_map {A B C} (to : A -> B) (sel : B -> option C) rows :
  omap sel (map to rows) = omap (fun r => sel (to r)) rows.
Proof. induction rows as [|r rows IH]; csimpl; [done|]. by rewrite IH. Qed.

Lemma length_filter_split {A} (p : A -> bool) (l : list A) :
  (length (List.filter (fun x => negb (p x)) l) + length (List.filter p l) = length l)%nat.
Proof. induction l as [|x l IH]; simpl; [done|]. destruct (p x); simpl; lia. Qed.

(** ** Automation *)

(** Turn boolean string tests into equations, and close the absurd ones. *)
Ltac eqb_prop :=
  repeat match goal with
  | H : String.eqb ?a ?b = true |- _ => apply String.eqb_eq in H
  | H : String.eqb ?a ?b = false |- _ => apply String.eqb_neq in H
  | H : negb _ = true |- _ => apply negb_true_iff in H
  | H : negb _ = false |- _ => apply negb_false_iff in H
  | H : _ && _ = true |- _ => apply andb_true_iff in H as [? ?]
  | H : _ || _ = false |- _ => apply orb_false_iff in H as [? ?]
  end.

(** Case on every [if]/[match] of the goal. *)
Ltac split_goal := repeat (case_match; simplify_eq; try done).

(** Case on every [if]/[match] of the hypothesis [H]. *)
Ltac split_in H :=
  repeat match type of H with
  | context [ match ?x with _ => _ end ] => destruct x eqn:?; simplify_eq
  end.

Create HintDb vizra.
#[export] Hint Resolve len_nonneg : vizra.
