(* ===== verification/Authz.v ===== *)
(** * The authorization evaluator (src/internal/authz/authz.go)

    Every read surface of the program asks one function, [Decide], whether a
    subject may perform an action on a resource.  The Go types [Role],
    [Visibility], [AlbumPrivacy], [DownloadSetting], [Scope], [Action] and
    [Reason] are defined strings: a value outside the declared constants is
    representable and does reach the evaluator, so they are strings here too.

    The specification is the frozen surface x visibility matrix of
    src/internal/authz/testdata/adr007_matrix.tsv, transcribed as [matrix]; the
    refinement theorem relates [Decide] to it for every subject and resource,
    not only for the five sample viewers the table-driven test builds. *)

From S2P Require Import Prelude.

(** ** Vocabulary *)

Definition Role := string.
Definition RoleAnonymous : Role := "anonymous".
Definition RoleGuest : Role := "guest".
Definition RoleMember : Role := "member".
Definition RoleManager : Role := "manager".
Definition RoleAdmin : Role := "admin".
Definition RoleOwner : Role := "owner".

(** A Go map read with no comma-ok yields the zero value for a missing key. *)
Definition roleRank (r : Role) : Z :=
  match map_get r [(RoleAnonymous, 0); (RoleGuest, 1); (RoleMember, 2);
                 (RoleManager, 3); (RoleAdmin, 4); (RoleOwner, 5)] with
  | Some n => n
  | None => 0
  end.

Definition AtLeast (r other : Role) : bool := roleRank other <=? roleRank r.

Definition Visibility := string.
Definition VisibilityPublic : Visibility := "public".
Definition VisibilityUnlisted : Visibility := "unlisted".
Definition VisibilityPrivate : Visibility := "private".

Definition AlbumPrivacy := string.
Definition AlbumPublic : AlbumPrivacy := "public".
Definition AlbumPrivate : AlbumPrivacy := "private".
Definition AlbumLink : AlbumPrivacy := "link".
Definition AlbumPassword : AlbumPrivacy := "password".

Definition DownloadSetting := string.
Definition DownloadAll : DownloadSetting := "all".
Definition DownloadMembers : DownloadSetting := "members".
Definition DownloadNobody : DownloadSetting := "nobody".

Definition Scope := string.
Definition ScopeSite : Scope := "site".
Definition ScopeOwnLibrary : Scope := "own_library".

Definition Action := string.
Definition ActionItemPage : Action := "item_page".
Definition ActionOriginalDownload : Action := "original_download".
Definition ActionDerivativeURL : Action := "derivative_url".
Definition ActionAlbumPage : Action := "album_page".
Definition ActionCountContribution : Action := "count_contribution".
Definition ActionOwnerLibrary : Action := "owner_library".
Definition ActionProfileGrid : Action := "profile_grid".
Definition ActionExplore : Action := "explore".
Definition ActionSearch : Action := "search".
Definition ActionTagCategoryListing : Action := "tag_category_listing".
Definition ActionFeeds : Action := "feeds".
Definition ActionNotifications : Action := "notifications".
Definition ActionFavoriteRating : Action := "favorite_rating".
Definition ActionEmbed : Action := "embed".
Definition ActionSitemap : Action := "sitemap".
Definition ActionBulkDownload : Action := "bulk_download".
Definition ActionFederationOutbound : Action := "federation_outbound".
Definition ActionIPFSPublication : Action := "ipfs_publication".
Definition ActionExport : Action := "export".
Definition ActionAdminConsole : Action := "admin_console".
Definition ActionSharedCache : Action := "shared_cache".

Definition Actions : list Action :=
  [ActionItemPage; ActionOriginalDownload; ActionDerivativeURL; ActionAlbumPage;
   ActionCountContribution; ActionOwnerLibrary; ActionProfileGrid; ActionExplore;
   ActionSearch; ActionTagCategoryListing; ActionFeeds; ActionNotifications;
   ActionFavoriteRating; ActionEmbed; ActionSitemap; ActionBulkDownload;
   ActionFederationOutbound; ActionIPFSPublication; ActionExport;
   ActionAdminConsole; ActionSharedCache].

Record Subject := mkSubject {
  UserID : string;
  SubjectRole : Role;
  Staff : bool;
  HasGrant : bool;
  GrantAllowsDownload : bool
}.

Definition Anonymous (s : Subject) : bool := UserID s =s "".

Record Resource := mkResource {
  OwnerID : string;
  ResVisibility : Visibility;
  ResAlbumPrivacy : AlbumPrivacy;
  ResDownloadSetting : DownloadSetting;
  ResScope : Scope;
  OwnerAllowsIPFS : bool;
  VisibilityVersion : Z
}.

Inductive Decision := Deny | Allow.

Definition Decision_String (d : Decision) : string := match d with Allow => "allow" | Deny => "deny" end.

Definition Allowed (d : Decision) : bool :=
  match d with Allow => true | Deny => false end.

Definition Reason := string.
Definition ReasonSurfaceNotInMatrix : Reason := "surface_not_in_matrix".
Definition ReasonVisibilityUnknown : Reason := "visibility_unknown".
Definition ReasonSitePrivate : Reason := "site_private_anonymous".
Definition ReasonPublic : Reason := "public".
Definition ReasonOwner : Reason := "owner".
Definition ReasonStaffAudited : Reason := "staff_audited_context".
Definition ReasonGrant : Reason := "grant".
Definition ReasonReachableByLink : Reason := "reachable_by_link".
Definition ReasonPrivate : Reason := "private_requires_owner_grant_or_staff".
Definition ReasonPublicOnlySurface : Reason := "surface_lists_public_items_only".
Definition ReasonDownloadDisabled : Reason := "owner_download_setting".
Definition ReasonGrantLacksDownload : Reason := "grant_does_not_include_download".
Definition ReasonOwnerOnlySurface : Reason := "surface_is_owner_scoped".
Definition ReasonStaffOnlySurface : Reason := "surface_is_staff_only".
Definition ReasonSiteOwnerRequired : Reason := "site_export_requires_owner_role".
Definition ReasonIPFSNotEligible : Reason := "owner_has_not_listed_for_ipfs".
Definition ReasonNotSharedCacheable : Reason := "only_public_derivatives_are_shared_cacheable".
Definition ReasonOwnLibraryScope : Reason := "owner_in_own_library_scope".

Record Options := mkOptions { SitePrivate : bool }.

(** The evaluator holds nothing but its options. *)
Definition Evaluator := Options.

Inductive surfaceKind :=
  kindDirect | kindDirectNoPrivate | kindAggregate | kindDownload
| kindListing | kindListingIPFS | kindSearch | kindOwnerScoped
| kindStaffOnly | kindExport | kindAlbum | kindCount.

Definition kindOf : list (Action * surfaceKind) :=
  [(ActionItemPage, kindDirect);
   (ActionOriginalDownload, kindDownload);
   (ActionDerivativeURL, kindDirect);
   (ActionAlbumPage, kindAlbum);
   (ActionCountContribution, kindCount);
   (ActionOwnerLibrary, kindOwnerScoped);
   (ActionProfileGrid, kindListing);
   (ActionExplore, kindListing);
   (ActionSearch, kindSearch);
   (ActionTagCategoryListing, kindListing);
   (ActionFeeds, kindListing);
   (ActionNotifications, kindDirect);
   (ActionFavoriteRating, kindAggregate);
   (ActionEmbed, kindDirectNoPrivate);
   (ActionSitemap, kindListing);
   (ActionBulkDownload, kindDownload);
   (ActionFederationOutbound, kindListing);
   (ActionIPFSPublication, kindListingIPFS);
   (ActionExport, kindExport);
   (ActionAdminConsole, kindStaffOnly);
   (ActionSharedCache, kindListing)].

(** ** Operations *)

Definition HideExistence (r : Resource) : bool :=
  if one_of (ResVisibility r) [VisibilityPublic; VisibilityUnlisted]
  then false else true.

Definition reasonForReachable (v : Visibility) : Reason :=
  if v =s VisibilityUnlisted then ReasonReachableByLink else ReasonPublic.

Definition downloadSettingPermits (s : Subject) (r : Resource) (owner staff : bool) : bool :=
  if owner || staff then true
  else if one_of (ResDownloadSetting r) [""%string; DownloadAll] then true
  else if ResDownloadSetting r =s DownloadMembers then negb (Anonymous s)
  else if ResDownloadSetting r =s DownloadNobody then false
  else false.

(** [owner] and [staff] of [Decide]. *)
Definition isOwner (subject : Subject) (resource : Resource) : bool :=
  (OwnerID resource <>s "") && (UserID subject =s OwnerID resource).

Definition isStaff (subject : Subject) : bool :=
  Staff subject && AtLeast (SubjectRole subject) RoleManager.

(** The surfaces that show one item: who may see it, download it, embed it or
    count in its aggregates.  No other kind reaches here. *)
Definition decide_item (subject : Subject) (resource : Resource) (k : surfaceKind) : Decision * Reason :=
  let owner := isOwner subject resource in
  let staff := isStaff subject in
  let vis := ResVisibility resource in
  match k with
  | kindDownload =>
      if negb (downloadSettingPermits subject resource owner staff)
      then (Deny, ReasonDownloadDisabled)
      else if one_of vis [VisibilityPublic; VisibilityUnlisted]
      then (Allow, reasonForReachable vis)
      else if owner then (Allow, ReasonOwner)
      else if staff then (Allow, ReasonStaffAudited)
      else if HasGrant subject then
        if negb (GrantAllowsDownload subject)
        then (Deny, ReasonGrantLacksDownload)
        else (Allow, ReasonGrant)
      else (Deny, ReasonPrivate)
  | kindDirect =>
      if one_of vis [VisibilityPublic; VisibilityUnlisted]
      then (Allow, reasonForReachable vis)
      else if owner then (Allow, ReasonOwner)
      else if staff then (Allow, ReasonStaffAudited)
      else if HasGrant subject then (Allow, ReasonGrant)
      else (Deny, ReasonPrivate)
  | kindDirectNoPrivate =>
      if one_of vis [VisibilityPublic; VisibilityUnlisted]
      then (Allow, reasonForReachable vis)
      else (Deny, ReasonPrivate)
  | kindAggregate =>
      if one_of vis [VisibilityPublic; VisibilityUnlisted]
      then (Allow, reasonForReachable vis)
      else if owner then (Allow, ReasonOwner)
      else if staff then (Allow, ReasonStaffAudited)
      else (Deny, ReasonPrivate)
  | _ => (Deny, ReasonSurfaceNotInMatrix)
  end.

Definition Decide (e : Evaluator) (subject : Subject) (action : Action)
    (resource : Resource) : Decision * Reason :=
  if SitePrivate e && Anonymous subject then (Deny, ReasonSitePrivate) else
  match map_get action kindOf with
  | None => (Deny, ReasonSurfaceNotInMatrix)
  | Some k =>
    let owner := isOwner subject resource in
    let staff := isStaff subject in
    let vis := ResVisibility resource in
    if negb (one_of vis [VisibilityPublic; VisibilityUnlisted; VisibilityPrivate])
    then (Deny, ReasonVisibilityUnknown) else
    match k with
    | kindStaffOnly =>
        if staff then (Allow, ReasonStaffAudited) else (Deny, ReasonStaffOnlySurface)
    | kindOwnerScoped =>
        if owner then (Allow, ReasonOwner)
        else if staff then (Allow, ReasonStaffAudited)
        else (Deny, ReasonOwnerOnlySurface)
    | kindExport =>
        if owner then (Allow, ReasonOwner)
        else if Staff subject && (SubjectRole subject =s RoleOwner)
        then (Allow, ReasonStaffAudited)
        else (Deny, ReasonSiteOwnerRequired)
    | kindAlbum =>
        let priv := ResAlbumPrivacy resource in
        if negb (one_of priv [AlbumPublic; AlbumPrivate; AlbumLink; AlbumPassword])
        then (Deny, ReasonVisibilityUnknown)
        else if owner then (Allow, ReasonOwner)
        else if staff then (Allow, ReasonStaffAudited)
        else if priv =s AlbumPublic then (Allow, ReasonPublic)
        else if one_of priv [AlbumLink; AlbumPassword; AlbumPrivate] then
          if HasGrant subject then (Allow, ReasonGrant) else (Deny, ReasonPrivate)
        else (Deny, ReasonPrivate)
    | kindCount =>
        if vis =s VisibilityPublic then (Allow, ReasonPublic)
        else if owner then (Allow, ReasonOwner)
        else if staff then (Allow, ReasonStaffAudited)
        else if HasGrant subject then (Allow, ReasonGrant)
        else (Deny, ReasonPrivate)
    | kindListing | kindListingIPFS =>
        if vis <>s VisibilityPublic then (Deny, ReasonPublicOnlySurface)
        else if match k with kindListingIPFS => true | _ => false end
                && negb (OwnerAllowsIPFS resource)
        then (Deny, ReasonIPFSNotEligible)
        else if (action =s ActionSharedCache) && (vis <>s VisibilityPublic)
        then (Deny, ReasonNotSharedCacheable)
        else (Allow, ReasonPublic)
    | kindSearch =>
        if vis =s VisibilityPublic then (Allow, ReasonPublic)
        else if owner && (ResScope resource =s ScopeOwnLibrary)
        then (Allow, ReasonOwnLibraryScope)
        else (Deny, ReasonPublicOnlySurface)
    | kindDownload | kindDirect | kindDirectNoPrivate | kindAggregate => decide_item subject resource k
    end
  end.

(** ** Specification: the frozen matrix *)

(** The five viewer classes of the fixture: anonymous, signed-in member, grant
    holder, owner, staff in an audited context. *)
Inductive viewer := VA | VM | VG | VO | VS.

Definition viewers : list viewer := [VA; VM; VG; VO; VS].

(** One line of the fixture: surface, column, and the A M G O S verdicts. *)
Record matrix_row := mkRow {
  surface : Action;
  column : Visibility;
  expect : viewer -> bool
}.

Definition verdicts (a m g o s : bool) : viewer -> bool :=
  fun c => match c with VA => a | VM => m | VG => g | VO => o | VS => s end.

Definition everyone := verdicts true true true true true.
Definition nobody := verdicts false false false false false.
Definition g_o_s := verdicts false false true true true.
Definition o_s := verdicts false false false true true.
Definition o_only := verdicts false false false true false.
Definition s_only := verdicts false false false false true.

Definition matrix : list matrix_row :=
  let row a pub unl priv :=
    [mkRow a VisibilityPublic pub; mkRow a VisibilityUnlisted unl;
     mkRow a VisibilityPrivate priv] in
  row "item_page" everyone everyone g_o_s ++
  row "original_download" everyone everyone g_o_s ++
  row "derivative_url" everyone everyone g_o_s ++
  row "album_page" everyone g_o_s g_o_s ++
  row "count_contribution" everyone g_o_s g_o_s ++
  row "owner_library" o_s o_s o_s ++
  row "profile_grid" everyone nobody nobody ++
  row "explore" everyone nobody nobody ++
  row "search" everyone nobody nobody ++
  row "tag_category_listing" everyone nobody nobody ++
  row "feeds" everyone nobody nobody ++
  row "notifications" everyone everyone g_o_s ++
  row "favorite_rating" everyone everyone o_s ++
  row "embed" everyone everyone nobody ++
  row "sitemap" everyone nobody nobody ++
  row "bulk_download" everyone everyone g_o_s ++
  row "federation_outbound" everyone nobody nobody ++
  row "ipfs_publication" everyone nobody nobody ++
  row "export" o_only o_only o_only ++
  row "admin_console" s_only s_only s_only ++
  row "shared_cache" everyone nobody nobody.

Definition cell (a : Action) (v : Visibility) (c : viewer) : bool :=
  match List.find (fun row => (surface row =s a) && (column row =s v)) matrix with
  | Some row => expect row c
  | None => false
  end.

(** Row 4 is governed by album privacy: its columns drive public / link /
    private; a password album is a capability like a link. *)
Definition matrix_column (a : Action) (r : Resource) : Visibility :=
  if a =s "album_page" then
    if ResAlbumPrivacy r =s AlbumPublic then VisibilityPublic
    else if ResAlbumPrivacy r =s AlbumPrivate then VisibilityPrivate
    else VisibilityUnlisted
  else ResVisibility r.

(** The classes a subject belongs to with respect to a resource. *)
Definition in_class (s : Subject) (r : Resource) (c : viewer) : bool :=
  match c with
  | VA => Anonymous s
  | VM => negb (Anonymous s)
  | VG => HasGrant s
  | VO => isOwner s r
  | VS => isStaff s
  end.

Definition matrix_allows (s : Subject) (a : Action) (r : Resource) : bool :=
  existsb (fun c => in_class s r c && cell a (matrix_column a r) c) viewers.

(** The conditions the fixture holds at their base values. *)
Record base_conditions (e : Evaluator) (s : Subject) (r : Resource) : Prop := {
  base_site : SitePrivate e = false;
  base_visibility : List.In (ResVisibility r) [VisibilityPublic; VisibilityUnlisted; VisibilityPrivate];
  base_album : List.In (ResAlbumPrivacy r) [AlbumPublic; AlbumPrivate; AlbumLink; AlbumPassword];
  base_download : List.In (ResDownloadSetting r) [""%string; DownloadAll];
  base_grant : HasGrant s = true -> GrantAllowsDownload s = true;
  base_ipfs : OwnerAllowsIPFS r = true;
  base_scope : ResScope r = ScopeSite;
  base_role : SubjectRole s <> RoleOwner
}.

(** ** Lemmas on the evaluator's helpers *)

Lemma kindOf_unknown a : ~ List.In a Actions -> map_get a kindOf = None.
Proof. intros H. apply map_get_none_iff. exact H. Qed.

Lemma kindOf_known a k : map_get a kindOf = Some k -> List.In a Actions.
Proof.
  intros H. change Actions with (List.map fst kindOf).
  apply (in_map fst _ (a, k)). by apply map_get_some_in.
Qed.

Lemma anonymous_not_owner s r : Anonymous s = true -> isOwner s r = false.
Proof.
  unfold Anonymous, isOwner. intros H. eqb_prop. rewrite H.
  by destruct (OwnerID r).
Qed.

(** Case on a membership hypothesis in a literal list. *)
Ltac each_in H := repeat (destruct H as [H|H]; [try subst; simpl in *|]); try done.


(** The surfaces that publish an item outside the application. *)
Definition publishing_surfaces : list Action :=
  [ActionProfileGrid; ActionExplore; ActionTagCategoryListing; ActionFeeds;
   ActionSitemap; ActionFederationOutbound; ActionIPFSPublication; ActionSharedCache].

(** A subject with a full grant on the item. *)
Definition with_grant (s : Subject) : Subject :=
  mkSubject (UserID s) (SubjectRole s) (Staff s) true true.

(** A resource whose owner set the download setting to [d]. *)
Definition with_setting (d : DownloadSetting) (r : Resource) : Resource :=
  mkResource (OwnerID r) (ResVisibility r) (ResAlbumPrivacy r) d (ResScope r)
    (OwnerAllowsIPFS r) (VisibilityVersion r).

(** Sample values the witnesses evaluate on. *)
Definition public_site : Evaluator := mkOptions false.
Definition visitor : Subject := mkSubject "" RoleAnonymous false false false.
Definition member : Subject := mkSubject "22222222" RoleMember false false false.
Definition grantee : Subject := mkSubject "44444444" RoleMember false true true.
Definition photo (v : Visibility) : Resource :=
  mkResource "11111111" v AlbumPublic DownloadAll ScopeSite true 1.

(** The kinds of the publishing surfaces. *)
Lemma publishing_kind a :
  List.In a publishing_surfaces ->
  map_get a kindOf = Some kindListing \/ map_get a kindOf = Some kindListingIPFS.
Proof. intros H. each_in H; auto. Qed.

Lemma kindAlbum_only a : map_get a kindOf = Some kindAlbum -> a = ActionAlbumPage.
Proof.
  intros H. apply map_get_some_in in H. simpl in H.
  repeat destruct H as [H|H]; by simplify_eq.
Qed.

(** An item that is not public is denied on a listing surface. *)
Lemma listing_denies e s a r k :
  map_get a kindOf = Some k -> k = kindListing \/ k = kindListingIPFS ->
  ResVisibility r <> VisibilityPublic -> (Decide e s a r).1 = Deny.
Proof.
  intros Hk Hkind Hv. unfold Decide, decide_item. rewrite Hk, (proj2 (String.eqb_neq _ _) Hv).
  destruct Hkind; subst; split_goal.
Qed.

(** Staff in an audited context with the owner role is staff. *)
Lemma site_owner_is_staff s :
  Staff s && (SubjectRole s =s RoleOwner) = true -> isStaff s = true.
Proof. unfold isStaff. intros H. eqb_prop. by rewrite H, H0. Qed.

(** ** Properties *)

(** C1. Refinement of the frozen matrix: for every subject and every resource
    that holds the fixture's base conditions, and for each of the 21 surfaces,
    the evaluator allows exactly when the matrix grants one of the viewer
    classes the subject belongs to. *)
Theorem decide_refines_matrix e s a r :
  base_conditions e s r -> List.In a Actions ->
  Allowed (Decide e s a r).1 = matrix_allows s a r.
Proof.
  intros [Hsite Hvis Halb Hdl Hgr Hipfs Hscope Hrole] Ha.
  unfold Decide, decide_item, matrix_allows, matrix_column, in_class, downloadSettingPermits.
  rewrite Hsite, Hscope, Hipfs, (proj2 (String.eqb_neq _ _) Hrole), (andb_false_r (Staff s)).
  rewrite (proj2 (one_of_spec _ _) Hdl), (proj2 (one_of_spec _ _) Hvis),
    (proj2 (one_of_spec _ _) Halb).
  revert Hgr.
  generalize (Anonymous s), (isOwner s r), (isStaff s), (HasGrant s), (GrantAllowsDownload s).
  destruct r as [oid vis alb dl sc ip vv]; simpl ResVisibility in *; simpl ResAlbumPrivacy in *.
  clear -Ha Hvis Halb. intros an ow st g gd Hg.
  repeat destruct Hvis as [<-|Hvis]; try done;
    repeat destruct Ha as [<-|Ha]; try done;
    try (destruct an, ow, st, g; try reflexivity; rewrite Hg; reflexivity).
  all: repeat destruct Halb as [<-|Halb]; try done;
    destruct an, ow, st, g; reflexivity.
Qed.

(** Witness of C1: a granted member reading a private item's page. *)
Lemma decide_refines_matrix_witness :
  Allowed (Decide public_site grantee ActionItemPage (photo VisibilityPrivate)).1 = true.
Proof. 
  rewrite decide_refines_matrix;
    [reflexivity | constructor; simpl; (done || auto 8) | simpl; auto].
 Defined.

(** Fail closed: an action outside the 21 surfaces, a visibility outside
    the three constants, or an album page whose privacy is outside the four
    constants is denied, whoever asks and whatever the site's options. *)
Theorem unknown_input_denies e s a r :
  ~ List.In a Actions
  \/ one_of (ResVisibility r) [VisibilityPublic; VisibilityUnlisted; VisibilityPrivate] = false
  \/ a = ActionAlbumPage
     /\ one_of (ResAlbumPrivacy r) [AlbumPublic; AlbumPrivate; AlbumLink; AlbumPassword] = false ->
  (Decide e s a r).1 = Deny.
Proof.
  unfold Decide, decide_item. case_match; [done|]. intros [Ha|[Hv|[-> Hp]]].
  - by rewrite kindOf_unknown.
  - rewrite Hv. by case_match.
  - rewrite Hp. simpl. by case_match.
Qed.

Lemma unknown_input_denies_witness :
  (Decide public_site grantee ActionItemPage (photo "scheduled")).1 = Deny.
Proof. apply unknown_input_denies. right; left. reflexivity. Defined.

(** Confinement of private items: on every surface other than the album
    page, a private item is denied to anybody who is not its owner, not staff
    in an audited context and holds no grant. *)
Theorem private_confined e s a r :
  ResVisibility r = VisibilityPrivate -> a <> ActionAlbumPage ->
  isOwner s r = false -> isStaff s = false -> HasGrant s = false ->
  (Decide e s a r).1 = Deny.
Proof.
  intros Hv Ha Ho Hs Hg. unfold Decide, decide_item. rewrite Hv, Ho, Hs, Hg.
  assert (Staff s && (SubjectRole s =s RoleOwner) = false) as ->.
  { destruct (Staff s && _) eqn:E; [|done].
    apply site_owner_is_staff in E. congruence. }
  destruct (SitePrivate e && _); [done|].
  destruct (map_get a kindOf) as [k|] eqn:Hk; [|done].
  destruct k; try done; [by simpl; case_match|].
  by apply kindAlbum_only in Hk.
Qed.

Lemma private_confined_witness :
  (Decide public_site member ActionSearch (photo VisibilityPrivate)).1 = Deny.
Proof. apply private_confined; done. Defined.

(** What leaves the application is public: if a listing, feed, sitemap,
    federation, IPFS or shared-cache surface allows, the item is public, and
    for IPFS the owner has listed it; no subject, grant or role changes that. *)
Theorem published_is_public e s a r :
  List.In a publishing_surfaces -> Allowed (Decide e s a r).1 = true ->
  ResVisibility r = VisibilityPublic
  /\ (a = ActionIPFSPublication -> OwnerAllowsIPFS r = true).
Proof.
  intros Ha Hd. split.
  - destruct (String.eqb_spec (ResVisibility r) VisibilityPublic) as [|Hne]; [done|].
    destruct (publishing_kind a Ha) as [Hk|Hk];
      erewrite listing_denies in Hd by eauto; done.
  - intros ->. revert Hd. unfold Decide, decide_item.
    change (map_get ActionIPFSPublication kindOf) with (Some kindListingIPFS). simpl.
    by destruct (OwnerAllowsIPFS r); split_goal.
Qed.

Lemma published_is_public_witness :
  ResVisibility (photo VisibilityPublic) = VisibilityPublic
  /\ (ActionIPFSPublication = ActionIPFSPublication ->
      OwnerAllowsIPFS (photo VisibilityPublic) = true).
Proof. 
  apply (published_is_public public_site visitor ActionIPFSPublication);
    [simpl; auto 10 | reflexivity].
 Defined.

(** Grants only widen, and never into search: adding a full grant to a
    subject turns no allow into a deny, and leaves every search decision, with
    its reason, exactly as it was. *)
Theorem grant_only_widens e s a r :
  (Allowed (Decide e s a r).1 = true -> Allowed (Decide e (with_grant s) a r).1 = true)
  /\ Decide e (with_grant s) ActionSearch r = Decide e s ActionSearch r.
Proof.
  split; [|reflexivity].
  unfold Decide, decide_item, downloadSettingPermits.
  change (Anonymous (with_grant s)) with (Anonymous s).
  change (isOwner (with_grant s) r) with (isOwner s r).
  change (isStaff (with_grant s)) with (isStaff s). simpl.
  destruct (SitePrivate e && _); [done|]. destruct (map_get a kindOf) as [k|]; [|done].
  case_match; [done|].
  destruct k; try done; split_goal.
Qed.

Lemma grant_only_widens_witness :
  Allowed (Decide public_site (with_grant visitor) ActionItemPage (photo VisibilityUnlisted)).1 = true.
Proof. apply grant_only_widens. reflexivity. Defined.

(** The owner's download setting only narrows: whatever the setting, a
    decision that allows also allows under the product default [all], and the
    owner and audited staff get the same decision under every setting. *)
Theorem download_setting_only_narrows e s a r d :
  (Allowed (Decide e s a (with_setting d r)).1 = true ->
   Allowed (Decide e s a (with_setting DownloadAll r)).1 = true)
  /\ (isOwner s r || isStaff s = true ->
      Decide e s a (with_setting d r) = Decide e s a (with_setting DownloadAll r)).
Proof.
  unfold Decide, decide_item, downloadSettingPermits, with_setting.
  change (isOwner s (mkResource _ _ _ _ _ _ _)) with (isOwner s r). simpl.
  generalize (isOwner s r), (isStaff s). intros ow st.
  destruct (SitePrivate e && _); [done|]. destruct (map_get a kindOf) as [k|]; [|done].
  case_match; [done|].
  destruct k; try done. destruct ow, st; simpl; (split; [|done]); split_goal.
Qed.

Lemma download_setting_only_narrows_witness :
  Allowed (Decide public_site member ActionBulkDownload
             (with_setting DownloadAll (photo VisibilityPublic))).1 = true.
Proof. 
  apply (download_setting_only_narrows public_site member ActionBulkDownload
           (photo VisibilityPublic) DownloadMembers). reflexivity.
 Defined.

(** A refused item page never confirms the row: on a site that is not
    private, every denial of the item page, derivative URL or notification
    surface is one [HideExistence] renders as "does not exist". *)
Theorem direct_denial_hides_existence e s a r :
  SitePrivate e = false -> map_get a kindOf = Some kindDirect ->
  (Decide e s a r).1 = Deny -> HideExistence r = true.
Proof.
  intros Hs Hk. unfold Decide, decide_item, HideExistence. rewrite Hs, Hk. simpl.
  unfold one_of. simpl.
  destruct (ResVisibility r =s VisibilityPublic), (ResVisibility r =s VisibilityUnlisted); done.
Qed.

Lemma direct_denial_hides_existence_witness :
  HideExistence (photo VisibilityPrivate) = true.
Proof. 
  by apply (direct_denial_hides_existence public_site visitor ActionItemPage).
 Defined.
