(* ===== verification/Utf8.v ===== *)
(** * UTF-8 as Go's unicode/utf8 and strings packages decode it

    The part of the language's library the program relies on when it cuts an
    error text and when it counts characters: which byte sequences are one
    well-formed rune, which strings are valid, what is dropped when a string is
    made valid.  The byte ranges are those of RFC 3629, as in Go's decoder. *)

From S2P Require Import Prelude.

(** [utf8.RuneStart]: not a continuation byte. *)
Definition RuneStart (c : ascii) : bool := negb ((128 <=? code c) && (code c <=? 191)).

Definition in_range (lo hi : Z) (c : ascii) : bool := (lo <=? code c) && (code c <=? hi).

(** For a lead byte of a multi-byte rune: the size of the rune and the range
    its second byte must lie in. *)
Definition lead (c : ascii) : option (nat * Z * Z) :=
  if in_range 194 223 c then Some (2%nat, 128, 191)
  else if in_range 224 224 c then Some (3%nat, 160, 191)
  else if in_range 225 236 c then Some (3%nat, 128, 191)
  else if in_range 237 237 c then Some (3%nat, 128, 159)
  else if in_range 238 239 c then Some (3%nat, 128, 191)
  else if in_range 240 240 c then Some (4%nat, 144, 191)
  else if in_range 241 243 c then Some (4%nat, 128, 191)
  else if in_range 244 244 c then Some (4%nat, 128, 143)
  else None.

(** The first [n] bytes are there and are continuation bytes. *)
Fixpoint cont (n : nat) (s : string) : bool :=
  match n with
  | O => true
  | S n => match s with
           | EmptyString => false
           | String c s => in_range 128 191 c && cont n s
           end
  end.

(** The size of the well-formed rune at the head of [s]; 0 when there is none,
    which is [utf8.DecodeRuneInString] answering [RuneError] with width 1 (or 0
    on the empty string). *)
Definition rune_size (s : string) : nat :=
  match s with
  | EmptyString => 0
  | String c r =>
      if code c <? 128 then 1
      else match lead c with
           | None => 0
           | Some (n, lo, hi) =>
               match r with
               | EmptyString => 0
               | String b r' => if in_range lo hi b && cont (n - 2) r' then n else 0
               end
           end
  end.

Fixpoint valid_fuel (fuel : nat) (s : string) : bool :=
  match s with
  | EmptyString => true
  | _ => match fuel, rune_size s with
         | O, _ | _, O => false
         | S fuel, n => valid_fuel fuel (sdrop n s)
         end
  end.

(** [utf8.ValidString]. *)
Definition ValidString (s : string) : bool := valid_fuel (String.length s) s.

Fixpoint to_valid_fuel (fuel : nat) (s : string) : string :=
  match s with
  | EmptyString => ""
  | String _ r =>
      match fuel with
      | O => ""
      | S fuel =>
          match rune_size s with
          | O => to_valid_fuel fuel r
          | n => stake n s +:+ to_valid_fuel fuel (sdrop n s)
          end
      end
  end.

(** [strings.ToValidUTF8(s, "")]: every byte that is not part of a well-formed
    rune is dropped. *)
Definition ToValidUTF8 (s : string) : string := to_valid_fuel (String.length s) s.

Fixpoint rune_count_fuel (fuel : nat) (s : string) : Z :=
  match s with
  | EmptyString => 0
  | String _ r =>
      match fuel with
      | O => 0
      | S fuel => 1 + rune_count_fuel fuel (sdrop (Nat.max 1 (rune_size s)) s)
      end
  end.

(** [len([]rune(s))], and PostgreSQL's [char_length] on a valid string: an
    invalid byte counts as one rune. *)
Definition RuneCount (s : string) : Z := rune_count_fuel (String.length s) s.

(** ** Facts *)

(** Validity as an inductive predicate, for proofs by rule induction. *)
Inductive Utf8 : string -> Prop :=
| utf8_nil : Utf8 ""
| utf8_rune s n : rune_size s = S n -> Utf8 (sdrop (S n) s) -> Utf8 s.

Lemma lead_bounds c k lo hi :
  lead c = Some (k, lo, hi) -> (2 <= k <= 4)%nat /\ 128 <= lo /\ hi <= 191.
Proof. unfold lead. intros H. split_in H; lia. Qed.

Lemma rune_size_le s : (rune_size s <= String.length s)%nat.
Proof.
  assert (Hc : forall n r, cont n r = true -> (n <= String.length r)%nat).
  { induction n as [|n IH]; intros [|c r]; simpl; try lia; intros H; try done.
    eqb_prop. apply le_n_S. auto. }
  destruct s as [|c [|b r]]; simpl; [done| |].
  - case_match; [lia|]. destruct (lead c) as [[[??]?]|]; lia.
  - case_match; [lia|]. destruct (lead c) as [[[n lo] hi]|]; [|lia].
    case_match; [|lia]. eqb_prop. assert (n - 2 <= String.length r)%nat by auto. lia.
Qed.

Lemma sdrop_shorter n s :
  rune_size s = S n -> (String.length (sdrop (S n) s) < String.length s)%nat.
Proof. intros H. pose proof (rune_size_le s). rewrite length_sdrop. lia. Qed.

Lemma valid_fuel_Utf8 fuel s :
  (String.length s <= fuel)%nat -> valid_fuel fuel s = true <-> Utf8 s.
Proof.
  revert s; induction fuel as [|fuel IH]; intros s Hf.
  - destruct s; [|simpl in Hf; lia]. simpl. by split; [constructor|].
  - destruct s as [|c r]; [simpl; by split; [constructor|]|].
    cbn [valid_fuel]. destruct (rune_size (String c r)) as [|n] eqn:Hn.
    + split; [done|]. inversion 1; congruence.
    + pose proof (sdrop_shorter _ _ Hn). rewrite IH by lia.
      split; [by econstructor|]. inversion 1; subst; congruence.
Qed.

Lemma ValidString_Utf8 s : ValidString s = true <-> Utf8 s.
Proof. apply valid_fuel_Utf8. done. Qed.

(** The head rune is decided by its own bytes, so text may follow it. *)
Lemma cont_app n s t : cont n s = true -> cont n (s +:+ t) = true.
Proof.
  revert s; induction n as [|n IH]; intros [|c s]; simpl; try done.
  intros H. eqb_prop. rewrite H. simpl. by apply IH.
Qed.

Lemma rune_size_app s t n : rune_size s = S n -> rune_size (s +:+ t) = S n.
Proof.
  destruct s as [|c [|b r]]; simpl; [done| |].
  - case_match; [done|]. by destruct (lead c) as [[[??]?]|].
  - case_match; [done|]. destruct (lead c) as [[[k lo] hi]|]; [|done].
    destruct (in_range lo hi b && cont (k - 2) r) eqn:E; [|done].
    eqb_prop. by rewrite H0, cont_app.
Qed.

Lemma sdrop_app n s t : (n <= String.length s)%nat -> sdrop n (s +:+ t) = sdrop n s +:+ t.
Proof.
  revert s; induction n as [|n IH]; intros [|c s] H; simpl in *; try done; [lia|].
  apply IH. lia.
Qed.

Lemma Utf8_app s t : Utf8 s -> Utf8 t -> Utf8 (s +:+ t).
Proof.
  intros Hs Ht; induction Hs as [|s n Hn Hs IH]; [done|].
  apply utf8_rune with n; [by apply rune_size_app|].
  pose proof (rune_size_le s). rewrite sdrop_app by lia. done.
Qed.

Lemma rune_size_stake s n : rune_size s = S n -> rune_size (stake (S n) s) = S n.
Proof.
  assert (Hc : forall k r, cont k (stake k r) = cont k r).
  { induction k as [|k IH]; intros [|c r]; simpl; try done. by rewrite IH. }
  destruct s as [|c r]; [done|]. simpl. destruct (code c <? 128) eqn:Ha; [by intros [= <-]|].
  destruct (lead c) as [[[k lo] hi]|] eqn:Hl; [|done].
  destruct r as [|b r]; [done|].
  destruct (in_range lo hi b && cont (k - 2) r) eqn:E; [|done]. intros ->.
  destruct (lead_bounds _ _ _ _ Hl) as (Hk & _).
  destruct n as [|n]; [lia|]. simpl in *. rewrite Nat.sub_0_r in *. by rewrite Hc, E.
Qed.

Lemma stake_head_Utf8 s n : rune_size s = S n -> Utf8 (stake (S n) s).
Proof.
  intros Hn. pose proof (rune_size_le s) as Hle. rewrite Hn in Hle.
  apply utf8_rune with n; [by apply rune_size_stake|].
  pose proof (length_sdrop (S n) (stake (S n) s)) as H. rewrite length_stake in H.
  remember (sdrop (S n) (stake (S n) s)) as t eqn:Ht. destruct t; [constructor|cbn [String.length] in H; lia].
Qed.

Lemma to_valid_fuel_spec fuel s :
  (String.length s <= fuel)%nat ->
  Utf8 (to_valid_fuel fuel s) /\ (String.length (to_valid_fuel fuel s) <= String.length s)%nat.
Proof.
  revert s; induction fuel as [|fuel IH]; intros [|c r] Hf; simpl in Hf; try lia;
    try (split; [constructor | simpl; lia]).
  cbn [to_valid_fuel]. destruct (rune_size (String c r)) as [|n] eqn:Hn.
  - destruct (IH r ltac:(lia)) as [H1 H2]. split; [done|]. simpl; lia.
  - pose proof (sdrop_shorter _ _ Hn) as Hlt. simpl in Hlt.
    destruct (IH (sdrop (S n) (String c r)) ltac:(simpl; lia)) as [H1 H2]. split.
    + apply Utf8_app; [by apply stake_head_Utf8|done].
    + rewrite length_sapp, length_stake. rewrite length_sdrop in H2.
      pose proof (rune_size_le (String c r)). lia.
Qed.

Lemma ToValidUTF8_valid s : Utf8 (ToValidUTF8 s).
Proof. by apply to_valid_fuel_spec. Qed.

Lemma ToValidUTF8_shorter s : len (ToValidUTF8 s) <= len s.
Proof. unfold len. pose proof (proj2 (to_valid_fuel_spec _ s ltac:(done))). unfold ToValidUTF8. lia. Qed.

(** The first byte of a rune is a start byte, the others are not. *)
Lemma rune_bytes s n :
  rune_size s = S n ->
  (exists c, sget 0 s = Some c /\ RuneStart c = true)
  /\ forall i, (1 <= i <= n)%nat -> exists c, sget i s = Some c /\ RuneStart c = false.
Proof.
  assert (Hr : forall lo hi c, 128 <= lo -> hi <= 191 -> in_range lo hi c = true -> RuneStart c = false).
  { intros lo hi c Hlo Hhi. unfold in_range, RuneStart. intros H. eqb_prop.
    lia. }
  assert (Hc : forall k r, cont k r = true -> forall i, (i < k)%nat ->
            exists c, sget i r = Some c /\ RuneStart c = false).
  { induction k as [|k IH]; intros [|c r] H i Hi; simpl in *; try lia; try done.
    eqb_prop. destruct i; [exists c; split; [done|by eapply Hr; [..|exact H]]|].
    apply (IH r); [done|lia]. }
  intros Hn. destruct s as [|c r]; [done|]. simpl in Hn.
  split.
  - exists c. split; [done|]. unfold RuneStart. destruct (Z.ltb_spec (code c) 128).
    + lia.
    + destruct (lead c) as [[[k lo] hi]|] eqn:Hl; [|done].
      unfold lead, in_range in Hl. split_in Hl; lia.
  - intros i Hi. destruct (Z.ltb_spec (code c) 128); [simplify_eq; lia|].
    destruct (lead c) as [[[k lo] hi]|] eqn:Hl; [|done].
    destruct (lead_bounds _ _ _ _ Hl) as (_ & Hlo & Hhi).
    destruct r as [|b r']; [done|].
    destruct (in_range lo hi b && cont (k - 2) r') eqn:E; [|done]. eqb_prop.
    destruct i as [|[|i]]; [lia| |]; simpl.
    + exists b. split; [done|]. by eapply Hr; [..|exact H0].
    + apply (Hc (k - 2)%nat); [done|lia].
Qed.

Lemma rune_size_max s : (rune_size s <= 4)%nat.
Proof.
  destruct s as [|c [|b r]]; simpl; [lia| |].
  - case_match; [lia|]. destruct (lead c) as [[[??]?]|]; lia.
  - case_match; [lia|]. destruct (lead c) as [[[k lo] hi]|] eqn:Hl; [|lia].
    apply lead_bounds in Hl. case_match; lia.
Qed.

(** Cutting a valid string at a start byte leaves a valid string. *)
Lemma Utf8_prefix s cut c :
  Utf8 s -> sget cut s = Some c -> RuneStart c = true -> Utf8 (stake cut s).
Proof.
  intros Hs; revert cut; induction Hs as [|s n Hn Hs IH]; intros cut Hget Hstart.
  - by destruct cut.
  - destruct (rune_bytes s n Hn) as [_ Hin].
    destruct (decide (cut = 0%nat)) as [->|Hpos]; [constructor|].
    destruct (decide (cut <= n)%nat) as [Hle|Hgt].
    { destruct (Hin cut ltac:(lia)) as (c' & Hc' & Hf). congruence. }
    replace cut with (S n + (cut - S n))%nat in * by lia.
    rewrite stake_add. apply Utf8_app; [by apply stake_head_Utf8|].
    apply IH; [|done]. by rewrite sget_sdrop.
Qed.

(** In a valid string a start byte is never more than three bytes back. *)
Lemma Utf8_start_near s cut :
  Utf8 s -> (cut < String.length s)%nat ->
  exists k c, (k <= 3)%nat /\ (k <= cut)%nat /\ sget (cut - k) s = Some c /\ RuneStart c = true.
Proof.
  intros Hs; revert cut; induction Hs as [|s n Hn Hs IH]; intros cut Hcut; [simpl in Hcut; lia|].
  destruct (rune_bytes s n Hn) as [(c0 & Hc0 & Hs0) _].
  pose proof (rune_size_max s). destruct (decide (cut <= n)%nat) as [Hle|Hgt].
  - exists cut, c0. rewrite Nat.sub_diag. repeat split; try lia; done.
  - destruct (IH (cut - S n)%nat) as (k & c & Hk3 & Hk & Hget & Hst).
    { rewrite length_sdrop. lia. }
    exists k, c. rewrite sget_sdrop in Hget.
    replace (S n + (cut - S n - k))%nat with (cut - k)%nat in Hget by lia.
    repeat split; try lia; done.
Qed.

Lemma RuneCount_le s : 0 <= RuneCount s <= len s.
Proof.
  unfold RuneCount, len.
  assert (H : forall fuel r, 0 <= rune_count_fuel fuel r <= Z.of_nat (String.length r)).
  { induction fuel as [|fuel IH]; intros [|c r]; cbn [rune_count_fuel String.length]; try lia.
    specialize (IH (sdrop (Nat.max 1 (rune_size (String c r))) (String c r))).
    rewrite length_sdrop in IH. cbn [String.length] in IH. lia. }
  apply H.
Qed.

#[export] Hint Resolve utf8_nil ToValidUTF8_valid Utf8_app : vizra.
