(* ===== verification/Regex.v ===== *)
(** * Regular expressions as the program writes them

    The patterns of src/internal are anchored expressions over ASCII classes
    and their complements, compiled by Go's regexp and repeated in the SQL
    CHECK constraints.  A complemented class matches every byte of a multi-byte
    rune, so matching bytes and matching runes agree on these patterns.  The
    matcher takes derivatives; [lang] is its specification. *)

From S2P Require Import Prelude.

Inductive re :=
| Void
| Eps
| Cls (p : ascii -> bool)
| Cat (a b : re)
| Alt (a b : re)
| Star (a : re).

(** ** Matching *)

Fixpoint nullable (r : re) : bool :=
  match r with
  | Void | Cls _ => false
  | Eps | Star _ => true
  | Cat a b => nullable a && nullable b
  | Alt a b => nullable a || nullable b
  end.

(** Derivatives are kept small by dropping the empty cases. *)
Definition cat (a b : re) : re :=
  match a, b with
  | Void, _ | _, Void => Void
  | Eps, _ => b
  | _, _ => Cat a b
  end.

Definition alt (a b : re) : re :=
  match a, b with
  | Void, _ => b
  | _, Void => a
  | _, _ => Alt a b
  end.

Fixpoint deriv (c : ascii) (r : re) : re :=
  match r with
  | Void | Eps => Void
  | Cls p => if p c then Eps else Void
  | Cat a b => if nullable a then alt (cat (deriv c a) b) (deriv c b) else cat (deriv c a) b
  | Alt a b => alt (deriv c a) (deriv c b)
  | Star a => cat (deriv c a) (Star a)
  end.

Fixpoint matches (r : re) (s : string) : bool :=
  match s with
  | EmptyString => nullable r
  | String c s => matches (deriv c r) s
  end.

(** ** Notation of the patterns *)

Definition range (lo hi : ascii) (c : ascii) : bool := (code lo <=? code c) && (code c <=? code hi).
Definition chr (x : ascii) (c : ascii) : bool := Ascii.eqb c x.
Definition either (p q : ascii -> bool) (c : ascii) : bool := p c || q c.
Definition neither (p q : ascii -> bool) (c : ascii) : bool := negb (p c || q c).

Definition digit : ascii -> bool := range "0" "9".
Definition lower_hex : ascii -> bool := either digit (range "a" "f").
Definition alnum : ascii -> bool := either (range "A" "Z") (either (range "a" "z") digit).

(** Go's [\s]: tab, newline, form feed, carriage return and space. *)
Definition go_space (c : ascii) : bool :=
  existsb (Z.eqb (code c)) [9; 10; 12; 13; 32].

Fixpoint lit (s : string) : re :=
  match s with
  | EmptyString => Eps
  | String c s => Cat (Cls (chr c)) (lit s)
  end.

Definition opt (r : re) : re := Alt r Eps.
Definition plus (r : re) : re := Cat r (Star r).

(** [r{n}] and [r{n,n+m}]. *)
Fixpoint times (n : nat) (r : re) : re :=
  match n with O => Eps | S n => Cat r (times n r) end.

Fixpoint upto (m : nat) (r : re) : re :=
  match m with O => Eps | S m => Alt Eps (Cat r (upto m r)) end.

Definition between (n m : nat) (r : re) : re := Cat (times n r) (upto m r).

(** ** Specification *)

Inductive lang : re -> string -> Prop :=
| L_eps : lang Eps ""
| L_cls p c : p c = true -> lang (Cls p) (String c "")
| L_cat a b s t : lang a s -> lang b t -> lang (Cat a b) (s +:+ t)
| L_left a b s : lang a s -> lang (Alt a b) s
| L_right a b s : lang b s -> lang (Alt a b) s
| L_none a : lang (Star a) ""
| L_more a s t : lang a s -> lang (Star a) t -> lang (Star a) (s +:+ t).

#[export] Hint Constructors lang : vizra.

Lemma sapp_empty (a b : string) : (a +:+ b)%string = ""%string -> a = ""%string /\ b = ""%string.
Proof. destruct a; autorewrite with str; [done|discriminate]. Qed.

Lemma nullable_spec r : nullable r = true <-> lang r "".
Proof.
  induction r as [| |p|a IHa b IHb|a IHa b IHb|a IHa]; simpl.
  - split; [done|inversion 1].
  - split; [constructor|done].
  - split; [done|inversion 1].
  - rewrite andb_true_iff, IHa, IHb. split.
    + intros [Ha Hb]. change ""%string with ("" +:+ "")%string. by constructor.
    + inversion 1; subst. match goal with H : (_ +:+ _)%string = _ |- _ => apply sapp_empty in H as [-> ->] end.
      done.
  - rewrite orb_true_iff, IHa, IHb. split; [intros [?|?]; by constructor|]. inversion 1; auto.
  - split; [constructor|done].
Qed.

Lemma lang_void s : ~ lang Void s.
Proof. inversion 1. Qed.

Lemma lang_eps s : lang Eps s <-> s = ""%string.
Proof. split; [by inversion 1|]. intros ->. constructor. Qed.

Lemma lang_Cat a b s :
  lang (Cat a b) s <-> exists u v, s = (u +:+ v)%string /\ lang a u /\ lang b v.
Proof.
  split; [inversion 1; subst; eauto|]. intros (u & v & -> & Hu & Hv). by constructor.
Qed.

Lemma lang_Alt a b s : lang (Alt a b) s <-> lang a s \/ lang b s.
Proof. split; [inversion 1; auto|]. intros [?|?]; by constructor. Qed.

Lemma lang_Cls p s : lang (Cls p) s <-> exists c, s = String c "" /\ p c = true.
Proof. split; [inversion 1; eauto|]. intros (c & -> & Hp). by constructor. Qed.

Lemma cat_lang a b s : lang (cat a b) s <-> lang (Cat a b) s.
Proof.
  assert (Hl : forall b, lang (Cat Void b) s <-> lang Void s).
  { intros b'. rewrite lang_Cat. split; [intros (u & v & _ & Hu & _)|intros Hu]; by apply lang_void in Hu. }
  assert (Hr : forall a, lang (Cat a Void) s <-> lang Void s).
  { intros a'. rewrite lang_Cat. split; [intros (u & v & _ & _ & Hu)|intros Hu]; by apply lang_void in Hu. }
  assert (He : lang (Cat Eps b) s <-> lang b s).
  { rewrite lang_Cat. setoid_rewrite lang_eps. split; [intros (u & v & -> & -> & Hv); done|].
    intros Hb. by exists ""%string, s. }
  destruct a; simpl; rewrite ?Hl; try done; destruct b; rewrite ?Hr; try done; by rewrite He.
Qed.

Lemma alt_lang a b s : lang (alt a b) s <-> lang (Alt a b) s.
Proof.
  assert (Hv := lang_void s).
  rewrite lang_Alt. destruct a; simpl; try tauto; destruct b; rewrite ?lang_Alt; tauto.
Qed.

Lemma star_cons a c s :
  lang (Star a) (String c s) -> exists u v, s = (u +:+ v)%string /\ lang a (String c u) /\ lang (Star a) v.
Proof.
  intros H. remember (Star a) as r eqn:Hr. remember (String c s) as w eqn:Hw.
  induction H as [| | | | | |b x y Hx _ Hy IH]; try done. injection Hr as ->.
  destruct x as [|d x].
  - apply IH; [done|by autorewrite with str in Hw].
  - autorewrite with str in Hw. injection Hw as -> <-. by exists x, y.
Qed.

Lemma Cat_cons a b c s :
  lang (Cat a b) (String c s) <->
  (exists u v, s = (u +:+ v)%string /\ lang a (String c u) /\ lang b v)
  \/ (lang a "" /\ lang b (String c s)).
Proof.
  rewrite lang_Cat. split.
  - intros ([|d x] & y & Hxy & Ha & Hb); autorewrite with str in Hxy.
    + right. by subst.
    + left. injection Hxy as <- ->. by exists x, y.
  - intros [(u & v & -> & Ha & Hb)|[Ha Hb]]; [by exists (String c u), v|].
    by exists ""%string, (String c s).
Qed.

Lemma deriv_spec c r s : lang (deriv c r) s <-> lang r (String c s).
Proof.
  revert s. induction r as [| |p|a IHa b IHb|a IHa b IHb|a IHa]; intros s; simpl.
  - split; inversion 1.
  - split; inversion 1.
  - rewrite lang_Cls. destruct (p c) eqn:Hp.
    + rewrite lang_eps. split; [intros ->; eauto|]. by intros (d & [= _ ->] & _).
    + split; [inversion 1|]. intros (d & [= -> _] & ?). congruence.
  - rewrite Cat_cons, <- nullable_spec, <- IHb.
    assert (Hcat : lang (cat (deriv c a) b) s <->
              exists u v, s = (u +:+ v)%string /\ lang a (String c u) /\ lang b v).
    { rewrite cat_lang, lang_Cat. by setoid_rewrite IHa. }
    destruct (nullable a); rewrite ?alt_lang, ?lang_Alt, Hcat; intuition congruence.
  - by rewrite alt_lang, !lang_Alt, IHa, IHb.
  - rewrite cat_lang, lang_Cat. setoid_rewrite IHa. split.
    + intros (u & v & -> & Hu & Hv). rewrite <- sapp_cons. by constructor.
    + intros (u & v & -> & Ha & Hs)%star_cons. by exists u, v.
Qed.

Theorem matches_spec r s : matches r s = true <-> lang r s.
Proof.
  revert r. induction s as [|c s IH]; intros r; simpl; [apply nullable_spec|].
  rewrite IH. apply deriv_spec.
Qed.

(** ** Languages of the shapes *)

Fixpoint sall (p : ascii -> bool) (s : string) : bool :=
  match s with EmptyString => true | String c s => p c && sall p s end.

Lemma sall_app p a b : sall p (a +:+ b) = sall p a && sall p b.
Proof.
  induction a as [|c a IH]; autorewrite with str; simpl; [done|]. by rewrite IH, andb_assoc.
Qed.

Lemma sall_impl (p q : ascii -> bool) s :
  (forall c, p c = true -> q c = true) -> sall p s = true -> sall q s = true.
Proof.
  intros H. induction s as [|c s IH]; simpl; [done|]. rewrite !andb_true_iff. intros [? ?]. auto.
Qed.

Lemma head_class p r c s :
  lang (Cat (Cls p) r) (String c s) <-> p c = true /\ lang r s.
Proof.
  rewrite Cat_cons. setoid_rewrite lang_Cls. split.
  - intros [(u & v & -> & (d & [= -> ->] & Hp) & Hv)|[(d & Hd & _) _]]; [done|discriminate].
  - intros [Hp Hr]. left. exists ""%string, s. split; [done|]. split; [by exists c|done].
Qed.

Lemma head_class_nil p r : ~ lang (Cat (Cls p) r) "".
Proof. rewrite lang_Cat. intros (u & v & Hu & (d & -> & _)%lang_Cls & _). discriminate. Qed.

Lemma lang_times n p s :
  lang (times n (Cls p)) s <-> String.length s = n /\ sall p s = true.
Proof.
  revert s. induction n as [|n IH]; intros s; cbn [times].
  - rewrite lang_eps. split; [by intros ->|]. by intros [Hl _]; destruct s.
  - destruct s as [|c s]; [split; [intros H; by apply head_class_nil in H|intros [? _]; done]|].
    rewrite head_class, IH. simpl. rewrite andb_true_iff. intuition congruence.
Qed.

Lemma lang_upto m p s :
  lang (upto m (Cls p)) s <-> (String.length s <= m)%nat /\ sall p s = true.
Proof.
  revert s. induction m as [|m IH]; intros s; cbn [upto].
  - rewrite lang_eps. split; [by intros ->|]. intros [Hl _]. destruct s; [done|simpl in Hl; lia].
  - rewrite lang_Alt, lang_eps. destruct s as [|c s].
    + split; [simpl; split; [lia|done]|by left].
    + rewrite head_class, IH. simpl. rewrite andb_true_iff. split.
      * intros [?|(? & ? & ?)]; [done|]. repeat split; (done || lia).
      * intros (? & ? & ?). right. repeat split; (done || lia).
Qed.

Lemma lang_between n m p s :
  lang (between n m (Cls p)) s <-> (n <= String.length s <= n + m)%nat /\ sall p s = true.
Proof.
  unfold between. rewrite lang_Cat. setoid_rewrite lang_times. setoid_rewrite lang_upto. split.
  - intros (u & v & -> & [<- Hu] & [Hl Hv]). rewrite length_sapp, sall_app, Hu, Hv.
    split; [lia|done].
  - intros [Hl Hs]. exists (stake n s), (sdrop n s). rewrite stake_sdrop.
    rewrite <- (stake_sdrop n s), sall_app, andb_true_iff in Hs.
    rewrite length_stake, length_sdrop. repeat split; try (done || lia); apply Hs.
Qed.

Lemma lang_star p s : lang (Star (Cls p)) s <-> sall p s = true.
Proof.
  induction s as [|c s IH]; [split; [done|constructor]|]. simpl. rewrite andb_true_iff, <- IH. split.
  - intros (u & v & -> & (d & [= -> ->] & Hd)%lang_Cls & Hv)%star_cons. by autorewrite with str.
  - intros [Hc Hs]. change (String c s) with (String c "" +:+ s)%string.
    constructor; [by constructor|done].
Qed.

Lemma lang_plus p s : lang (plus (Cls p)) s <-> s <> ""%string /\ sall p s = true.
Proof.
  unfold plus. destruct s as [|c s].
  - split; [intros H; by apply head_class_nil in H|intros [? _]; done].
  - rewrite head_class, lang_star. simpl. rewrite andb_true_iff. intuition congruence.
Qed.
