(* ===== verification/GoStrings.v ===== *)
(** * The parts of Go's strings, strconv and fmt packages the program uses *)

From S2P Require Import Prelude Utf8.

(** ** strings.TrimSpace *)

(** The byte length of the white-space rune at the head of [s], 0 if there is
    none: ASCII 9 to 13 and 32, U+0085, U+00A0, U+1680, U+2000 to U+200A,
    U+2028, U+2029, U+202F, U+205F and U+3000. *)
Definition space_size (s : string) : nat :=
  match s with
  | EmptyString => 0
  | String a r =>
      if in_range 9 13 a || in_range 32 32 a then 1
      else match r with
      | EmptyString => 0
      | String b r =>
          if in_range 194 194 a && (in_range 133 133 b || in_range 160 160 b) then 2
          else match r with
          | EmptyString => 0
          | String c _ =>
              if (in_range 225 225 a && in_range 154 154 b && in_range 128 128 c)
                 || (in_range 226 226 a && in_range 128 128 b
                     && (in_range 128 138 c || in_range 168 169 c || in_range 175 175 c))
                 || (in_range 226 226 a && in_range 129 129 b && in_range 159 159 c)
                 || (in_range 227 227 a && in_range 128 128 b && in_range 128 128 c)
              then 3 else 0
          end
      end
  end.

Fixpoint trim_left_fuel (fuel : nat) (s : string) : string :=
  match fuel with
  | O => s
  | S fuel => match space_size s with
              | O => s
              | n => trim_left_fuel fuel (sdrop n s)
              end
  end.

Definition TrimLeftSpace (s : string) : string := trim_left_fuel (String.length s) s.

(** The longest suffix that is all white space is cut. *)
Fixpoint TrimRightSpace (s : string) : string :=
  match s with
  | EmptyString => ""
  | String c r => if TrimLeftSpace s =s "" then "" else String c (TrimRightSpace r)
  end.

Definition TrimSpace (s : string) : string := TrimRightSpace (TrimLeftSpace s).

(** ** strings.ToLower *)

(** The lower case of one non-ASCII rune, both in UTF-8: the Unicode tables. *)
Class Unicode := rune_lower : string -> string.

Definition lower_byte (c : ascii) : ascii :=
  if in_range 65 90 c then ascii_of_N (N_of_ascii c + 32) else c.

(** The replacement character, which an invalid byte becomes. *)
Definition RuneError : string :=
  String (ascii_of_N 239) (String (ascii_of_N 191) (String (ascii_of_N 189) "")).

Fixpoint lower_fuel `{Unicode} (fuel : nat) (s : string) : string :=
  match fuel, s with
  | O, _ | _, EmptyString => ""
  | S fuel, String c r =>
      match rune_size s with
      | O => RuneError +:+ lower_fuel fuel r
      | 1%nat => String (lower_byte c) (lower_fuel fuel r)
      | n => rune_lower (stake n s) +:+ lower_fuel fuel (sdrop n s)
      end
  end.

Definition ToLower `{Unicode} (s : string) : string := lower_fuel (String.length s) s.

Definition is_ascii (c : ascii) : bool := code c <? 128.

(** ** Prefixes and joins *)

Fixpoint HasPrefix (s p : string) : bool :=
  match p, s with
  | EmptyString, _ => true
  | String a p, String b s => Ascii.eqb a b && HasPrefix s p
  | _, EmptyString => false
  end.

Definition Join (parts : list string) (sep : string) : string := String.concat sep parts.

(** ** Decimal numbers: [%d] and strconv.Itoa *)

Definition digit_char (d : Z) : ascii := ascii_of_N (Z.to_N (48 + d)).

Fixpoint decimal_fuel (fuel : nat) (n : Z) (acc : string) : string :=
  match fuel with
  | O => acc
  | S fuel =>
      let acc := String (digit_char (n mod 10)) acc in
      if n <? 10 then acc else decimal_fuel fuel (n / 10) acc
  end.

(** The fuel is the number of binary digits, which bounds the decimal ones. *)
Definition Itoa (n : Z) : string :=
  let m := Z.abs n in
  let ds := decimal_fuel (S (Z.to_nat (Z.log2 m))) m "" in
  if n <? 0 then String "-" ds else ds.

(** ** Searching and trimming *)

Fixpoint HasSuffix (s p : string) : bool :=
  (s =s p) || match s with EmptyString => false | String _ s => HasSuffix s p end.

Definition TrimSuffix (s p : string) : string :=
  if HasSuffix s p then stake (String.length s - String.length p) s else s.

Definition TrimPrefix (s p : string) : string :=
  if HasPrefix s p then sdrop (String.length p) s else s.

(** [strings.Contains]. *)
Fixpoint Contains (s p : string) : bool :=
  HasPrefix s p || match s with EmptyString => false | String _ s => Contains s p end.

(** [strings.ReplaceAll] of a text that is not empty: from the left, and not
    inside what was put in.  Every step consumes a byte. *)
Fixpoint replace_all_fuel (fuel : nat) (s old new : string) : string :=
  match fuel, s with
  | O, _ | _, EmptyString => s
  | S fuel, String c r =>
      if HasPrefix s old then new +:+ replace_all_fuel fuel (sdrop (String.length old) s) old new
      else String c (replace_all_fuel fuel r old new)
  end.

Definition ReplaceAll (s old new : string) : string := replace_all_fuel (String.length s) s old new.

(** The parts around the last occurrence of a byte, which both leave out. *)
Fixpoint cut_last (c : ascii) (s : string) : option (string * string) :=
  match s with
  | EmptyString => None
  | String x s =>
      match cut_last c s with
      | Some (a, b) => Some (String x a, b)
      | None => if Ascii.eqb x c then Some (""%string, s) else None
      end
  end.

(** [strings.Trim] with a set of bytes. *)
Fixpoint trim_left_set (p : ascii -> bool) (s : string) : string :=
  match s with
  | EmptyString => ""
  | String c r => if p c then trim_left_set p r else s
  end.

Fixpoint trim_right_set (p : ascii -> bool) (s : string) : string :=
  match s with
  | EmptyString => ""
  | String c r => match trim_right_set p r with
                  | EmptyString => if p c then "" else String c ""
                  | r' => String c r'
                  end
  end.

Definition Trim (p : ascii -> bool) (s : string) : string := trim_right_set p (trim_left_set p s).

(** [strings.Split] by a one-byte separator: the parts, at least one. *)
Fixpoint Split (c : ascii) (s : string) : list string :=
  match s with
  | EmptyString => [""%string]
  | String x s =>
      if Ascii.eqb x c then ""%string :: Split c s
      else match Split c s with
           | [] => [String x ""]
           | p :: ps => String x p :: ps
           end
  end.

(** ** Trimming twice is trimming once *)

(** White space only. *)
Inductive blank : string -> Prop :=
| blank_nil : blank ""
| blank_space s n : space_size s = S n -> blank (sdrop (S n) s) -> blank s.

Lemma space_size_app s t n : space_size s = S n -> space_size (s +:+ t) = S n.
Proof.
  destruct s as [|a [|b [|c s]]]; autorewrite with str; cbn [space_size]; try done;
    repeat case_match; congruence.
Qed.

Lemma space_size_le s : (space_size s <= String.length s)%nat.
Proof. destruct s as [|a [|b [|c s]]]; cbn [space_size]; repeat case_match; simpl; lia. Qed.

Lemma trim_left_spec fuel : forall s,
  (String.length s <= fuel)%nat ->
  space_size (trim_left_fuel fuel s) = 0%nat /\ (trim_left_fuel fuel s = ""%string <-> blank s).
Proof.
  induction fuel as [|fuel IH]; intros s Hs.
  { destruct s; [|simpl in Hs; lia]. split; [done|]. split; [constructor|done]. }
  cbn [trim_left_fuel]. destruct (space_size s) as [|n] eqn:Hn.
  - split; [done|]. split; [intros ->; constructor|]. inversion 1; [done|congruence].
  - pose proof (space_size_le s). destruct (IH (sdrop (S n) s)) as [H1 H2]; [rewrite length_sdrop; lia|].
    split; [done|]. rewrite H2. split; [by econstructor|]. inversion 1; subst; [done|congruence].
Qed.

Lemma TrimLeft_head s : space_size (TrimLeftSpace s) = 0%nat.
Proof. by apply trim_left_spec. Qed.

Lemma TrimLeft_blank s : TrimLeftSpace s = ""%string <-> blank s.
Proof. by apply trim_left_spec. Qed.

Lemma TrimLeft_id s : space_size s = 0%nat -> TrimLeftSpace s = s.
Proof. intros H. unfold TrimLeftSpace. destruct (String.length s); simpl; [done|]. by rewrite H. Qed.

Lemma sdrop_prefix n s t : (n <= String.length s)%nat -> sdrop n (s +:+ t) = sdrop n s +:+ t.
Proof.
  revert s; induction n as [|n IH]; intros [|c s] H; simpl in *; try done; try lia.
  autorewrite with str. apply IH. lia.
Qed.

Lemma blank_app s t : blank s -> blank t -> blank (s +:+ t).
Proof.
  intros Hs Ht. induction Hs as [|s n Hn _ IH]; [done|]. pose proof (space_size_le s).
  eapply blank_space; [by apply space_size_app|]. rewrite sdrop_prefix by lia. done.
Qed.

Lemma TrimRight_suffix s : exists w, s = TrimRightSpace s +:+ w /\ blank w.
Proof.
  induction s as [|c s (w & He & Hw)]; [by exists ""; split; [|constructor]|].
  cbn [TrimRightSpace]. destruct (TrimLeftSpace (String c s) =s "") eqn:Hb.
  - apply String.eqb_eq, TrimLeft_blank in Hb. by exists (String c s).
  - exists w. autorewrite with str. by rewrite <- He.
Qed.

Lemma TrimRight_idem s : TrimRightSpace (TrimRightSpace s) = TrimRightSpace s.
Proof.
  induction s as [|c s IH]; [done|]. cbn [TrimRightSpace].
  destruct (TrimLeftSpace (String c s) =s "") eqn:Hb; [done|]. cbn [TrimRightSpace].
  destruct (TrimLeftSpace (String c (TrimRightSpace s)) =s "") eqn:Hb'; [|by rewrite IH].
  apply String.eqb_eq, TrimLeft_blank in Hb'. apply String.eqb_neq in Hb. destruct Hb.
  apply TrimLeft_blank. destruct (TrimRight_suffix s) as (w & He & Hw). rewrite He.
  rewrite <- sapp_cons. by apply blank_app.
Qed.

Lemma TrimSpace_idem s : TrimSpace (TrimSpace s) = TrimSpace s.
Proof.
  unfold TrimSpace at 1. rewrite TrimLeft_id; [apply TrimRight_idem|].
  destruct (space_size (TrimSpace s)) as [|n] eqn:Hn; [done|].
  destruct (TrimRight_suffix (TrimLeftSpace s)) as (w & He & _).
  pose proof (TrimLeft_head s) as Hh. rewrite He in Hh. unfold TrimSpace in Hn.
  by rewrite (space_size_app _ _ _ Hn) in Hh.
Qed.
