(* ===== verification/Decimals.v ===== *)
(** * Decimal numbers: strconv.ParseInt, and that printing is undone by parsing *)

From S2P Require Import Prelude Utf8 Regex GoStrings.

(** The value of a run of digits that follows the value [acc]. *)
Fixpoint parse_digits (acc : Z) (s : string) : Z :=
  match s with EmptyString => acc | String c s => parse_digits (10 * acc + (code c - 48)) s end.

(** [strconv.ParseInt(s, 10, 64)]: an optional sign and at least one digit;
    a value outside int64 is an error. *)
Definition ParseInt (s : string) : option Z :=
  let '(neg, ds) := match s with
                    | String c r => if Ascii.eqb c "-" then (true, r)
                                    else if Ascii.eqb c "+" then (false, r) else (false, s)
                    | EmptyString => (false, s)
                    end in
  if (ds =s "") || negb (sall digit ds) then None
  else
    let n := parse_digits 0 ds in
    if neg then if 9223372036854775808 <? n then None else Some (- n)
    else if 9223372036854775807 <? n then None else Some n.

Lemma digit_not_sign c : digit c = true -> Ascii.eqb c "-" = false /\ Ascii.eqb c "+" = false.
Proof.
  intros Hd. split; apply Ascii.eqb_neq; intros ->; discriminate.
Qed.

Lemma ParseInt_digits c r :
  sall digit (String c r) = true ->
  ParseInt (String c r)
  = let n := parse_digits 0 (String c r) in if 9223372036854775807 <? n then None else Some n.
Proof.
  intros Hd. unfold ParseInt. cbn [sall] in Hd. apply andb_true_iff in Hd as Hd'.
  destruct (digit_not_sign c (proj1 Hd')) as [-> ->]. cbn [sall]. rewrite Hd. reflexivity.
Qed.


Lemma digit_char_code d : 0 <= d <= 9 -> code (digit_char d) = 48 + d.
Proof.
  intros Hd. unfold digit_char, code. rewrite N_ascii_embedding by lia. lia.
Qed.

Lemma digit_char_digit d : 0 <= d <= 9 -> digit (digit_char d) = true.
Proof.
  intros Hd. unfold digit, range. rewrite digit_char_code by done.
  change (code "0") with 48. change (code "9") with 57. lia.
Qed.

(** What the printed digits of [n] are. *)
Definition prints (p : string) (n : Z) : Prop :=
  parse_digits 0 p = n /\ sall digit p = true
  /\ (0 < n -> exists c r, p = String c r /\ range "1" "9" c = true).

Lemma prints_digit n : 0 <= n < 10 -> prints (String (digit_char (n mod 10)) "") n.
Proof.
  intros Hn. rewrite Z.mod_small by lia. unfold prints. cbn [parse_digits sall].
  rewrite digit_char_digit, digit_char_code by lia. split; [lia|]. split; [done|]. intros Hpos.
  do 2 eexists. split; [done|]. unfold range. rewrite digit_char_code by lia.
  change (code "1") with 49. change (code "9") with 57. lia.
Qed.

Lemma prints_snoc p n d :
  prints p n -> 0 < n -> 0 <= d <= 9 -> prints (p +:+ String (digit_char d) "") (10 * n + d).
Proof.
  intros (Hv & Hd & Hf) Hn Hr.
  assert (Happ : forall q a, parse_digits a (q +:+ String (digit_char d) "") = 10 * parse_digits a q + d).
  { induction q as [|x q IHq]; intros a; autorewrite with str; cbn [parse_digits]; [|apply IHq].
    rewrite digit_char_code by lia. lia. }
  unfold prints. rewrite Happ, Hv, sall_app, Hd. cbn [sall]. rewrite digit_char_digit by lia.
  split; [done|]. split; [done|]. intros _. destruct (Hf Hn) as (c & r & -> & Hc).
  do 2 eexists. by autorewrite with str.
Qed.

Lemma decimal_fuel_value fuel : forall n acc,
  0 <= n < 2 ^ Z.of_nat (S fuel) ->
  exists p, decimal_fuel (S fuel) n acc = p +:+ acc /\ prints p n.
Proof.
  induction fuel as [|fuel IH]; intros n acc Hn.
  - change (2 ^ Z.of_nat 1) with 2 in Hn. cbn [decimal_fuel].
    rewrite (proj2 (Z.ltb_lt _ _)) by lia. eexists. split; [|apply prints_digit; lia]. done.
  - remember (S fuel) as k. cbn [decimal_fuel]. subst k.
    destruct (Z.ltb_spec n 10) as [Hlt|Hge].
    { eexists. split; [|apply prints_digit; lia]. done. }
    rewrite Nat2Z.inj_succ, Z.pow_succ_r in Hn by lia.
    destruct (IH (n / 10) (String (digit_char (n mod 10)) acc)) as (p & Hp & Hpr).
    { split; [apply Z.div_pos; lia|]. apply Z.div_lt_upper_bound; lia. }
    exists (p +:+ String (digit_char (n mod 10)) ""). rewrite sapp_assoc. autorewrite with str.
    split; [done|]. rewrite (Z.div_mod n 10) at 2 by lia.
    apply prints_snoc; [done|apply Z.div_str_pos; lia|].
    pose proof (Z.mod_pos_bound n 10 ltac:(lia)). lia.
Qed.

Lemma Itoa_pos n : 0 < n -> prints (Itoa n) n.
Proof.
  intros Hn. unfold Itoa. rewrite Z.abs_eq, (proj2 (Z.ltb_ge _ _)) by lia.
  destruct (decimal_fuel_value (Z.to_nat (Z.log2 n)) n "") as (p & Hp & Hpr).
  { split; [lia|]. rewrite Nat2Z.inj_succ, Z2Nat.id by apply Z.log2_nonneg.
    apply Z.log2_spec. lia. }
  assert (Happ : forall q : string, q +:+ "" = q)
    by (induction q; autorewrite with str; [done|by f_equal]).
  by rewrite Hp, Happ.
Qed.

Lemma parse_lower s : forall a, 0 <= a -> sall digit s = true -> a * 10 ^ len s <= parse_digits a s.
Proof.
  induction s as [|c s IH]; intros a Ha Hs; [change (len "") with 0; simpl; lia|].
  cbn [sall parse_digits] in *. apply andb_true_iff in Hs as [Hc Hs].
  unfold digit, range in Hc. change (code "0") with 48 in Hc. change (code "9") with 57 in Hc.
  assert (Hd : 0 <= 10 * a + (code c - 48)) by lia.
  specialize (IH (10 * a + (code c - 48)) Hd Hs).
  replace (len (String c s)) with (Z.succ (len s)) by (unfold len; simpl; lia).
  rewrite Z.pow_succ_r by apply len_nonneg.
  pose proof (Z.pow_pos_nonneg 10 (len s) ltac:(lia) (len_nonneg s)). nia.
Qed.

Lemma prints_len p n : prints p n -> 0 < n < 10 ^ 19 -> len p <= 19.
Proof.
  intros (Hv & Hd & Hf) Hn. destruct (Hf (proj1 Hn)) as (c & r & -> & Hc).
  cbn [sall parse_digits] in *. apply andb_true_iff in Hd as [_ Hd].
  unfold range in Hc. change (code "1") with 49 in Hc. change (code "9") with 57 in Hc.
  pose proof (parse_lower r (10 * 0 + (code c - 48)) ltac:(lia) Hd) as Hl.
  pose proof (Z.pow_pos_nonneg 10 (len r) ltac:(lia) (len_nonneg r)).
  replace (len (String c r)) with (Z.succ (len r)) by (unfold len; simpl; lia).
  assert (10 ^ len r < 10 ^ 19) by nia. apply Z.pow_lt_mono_r_iff in H0; lia.
Qed.
