(* ===== verification/GoTime.v ===== *)
(** * The parts of Go's time package the program uses

    A duration is in nanoseconds; an instant in microseconds since the Unix
    epoch, which is what the database stores. *)

From Stdlib Require Import SpecFloat.
From S2P Require Import Prelude Utf8 Regex GoStrings.

Definition Nanosecond : Z := 1.
Definition Microsecond : Z := 1000.
Definition Millisecond : Z := 1000000.
Definition Second : Z := 1000 * Millisecond.
Definition Minute : Z := 60 * Second.
Definition Hour : Z := 60 * Minute.

(** ** Duration.String *)

(** The last [n] decimal digits of [v], leading zeros kept. *)
Fixpoint digits (n : nat) (v : Z) (acc : string) : string :=
  match n with O => acc | S n => digits n (v / 10) (String (digit_char (v mod 10)) acc) end.

Fixpoint strip_zeros (s : string) : string :=
  match s with
  | EmptyString => ""
  | String c r => match strip_zeros r with
                  | EmptyString => if Ascii.eqb c "0" then "" else String c ""
                  | r' => String c r'
                  end
  end.

(** [fmtFrac]: the fraction without trailing zeros, with its point. *)
Definition fraction (prec : nat) (v : Z) : string :=
  let f := strip_zeros (digits prec v "") in
  if f =s "" then "" else "." +:+ f.

Definition scaled (prec : nat) (v : Z) : string :=
  Itoa (v / 10 ^ Z.of_nat prec) +:+ fraction prec v.

Definition unsigned_duration (u : Z) : string :=
  if u <? Second then
    if u =? 0 then "0s"
    else if u <? Microsecond then scaled 0 u +:+ "ns"
    else if u <? Millisecond then scaled 3 u +:+ "µs"
    else scaled 6 u +:+ "ms"
  else
    let secs := u / Second in
    let s := Itoa (secs mod 60) +:+ fraction 9 u +:+ "s" in
    let m := secs / 60 in
    if m =? 0 then s
    else
      let s := Itoa (m mod 60) +:+ "m" +:+ s in
      let h := m / 60 in
      if h =? 0 then s else Itoa h +:+ "h" +:+ s.

Definition DurationString (d : Z) : string :=
  if d <? 0 then "-" +:+ unsigned_duration (- d) else unsigned_duration d.

(** [d.Round(m)]: to the nearest multiple, halves away from zero. *)
Definition Round (d m : Z) : Z :=
  if d <? 0 then - ((- d + m / 2) / m * m) else (d + m / 2) / m * m.

(** ** Format(time.RFC3339) of an instant in UTC *)

(** Year, month and day of a day count since 1970-01-01, by 400-year eras that
    start in March. *)
Definition civil (z : Z) : Z * Z * Z :=
  let z := z + 719468 in
  let era := z / 146097 in
  let doe := z mod 146097 in
  let yoe := (doe - doe / 1460 + doe / 36524 - doe / 146096) / 365 in
  let doy := doe - (365 * yoe + yoe / 4 - yoe / 100) in
  let mp := (5 * doy + 2) / 153 in
  let d := doy - (153 * mp + 2) / 5 + 1 in
  let m := if mp <? 10 then mp + 3 else mp - 9 in
  let y := yoe + era * 400 in
  (if m <=? 2 then y + 1 else y, m, d).

Definition RFC3339 (micros : Z) : string :=
  let secs := micros / 1000000 in
  let '(y, m, d) := civil (secs / 86400) in
  let s := secs mod 86400 in
  (if y <? 10000 then digits 4 y "" else Itoa y) +:+ "-" +:+ digits 2 m "" +:+ "-" +:+ digits 2 d "" +:+ "T"
  +:+ digits 2 (s / 3600) "" +:+ ":" +:+ digits 2 (s / 60 mod 60) "" +:+ ":"
  +:+ digits 2 (s mod 60) "" +:+ "Z".

Example duration_samples :
  map DurationString [0; 15 * Second; 90 * Minute; 1500 * Millisecond; 1234567; -1]
  = ["0s"; "15s"; "1h30m0s"; "1.5s"; "1.234567ms"; "-1ns"]%string.
Proof. vm_compute. reflexivity. Qed.

Example rfc3339_samples :
  map RFC3339 [0; 951782400000000; 1767225599999999]
  = ["1970-01-01T00:00:00Z"; "2000-02-29T00:00:00Z"; "2025-12-31T23:59:59Z"]%string.
Proof. vm_compute. reflexivity. Qed.

(** ** time.ParseDuration *)

Definition two63 : Z := 9223372036854775808.

(** [leadingInt]: the value of the leading digits and what follows them;
    [None] when it passes 2^63. *)
Fixpoint leadingInt (x : Z) (s : string) : option (Z * string) :=
  match s with
  | String c r =>
      if negb (digit c) then Some (x, s)
      else if two63 / 10 <? x then None
      else
        let x := x * 10 + (code c - 48) in
        if two63 <? x then None else leadingInt x r
  | EmptyString => Some (x, s)
  end.

(** [leadingFraction]: the digits after the point, their scale, and the rest;
    digits that no longer fit are skipped. *)
Fixpoint leadingFraction (x scale : Z) (overflow : bool) (s : string) : Z * Z * string :=
  match s with
  | String c r =>
      if negb (digit c) then (x, scale, s)
      else if overflow then leadingFraction x scale true r
      else if (two63 - 1) / 10 <? x then leadingFraction x scale true r
      else
        let y := x * 10 + (code c - 48) in
        if two63 <? y then leadingFraction x scale true r
        else leadingFraction y (scale * 10) false r
  | EmptyString => (x, scale, s)
  end.

(** A float64 of an integer, rounded to nearest even. *)
Definition float64 (z : Z) : spec_float := binary_normalize 53 1024 z 0 false.

(** [uint64(x)] of a non-negative float64: the integer part. *)
Definition uint64_of (x : spec_float) : Z :=
  match x with S754_finite false m e => Z.shiftl (Z.pos m) e | _ => 0 end.

(** [uint64(float64(f) * (float64(unit) / scale))]; a scale is a power of ten
    below 10^20, which a float64 holds exactly. *)
Definition fraction_of (f unit scale : Z) : Z :=
  uint64_of (SFmul 53 1024 (float64 f) (SFdiv 53 1024 (float64 unit) (float64 scale))).

Definition unitMap : list (string * Z) :=
  [("ns", Nanosecond); ("us", Microsecond); ("µs", Microsecond); ("μs", Microsecond);
   ("ms", Millisecond); ("s", Second); ("m", Minute); ("h", Hour)]%string.

(** The unit: everything up to the next digit or point. *)
Fixpoint leadingUnit (s : string) : string * string :=
  match s with
  | String c r =>
      if digit c || Ascii.eqb c "." then (""%string, s)
      else let '(u, rest) := leadingUnit r in (String c u, rest)
  | EmptyString => (""%string, s)
  end.

(** One term of a duration, such as [1.5h]: its nanoseconds and the rest. *)
Definition duration_term (s : string) : option (Z * string) :=
  match s with
  | EmptyString => None
  | String c _ =>
    if negb (digit c || Ascii.eqb c ".") then None
    else match leadingInt 0 s with
    | None => None
    | Some (v, s1) =>
      let pre := negb (String.length s1 =? String.length s)%nat in
      let '(f, scale, s2, post) :=
        match s1 with
        | String "." r =>
            let '(f, scale, s2) := leadingFraction 0 1 false r in
            (f, scale, s2, negb (String.length s2 =? String.length r)%nat)
        | _ => (0, 1, s1, false)
        end in
      if negb pre && negb post then None
      else
        let '(u, s3) := leadingUnit s2 in
        match map_get u unitMap with
        | None => None
        | Some unit =>
            if two63 / unit <? v then None
            else
              let v := v * unit in
              let v' := if 0 <? f then v + fraction_of f unit scale else v in
              if two63 <? v' then None else Some (v', s3)
        end
    end
  end.

(** The sum is a uint64. *)
Fixpoint duration_terms (fuel : nat) (d : Z) (s : string) : option Z :=
  match fuel, s with
  | _, EmptyString => Some d
  | O, _ => None
  | S fuel, _ =>
      match duration_term s with
      | None => None
      | Some (v, s') =>
          let d := (d + v) mod (2 * two63) in
          if two63 <? d then None else duration_terms fuel d s'
      end
  end.

(** Every term consumes a byte, so the length is fuel enough. *)
Definition ParseDuration (s : string) : option Z :=
  let '(neg, s) := match s with
                   | String c r => if Ascii.eqb c "-" then (true, r)
                                   else if Ascii.eqb c "+" then (false, r) else (false, s)
                   | EmptyString => (false, s)
                   end in
  if s =s "0" then Some 0
  else if s =s "" then None
  else match duration_terms (String.length s) 0 s with
       | None => None
       | Some d => if neg then Some (- d) else if two63 - 1 <? d then None else Some d
       end.

Example parse_duration_samples :
  map ParseDuration ["15m"; "2s"; "1h15m30.918273645s"; "-1.5h"; "1µs"; ".5s"; "0"; "1"; "3x"; "";
                     "9223372036854775807ns"; "9223372036854775808ns"; "1.s"; ".s"]%string
  = [Some (15 * Minute); Some (2 * Second); Some (4530 * Second + 918273645); Some (- (90 * Minute));
     Some 1000; Some (500 * Millisecond); Some 0; None; None; None;
     Some 9223372036854775807; None; Some Second; None].
Proof. vm_compute. reflexivity. Qed.
