(* ===== verification/GoFmt.v ===== *)
(** * What the commands use of Go's strconv, fmt, flag and net packages

    Quoted strings ([%q]), padded fields ([%-22s]), booleans, command-line
    flags, and host:port addresses with their round trip. *)

From S2P Require Import Prelude Utf8 Regex GoStrings Decimals GoTime.

Definition newline : string := String (ascii_of_N 10) "".

(** ** strconv.Quote *)

(** [strconv.IsPrint] of one non-ASCII rune, in UTF-8: the Unicode tables. *)
Class Printable := rune_printable : string -> bool.

(** The code point of a well-formed rune. *)
Definition rune_value (r : string) : Z :=
  match r with
  | String a EmptyString => code a
  | String a (String b EmptyString) => (code a - 192) * 64 + (code b - 128)
  | String a (String b (String c EmptyString)) =>
      (code a - 224) * 4096 + (code b - 128) * 64 + (code c - 128)
  | String a (String b (String c (String d _))) =>
      (code a - 240) * 262144 + (code b - 128) * 4096 + (code c - 128) * 64 + (code d - 128)
  | EmptyString => 0
  end.

Definition hex_digit (d : Z) : ascii :=
  ascii_of_N (Z.to_N (if d <? 10 then 48 + d else 87 + d)).

(** The [n] lowest hexadecimal digits. *)
Fixpoint hex_digits (n : nat) (v : Z) (acc : string) : string :=
  match n with O => acc | S n => hex_digits n (v / 16) (String (hex_digit (v mod 16)) acc) end.

Definition backslash : ascii := ascii_of_N 92.

Definition escaped (c : string) : string := String backslash c.

Definition escape_rune `{Printable} (r : string) : string :=
  let v := rune_value r in
  if (v =? 34) || (v =? 92) then escaped r
  else if if v <? 128 then (32 <=? v) && (v <=? 126) else rune_printable r then r
  else if v =? 7 then escaped "a" else if v =? 8 then escaped "b"
  else if v =? 12 then escaped "f" else if v =? 10 then escaped "n"
  else if v =? 13 then escaped "r" else if v =? 9 then escaped "t"
  else if v =? 11 then escaped "v"
  else if v <? 128 then escaped ("x" +:+ hex_digits 2 v "")
  else if v <? 65536 then escaped ("u" +:+ hex_digits 4 v "")
  else escaped ("U" +:+ hex_digits 8 v "").

Fixpoint quote_fuel `{Printable} (fuel : nat) (s : string) : string :=
  match fuel, s with
  | O, _ | _, EmptyString => ""
  | S fuel, String c r =>
      match rune_size s with
      | O => escaped ("x" +:+ hex_digits 2 (code c) "") +:+ quote_fuel fuel r
      | n => escape_rune (stake n s) +:+ quote_fuel fuel (sdrop n s)
      end
  end.

Definition dquote : string := String (ascii_of_N 34) "".

Definition Quote `{Printable} (s : string) : string :=
  dquote +:+ quote_fuel (String.length s) s +:+ dquote.

(** ** [%-<n>s]: padded to [n] runes on the right *)

Fixpoint spaces (n : nat) : string := match n with O => "" | S n => String " " (spaces n) end.

Definition pad_right (n : Z) (s : string) : string := s +:+ spaces (Z.to_nat (n - RuneCount s)).

(** ** strconv.ParseBool *)

Definition ParseBool (s : string) : option bool :=
  if one_of s ["1"; "t"; "T"; "TRUE"; "true"; "True"]%string then Some true
  else if one_of s ["0"; "f"; "F"; "FALSE"; "false"; "False"]%string then Some false
  else None.

(** ** Case folding *)

(** The ASCII letter a rune folds with, in lower case: besides a letter itself
    the long s folds with s and the Kelvin sign with k. *)
Definition fold_ascii (r : string) : option ascii :=
  match r with
  | String a EmptyString => Some (lower_byte a)
  | String a (String b EmptyString) =>
      if (code a =? 197) && (code b =? 191) then Some "s"%char else None
  | String a (String b (String c EmptyString)) =>
      if (code a =? 226) && (code b =? 132) && (code c =? 170) then Some "k"%char else None
  | _ => None
  end.

(** ** strings.Cut at one byte *)

Fixpoint Cut (c : ascii) (s : string) : option (string * string) :=
  match s with
  | EmptyString => None
  | String x s =>
      if Ascii.eqb x c then Some (""%string, s)
      else match Cut c s with Some (a, b) => Some (String x a, b) | None => None end
  end.

(** ** strconv.ParseUint and strconv.ParseInt in base 0 *)

Inductive NumError := ErrSyntax | ErrRange.

(** [underscoreOK] after the base prefix: an underscore stands between digits
    only, the prefix counting as one.  [saw] is the kind of the last byte. *)
Inductive saw_kind := SawNothing | SawDigit | SawUnderscore | SawOther.

Fixpoint underscore_fuel (hex : bool) (saw : saw_kind) (s : string) : bool :=
  match s with
  | EmptyString => match saw with SawUnderscore => false | _ => true end
  | String c s =>
      if in_range 48 57 c || (hex && in_range 97 102 (lower_byte c)) then underscore_fuel hex SawDigit s
      else if Ascii.eqb c "_" then
        match saw with SawDigit => underscore_fuel hex SawUnderscore s | _ => false end
      else match saw with SawUnderscore => false | _ => underscore_fuel hex SawOther s end
  end.

(** The prefix of a text that has no sign: its base letter, in lower case, and
    the rest. *)
Definition base_prefix (s : string) : option (ascii * string) :=
  match s with
  | String "0" (String c r) => if one_of (String (lower_byte c) "") ["b"; "o"; "x"]%string
                               then Some (lower_byte c, r) else None
  | _ => None
  end.

Definition underscoreOK (s : string) : bool :=
  let s := match s with String c r => if Ascii.eqb c "-" || Ascii.eqb c "+" then r else s | _ => s end in
  match base_prefix s with
  | Some (c, r) => underscore_fuel (Ascii.eqb c "x") SawDigit r
  | None => underscore_fuel false SawNothing s
  end.

Definition max_uint64 : Z := 18446744073709551615.

(** The digits from the left; a value past 64 bits ends the walk at once, before
    the rest is looked at. *)
Fixpoint uint_digits (base n : Z) (underscores : bool) (s : string) : result NumError (Z * bool) :=
  match s with
  | EmptyString => Ok (n, underscores)
  | String c s =>
      if Ascii.eqb c "_" then uint_digits base n true s
      else
        let d := if in_range 48 57 c then code c - 48
                 else if in_range 97 122 (lower_byte c) then code (lower_byte c) - 87 else 36 in
        if base <=? d then Err ErrSyntax
        else if max_uint64 <? n * base + d then Err ErrRange
        else uint_digits base (n * base + d) underscores s
  end.

(** [strconv.ParseUint(s, 0, 64)]. *)
Definition ParseUint0 (s0 : string) : result NumError Z :=
  if s0 =s "" then Err ErrSyntax else
  let '(base, s) :=
    match s0 with
    | String "0" r =>
        match base_prefix s0 with
        | Some (c, r') => if 3 <=? len s0
                          then (if Ascii.eqb c "b" then 2 else if Ascii.eqb c "o" then 8 else 16, r')
                          else (8, r)
        | None => (8, r)
        end
    | _ => (10, s0)
    end in
  match uint_digits base 0 false s with
  | Err e => Err e
  | Ok (n, underscores) => if underscores && negb (underscoreOK s0) then Err ErrSyntax else Ok n
  end.

(** [strconv.ParseInt(s, 0, 64)], which is [strconv.IntSize] bits. *)
Definition ParseInt0 (s : string) : result NumError Z :=
  let '(neg, s) := match s with
                   | String c r => if Ascii.eqb c "-" then (true, r)
                                   else if Ascii.eqb c "+" then (false, r) else (false, s)
                   | EmptyString => (false, s)
                   end in
  match ParseUint0 s with
  | Err e => Err e
  | Ok n => if neg then if 9223372036854775808 <? n then Err ErrRange else Ok (- n)
            else if 9223372036854775808 <=? n then Err ErrRange else Ok n
  end.

Example base_zero_samples :
  ParseInt0 "0x1F" = Ok 31 /\ ParseInt0 "-0b101" = Ok (-5) /\ ParseInt0 "017" = Ok 15
  /\ ParseInt0 "10_000" = Ok 10000 /\ ParseInt0 "1__0" = Err ErrSyntax /\ ParseInt0 "0_7" = Ok 7
  /\ ParseInt0 "08" = Err ErrSyntax /\ ParseInt0 "0x" = Err ErrSyntax /\ ParseInt0 "" = Err ErrSyntax
  /\ ParseUint0 "18446744073709551615" = Ok max_uint64 /\ ParseUint0 "18446744073709551616x" = Err ErrRange
  /\ ParseInt0 "9223372036854775808" = Err ErrRange /\ ParseInt0 "0" = Ok 0.
Proof. repeat split; reflexivity. Qed.

(** ** flag.FlagSet with flag.ContinueOnError *)

Inductive FlagValue :=
| FlagString (s : string)
| FlagDuration (d : Z)
| FlagBool (b : bool)
| FlagInt (n : Z)
| FlagUint64 (n : Z).

Inductive FlagError :=
| ErrHelp
| BadSyntax (arg : string)
| Undefined (name : string)
| NeedsArgument (name : string)
| InvalidValue (value name : string)
| OutOfRange (value name : string)
| InvalidBool (value name : string).

(** A flag with its default; its kind is the kind of the default. *)
Definition Formal : Type := string * FlagValue.

(** [Value.Set]. *)
Definition set_value (old : FlagValue) (v : string) : option FlagValue :=
  match old with
  | FlagString _ => Some (FlagString v)
  | FlagDuration _ => match ParseDuration v with Some d => Some (FlagDuration d) | None => None end
  | FlagBool _ => match ParseBool v with Some b => Some (FlagBool b) | None => None end
  | FlagInt _ => match ParseInt0 v with Ok n => Some (FlagInt n) | Err _ => None end
  | FlagUint64 _ => match ParseUint0 v with Ok n => Some (FlagUint64 n) | Err _ => None end
  end.

(** Why a value was refused: [flag.errRange] or [flag.errParse]. *)
Definition refused_value (old : FlagValue) (v name : string) : FlagError :=
  match old with
  | FlagInt _ => match ParseInt0 v with Err ErrRange => OutOfRange v name | _ => InvalidValue v name end
  | FlagUint64 _ => match ParseUint0 v with Err ErrRange => OutOfRange v name | _ => InvalidValue v name end
  | _ => InvalidValue v name
  end.

Fixpoint assign (name : string) (v : FlagValue) (fs : list Formal) : list Formal :=
  match fs with
  | [] => []
  | (n, w) :: fs => if n =s name then (n, v) :: fs else (n, w) :: assign name v fs
  end.

(** The name and, after the first [=] that is not its first byte, the value. *)
Definition split_flag (name : string) : string * option string :=
  match name with
  | EmptyString => (""%string, None)
  | String c r => match Cut "=" r with
                  | Some (a, v) => (String c a, Some v)
                  | None => (name, None)
                  end
  end.

(** [parseOne]: no more flags with the arguments left, or the flags after one
    was read. *)
Definition parseOne (args : list string) (fs : list Formal)
    : result FlagError (bool * list string * list Formal) :=
  match args with
  | [] => Ok (false, [], fs)
  | s :: rest =>
      if (len s <? 2) || negb (HasPrefix s "-") then Ok (false, args, fs)
      else if s =s "--" then Ok (false, rest, fs)
      else
        let name := sdrop (if HasPrefix s "--" then 2 else 1) s in
        if (name =s "") || HasPrefix name "-" || HasPrefix name "=" then Err (BadSyntax s)
        else
          let '(name, value) := split_flag name in
          match map_get name fs with
          | None => Err (if one_of name ["help"; "h"]%string then ErrHelp else Undefined name)
          | Some (FlagBool b) =>
              let v := match value with Some v => v | None => "true"%string end in
              match set_value (FlagBool b) v with
              | Some w => Ok (true, rest, assign name w fs)
              | None => Err (InvalidBool v name)
              end
          | Some old =>
              match value, rest with
              | None, [] => Err (NeedsArgument name)
              | Some v, rest | None, v :: rest =>
                  match set_value old v with
                  | Some w => Ok (true, rest, assign name w fs)
                  | None => Err (refused_value old v name)
                  end
              end
          end
  end.

Fixpoint parse_fuel (fuel : nat) (args : list string) (fs : list Formal)
    : result FlagError (list string * list Formal) :=
  match fuel with
  | O => Ok (args, fs)
  | S fuel =>
      match parseOne args fs with
      | Err e => Err e
      | Ok (false, args, fs) => Ok (args, fs)
      | Ok (true, args, fs) => parse_fuel fuel args fs
      end
  end.

(** Every flag consumes an argument, so their number is fuel enough. *)
Definition Parse_flags (args : list string) (fs : list Formal)
    : result FlagError (list string * list Formal) := parse_fuel (S (length args)) args fs.

(** What is printed before the usage; [flag.ErrHelp] prints the usage only. *)
Definition FlagError_line `{Printable} (e : FlagError) : string :=
  match e with
  | ErrHelp => ""
  | BadSyntax s => "bad flag syntax: " +:+ s +:+ newline
  | Undefined n => "flag provided but not defined: -" +:+ n +:+ newline
  | NeedsArgument n => "flag needs an argument: -" +:+ n +:+ newline
  | InvalidValue v n => "invalid value " +:+ Quote v +:+ " for flag -" +:+ n +:+ ": parse error" +:+ newline
  | OutOfRange v n => "invalid value " +:+ Quote v +:+ " for flag -" +:+ n +:+ ": value out of range" +:+ newline
  | InvalidBool v n => "invalid boolean value " +:+ Quote v +:+ " for -" +:+ n +:+ ": parse error" +:+ newline
  end.

(** ** net.SplitHostPort and net.JoinHostPort *)

Definition has_byte (c : ascii) (s : string) : bool := negb (sall (fun x => negb (Ascii.eqb x c)) s).

Definition missingPort : string := "missing port in address".
Definition tooManyColons : string := "too many colons in address".

(** The error is the reason; the address is the argument. *)
Definition SplitHostPort (hostport : string) : result string (string * string) :=
  match cut_last ":" hostport with
  | None => Err missingPort
  | Some (before, port) =>
      if HasPrefix hostport "[" then
        match Cut "]" hostport with
        | None => Err "missing ']' in address"%string
        | Some (a, after) =>
            if after =s "" then Err missingPort
            else if String.length a + 1 =? String.length before then
              (if has_byte "[" (sdrop 1 hostport) then Err "unexpected '[' in address"%string
               else if has_byte "]" after then Err "unexpected ']' in address"%string
               else Ok (sdrop 1 a, port))
            else Err (if HasPrefix after ":" then tooManyColons else missingPort)
        end
      else if has_byte ":" before then Err tooManyColons
      else if has_byte "[" hostport then Err "unexpected '[' in address"%string
      else if has_byte "]" hostport then Err "unexpected ']' in address"%string
      else Ok (before, port)
  end%nat.

Definition JoinHostPort (host port : string) : string :=
  if has_byte ":" host then "[" +:+ host +:+ "]:" +:+ port else host +:+ ":" +:+ port.

(** [net.AddrError.Error]. *)
Definition AddrError_Error (addr why : string) : string :=
  if addr <>s "" then "address " +:+ addr +:+ ": " +:+ why else why.

Definition ascii_print : Printable := fun _ => true.

Example quote_samples :
  @Quote ascii_print ("a" +:+ newline +:+ dquote +:+ String (ascii_of_N 200) "\é")
  = dquote +:+ "a\n\" +:+ dquote +:+ "\xc8\\é" +:+ dquote.
Proof. vm_compute. reflexivity. Qed.

Example split_samples :
  map SplitHostPort [":8080"; "0.0.0.0:8080"; "[::]:9090"; "::1:80"; "host"; "[::1]"; "[::1]x:1"; "a]b:1"; ""; "[::1]:"]%string
  = [Ok ("", "8080"); Ok ("0.0.0.0", "8080"); Ok ("::", "9090"); Err tooManyColons; Err missingPort;
     Err missingPort; Err missingPort; Err "unexpected ']' in address"; Err missingPort; Ok ("::1", "")]%string.
Proof. vm_compute. reflexivity. Qed.

(** ** Facts *)

Lemma has_byte_app c a b : has_byte c (a +:+ b) = has_byte c a || has_byte c b.
Proof. unfold has_byte. rewrite sall_app. by rewrite negb_andb. Qed.

Lemma has_byte_cons c x s : has_byte c (String x s) = Ascii.eqb x c || has_byte c s.
Proof. unfold has_byte. cbn [sall]. by rewrite negb_andb, negb_involutive. Qed.

Lemma has_byte_nil c : has_byte c "" = false.
Proof. done. Qed.

#[export] Hint Rewrite has_byte_app has_byte_cons has_byte_nil : str.

Lemma cut_last_none c s : has_byte c s = false -> cut_last c s = None.
Proof.
  induction s as [|x s IH]; [done|]. rewrite has_byte_cons, orb_false_iff. intros [Hx Hs].
  simpl. by rewrite IH, Hx.
Qed.

Lemma cut_last_app c a b : has_byte c b = false -> cut_last c (a +:+ String c b) = Some (a, b).
Proof.
  intros Hb. induction a as [|x a IH]; autorewrite with str; cbn [cut_last].
  - by rewrite (cut_last_none c b Hb), Ascii.eqb_refl.
  - by rewrite IH.
Qed.

Lemma cut_last_inv c s : forall a b,
  cut_last c s = Some (a, b) -> s = a +:+ String c b /\ has_byte c b = false.
Proof.
  induction s as [|x s IH]; intros a b; cbn [cut_last]; [done|].
  destruct (cut_last c s) as [[a' b']|] eqn:Hc.
  - intros [= <- <-]. destruct (IH _ _ eq_refl) as [-> Hb]. by autorewrite with str.
  - destruct (Ascii.eqb_spec x c) as [->|_]; [|done]. intros [= <- <-]. split; [done|].
    clear IH. induction s as [|y s IH]; [done|]. cbn [cut_last] in Hc.
    destruct (cut_last c s) as [[? ?]|]; [done|]. rewrite has_byte_cons.
    destruct (Ascii.eqb y c); [done|]. by apply IH.
Qed.

Lemma Cut_app c a b : has_byte c a = false -> Cut c (a +:+ String c b) = Some (a, b).
Proof.
  induction a as [|x a IH]; autorewrite with str; cbn [Cut]; [by rewrite Ascii.eqb_refl|].
  rewrite orb_false_iff. intros [-> Ha]. by rewrite IH.
Qed.

Lemma Cut_inv c s : forall a b, Cut c s = Some (a, b) -> s = a +:+ String c b /\ has_byte c a = false.
Proof.
  induction s as [|x s IH]; intros a b; cbn [Cut]; [done|].
  destruct (Ascii.eqb x c) eqn:Hx; [intros [= <- <-]; apply Ascii.eqb_eq in Hx as ->; done|].
  destruct (Cut c s) as [[a' b']|]; [|done]. intros [= <- <-].
  destruct (IH _ _ eq_refl) as [-> Ha]. autorewrite with str. by rewrite Hx.
Qed.

(** No brackets. *)
Definition bare (s : string) : bool := negb (has_byte "[" s) && negb (has_byte "]" s).

Lemma SplitHostPort_parts s h p :
  SplitHostPort s = Ok (h, p) -> bare h = true /\ bare p = true /\ has_byte ":" p = false.
Proof.
  unfold SplitHostPort, bare. destruct (cut_last ":" s) as [[before port]|] eqn:Hc; [|done].
  apply cut_last_inv in Hc as [-> Hport]. destruct (HasPrefix _ "[") eqn:Hp.
  - destruct (Cut "]" _) as [[a after]|] eqn:Hcut; [|done].
    destruct (after =s ""); [done|]. destruct (_ =? _)%nat eqn:Hlen; [|done].
    destruct (has_byte "[" (sdrop 1 _)) eqn:Hl; [done|]. destruct (has_byte "]" after) eqn:Hr; [done|].
    intros [= <- <-]. apply Cut_inv in Hcut as [He Ha]. apply Nat.eqb_eq in Hlen.
    destruct a as [|x a]; [destruct before; autorewrite with str in *; simplify_eq|].
    rewrite He in Hl. autorewrite with str in Hl. cbn [sdrop] in *. autorewrite with str in Hl, Ha.
    apply orb_false_iff in Ha as [Hx Ha]. apply orb_false_iff in Hl as [Hl1 Hl2]. cbn [Ascii.eqb orb] in *.
    rewrite Hl1, Ha. split; [done|].
    assert (Hafter : String ":" port = after).
    { clear -He Hlen. revert before He Hlen. generalize (String x a) as q. clear x a.
      induction q as [|y q IH]; intros [|z before] He Hlen; cbn [String.length] in *; try lia;
        autorewrite with str in He; simplify_eq.
      - destruct before; cbn [String.length] in *; [|lia]. autorewrite with str in *. by simplify_eq.
      - apply (IH before); [done|]. lia. }
    rewrite <- Hafter in *. rewrite !has_byte_cons in Hl2, Hr.
    apply orb_false_iff in Hr as [_ ->]. apply orb_false_iff in Hl2 as [_ Hl2].
    apply orb_false_iff in Hl2 as [_ ->]. done.
  - destruct (has_byte ":" before); [done|]. autorewrite with str.
    destruct (has_byte "[" before) eqn:H1; [done|]. destruct (has_byte "[" port) eqn:H2; [by rewrite orb_true_r|].
    destruct (has_byte "]" before) eqn:H3; [done|]. destruct (has_byte "]" port) eqn:H4; [by rewrite orb_true_r|].
    cbn. intros [= <- <-]. by rewrite H1, H2, H3, H4.
Qed.

(** A joined address splits into what it was joined from. *)
Lemma Split_Join h p :
  bare h = true -> bare p = true -> has_byte ":" p = false ->
  SplitHostPort (JoinHostPort h p) = Ok (h, p).
Proof.
  unfold bare. rewrite !andb_true_iff, !negb_true_iff. intros [Hh1 Hh2] [Hp1 Hp2] Hp.
  unfold JoinHostPort. destruct (has_byte ":" h) eqn:Hc; unfold SplitHostPort.
  - assert (Hl : "[" +:+ h +:+ "]:" +:+ p = ("[" +:+ h +:+ "]") +:+ String ":" p)
      by (by rewrite !sapp_assoc).
    assert (Hr : "[" +:+ h +:+ "]:" +:+ p = ("[" +:+ h) +:+ String "]" (String ":" p))
      by (by rewrite !sapp_assoc).
    rewrite Hl at 1. rewrite cut_last_app by done.
    replace (HasPrefix ("[" +:+ h +:+ "]:" +:+ p) "[") with true by (by autorewrite with str; destruct h).
    rewrite Hr at 1. rewrite Cut_app by (autorewrite with str; by rewrite Hh2).
    cbn [String.eqb]. rewrite !length_sapp. cbn [String.length].
    replace (_ =? _)%nat with true by (symmetry; apply Nat.eqb_eq; lia).
    autorewrite with str. cbn [sdrop]. autorewrite with str. by rewrite Hh1, Hp1, Hp2.
  - change (h +:+ ":" +:+ p) with (h +:+ String ":" p). rewrite cut_last_app by done.
    assert (HasPrefix (h +:+ String ":" p) "[" = false) as ->.
    { destruct h as [|x h]; [done|]. rewrite has_byte_cons in Hh1. apply orb_false_iff in Hh1 as [Hx _].
      autorewrite with str. cbn [HasPrefix]. rewrite Ascii.eqb_sym, Hx. done. }
    rewrite Hc. autorewrite with str. by rewrite Hh1, Hh2, Hp1, Hp2.
Qed.

Lemma parseOne_shorter args fs args' fs' :
  parseOne args fs = Ok (true, args', fs') -> (length args' < length args)%nat.
Proof.
  unfold parseOne. destruct args as [|s rest]; [done|]. destruct (_ || _); [done|].
  destruct (s =s "--"); [done|]. cbv zeta. destruct (_ || _); [done|].
  destruct (split_flag _) as [name value]. destruct (map_get name fs) as [[]|]; [| | | | |done];
    repeat case_match; intros; simplify_eq; simpl; lia.
Qed.

(** The fuel of [Parse_flags] is enough: more changes nothing. *)
Lemma parse_enough fuel : forall args fs,
  (length args < fuel)%nat -> parse_fuel fuel args fs = Parse_flags args fs.
Proof.
  unfold Parse_flags.
  assert (H : forall k f args fs, (length args < k)%nat -> (length args < f)%nat ->
             parse_fuel f args fs = parse_fuel k args fs).
  { induction k as [|k IH]; intros [|f] args fs Hk Hf; try lia. cbn [parse_fuel].
    destruct (parseOne args fs) as [[[[] args'] fs']|e] eqn:Ho; try done.
    apply parseOne_shorter in Ho. apply IH; lia. }
  intros args fs Hf. apply H; lia.
Qed.

(** A byte that prints and is no space. *)
Definition graphic (c : ascii) : bool := in_range 33 126 c.

Lemma space_not_graphic s n : space_size s = S n -> sall (fun c => negb (graphic c)) (stake (S n) s) = true.
Proof.
  unfold graphic.
  destruct s as [|a [|b [|c s]]]; cbn [space_size]; try done; unfold in_range;
    repeat case_match; intros; simplify_eq; cbn [stake sall]; lia.
Qed.

Lemma blank_not_graphic s : blank s -> sall (fun c => negb (graphic c)) s = true.
Proof.
  induction 1 as [|s n Hn _ IH]; [done|].
  rewrite <- (stake_sdrop (S n) s), sall_app, IH, andb_true_r. by apply space_not_graphic.
Qed.

Lemma TrimRight_graphic s c : graphic c = true -> TrimRightSpace (s +:+ String c "") = s +:+ String c "".
Proof.
  intros Hc. induction s as [|x s IH]; autorewrite with str; cbn [TrimRightSpace].
  - destruct (TrimLeftSpace (String c "") =s "") eqn:Hb; [|done].
    apply String.eqb_eq, TrimLeft_blank, blank_not_graphic in Hb. cbn [sall] in Hb. by rewrite Hc in Hb.
  - destruct (TrimLeftSpace (String x (s +:+ String c "")) =s "") eqn:Hb; [|by rewrite IH].
    apply String.eqb_eq, TrimLeft_blank, blank_not_graphic in Hb. rewrite <- sapp_cons, sall_app in Hb.
    cbn [sall] in Hb. rewrite Hc in Hb. cbn [negb andb] in Hb. by rewrite andb_false_r in Hb.
Qed.

(** A text that begins and ends with such a byte is left alone. *)
Lemma TrimSpace_graphic a s c :
  graphic a = true -> graphic c = true -> TrimSpace (String a s +:+ String c "") = String a s +:+ String c "".
Proof.
  intros Ha Hc. unfold TrimSpace. rewrite TrimLeft_id; [by apply TrimRight_graphic|].
  destruct (space_size _) as [|n] eqn:Hn; [done|]. apply space_not_graphic in Hn.
  rewrite sapp_cons in Hn. cbn [stake sall] in Hn. by rewrite Ha in Hn.
Qed.
