(* ===== verification/GoJson.v ===== *)
(** * encoding/json: the indenting encoder

    A Go value reaches the encoder as a tree; the fields of a struct are in the
    order of its declaration, the keys of a map sorted. *)

From S2P Require Import Prelude Utf8 GoStrings GoFmt.

Inductive Json :=
| JNull
| JString (s : string)
| JInt (n : Z)
| JArray (l : list Json)
| JObject (l : list (string * Json)).

(** One rune inside a string; the encoder also escapes what HTML reads. *)
Definition json_rune (r : string) : string :=
  let v := rune_value r in
  if (v =? 34) || (v =? 92) then escaped r
  else if v =? 8 then escaped "b" else if v =? 12 then escaped "f"
  else if v =? 10 then escaped "n" else if v =? 13 then escaped "r" else if v =? 9 then escaped "t"
  else if (v <? 32) || (v =? 60) || (v =? 62) || (v =? 38) || (v =? 8232) || (v =? 8233)
  then escaped ("u" +:+ hex_digits 4 v "")
  else r.

Fixpoint json_runes (fuel : nat) (s : string) : string :=
  match fuel, s with
  | O, _ | _, EmptyString => ""
  | S fuel, String _ r =>
      match rune_size s with
      | O => escaped "ufffd" +:+ json_runes fuel r
      | n => json_rune (stake n s) +:+ json_runes fuel (sdrop n s)
      end
  end.

Definition json_string (s : string) : string := dquote +:+ json_runes (String.length s) s +:+ dquote.

(** The members of an array or object, each on a line of its own: [line n] is
    the line break before what is [n] deep, and nothing in a compact text. *)
Definition json_block (line : nat -> string) (depth : nat) (open close : string) (members : list string) : string :=
  match members with
  | [] => open +:+ close
  | _ => open +:+ line (S depth) +:+ Join members ("," +:+ line (S depth)) +:+ line depth +:+ close
  end.

Fixpoint render (line : nat -> string) (gap : string) (depth : nat) (j : Json) : string :=
  match j with
  | JNull => "null"
  | JString s => json_string s
  | JInt n => Itoa n
  | JArray l => json_block line depth "[" "]" (map (render line gap (S depth)) l)
  | JObject l => json_block line depth "{" "}"
                   (map (fun kv => json_string kv.1 +:+ ":" +:+ gap +:+ render line gap (S depth) kv.2) l)
  end.

(** [json.MarshalIndent(v, "", "  ")], without the line end a caller adds. *)
Definition indented : nat -> Json -> string := render (fun n => newline +:+ spaces (2 * n)) " ".

(** [json.Marshal(v)]. *)
Definition compact : Json -> string := render (fun _ => ""%string) "" 0.

(** ** sort.Strings, and a map as the encoder walks it *)

Fixpoint insert_string (x : string) (l : list string) : list string :=
  match l with
  | [] => [x]
  | y :: l => if String.leb x y then x :: y :: l else y :: insert_string x l
  end.

Definition Strings (l : list string) : list string := foldr insert_string [] l.

Lemma insert_string_perm x l : insert_string x l ≡ₚ x :: l.
Proof.
  induction l as [|y l IH]; simpl; [done|]. destruct (String.leb x y); [done|].
  rewrite IH. constructor.
Qed.

Lemma Strings_perm l : Strings l ≡ₚ l.
Proof. induction l as [|x l IH]; simpl; [done|]. by rewrite insert_string_perm, IH. Qed.

Definition json_map {A} (f : A -> Json) (m : gmap string A) : Json :=
  JObject (omap (fun k => match m !! k with Some v => Some (k, f v) | None => None end)
                (Strings (map fst (map_to_list m)))).
