(* ===== verification/GoJsonParse.v ===== *)
(** * encoding/json: reading a document, and decoding it into Go values

    [value] is the scanner of the package as a recursive descent over the bytes
    a reader has: it gives the first value with what follows it, or says that
    the bytes end too early, or that a byte no value goes on with was met.
    [decode] stores a value into a Go variable of a given type.  The semantics
    is the one encoding/json documents and every Go 1 release kept: names match
    exactly or else in any case, a repeated member is decoded over the earlier
    one, null leaves a variable alone, bytes that are no UTF-8 and lone
    surrogates become U+FFFD.  [parse_indented] is the round trip with the
    encoder of [GoJson]. *)

From S2P Require Import Prelude Utf8 Regex GoStrings Decimals GoTime GoFmt GoJson.

Module JsonRead.

Inductive Val :=
| VNull
| VBool (b : bool)
| VNumber (text : string)
| VString (s : string)
| VArray (l : list Val)
| VObject (l : list (string * Val)).

Inductive Scan (A : Type) : Type :=
| Got (a : A) (rest : string)
| Short
| Bad.
Arguments Got {A} a rest.
Arguments Short {A}.
Arguments Bad {A}.

Definition scan_map {A B} (f : A -> B) (x : Scan A) : Scan B :=
  match x with Got a rest => Got (f a) rest | Short => Short | Bad => Bad end.

Definition is_ws (c : ascii) : bool := (code c =? 32) || (code c =? 9) || (code c =? 10) || (code c =? 13).

Definition skip (s : string) : string := trim_left_set is_ws s.

(** ** Strings *)

Definition hex_value (c : ascii) : option Z :=
  if range "0" "9" c then Some (code c - 48)
  else if range "a" "f" c then Some (code c - 87)
  else if range "A" "F" c then Some (code c - 55) else None.

(** [n] hexadecimal digits after the value [acc]. *)
Fixpoint hex_run (n : nat) (acc : Z) (s : string) : Scan Z :=
  match n with
  | O => Got acc s
  | S n => match s with
           | EmptyString => Short
           | String c s => match hex_value c with Some d => hex_run n (16 * acc + d) s | None => Bad end
           end
  end.

Definition octet (v : Z) : ascii := ascii_of_N (Z.to_N v).

Definition surrogate (v : Z) : bool := (55296 <=? v) && (v <? 57344).

(** [utf16.DecodeRune] of two halves. *)
Definition utf16_pair (hi lo : Z) : option Z :=
  if (55296 <=? hi) && (hi <? 56320) && (56320 <=? lo) && (lo <? 57344)
  then Some ((hi - 55296) * 1024 + (lo - 56320) + 65536) else None.

(** [utf8.EncodeRune] of a code point that is no surrogate. *)
Definition encode_rune (v : Z) : string :=
  let b n := octet n in
  let tail n := octet (128 + (v / n) mod 64) in
  if v <? 128 then String (b v) ""
  else if v <? 2048 then String (b (192 + v / 64)) (String (tail 1) "")
  else if v <? 65536 then String (b (224 + v / 4096)) (String (tail 64) (String (tail 1) ""))
  else String (b (240 + v / 262144)) (String (tail 4096) (String (tail 64) (String (tail 1) ""))).

(** The escape that follows a first half of a pair, if it is a second half. *)
Definition second_half (hi : Z) (s : string) : option (Z * string) :=
  match s with
  | String a (String u s) =>
      if Ascii.eqb a backslash && Ascii.eqb u "u" then
        match hex_run 4 0 s with
        | Got lo rest => match utf16_pair hi lo with Some v => Some (v, rest) | None => None end
        | _ => None
        end
      else None
  | _ => None
  end.

Definition plain_escape (c : ascii) : option string :=
  if (code c =? 34) || (code c =? 92) || (code c =? 47) then Some (String c "")
  else if Ascii.eqb c "b" then Some (String (octet 8) "") else if Ascii.eqb c "f" then Some (String (octet 12) "")
  else if Ascii.eqb c "n" then Some (String (octet 10) "") else if Ascii.eqb c "r" then Some (String (octet 13) "")
  else if Ascii.eqb c "t" then Some (String (octet 9) "") else None.

(** One piece of a string after its opening quote: its end, or the bytes the
    piece stands for with what follows it. *)
Inductive Piece := Ends (rest : string) | Piece_ (text rest : string) | PShort | PBad.

Definition piece (s : string) : Piece :=
  match s with
  | EmptyString => PShort
  | String c r =>
      if code c =? 34 then Ends r
      else if code c =? 92 then
        match r with
        | EmptyString => PShort
        | String e r =>
            if Ascii.eqb e "u" then
              match hex_run 4 0 r with
              | Got v r =>
                  if surrogate v then
                    match second_half v r with Some (w, r) => Piece_ (encode_rune w) r | None => Piece_ RuneError r end
                  else Piece_ (encode_rune v) r
              | Short => PShort
              | Bad => PBad
              end
            else match plain_escape e with Some t => Piece_ t r | None => PBad end
        end
      else if code c <? 32 then PBad
      else match rune_size s with O => Piece_ RuneError r | n => Piece_ (stake n s) (sdrop n s) end
  end.

Fixpoint string_fuel (fuel : nat) (s : string) : Scan string :=
  match fuel with
  | O => Short
  | S fuel => match piece s with
              | Ends rest => Got ""%string rest
              | Piece_ t rest => scan_map (String.append t) (string_fuel fuel rest)
              | PShort => Short
              | PBad => Bad
              end
  end.

(** After the opening quote. *)
Definition string_body (s : string) : Scan string := string_fuel (String.length s) s.

(** ** Numbers and words *)

Fixpoint digits (s : string) : string * string :=
  match s with
  | EmptyString => (""%string, ""%string)
  | String c r => if digit c then let '(d, rest) := digits r in (String c d, rest) else (""%string, s)
  end.

(** At least one digit. *)
Definition digits1 (s : string) : Scan string :=
  match digits s with
  | (EmptyString, EmptyString) => Short
  | (EmptyString, _) => Bad
  | (d, rest) => Got d rest
  end.

Definition exponent (s : string) : Scan string :=
  match s with
  | String c r =>
      if Ascii.eqb c "e" || Ascii.eqb c "E" then
        let '(sign, r) := match r with
                          | String x r' => if Ascii.eqb x "+" || Ascii.eqb x "-" then (String x "", r') else (""%string, r)
                          | EmptyString => (""%string, r)
                          end in
        scan_map (fun d => String c (sign +:+ d)) (digits1 r)
      else Got ""%string s
  | EmptyString => Got ""%string s
  end.

Definition fraction (s : string) : Scan string :=
  match s with
  | String c r =>
      if Ascii.eqb c "." then
        match digits1 r with
        | Got d rest => scan_map (fun e => String c (d +:+ e)) (exponent rest)
        | Short => Short
        | Bad => Bad
        end
      else exponent s
  | EmptyString => Got ""%string s
  end.

Definition natural (s : string) : Scan string :=
  match s with
  | EmptyString => Short
  | String c r =>
      if Ascii.eqb c "0" then scan_map (String c) (fraction r)
      else match digits s with
           | (EmptyString, _) => Bad
           | (d, rest) => scan_map (String.append d) (fraction rest)
           end
  end.

Definition number (s : string) : Scan string :=
  match s with
  | String c r => if Ascii.eqb c "-" then scan_map (String c) (natural r) else natural s
  | EmptyString => Short
  end.

Fixpoint word (w s : string) : Scan unit :=
  match w with
  | EmptyString => Got tt s
  | String a w => match s with
                  | EmptyString => Short
                  | String c s => if Ascii.eqb a c then word w s else Bad
                  end
  end.

(** ** Values *)

Definition maxNestingDepth : Z := 10000.

(** [depth] containers are open around the value. *)
Fixpoint value (fuel : nat) (depth : Z) (s : string) : Scan Val :=
  match fuel with
  | O => Short
  | S fuel =>
      match skip s with
      | EmptyString => Short
      | String c r =>
          if Ascii.eqb c "{" then if maxNestingDepth <=? depth then Bad else scan_map VObject (members fuel (depth + 1) true r)
          else if Ascii.eqb c "[" then if maxNestingDepth <=? depth then Bad else scan_map VArray (elements fuel (depth + 1) true r)
          else if code c =? 34 then scan_map VString (string_body r)
          else if Ascii.eqb c "t" then scan_map (fun _ => VBool true) (word "rue" r)
          else if Ascii.eqb c "f" then scan_map (fun _ => VBool false) (word "alse" r)
          else if Ascii.eqb c "n" then scan_map (fun _ => VNull) (word "ull" r)
          else scan_map VNumber (number (String c r))
      end
  end
with elements (fuel : nat) (depth : Z) (first : bool) (s : string) : Scan (list Val) :=
  match fuel with
  | O => Short
  | S fuel =>
      match skip s with
      | EmptyString => Short
      | String c r =>
          if first && Ascii.eqb c "]" then Got [] r
          else match value fuel depth (String c r) with
               | Got v rest =>
                   match skip rest with
                   | EmptyString => Short
                   | String c r =>
                       if Ascii.eqb c "," then scan_map (cons v) (elements fuel depth false r)
                       else if Ascii.eqb c "]" then Got [v] r else Bad
                   end
               | Short => Short
               | Bad => Bad
               end
      end
  end
with members (fuel : nat) (depth : Z) (first : bool) (s : string) : Scan (list (string * Val)) :=
  match fuel with
  | O => Short
  | S fuel =>
      match skip s with
      | EmptyString => Short
      | String c r =>
          if first && Ascii.eqb c "}" then Got [] r
          else if negb (code c =? 34) then Bad
          else match string_body r with
               | Got k rest =>
                   match skip rest with
                   | EmptyString => Short
                   | String c r =>
                       if negb (Ascii.eqb c ":") then Bad
                       else match value fuel depth r with
                            | Got v rest =>
                                match skip rest with
                                | EmptyString => Short
                                | String c r =>
                                    if Ascii.eqb c "," then scan_map (cons (k, v)) (members fuel depth false r)
                                    else if Ascii.eqb c "}" then Got [(k, v)] r else Bad
                                end
                            | Short => Short
                            | Bad => Bad
                            end
                   end
               | Short => Short
               | Bad => Bad
               end
      end
  end.

(** The first value of [s]: every call but those of [elements] takes a byte. *)
Definition first_value (s : string) : Scan Val := value (2 * String.length s + 1) 0 s.

(** The whole of [s] is one value, with space around it. *)
Definition Parse (s : string) : option Val :=
  match first_value s with
  | Got v rest => if skip rest =s "" then Some v else None
  | _ => None
  end.

(** ** Go types and values *)

Inductive GoType :=
| TString
| TInt
| TSlice (t : GoType)
| TStruct (fields : list (string * GoType)).

(** A slice is its backing array as far as it was ever written, and its length:
    what lies beyond the length is seen again when a later member of the same
    name is decoded over it. *)
Inductive GoVal :=
| GString (s : string)
| GInt (n : Z)
| GSlice (cells : list GoVal) (n : nat)
| GStruct (fields : list GoVal).

Fixpoint zero (t : GoType) : GoVal :=
  match t with
  | TString => GString ""
  | TInt => GInt 0
  | TSlice _ => GSlice [] 0
  | TStruct fs => GStruct (map (fun f => zero f.2) fs)
  end.

(** The name in lower case as the package folds it, if it is one an ASCII name
    can match. *)
Fixpoint fold_fuel (fuel : nat) (s : string) : option string :=
  match fuel, s with
  | _, EmptyString => Some ""%string
  | O, _ => None
  | S fuel, _ =>
      match rune_size s with
      | O => None
      | n => match fold_ascii (stake n s), fold_fuel fuel (sdrop n s) with
             | Some c, Some r => Some (String c r)
             | _, _ => None
             end
      end
  end.

Definition folded (s : string) : option string := fold_fuel (String.length s) s.

Fixpoint index_of {A} (p : A -> bool) (l : list A) : option nat :=
  match l with
  | [] => None
  | x :: l => if p x then Some O else option_map S (index_of p l)
  end.

(** The field a member is stored in: the one of that name, or else the first
    whose name differs in case only. *)
Definition field_index (k : string) (names : list string) : option nat :=
  match index_of (String.eqb k) names with
  | Some i => Some i
  | None => match folded k with
            | Some f => index_of (fun n => match folded n with Some g => f =s g | None => false end) names
            | None => None
            end
  end.

Section Decode.
(** [strict] is DisallowUnknownFields. *)
Context (strict : bool).

(** The elements of an array over the cells of a slice, with [dec] for one. *)
Definition decode_cells (dec : Val -> GoVal -> option GoVal) (z : GoVal) : list Val -> list GoVal -> option (list GoVal) :=
  fix go l cells :=
    match l with
    | [] => Some cells
    | v :: l => match dec v (match cells with c :: _ => c | [] => z end) with
                | Some c => option_map (cons c) (go l (tail cells))
                | None => None
                end
    end.

(** The members of an object over the fields of a struct. *)
Definition decode_fields (dec : Val -> GoType -> GoVal -> option GoVal) (fs : list (string * GoType))
    : list (string * Val) -> list GoVal -> option (list GoVal) :=
  fix go l vals :=
    match l with
    | [] => Some vals
    | (k, v) :: l =>
        match field_index k (map fst fs) with
        | Some i =>
            match fs !! i, vals !! i with
            | Some f, Some x => match dec v f.2 x with Some y => go l (<[i := y]> vals) | None => None end
            | _, _ => None
            end
        | None => if strict then None else go l vals
        end
    end.

(** The value stored over [old] in a variable of type [t], or [None] for an
    error; a caller that meets an error drops the variable. *)
Fixpoint decode (v : Val) (t : GoType) (old : GoVal) {struct v} : option GoVal :=
  match v with
  | VNull => Some (match t with TSlice _ => GSlice [] 0 | _ => old end)
  | VBool _ => None
  | VNumber x => match t with TInt => option_map GInt (ParseInt x) | _ => None end
  | VString s => match t with TString => Some (GString s) | _ => None end
  | VArray l =>
      match t, old, l with
      | TSlice _, _, [] => Some (GSlice [] 0)
      | TSlice t, GSlice cells _, _ =>
          option_map (fun cells => GSlice cells (length l)) (decode_cells (fun v => decode v t) (zero t) l cells)
      | _, _, _ => None
      end
  | VObject l =>
      match t, old with
      | TStruct fs, GStruct vals => option_map GStruct (decode_fields decode fs l vals)
      | _, _ => None
      end
  end.
End Decode.

(** [json.Unmarshal] into a new variable of type [t]. *)
Definition Unmarshal (t : GoType) (s : string) : option GoVal :=
  match Parse s with Some v => decode false v t (zero t) | None => None end.

(** ** A Decoder over a stream *)

(** Why a reader has no more bytes. *)
Inductive StreamEnd := AtEOF | AtLimit | AtFault.

(** [http.MaxBytesReader] over a body whose reading may fail after its bytes. *)
Definition MaxBytes (limit : Z) (body : string) (faulty : bool) : string * StreamEnd :=
  if limit <? len body then (stake (Z.to_nat limit) body, AtLimit) else (body, if faulty then AtFault else AtEOF).

Inductive DecodeError := ErrEOF | ErrTooLarge | ErrOther.

(** An object or array ends with its bracket; any other value only with the
    byte after it, or at the end of the stream. *)
Definition bracketed (v : Val) : bool := match v with VArray _ | VObject _ => true | _ => false end.

Definition stream_error (e : StreamEnd) (s : string) : DecodeError :=
  match e with
  | AtEOF => if skip s =s "" then ErrEOF else ErrOther
  | AtLimit => ErrTooLarge
  | AtFault => ErrOther
  end.

(** [Decode] into a new variable of type [t], with DisallowUnknownFields, and
    the bytes that are left. *)
Definition Decode (t : GoType) (s : string) (e : StreamEnd) : result DecodeError (GoVal * string) :=
  let stored v rest := match decode true v t (zero t) with Some g => Ok (g, rest) | None => Err ErrOther end in
  match first_value s with
  | Got v rest =>
      if bracketed v then stored v rest
      else match rest, e with
           | EmptyString, AtEOF | String _ _, _ => stored v rest
           | EmptyString, _ => Err (stream_error e s)
           end
  | Short => Err (stream_error e s)
  | Bad => Err ErrOther
  end.

(** [More]: a byte follows that does not close a container. *)
Definition More (rest : string) : bool :=
  match skip rest with
  | EmptyString => false
  | String c _ => negb (Ascii.eqb c "]" || Ascii.eqb c "}")
  end.

(** ** Every reader takes bytes *)

Lemma skip_le s : (String.length (skip s) <= String.length s)%nat.
Proof. unfold skip. induction s as [|c s IH]; cbn [trim_left_set String.length]; [lia|]. case_match; cbn [String.length]; lia. Qed.

Lemma hex_run_le n : forall acc s v r, hex_run n acc s = Got v r -> (String.length r <= String.length s)%nat.
Proof.
  induction n as [|n IH]; intros acc s v r; cbn [hex_run]; [by intros [= _ ->]|].
  destruct s as [|c s]; [done|]. destruct (hex_value c); [|done]. intros Hr%IH. cbn. lia.
Qed.

Lemma second_half_le hi s v r : second_half hi s = Some (v, r) -> (String.length r <= String.length s)%nat.
Proof.
  unfold second_half. intros Hs. destruct s as [|a [|u s]]; try done. destruct (_ && _); [|done].
  destruct (hex_run 4 0 s) as [lo r'| |] eqn:Hh; try done. apply hex_run_le in Hh.
  destruct (utf16_pair hi lo); [|done]. injection Hs as _ ->. cbn. lia.
Qed.

Lemma piece_shorter s :
  match piece s with
  | Ends rest | Piece_ _ rest => (String.length rest < String.length s)%nat
  | _ => True
  end.
Proof.
  destruct s as [|c r]; [done|]. unfold piece. destruct (code c =? 34); [cbn; lia|]. destruct (code c =? 92).
  - destruct r as [|e r]; [done|]. destruct (Ascii.eqb e "u"); [|destruct (plain_escape e); [cbn; lia|done]].
    destruct (hex_run 4 0 r) as [v r'| |] eqn:Hh; try done. apply hex_run_le in Hh.
    destruct (surrogate v); [|cbn; lia]. destruct (second_half v r') as [[w r2]|] eqn:H2; [|cbn; lia].
    apply second_half_le in H2. cbn. lia.
  - destruct (code c <? 32); [done|]. destruct (rune_size (String c r)) as [|n] eqn:Hn; [cbn; lia|].
    by apply sdrop_shorter.
Qed.

Lemma scan_map_got {A B} (f : A -> B) x b r : scan_map f x = Got b r -> exists a, x = Got a r /\ b = f a.
Proof. destruct x; [|done..]. intros [= <- <-]. eauto. Qed.

Lemma string_fuel_shorter fuel : forall s t rest, string_fuel fuel s = Got t rest -> (String.length rest < String.length s)%nat.
Proof.
  induction fuel as [|fuel IH]; intros s t rest; cbn [string_fuel]; [done|]. pose proof (piece_shorter s) as Hp.
  destruct (piece s); try done; [by intros [= _ <-]|]. intros (t' & Ht%IH & _)%scan_map_got. lia.
Qed.

Lemma digits_split s : forall d r, digits s = (d, r) -> (s = d +:+ r)%string.
Proof.
  induction s as [|c s IH]; intros d r; cbn [digits]; [by intros [= <- <-]|].
  destruct (digit c); [|by intros [= <- <-]]. destruct (digits s) as [d' r'] eqn:Hd. intros [= <- <-].
  rewrite (IH d' r' eq_refl). by autorewrite with str.
Qed.

Lemma digits1_shorter s d r : digits1 s = Got d r -> (String.length r < String.length s)%nat.
Proof.
  unfold digits1. destruct (digits s) as [x y] eqn:Hd. apply digits_split in Hd. destruct x as [|a x]; [by destruct y|].
  intros [= _ <-]. subst s. rewrite length_sapp. cbn. lia.
Qed.

Lemma exponent_le s e r : exponent s = Got e r -> (String.length r <= String.length s)%nat.
Proof.
  unfold exponent. destruct s as [|c s]; [by intros [= _ <-]|]. destruct (_ || _); [|by intros [= _ <-]].
  destruct s as [|x s]; [done|].
  destruct (_ || _); intros (a & Ha%digits1_shorter & _)%scan_map_got; cbn in *; lia.
Qed.

Lemma fraction_le s e r : fraction s = Got e r -> (String.length r <= String.length s)%nat.
Proof.
  unfold fraction. destruct s as [|c s]; [by intros [= _ <-]|]. destruct (Ascii.eqb c "."); [|apply exponent_le].
  destruct (digits1 s) as [d r'| |] eqn:Hd; try done. apply digits1_shorter in Hd.
  intros (a & Ha%exponent_le & _)%scan_map_got. cbn. lia.
Qed.

Lemma natural_shorter s e r : natural s = Got e r -> (String.length r < String.length s)%nat.
Proof.
  unfold natural. destruct s as [|c s]; [done|]. destruct (Ascii.eqb c "0").
  - intros (a & Ha%fraction_le & _)%scan_map_got. cbn. lia.
  - destruct (digits (String c s)) as [d r'] eqn:Hd. apply digits_split in Hd. destruct d as [|x d]; [done|].
    intros (a & Ha%fraction_le & _)%scan_map_got. rewrite Hd, length_sapp. cbn. lia.
Qed.

Lemma number_shorter s e r : number s = Got e r -> (String.length r < String.length s)%nat.
Proof.
  unfold number. destruct s as [|c s]; [done|]. destruct (Ascii.eqb c "-"); [|apply natural_shorter].
  intros (a & Ha%natural_shorter & _)%scan_map_got. cbn. lia.
Qed.

Lemma word_le w : forall s u r, word w s = Got u r -> (String.length r <= String.length s)%nat.
Proof.
  induction w as [|a w IH]; intros s u r; cbn [word]; [by intros [= _ <-]|]. destruct s as [|c s]; [done|].
  destruct (Ascii.eqb a c); [|done]. intros Hr%IH. cbn. lia.
Qed.

Ltac got_inv :=
  repeat match goal with
  | H : scan_map _ _ = Got _ _ |- _ => apply scan_map_got in H as (? & H & ?)
  | H : Got _ _ = Got _ _ |- _ => injection H as ? ?; subst
  end.

(** The readers of containers, once the byte that opens them is taken. *)
Lemma reads_shorter fuel :
  (forall d s v r, value fuel d s = Got v r -> (String.length r < String.length s)%nat)
  /\ (forall d b s l r, elements fuel d b s = Got l r -> (String.length r < String.length s)%nat)
  /\ (forall d b s l r, members fuel d b s = Got l r -> (String.length r < String.length s)%nat).
Proof.
  induction fuel as [|fuel (IHv & IHe & IHm)]; [done|]. split; [|split].
  - intros d s v r. cbn [value]. pose proof (skip_le s) as Hs. destruct (skip s) as [|c t]; [done|]. cbn [String.length] in Hs.
    repeat (case_match; try done); intros Hv; got_inv.
    all: try (apply IHm in Hv); try (apply IHe in Hv); try (apply string_fuel_shorter in Hv);
         try (apply word_le in Hv); try (apply number_shorter in Hv; cbn in Hv); lia.
  - intros d b s l r. cbn [elements]. pose proof (skip_le s) as Hs. destruct (skip s) as [|c t]; [done|]. cbn [String.length] in Hs.
    destruct (b && _); [intros [= _ <-]; lia|]. destruct (value fuel d (String c t)) as [v r1| |] eqn:Hv; try done.
    apply IHv in Hv. cbn in Hv. pose proof (skip_le r1). destruct (skip r1) as [|c' t']; [done|]. cbn [String.length] in *.
    repeat (case_match; try done); intros Hl; got_inv; try (apply IHe in Hl); lia.
  - intros d b s l r. cbn [members]. pose proof (skip_le s) as Hs. destruct (skip s) as [|c t]; [done|]. cbn [String.length] in Hs.
    destruct (b && _); [intros [= _ <-]; lia|]. destruct (negb _); [done|].
    destruct (string_body t) as [k r0| |] eqn:Hk; try done. apply string_fuel_shorter in Hk.
    pose proof (skip_le r0). destruct (skip r0) as [|c0 t0]; [done|]. destruct (negb _); [done|].
    destruct (value fuel d t0) as [v r1| |] eqn:Hv; try done. apply IHv in Hv.
    pose proof (skip_le r1). destruct (skip r1) as [|c' t']; [done|]. cbn [String.length] in *.
    repeat (case_match; try done); intros Hl; got_inv; try (apply IHm in Hl); lia.
Qed.

(** Fuel beyond twice the bytes changes nothing: the reader is total. *)
Lemma more_fuel fuel :
  (forall d s, (2 * String.length s + 1 <= fuel)%nat -> value (S fuel) d s = value fuel d s)
  /\ (forall d b s, (2 * String.length s + 2 <= fuel)%nat -> elements (S fuel) d b s = elements fuel d b s)
  /\ (forall d b s, (2 * String.length s + 2 <= fuel)%nat -> members (S fuel) d b s = members fuel d b s).
Proof.
  induction fuel as [|fuel (IHv & IHe & IHm)]; [repeat split; intros; lia|].
  remember (S fuel) as k eqn:Hk. split; [|split].
  - intros d s Hf. rewrite Hk at 2. cbn [value]. pose proof (skip_le s) as Hs. destruct (skip s) as [|c t]; [done|].
    cbn [String.length] in Hs. subst k. by rewrite IHm, IHe by lia.
  - intros d b s Hf. rewrite Hk at 2. cbn [elements]. pose proof (skip_le s) as Hs. destruct (skip s) as [|c t]; [done|].
    subst k. rewrite IHv by lia. destruct (b && _); [done|].
    destruct (value fuel d (String c t)) as [v r| |] eqn:Hv; try done. apply reads_shorter in Hv.
    pose proof (skip_le r) as Hr. destruct (skip r) as [|c' t']; [done|]. cbn [String.length] in *. by rewrite IHe by lia.
  - intros d b s Hf. rewrite Hk at 2. cbn [members]. pose proof (skip_le s) as Hs. destruct (skip s) as [|c t]; [done|].
    subst k. destruct (b && _); [done|]. destruct (negb _); [done|].
    destruct (string_body t) as [n r0| |] eqn:Hn; try done. apply string_fuel_shorter in Hn.
    pose proof (skip_le r0). destruct (skip r0) as [|c0 t0]; [done|]. cbn [String.length] in *. rewrite IHv by lia.
    destruct (negb _); [done|]. destruct (value fuel d t0) as [v r| |] eqn:Hv; try done. apply reads_shorter in Hv.
    pose proof (skip_le r) as Hr. destruct (skip r) as [|c' t']; [done|]. cbn [String.length] in *. by rewrite IHm by lia.
Qed.

Lemma enough_fuel d s extra : value (2 * String.length s + 1 + extra) d s = value (2 * String.length s + 1) d s.
Proof.
  induction extra as [|n IH]; [by rewrite Nat.add_0_r|]. rewrite Nat.add_succ_r. rewrite <- IH.
  apply more_fuel. lia.
Qed.

(** ** What the encoder wrote is read back *)

(** The text with every byte that is no UTF-8 replaced. *)
Fixpoint repair_fuel (fuel : nat) (s : string) : string :=
  match fuel, s with
  | O, _ | _, EmptyString => ""
  | S fuel, String _ r =>
      match rune_size s with
      | O => RuneError +:+ repair_fuel fuel r
      | n => stake n s +:+ repair_fuel fuel (sdrop n s)
      end
  end.

Definition repaired (s : string) : string := repair_fuel (String.length s) s.

Lemma repair_valid fuel : forall s, (String.length s <= fuel)%nat -> Utf8 s -> repair_fuel fuel s = s.
Proof.
  induction fuel as [|fuel IH]; intros s Hf Hs; [destruct s; [done|cbn in Hf; lia]|].
  destruct Hs as [|s n Hn Hs]; [done|]. destruct s as [|c r] eqn:He; [done|]. cbn [repair_fuel]. rewrite <- He in *. rewrite Hn.
  rewrite IH; [apply stake_sdrop| |done]. pose proof (sdrop_shorter _ _ Hn). lia.
Qed.

Lemma repaired_valid s : ValidString s = true -> repaired s = s.
Proof. intros Hs%ValidString_Utf8. by apply repair_valid. Qed.

(** A rune of one byte is written so that it is one piece of the string. *)
Lemma piece_ascii c t : code c < 128 -> piece (json_rune (String c "") +:+ t) = Piece_ (String c "") t.
Proof.
  intros Hc. destruct c as [[] [] [] [] [] [] [] []]; try (exfalso; revert Hc; vm_compute; discriminate); try reflexivity.
Qed.

(** The bytes of one rune of more than a byte. *)
Lemma wide_rune a b r : rune_size (String a (String b r)) = String.length (String a (String b r)) ->
  128 <= code a /\
  match r with
  | EmptyString => 194 <= code a <= 223 /\ 128 <= code b <= 191
  | String c EmptyString => 224 <= code a <= 239 /\ 128 <= code b <= 191 /\ 128 <= code c <= 191 /\ (code a = 224 -> 160 <= code b)
  | String c (String d EmptyString) =>
      240 <= code a <= 244 /\ 128 <= code b <= 191 /\ 128 <= code c <= 191 /\ 128 <= code d <= 191 /\ (code a = 240 -> 144 <= code b)
  | _ => False
  end.
Proof.
  unfold rune_size. destruct (Z.ltb_spec (code a) 128) as [|Ha]; [done|]. intros Hr. split; [done|]. revert Hr.
  destruct (lead a) as [[[n lo] hi]|] eqn:Hl; [|done]. destruct (in_range lo hi b && cont (n - 2) r) eqn:Hb; [|done].
  unfold lead, in_range in Hl. unfold in_range in Hb.
  split_in Hl; intros Hn; destruct r as [|c [|d [|e r]]]; cbn [String.length] in Hn; try lia; cbn in Hb; unfold in_range in Hb; lia.
Qed.

Lemma rune_value_wide a b r : rune_size (String a (String b r)) = String.length (String a (String b r)) ->
  128 <= rune_value (String a (String b r)).
Proof.
  intros [Ha Hr]%wide_rune. pose proof (code_range a).
  destruct r as [|c [|d [|e r]]]; cbn [rune_value]; [lia|lia| |done]. nia.
Qed.

Lemma octet_code c z : code c = z -> c = octet z.
Proof. intros <-. unfold octet, code. by rewrite N2Z.id, ascii_N_embedding. Qed.

(** The two separators that are escaped. *)
Lemma rune_separator a b r v : rune_size (String a (String b r)) = String.length (String a (String b r)) ->
  rune_value (String a (String b r)) = v -> v = 8232 \/ v = 8233 ->
  String a (String b r) = String (octet 226) (String (octet 128) (String (octet (v - 8064)) "")).
Proof.
  intros [Ha Hr]%wide_rune Hv Hs. pose proof (code_range a).
  destruct r as [|c [|d [|e r]]]; cbn [rune_value] in Hv; [lia| |exfalso; nia|done].
  assert (code a = 226) by nia. assert (code b = 128) by nia.
  rewrite (octet_code a 226), (octet_code b 128), (octet_code c (v - 8064)) by lia. done.
Qed.

Lemma sdrop_past s : sdrop (String.length s) s = ""%string.
Proof. by induction s as [|c s IH]. Qed.

Lemma piece_rune r t : rune_size r = String.length r -> r <> ""%string -> piece (json_rune r +:+ t) = Piece_ r t.
Proof.
  destruct r as [|a [|b r]]; [done| |].
  - intros Hs _. apply piece_ascii. unfold rune_size in Hs. destruct (Z.ltb_spec (code a) 128); [done|]. by destruct (lead a) as [[[??]?]|].
  - intros Hs _. pose proof (rune_value_wide _ _ _ Hs) as Hw. unfold json_rune. set (v := rune_value _) in *.
    destruct (Z.eqb_spec v 8232) as [He|]; [|destruct (Z.eqb_spec v 8233) as [He|]].
    1,2: rewrite (rune_separator _ _ _ v Hs eq_refl) by lia; rewrite He; reflexivity.
    rewrite !(proj2 (Z.eqb_neq v _)), (proj2 (Z.ltb_ge v 32)) by lia. cbn [orb].
    pose proof (proj1 (wide_rune _ _ _ Hs)) as Ha. assert (Hst : rune_size (String a (String b r) +:+ t) = S (S (String.length r))) by (by apply rune_size_app).
    rewrite !sapp_cons in Hst |- *. unfold piece. rewrite !(proj2 (Z.eqb_neq (code a) _)), (proj2 (Z.ltb_ge (code a) 32)) by lia.
    rewrite Hst. rewrite <- !sapp_cons. f_equal.
    + rewrite stake_prefix by done. by rewrite stake_all.
    + rewrite sdrop_app by done. pose proof (sdrop_past (String a (String b r))) as Hd. cbn [String.length] in Hd. by rewrite Hd.
Qed.

Lemma json_rune_some r : r <> ""%string -> (0 < String.length (json_rune r))%nat.
Proof. intros Hr. unfold json_rune, escaped. repeat (case_match; [cbn; lia|]). destruct r; [done|cbn; lia]. Qed.

(** A string the encoder wrote, up to its closing quote. *)
Lemma string_back fuel : forall s fuel' rest, (String.length s <= fuel)%nat ->
  (String.length (json_runes fuel s) < fuel')%nat ->
  string_fuel fuel' (json_runes fuel s +:+ dquote +:+ rest) = Got (repair_fuel fuel s) rest.
Proof.
  induction fuel as [|fuel IH]; intros s fuel' rest Hs Hf'.
  { destruct s; [|cbn in Hs; lia]. destruct fuel'; [cbn in Hf'; lia|done]. }
  destruct fuel' as [|fuel']; [lia|]. destruct s as [|c r]; [done|]. cbn [json_runes repair_fuel] in *. cbn [string_fuel].
  destruct (rune_size (String c r)) as [|n] eqn:Hn.
  - rewrite sapp_assoc. change (piece (escaped "ufffd" +:+ ?x)) with (Piece_ RuneError x). cbv iota.
    rewrite IH; [done|cbn in Hs; lia|]. rewrite length_sapp in Hf'.
    change (String.length (escaped "ufffd")) with 6%nat in Hf'. lia.
  - pose proof (sdrop_shorter _ _ Hn) as Hd. pose proof (rune_size_stake _ _ Hn) as Ht.
    assert (String.length (stake (S n) (String c r)) = S n) as Hl by (rewrite length_stake; pose proof (rune_size_le (String c r)); lia).
    rewrite sapp_assoc, piece_rune; [|by rewrite Ht, Hl|by cbn]. cbv iota.
    rewrite IH; [done|lia|]. rewrite length_sapp in Hf'. pose proof (json_rune_some (stake (S n) (String c r)) ltac:(done)). lia.
Qed.

Lemma json_string_back s rest : string_body (json_runes (String.length s) s +:+ dquote +:+ rest) = Got (repaired s) rest.
Proof. apply string_back; [done|]. rewrite !length_sapp. cbn [dquote String.length]. lia. Qed.

(** *** Numbers *)

Definition number_stops (rest : string) : Prop :=
  match rest with
  | EmptyString => True
  | String c _ => digit c = false /\ Ascii.eqb c "." = false /\ Ascii.eqb c "e" = false /\ Ascii.eqb c "E" = false
  end.

Lemma digits_back d rest : sall digit d = true -> number_stops rest -> digits (d +:+ rest) = (d, rest).
Proof.
  induction d as [|c d IH]; intros Hd Hr.
  - autorewrite with str. destruct rest as [|c r]; [done|]. destruct Hr as [Hc _]. cbn [digits]. by rewrite Hc.
  - cbn [sall] in Hd. apply andb_true_iff in Hd as [Hc Hd]. autorewrite with str. cbn [digits]. by rewrite Hc, IH.
Qed.

Lemma fraction_stops rest : number_stops rest -> fraction rest = Got ""%string rest.
Proof. destruct rest as [|c r]; [done|]. intros (_ & Hp & He & HE). unfold fraction, exponent. by rewrite Hp, He, HE. Qed.

Lemma natural_back n rest : 0 <= n -> number_stops rest -> natural (Itoa n +:+ rest) = Got (Itoa n) rest.
Proof.
  intros Hn Hr. destruct (decide (n = 0)) as [->|Hz].
  - change (Itoa 0) with "0"%string. autorewrite with str. unfold natural. rewrite fraction_stops by done. done.
  - destruct (Itoa_pos n ltac:(lia)) as (_ & Hd & Hf). destruct (Hf ltac:(lia)) as (c & r & He & Hc). rewrite He in *.
    rewrite sapp_cons. unfold natural. destruct (Ascii.eqb_spec c "0") as [->|_]; [done|].
    rewrite <- sapp_cons, digits_back by done. rewrite fraction_stops by done. cbn [scan_map]. by rewrite sapp_nil_r.
Qed.

Lemma Itoa_neg n : n < 0 -> Itoa n = String "-" (Itoa (- n)).
Proof. intros Hn. unfold Itoa. rewrite Z.abs_opp, (proj2 (Z.ltb_lt n 0)), (proj2 (Z.ltb_ge (- n) 0)) by lia. done. Qed.

Lemma Itoa_head n : exists c r, Itoa n = String c r /\ (digit c = true \/ c = "-"%char).
Proof.
  destruct (decide (n < 0)) as [Hn|Hn]; [rewrite Itoa_neg by done; eauto|].
  destruct (decide (n = 0)) as [->|Hz]; [by exists "0"%char, ""%string; split; [|left]|].
  destruct (Itoa_pos n ltac:(lia)) as (_ & Hd & Hf). destruct (Hf ltac:(lia)) as (c & r & He & _). rewrite He in *.
  exists c, r. split; [done|left]. cbn [sall] in Hd. by apply andb_true_iff in Hd as [Hd _].
Qed.

Lemma number_back n rest : number_stops rest -> number (Itoa n +:+ rest) = Got (Itoa n) rest.
Proof.
  intros Hr. destruct (decide (n < 0)) as [Hn|Hn].
  - rewrite Itoa_neg by done. rewrite sapp_cons. unfold number. rewrite Ascii.eqb_refl. by rewrite natural_back by (done || lia).
  - destruct (Itoa_head n) as (c & r & He & Hc). unfold number. rewrite He, sapp_cons, <- sapp_cons, <- He.
    destruct Hc as [Hc| ->]; [|exfalso].
    + destruct (digit_not_sign c Hc) as [-> _]. apply natural_back; [lia|done].
    + destruct (decide (n = 0)) as [->|Hz]; [done|]. destruct (Itoa_pos n ltac:(lia)) as (_ & Hd & _). by rewrite He in Hd.
Qed.

(** *** Values *)

Fixpoint val_of (j : Json) : Val :=
  match j with
  | JNull => VNull
  | JString s => VString (repaired s)
  | JInt n => VNumber (Itoa n)
  | JArray l => VArray (map val_of l)
  | JObject l => VObject (map (fun kv => (repaired kv.1, val_of kv.2)) l)
  end.

(** How many containers are open inside a tree at most. *)
Fixpoint nesting (j : Json) : Z :=
  match j with
  | JArray l => 1 + foldr (fun j m => Z.max (nesting j) m) 0 l
  | JObject l => 1 + foldr (fun kv m => Z.max (nesting kv.2) m) 0 l
  | _ => 0
  end.

Section Json_induction.
Context (P : Json -> Prop) (Hnull : P JNull) (Hstring : forall s, P (JString s)) (Hint_ : forall n, P (JInt n)).
Context (Harray : forall l, Forall P l -> P (JArray l)).
Context (Hobject : forall l, Forall (fun kv => P kv.2) l -> P (JObject l)).

Fixpoint Json_nested_ind (j : Json) : P j :=
  match j with
  | JNull => Hnull
  | JString s => Hstring s
  | JInt n => Hint_ n
  | JArray l =>
      Harray l ((fix go l : Forall P l :=
                   match l with [] => List.Forall_nil _ | j :: l => @List.Forall_cons _ _ j l (Json_nested_ind j) (go l) end) l)
  | JObject l =>
      Hobject l ((fix go l : Forall (fun kv => P kv.2) l :=
                   match l with [] => List.Forall_nil _ | kv :: l => @List.Forall_cons _ _ kv l (Json_nested_ind kv.2) (go l) end) l)
  end.
End Json_induction.

Lemma skip_ws w s : sall is_ws w = true -> skip (w +:+ s) = skip s.
Proof.
  induction w as [|c w IH]; autorewrite with str; [done|]. cbn [sall]. intros [Hc Hw]%andb_true_iff.
  unfold skip. cbn [trim_left_set]. rewrite Hc. by apply IH.
Qed.

Lemma skip_stop c s : is_ws c = false -> skip (String c s) = String c s.
Proof. intros Hc. unfold skip. cbn [trim_left_set]. by rewrite Hc. Qed.

Lemma spaces_ws n : sall is_ws (spaces n) = true.
Proof. by induction n. Qed.

(** Reading [s] with [d] containers open gives [v] and leaves [rest], with all
    fuel from some on. *)
Definition reads_value (d : Z) (s : string) (v : Val) (rest : string) : Prop :=
  exists n, forall fuel, (n <= fuel)%nat -> value fuel d s = Got v rest.
Definition reads_elements (d : Z) (b : bool) (s : string) (l : list Val) (rest : string) : Prop :=
  exists n, forall fuel, (n <= fuel)%nat -> elements fuel d b s = Got l rest.
Definition reads_members (d : Z) (b : bool) (s : string) (l : list (string * Val)) (rest : string) : Prop :=
  exists n, forall fuel, (n <= fuel)%nat -> members fuel d b s = Got l rest.

Lemma reads_parse s v rest : reads_value 0 s v rest -> first_value s = Got v rest.
Proof.
  intros [n Hn]. unfold first_value. rewrite <- (enough_fuel 0 s n). apply Hn. lia.
Qed.

Lemma skip_skip s : skip (skip s) = skip s.
Proof. unfold skip. induction s as [|c s IH]; [done|]. cbn [trim_left_set]. destruct (is_ws c) eqn:Hc; [done|]. cbn. by rewrite Hc. Qed.

Lemma value_skip fuel d s : value fuel d (skip s) = value fuel d s.
Proof. destruct fuel; cbn [value]; [done|]. by rewrite skip_skip. Qed.

(** A value does not begin with the bracket that ends an array. *)
Lemma value_head d s v rest : reads_value d s v rest -> exists c r, skip s = String c r /\ Ascii.eqb c "]" = false.
Proof.
  intros [n Hn]. specialize (Hn (S n) ltac:(lia)). cbn [value] in Hn. destruct (skip s) as [|c r]; [done|]. exists c, r.
  split; [done|]. by destruct (Ascii.eqb_spec c "]") as [->|].
Qed.

Lemma elements_more d b s v rest1 r l rest :
  reads_value d s v rest1 -> skip rest1 = String "," r -> reads_elements d false r l rest ->
  reads_elements d b s (v :: l) rest.
Proof.
  intros Hv Hr [m Hm]. destruct (value_head _ _ _ _ Hv) as (c & t & Hs & Hc). destruct Hv as [n Hn].
  exists (S (n + m)). intros [|fuel] Hf; [lia|]. cbn [elements]. rewrite Hs, Hc, andb_false_r, <- Hs, value_skip, Hn, Hr by lia.
  by rewrite Ascii.eqb_refl, Hm by lia.
Qed.

Lemma elements_last d b s v rest1 rest :
  reads_value d s v rest1 -> skip rest1 = String "]" rest -> reads_elements d b s [v] rest.
Proof.
  intros Hv Hr. destruct (value_head _ _ _ _ Hv) as (c & t & Hs & Hc). destruct Hv as [n Hn].
  exists (S n). intros [|fuel] Hf; [lia|]. cbn [elements]. by rewrite Hs, Hc, andb_false_r, <- Hs, value_skip, Hn, Hr by lia.
Qed.

(** A member: its key in quotes, a colon, its value. *)
Definition reads_member (d : Z) (s : string) (kv : string * Val) (rest : string) : Prop :=
  exists body after r, skip s = String (octet 34) body /\ string_body body = Got kv.1 after
    /\ skip after = String ":" r /\ reads_value d r kv.2 rest.

Lemma members_more d b s kv rest1 r l rest :
  reads_member d s kv rest1 -> skip rest1 = String "," r -> reads_members d false r l rest ->
  reads_members d b s (kv :: l) rest.
Proof.
  intros (body & after & t & Hs & Hk & Ha & [n Hn]) Hr [m Hm]. exists (S (n + m)). intros [|fuel] Hf; [lia|].
  cbn [members]. rewrite Hs. change (Ascii.eqb (octet 34) "}") with false. rewrite andb_false_r.
  change (negb (code (octet 34) =? 34)) with false. cbv iota. rewrite Hk, Ha.
  change (negb (Ascii.eqb ":" ":")) with false. cbv iota. rewrite Hn, Hr by lia.
  rewrite Ascii.eqb_refl, Hm by lia. by destruct kv.
Qed.

Lemma members_last d b s kv rest1 rest :
  reads_member d s kv rest1 -> skip rest1 = String "}" rest -> reads_members d b s [kv] rest.
Proof.
  intros (body & after & t & Hs & Hk & Ha & [n Hn]) Hr. exists (S n). intros [|fuel] Hf; [lia|].
  cbn [members]. rewrite Hs. change (Ascii.eqb (octet 34) "}") with false. rewrite andb_false_r.
  change (negb (code (octet 34) =? 34)) with false. cbv iota. rewrite Hk, Ha.
  change (negb (Ascii.eqb ":" ":")) with false. cbv iota. rewrite Hn, Hr by lia. by destruct kv.
Qed.

Lemma ws_stops c s : is_ws c = true -> number_stops (String c s).
Proof. destruct c as [[] [] [] [] [] [] [] []]; vm_compute; done. Qed.

Lemma ws_text_stops w : sall is_ws w = true -> number_stops w.
Proof. destruct w as [|c w]; [done|]. cbn [sall]. intros [Hc _]%andb_true_iff. by apply ws_stops. Qed.

(** The members of a block, each after a line break. *)
Lemma reads_block {A} (one : string -> A -> string -> Prop) (many : bool -> string -> list A -> string -> Prop)
    (close : ascii) (line tail_ : string) (texts : list string) (vals : list A) (rest : string) :
  sall is_ws line = true -> sall is_ws tail_ = true -> is_ws close = false -> number_stops (String close "") ->
  (forall s x r, one s x r -> forall w, sall is_ws w = true -> one (w +:+ s) x r) ->
  (forall b s x r1 r l, one s x r1 -> skip r1 = String "," r -> many false r l rest -> many b s (x :: l) rest) ->
  (forall b s x r1, one s x r1 -> skip r1 = String close rest -> many b s [x] rest) ->
  Forall2 (fun t x => forall r, number_stops r -> one (t +:+ r) x r) texts vals -> texts <> [] ->
  forall b, many b (line +:+ Join texts ("," +:+ line) +:+ tail_ +:+ String close rest) vals rest.
Proof.
  intros Hl Ht Hc Hcs Hw Hmore Hlast Hall.
  assert (Hend : number_stops (tail_ +:+ String close rest)).
  { destruct tail_ as [|x t]; [exact Hcs|]. rewrite sapp_cons. cbn [sall] in Ht. apply andb_true_iff in Ht as [Hx _]. by apply ws_stops. }
  induction Hall as [|t x texts vals Hx Hall IH]; [done|]. intros _ b. destruct texts as [|t' texts].
  - inversion Hall; subst. cbn [Join String.concat]. apply (Hlast b _ x (tail_ +:+ String close rest)).
    + by apply Hw; [apply Hx|].
    + rewrite skip_ws, skip_stop by done. done.
  - change (Join (t :: t' :: texts) ("," +:+ line)) with (t +:+ ("," +:+ line) +:+ Join (t' :: texts) ("," +:+ line)).
    rewrite !sapp_assoc. rewrite (sapp_cons "," ""), sapp_nil.
    eapply Hmore; [apply Hw; [apply Hx|done]| |]; [by cbn|by rewrite skip_stop|].
    by apply IH.
Qed.

Lemma value_ws d s v r w : sall is_ws w = true -> reads_value d s v r -> reads_value d (w +:+ s) v r.
Proof.
  intros Hw [n Hn]. exists n. intros fuel Hf. rewrite <- value_skip, skip_ws, value_skip by done. by apply Hn.
Qed.

Lemma member_ws d s kv r w : sall is_ws w = true -> reads_member d s kv r -> reads_member d (w +:+ s) kv r.
Proof. intros Hw (body & after & t & Hs & Hk). exists body, after, t. by rewrite skip_ws. Qed.

(** A value whose first byte is [c] is read by one unfolding. *)
Lemma reads_open d c s v rest : is_ws c = false ->
  (exists n, forall fuel, (n <= fuel)%nat -> value (S fuel) d (String c s) = Got v rest) -> reads_value d (String c s) v rest.
Proof. intros _ [n Hn]. exists (S n). intros [|fuel] Hf; [lia|]. apply Hn. lia. Qed.

Lemma object_reads d s l rest : d < maxNestingDepth -> reads_members (d + 1) true s l rest -> reads_value d (String "{" s) (VObject l) rest.
Proof.
  intros Hd [n Hn]. apply reads_open; [done|]. exists n. intros fuel Hf. cbn [value]. rewrite skip_stop by done.
  rewrite Ascii.eqb_refl, (proj2 (Z.leb_gt _ _)), Hn by done. done.
Qed.

Lemma array_reads d s l rest : d < maxNestingDepth -> reads_elements (d + 1) true s l rest -> reads_value d (String "[" s) (VArray l) rest.
Proof.
  intros Hd [n Hn]. apply reads_open; [done|]. exists n. intros fuel Hf. cbn [value]. rewrite skip_stop by done.
  change (Ascii.eqb "[" "{") with false. cbv iota. rewrite Ascii.eqb_refl, (proj2 (Z.leb_gt _ _)), Hn by done. done.
Qed.

Lemma string_reads d s rest : reads_value d (json_string s +:+ rest) (VString (repaired s)) rest.
Proof.
  unfold json_string. rewrite !sapp_assoc. change (dquote +:+ ?x) with (String (octet 34) x) at 1.
  apply reads_open; [done|]. exists O. intros fuel _. cbn [value]. rewrite skip_stop by done.
  change (Ascii.eqb (octet 34) "{") with false. change (Ascii.eqb (octet 34) "[") with false.
  change (code (octet 34) =? 34) with true. cbv iota. by rewrite json_string_back.
Qed.

Lemma int_reads d n rest : number_stops rest -> reads_value d (Itoa n +:+ rest) (VNumber (Itoa n)) rest.
Proof.
  intros Hr. pose proof (number_back n rest Hr) as Hn. destruct (Itoa_head n) as (c & r & He & Hc). rewrite He, sapp_cons in *.
  assert (Hcode : 48 <= code c <= 57 \/ code c = 45).
  { destruct Hc as [Hc| ->]; [left|by right]. unfold digit, range in Hc.
    change (code "0") with 48 in Hc. change (code "9") with 57 in Hc. lia. }
  assert (Hne : forall x, (code x =? 45) || (48 <=? code x) && (code x <=? 57) = false -> Ascii.eqb c x = false).
  { intros x Hx. destruct (Ascii.eqb_spec c x) as [->|]; [lia|done]. }
  apply reads_open; [unfold is_ws; lia|]. exists O. intros fuel _. cbn [value]. rewrite skip_stop by (unfold is_ws; lia).
  rewrite !Hne by reflexivity. rewrite (proj2 (Z.eqb_neq (code c) 34)) by lia. by rewrite Hn.
Qed.

Lemma member_reads d k gap s v rest : sall is_ws gap = true -> reads_value d s v rest ->
  reads_member d (json_string k +:+ ":" +:+ gap +:+ s) (repaired k, v) rest.
Proof.
  intros Hg Hv. unfold json_string. rewrite !sapp_assoc. do 3 eexists. split; [by apply skip_stop|].
  split; [apply json_string_back|]. split; [by apply skip_stop|]. by apply value_ws.
Qed.

(** *** The whole tree *)

Lemma max_bound {A} (f : A -> Z) (l : list A) b : foldr (fun x m => Z.max (f x) m) 0 l <= b -> Forall (fun x => f x <= b) l.
Proof. induction l as [|x l IH]; cbn; intros Hb; constructor; [lia|]. apply IH. lia. Qed.

Lemma foldr_max_nonneg {A} (f : A -> Z) (l : list A) : 0 <= foldr (fun x m => Z.max (f x) m) 0 l.
Proof. induction l; cbn; lia. Qed.

Section Render.
Context (line : nat -> string) (gap : string).
Context (Hline : forall n, sall is_ws (line n) = true) (Hgap : sall is_ws gap = true).

Lemma block_reads_array d depth l :
  Forall (fun j => forall depth rest, number_stops rest -> reads_value (d + 1) (render line gap depth j +:+ rest) (val_of j) rest) l ->
  d < maxNestingDepth -> forall rest, reads_value d (render line gap depth (JArray l) +:+ rest) (val_of (JArray l)) rest.
Proof.
  intros Hl Hd rest. cbn [render val_of]. destruct l as [|j l].
  { apply array_reads; [done|]. exists 1%nat. intros [|fuel] Hf; [lia|]. cbn [elements]. by rewrite skip_stop. }
  remember (j :: l) as js eqn:Hjs. unfold json_block. destruct (map _ js) as [|t ts] eqn:Hm; [by subst|]. rewrite <- Hm.
  rewrite !sapp_assoc. rewrite sapp_cons, sapp_nil. change ("]" +:+ rest) with (String "]" rest).
  apply array_reads; [done|].
  refine (reads_block (reads_value (d + 1)) (reads_elements (d + 1)) "]" _ _ _ _ rest (Hline _) (Hline _) eq_refl _ _ _ _ _ _ true).
  - done.
  - intros s x r Hx w Hw. by apply value_ws.
  - intros b s x r1 r ls. apply elements_more.
  - intros b s x r1. apply elements_last.
  - apply Forall2_fmap, Forall_Forall2_diag. eapply Forall_impl; [exact Hl|]. intros x Hx. apply Hx.
  - by subst.
Qed.

Lemma block_reads_object d depth l :
  Forall (fun kv => forall depth rest, number_stops rest -> reads_value (d + 1) (render line gap depth kv.2 +:+ rest) (val_of kv.2) rest) l ->
  d < maxNestingDepth -> forall rest, reads_value d (render line gap depth (JObject l) +:+ rest) (val_of (JObject l)) rest.
Proof.
  intros Hl Hd rest. cbn [render val_of]. destruct l as [|j l].
  { apply object_reads; [done|]. exists 1%nat. intros [|fuel] Hf; [lia|]. cbn [members]. by rewrite skip_stop. }
  remember (j :: l) as js eqn:Hjs. unfold json_block. destruct (map _ js) as [|t ts] eqn:Hm; [by subst|]. rewrite <- Hm.
  rewrite !sapp_assoc. rewrite sapp_cons, sapp_nil. change ("}" +:+ rest) with (String "}" rest).
  apply object_reads; [done|].
  refine (reads_block (reads_member (d + 1)) (reads_members (d + 1)) "}" _ _ _ _ rest (Hline _) (Hline _) eq_refl _ _ _ _ _ _ true).
  - done.
  - intros s x r Hx w Hw. by apply member_ws.
  - intros b s x r1 r ls. apply members_more.
  - intros b s x r1. apply members_last.
  - apply Forall2_fmap, Forall_Forall2_diag. eapply Forall_impl; [exact Hl|]. intros x Hx r Hr.
    rewrite !sapp_assoc. apply member_reads; [done|]. by apply Hx.
  - by subst.
Qed.

Lemma render_reads j : forall d depth rest, d + nesting j <= maxNestingDepth -> number_stops rest ->
  reads_value d (render line gap depth j +:+ rest) (val_of j) rest.
Proof.
  induction j as [|s|n|l IH|l IH] using Json_nested_ind; intros d depth rest Hd Hr; cbn [nesting] in Hd.
  - apply reads_open; [done|]. exists O. intros fuel _. done.
  - apply string_reads.
  - by apply int_reads.
  - assert (Hb : Forall (fun j => nesting j <= maxNestingDepth - (d + 1)) l) by (apply max_bound; lia).
    apply block_reads_array.
    + rewrite Forall_forall in *. intros x Hx dp r Hr'. apply IH; [done| |done]. specialize (Hb x Hx). lia.
    + pose proof (foldr_max_nonneg nesting l). lia.
  - assert (Hb : Forall (fun kv => nesting kv.2 <= maxNestingDepth - (d + 1)) l) by (apply (max_bound (fun kv => nesting kv.2)); lia).
    apply block_reads_object.
    + rewrite Forall_forall in *. intros x Hx dp r Hr'. apply IH; [done| |done]. specialize (Hb x Hx). lia.
    + pose proof (foldr_max_nonneg (fun kv => nesting kv.2) l). lia.
Qed.

(** What the encoder wrote is the first value, with what followed it. *)
Lemma first_rendered j rest : nesting j <= maxNestingDepth -> number_stops rest ->
  first_value (render line gap 0 j +:+ rest) = Got (val_of j) rest.
Proof. intros Hn Hr. apply reads_parse. by apply render_reads. Qed.
End Render.

Lemma parse_indented j w : nesting j <= maxNestingDepth -> sall is_ws w = true -> Parse (indented 0 j +:+ w) = Some (val_of j).
Proof.
  intros Hn Hw. unfold Parse, indented. rewrite first_rendered.
  - rewrite <- (sapp_nil_r w), skip_ws by done. done.
  - intros n. rewrite sall_app, spaces_ws. done.
  - done.
  - done.
  - by apply ws_text_stops.
Qed.

Lemma first_compact j rest : nesting j <= maxNestingDepth -> number_stops rest -> first_value (compact j +:+ rest) = Got (val_of j) rest.
Proof. intros Hn Hr. by apply first_rendered. Qed.

Lemma first_value_ws w s : sall is_ws w = true -> first_value (w +:+ s) = first_value s.
Proof.
  intros Hw. unfold first_value. rewrite <- value_skip, skip_ws, value_skip, length_sapp by done.
  replace (2 * (String.length w + String.length s) + 1)%nat with (2 * String.length s + 1 + 2 * String.length w)%nat by lia.
  apply enough_fuel.
Qed.

(** ** Decoding keeps the types *)

Inductive has_type : GoType -> GoVal -> Prop :=
| ty_string s : has_type TString (GString s)
| ty_int n : has_type TInt (GInt n)
| ty_slice t cells n : Forall (has_type t) cells -> (n <= length cells)%nat -> has_type (TSlice t) (GSlice cells n)
| ty_struct fs vals : Forall2 (fun f x => has_type f.2 x) fs vals -> has_type (TStruct fs) (GStruct vals).

Section GoType_induction.
Context (P : GoType -> Prop) (Hs : P TString) (Hi : P TInt) (Hsl : forall t, P t -> P (TSlice t)).
Context (Hst : forall fs, Forall (fun f => P f.2) fs -> P (TStruct fs)).

Fixpoint GoType_nested_ind (t : GoType) : P t :=
  match t with
  | TString => Hs
  | TInt => Hi
  | TSlice t => Hsl t (GoType_nested_ind t)
  | TStruct fs =>
      Hst fs ((fix go fs : Forall (fun f => P f.2) fs :=
                 match fs with [] => List.Forall_nil _ | f :: fs => @List.Forall_cons _ _ f fs (GoType_nested_ind f.2) (go fs) end) fs)
  end.
End GoType_induction.

Section Val_induction.
Context (P : Val -> Prop) (Hn : P VNull) (Hb : forall b, P (VBool b)) (Hx : forall x, P (VNumber x)) (Hs : forall s, P (VString s)).
Context (Ha : forall l, Forall P l -> P (VArray l)) (Ho : forall l, Forall (fun kv => P kv.2) l -> P (VObject l)).

Fixpoint Val_nested_ind (v : Val) : P v :=
  match v with
  | VNull => Hn
  | VBool b => Hb b
  | VNumber x => Hx x
  | VString s => Hs s
  | VArray l =>
      Ha l ((fix go l : Forall P l :=
               match l with [] => List.Forall_nil _ | v :: l => @List.Forall_cons _ _ v l (Val_nested_ind v) (go l) end) l)
  | VObject l =>
      Ho l ((fix go l : Forall (fun kv => P kv.2) l :=
               match l with [] => List.Forall_nil _ | kv :: l => @List.Forall_cons _ _ kv l (Val_nested_ind kv.2) (go l) end) l)
  end.
End Val_induction.

Lemma zero_typed t : has_type t (zero t).
Proof.
  induction t as [| |t IH|fs IH] using GoType_nested_ind; cbn [zero]; constructor; [done|cbn; lia|].
  induction IH; cbn; by constructor.
Qed.

Lemma cells_typed dec t l : (forall v, List.In v l -> forall old g, has_type t old -> dec v old = Some g -> has_type t g) ->
  forall cells cells', Forall (has_type t) cells -> decode_cells dec (zero t) l cells = Some cells' ->
  Forall (has_type t) cells' /\ (length l <= length cells')%nat.
Proof.
  induction l as [|v l IH]; intros Hdec cells cells' Hc Hd; cbn [decode_cells] in Hd.
  { injection Hd as <-. split; [done|cbn; lia]. }
  destruct (dec v _) as [c|] eqn:Hv; [|done]. fold (decode_cells dec (zero t)) in Hd.
  destruct (decode_cells dec (zero t) l (tail cells)) as [cs|] eqn:Hg; [|done]. injection Hd as <-.
  destruct (IH (fun v Hin => Hdec v (or_intror Hin)) (tail cells) cs) as [H1 H2]; [by destruct Hc|done|].
  split; [|cbn; lia]. constructor; [|done]. eapply Hdec; [by left| |exact Hv]. destruct Hc; [apply zero_typed|done].
Qed.

Lemma fields_typed strict dec fs l : (forall kv, List.In kv l -> forall t old g, has_type t old -> dec kv.2 t old = Some g -> has_type t g) ->
  forall vals vals', Forall2 (fun f x => has_type f.2 x) fs vals -> decode_fields strict dec fs l vals = Some vals' ->
  Forall2 (fun f x => has_type f.2 x) fs vals'.
Proof.
  induction l as [|[k v] l IH]; intros Hdec vals vals' Hf Hd; cbn [decode_fields] in Hd; [by injection Hd as <-|].
  fold (decode_fields strict dec fs) in Hd. specialize (IH (fun kv Hin => Hdec kv (or_intror Hin))).
  destruct (field_index k (map fst fs)) as [i|]; [|destruct strict; [done|by eapply IH]].
  destruct (fs !! i) as [f|] eqn:Hfi; [|done]. destruct (vals !! i) as [x|] eqn:Hxi; [|done].
  destruct (dec v f.2 x) as [y|] eqn:Hv; [|done]. eapply IH; [|exact Hd].
  rewrite <- (list_insert_id fs i f Hfi). apply Forall2_insert; [done|].
  eapply (Hdec (k, v)); [by left| |exact Hv]. by eapply (Forall2_lookup_lr (fun f x => has_type f.2 x)).
Qed.

(** Decoding stores a value of the variable's type or reports an error: no
    document leaves a variable of another shape. *)
Lemma decode_typed strict v : forall t old g, has_type t old -> decode strict v t old = Some g -> has_type t g.
Proof.
  induction v as [|b|x|s|l IH|l IH] using Val_nested_ind; intros t old g Ht Hd; cbn [decode] in Hd.
  - injection Hd as <-. destruct t; try done. by constructor.
  - done.
  - destruct t; try done. destruct (ParseInt x); [|done]. injection Hd as <-. constructor.
  - destruct t; try done. injection Hd as <-. constructor.
  - destruct Ht as [| |t cells n Hc _|]; try done. destruct l as [|v l]; [injection Hd as <-; by constructor|].
    destruct (decode_cells _ _ _ _) as [cs|] eqn:Hg; [|done]. injection Hd as <-.
    eapply cells_typed in Hg as [H1 H2]; [by constructor| |done]. rewrite Forall_forall in IH.
    intros v' Hv' old g. apply IH. by apply list_elem_of_In.
  - destruct Ht as [| | |fs vals Hf]; try done. destruct (decode_fields _ _ _ _ _) as [vs|] eqn:Hg; [|done]. injection Hd as <-.
    constructor. eapply fields_typed; [|exact Hf|exact Hg]. rewrite Forall_forall in IH.
    intros kv Hkv t old g. apply IH. by apply list_elem_of_In.
Qed.

(** ** Reading the parts of a decoded value *)

Definition text_of (g : GoVal) : string := match g with GString s => s | _ => "" end.
Definition int_of (g : GoVal) : Z := match g with GInt n => n | _ => 0 end.
Definition items_of (g : GoVal) : list GoVal := match g with GSlice cells n => take n cells | _ => [] end.
Definition field (i : nat) (g : GoVal) : GoVal := match g with GStruct l => nth i l (GInt 0) | _ => GInt 0 end.
Definition texts_of (g : GoVal) : list string := map text_of (items_of g).

Lemma ParseInt_Itoa n : -9223372036854775808 <= n <= 9223372036854775807 -> ParseInt (Itoa n) = Some n.
Proof.
  intros Hn. destruct (decide (n = 0)) as [->|Hz]; [done|]. destruct (decide (n < 0)) as [Hneg|Hpos].
  - rewrite Itoa_neg by done. destruct (Itoa_pos (- n) ltac:(lia)) as (Hv & Hd & Hf).
    destruct (Hf ltac:(lia)) as (c & r & He & _). unfold ParseInt. rewrite Ascii.eqb_refl, Hd, Hv.
    rewrite (proj2 (String.eqb_neq _ _)) by (by rewrite He). cbn [orb negb].
    rewrite (proj2 (Z.ltb_ge _ _)) by lia. f_equal. lia.
  - destruct (Itoa_pos n ltac:(lia)) as (Hv & Hd & Hf). destruct (Hf ltac:(lia)) as (c & r & He & _). rewrite He in *.
    rewrite ParseInt_digits by done. cbv zeta. rewrite Hv, (proj2 (Z.ltb_ge _ _)) by lia. done.
Qed.

(** An array decoded into a new slice. *)
Lemma decode_slice strict t l gs : Forall2 (fun v g => decode strict v t (zero t) = Some g) l gs ->
  decode strict (VArray l) (TSlice t) (zero (TSlice t)) = Some (GSlice gs (length gs)).
Proof.
  intros Hl. assert (Hc : decode_cells (fun v => decode strict v t) (zero t) l [] = Some gs).
  { induction Hl as [|v g l gs Hv _ IH]; cbn [decode_cells]; [done|]. rewrite Hv. cbn [tail].
    fold (decode_cells (fun v => decode strict v t) (zero t)). by rewrite IH. }
  rewrite <- (Forall2_length _ _ _ Hl). destruct Hl as [|v g l gs Hv Hl]; [done|]. cbn [zero decode]. by rewrite Hc.
Qed.

Lemma items_slice gs : items_of (GSlice gs (length gs)) = gs.
Proof. apply firstn_all. Qed.

(** A slice of strings. *)
Lemma decode_strings strict l : Forall (fun s => ValidString s = true) l ->
  decode strict (val_of (JArray (map JString l))) (TSlice TString) (zero (TSlice TString))
  = Some (GSlice (map GString l) (length (map GString l))).
Proof.
  intros Hl. cbn [val_of]. apply decode_slice. rewrite map_map. induction Hl as [|s l Hs _ IH]; cbn; constructor; [|done].
  by rewrite repaired_valid.
Qed.

Lemma texts_strings l : texts_of (GSlice (map GString l) (length (map GString l))) = l.
Proof. unfold texts_of. rewrite items_slice, map_map. apply map_id. Qed.

Lemma index_first (k : string) (a b : list string) : k ∉ a -> index_of (String.eqb k) (a ++ k :: b) = Some (length a).
Proof.
  induction a as [|x a IH]; intros Hk; cbn; [by rewrite String.eqb_refl|]. apply not_elem_of_cons in Hk as [Hx Hk].
  rewrite (proj2 (String.eqb_neq k x)) by done. by rewrite IH.
Qed.

Definition stored (strict : bool) (f : string * GoType) (kv : string * Val) (g : GoVal) : Prop :=
  kv.1 = f.1 /\ decode strict kv.2 f.2 (zero f.2) = Some g.

Lemma fields_stored strict fs1 : forall pre gs l rest gs',
  NoDup (map fst (pre ++ fs1 ++ rest)) -> length gs = length pre -> Forall3 (stored strict) fs1 l gs' ->
  decode_fields strict (decode strict) (pre ++ fs1 ++ rest) l (gs ++ map (fun f => zero f.2) (fs1 ++ rest))
  = Some (gs ++ gs' ++ map (fun f => zero f.2) rest).
Proof.
  induction fs1 as [|f fs1 IH]; intros pre gs l rest gs' Hn Hg Hl; inversion Hl as [|? [k v] g ? l' gl [Hk Hd] Hl']; subst; [done|].
  cbn [fst snd] in Hk, Hd. subst k. cbn [decode_fields map app]. fold (decode_fields strict (decode strict) (pre ++ (f :: fs1) ++ rest)).
  unfold field_index. assert (Hi : index_of (String.eqb f.1) (map fst (pre ++ f :: fs1 ++ rest)) = Some (length pre)).
  { rewrite map_app, <- (length_map fst pre). cbn [map]. apply index_first. rewrite map_app in Hn. cbn [map app] in Hn.
    apply NoDup_app in Hn as (_ & Hn & _). intros Hin. by apply (Hn _ Hin); left. }
  rewrite Hi, list_lookup_middle by done. rewrite list_lookup_middle by done. rewrite Hd.
  rewrite <- Hg, <- (Nat.add_0_r (length gs)), insert_app_r. cbn [insert list_insert].
  specialize (IH (pre ++ [f]) (gs ++ [g]) l' rest gl). rewrite <- !app_assoc in IH. cbn [app] in IH. apply IH; [done| |done].
  rewrite !length_app. cbn. lia.
Qed.

(** An object whose members are the first [n] fields of a struct, in their order,
    decoded into a new variable; the other fields stay zero. *)
Lemma decode_struct n strict fs l gs : NoDup (map fst fs) -> Forall3 (stored strict) (take n fs) l gs ->
  decode strict (VObject l) (TStruct fs) (zero (TStruct fs)) = Some (GStruct (gs ++ map (fun f => zero f.2) (drop n fs))).
Proof.
  intros Hn Hl. cbn [decode zero]. rewrite <- (take_drop n fs) in Hn.
  pose proof (fields_stored strict (take n fs) [] [] l (drop n fs) gs Hn eq_refl Hl) as Hf.
  cbn [app] in Hf. rewrite take_drop in Hf. by rewrite Hf.
Qed.

Definition int64_range (n : Z) : bool := (-9223372036854775808 <=? n) && (n <=? 9223372036854775807).

Lemma decode_text strict s : ValidString s = true -> decode strict (val_of (JString s)) TString (zero TString) = Some (GString s).
Proof. intros Hs. cbn [val_of decode]. by rewrite repaired_valid. Qed.

Lemma decode_int strict n : int64_range n = true -> decode strict (val_of (JInt n)) TInt (zero TInt) = Some (GInt n).
Proof. intros Hn. cbn [val_of decode]. unfold int64_range in Hn. by rewrite ParseInt_Itoa by lia. Qed.

End JsonRead.
