(* ===== verification/Sha256.v ===== *)
(** * SHA-256, HMAC-SHA256 and lower-case hexadecimal

    crypto/sha256, crypto/hmac and encoding/hex, on byte strings: FIPS 180-4 and
    RFC 2104, with 32-bit words as integers reduced modulo 2^32. *)

From S2P Require Import Prelude Utf8 Regex GoStrings.

Definition byte (z : Z) : ascii := ascii_of_N (Z.to_N (z mod 256)).

(** ** Words *)

Definition w32 (z : Z) : Z := z mod 4294967296.
Definition rotr (n x : Z) : Z := Z.lor (Z.shiftr x n) (w32 (Z.shiftl x (32 - n))).

Definition Sigma0 x := Z.lxor (rotr 2 x) (Z.lxor (rotr 13 x) (rotr 22 x)).
Definition Sigma1 x := Z.lxor (rotr 6 x) (Z.lxor (rotr 11 x) (rotr 25 x)).
Definition sigma0 x := Z.lxor (rotr 7 x) (Z.lxor (rotr 18 x) (Z.shiftr x 3)).
Definition sigma1 x := Z.lxor (rotr 17 x) (Z.lxor (rotr 19 x) (Z.shiftr x 10)).
Definition Ch x y z := Z.lxor (Z.land x y) (Z.land (Z.lxor x 4294967295) z).
Definition Maj x y z := Z.lxor (Z.land x y) (Z.lxor (Z.land x z) (Z.land y z)).

Definition K : list Z :=
  [1116352408; 1899447441; 3049323471; 3921009573; 961987163; 1508970993; 2453635748; 2870763221;
   3624381080; 310598401; 607225278; 1426881987; 1925078388; 2162078206; 2614888103; 3248222580;
   3835390401; 4022224774; 264347078; 604807628; 770255983; 1249150122; 1555081692; 1996064986;
   2554220882; 2821834349; 2952996808; 3210313671; 3336571891; 3584528711; 113926993; 338241895;
   666307205; 773529912; 1294757372; 1396182291; 1695183700; 1986661051; 2177026350; 2456956037;
   2730485921; 2820302411; 3259730800; 3345764771; 3516065817; 3600352804; 4094571909; 275423344;
   430227734; 506948616; 659060556; 883997877; 958139571; 1322822218; 1537002063; 1747873779;
   1955562222; 2024104815; 2227730452; 2361852424; 2428436474; 2756734187; 3204031479; 3329325298].

Record State := mkState { sa : Z; sb : Z; sc : Z; sd : Z; se : Z; sf : Z; sg : Z; sh : Z }.

Definition H0 : State :=
  mkState 1779033703 3144134277 1013904242 2773480762 1359893119 2600822924 528734635 1541459225.

Definition round (s : State) (kw : Z * Z) : State :=
  let t1 := sh s + Sigma1 (se s) + Ch (se s) (sf s) (sg s) + kw.1 + kw.2 in
  let t2 := Sigma0 (sa s) + Maj (sa s) (sb s) (sc s) in
  mkState (w32 (t1 + t2)) (sa s) (sb s) (sc s) (w32 (sd s + t1)) (se s) (sf s) (sg s).

(** The message schedule: [ws] holds the last sixteen words. *)
Fixpoint extend (n : nat) (ws : list Z) : list Z :=
  match n with
  | O => ws
  | S n =>
      let at_ i := nth i ws 0 in
      let w := w32 (sigma1 (at_ 14%nat) + at_ 9%nat + sigma0 (at_ 1%nat) + at_ 0%nat) in
      hd 0 ws :: extend n (tl ws ++ [w])
  end.

Definition block (s : State) (ws : list Z) : State :=
  let r := List.fold_left round (combine K (extend 48 ws)) s in
  mkState (w32 (sa s + sa r)) (w32 (sb s + sb r)) (w32 (sc s + sc r)) (w32 (sd s + sd r))
          (w32 (se s + se r)) (w32 (sf s + sf r)) (w32 (sg s + sg r)) (w32 (sh s + sh r)).

(** ** Messages *)

Fixpoint bytes_of (s : string) : list Z :=
  match s with EmptyString => [] | String c s => code c :: bytes_of s end.

Fixpoint words (l : list Z) : list Z :=
  match l with
  | a :: b :: c :: d :: l => (a * 16777216 + b * 65536 + c * 256 + d) :: words l
  | _ => []
  end.

(** [be n z]: the [n] bytes of [z], the most significant first. *)
Fixpoint be (n : nat) (z : Z) : list Z :=
  match n with O => [] | S m => Z.shiftr z (8 * Z.of_nat m) mod 256 :: be m z end.

(** The message, the bit 1, zeros, and the length in bits. *)
Definition padded (s : string) : list Z :=
  let n := len s in
  bytes_of s ++ [128] ++ repeat 0 (Z.to_nat ((55 - n) mod 64)) ++ be 8 (8 * n).

Fixpoint blocks (n : nat) (l : list Z) (s : State) : State :=
  match n with
  | O => s
  | S n => blocks n (skipn 64 l) (block s (words (firstn 64 l)))
  end.

Fixpoint text_of (l : list Z) : string :=
  match l with [] => "" | b :: l => String (byte b) (text_of l) end.

Definition digest (s : State) : string :=
  text_of (concat (map (be 4) [sa s; sb s; sc s; sd s; se s; sf s; sg s; sh s])).

Definition Sum256 (s : string) : string :=
  let l := padded s in digest (blocks (length l / 64) l H0).

Lemma length_text_of l : String.length (text_of l) = length l.
Proof. induction l as [|b l IH]; simpl; auto. Qed.

Lemma Sum256_len s : len (Sum256 s) = 32.
Proof. unfold Sum256, digest, len. by rewrite length_text_of. Qed.

(** ** HMAC *)

Fixpoint xor_pad (pad : Z) (n : nat) (key : string) : string :=
  match n with
  | O => ""
  | S n => match key with
           | EmptyString => String (byte pad) (xor_pad pad n "")
           | String c key => String (byte (Z.lxor pad (code c))) (xor_pad pad n key)
           end
  end.

Definition HMAC (key msg : string) : string :=
  let key := if 64 <? len key then Sum256 key else key in
  Sum256 (xor_pad 92 64 key +:+ Sum256 (xor_pad 54 64 key +:+ msg)).

Lemma HMAC_len key msg : len (HMAC key msg) = 32.
Proof. apply Sum256_len. Qed.

(** ** Hexadecimal *)

Definition hex_digit (d : Z) : ascii := if d <? 10 then byte (48 + d) else byte (87 + d).

(** [hex.EncodeToString]. *)
Fixpoint hex (s : string) : string :=
  match s with
  | EmptyString => ""
  | String c s => String (hex_digit (code c / 16)) (String (hex_digit (code c mod 16)) (hex s))
  end.

(** [hex.DecodeString]: the value of one digit, in either case. *)
Definition hex_value (c : ascii) : option Z :=
  let z := code c in
  if (48 <=? z) && (z <=? 57) then Some (z - 48)
  else if (97 <=? z) && (z <=? 102) then Some (z - 87)
  else if (65 <=? z) && (z <=? 70) then Some (z - 55)
  else None.

Fixpoint unhex (s : string) : option string :=
  match s with
  | EmptyString => Some ""%string
  | String a (String b s) =>
      match hex_value a, hex_value b, unhex s with
      | Some x, Some y, Some r => Some (String (byte (16 * x + y)) r)
      | _, _, _ => None
      end
  | String _ EmptyString => None
  end.

(** ** Known answers (FIPS 180-4 and RFC 4231) *)

Example sum256_abc :
  hex (Sum256 "abc") = "ba7816bf8f01cfea414140de5dae2223b00361a396177a9cb410ff61f20015ad"%string.
Proof. vm_compute. reflexivity. Qed.

Example sum256_two_blocks :
  hex (Sum256 "abcdbcdecdefdefgefghfghighijhijkijkljklmklmnlmnomnopnopq")
  = "248d6a61d20638b8e5c026930c3e6039a33ce45964ff2167f6ecedd419db06c1"%string.
Proof. vm_compute. reflexivity. Qed.

Example hmac_jefe :
  hex (HMAC "Jefe" "what do ya want for nothing?")
  = "5bdcc146bf60754e6a042426089575c75a003f089d2739839dec58b964ec3843"%string.
Proof. vm_compute. reflexivity. Qed.

(** ** Hexadecimal is a faithful encoding *)

Lemma hex_digits_ok c :
  lower_hex (hex_digit (code c / 16)) = true /\ lower_hex (hex_digit (code c mod 16)) = true.
Proof. destruct c as [[] [] [] [] [] [] [] []]; by vm_compute. Qed.

Lemma hex_byte_roundtrip c :
  match hex_value (hex_digit (code c / 16)), hex_value (hex_digit (code c mod 16)) with
  | Some x, Some y => byte (16 * x + y) = c
  | _, _ => False
  end.
Proof. destruct c as [[] [] [] [] [] [] [] []]; by vm_compute. Qed.

Lemma hex_length s : String.length (hex s) = (2 * String.length s)%nat.
Proof. induction s as [|c s IH]; simpl; [done|]. rewrite IH. lia. Qed.

Lemma hex_lower s : sall lower_hex (hex s) = true.
Proof.
  induction s as [|c s IH]; simpl; [done|]. destruct (hex_digits_ok c) as [-> ->]. by rewrite IH.
Qed.

Lemma unhex_hex s : unhex (hex s) = Some s.
Proof.
  induction s as [|c s IH]; [done|]. cbn [hex unhex]. pose proof (hex_byte_roundtrip c) as Hc.
  destruct (hex_value _) as [x|]; [|done]. destruct (hex_value _) as [y|]; [|done].
  rewrite IH. by subst c.
Qed.

(** Proofs treat the digest as a value; evaluation by [vm_compute] still runs it. *)
#[global] Opaque Sum256.
