(* ===== verification/Pg.v ===== *)
(** * What every statement shares: PostgreSQL values and errors

    A statement answers [Err] with what the driver returns and leaves the
    tables as they were, or [Ok].  Timestamps are the server's, in
    microseconds; an identifier is a string. *)

From S2P Require Import Prelude Utf8 Regex.

Definition uuid := string.
Definition timestamp := Z.

(** A *pgconn.PgError: its SQLSTATE and the constraint it names. *)
Record PgError := mkPgError { Code : string; ConstraintName : string }.

(** A text parameter the server accepts: valid UTF-8 without a zero byte. *)
Fixpoint no_nul (s : string) : bool :=
  match s with
  | EmptyString => true
  | String c s => negb (code c =? 0) && no_nul s
  end.

Definition pg_text (s : string) : bool := ValidString s && no_nul s.

Definition pg_text_opt (s : option string) : bool :=
  match s with Some s => pg_text s | None => true end.

Definition is_null {A} (o : option A) : bool :=
  match o with Some _ => false | None => true end.

(** A statement whose text parameters the server refuses. *)
Definition with_text {A} (ps : list (option string)) (r : result PgError A) : result PgError A :=
  if forallb pg_text_opt ps then r else Err (mkPgError "22021" "").

(** SQL equality of two nullable texts: NULL equals nothing. *)
Definition sql_eq (a b : option string) : bool :=
  match a, b with Some a, Some b => a =s b | _, _ => false end.

Lemma is_null_false {A} (o : option A) : is_null o = false <-> o <> None.
Proof. by destruct o. Qed.


(** What a call through the driver can return instead of a value: no row
    ([pgx.ErrNoRows]), the server's error, or a failure to talk to it. *)
Inductive DbErr :=
| NoRows
| FromServer (e : PgError)
| Broken.

(** The first of the named conditions that fails, as the server's error. *)
Fixpoint refuse (sqlstate : string) (conds : list (string * bool)) : option PgError :=
  match conds with
  | [] => None
  | (name, true) :: conds => refuse sqlstate conds
  | (name, false) :: _ => Some (mkPgError sqlstate name)
  end.

Lemma refuse_none code conds : refuse code conds = None <-> forallb snd conds = true.
Proof. induction conds as [|[n []] conds IH]; simpl; done. Qed.

(** Run [k] when none of the conditions is violated. *)
Definition guarded {A} (o : option PgError) (k : result DbErr A) : result DbErr A :=
  match o with Some e => Err (FromServer e) | None => k end.

Definition text_error (ps : list (option string)) : option PgError :=
  if forallb pg_text_opt ps then None else Some (mkPgError "22021" "").

(** An ASCII text without a zero byte is one the server accepts. *)
Lemma ascii_pg_text s : sall (fun c => (1 <=? code c) && (code c <? 128)) s = true -> pg_text s = true.
Proof.
  intros Hs. unfold pg_text. apply andb_true_iff. split.
  - apply ValidString_Utf8. induction s as [|c s IH]; [constructor|]. simpl in Hs. eqb_prop.
    apply (utf8_rune _ 0).
    + unfold rune_size. by rewrite (proj2 (Z.ltb_lt (code c) 128)) by lia.
    + simpl. destruct s; by apply IH.
  - induction s as [|c s IH]; [done|]. simpl in Hs. eqb_prop. simpl.
    rewrite (proj2 (Z.eqb_neq _ _)) by lia. by apply IH.
Qed.
