(* ===== verification/Credential.v ===== *)
(** * Password verifiers (src/internal/credential/credential.go)

    The argon2id parameters, the PHC string they are stored in, its parser and
    the bounded hasher.  argon2 is a third-party package: its version and its
    key derivation are the parameter [Argon2].  Bytes are strings. *)

From S2P Require Import Prelude Utf8 Regex GoStrings Decimals Pg.

(** ** base64.RawStdEncoding *)

Definition byte (z : Z) : ascii := ascii_of_N (Z.to_N z).

(** The character of six bits: A to Z, a to z, 0 to 9, plus and slash. *)
Definition b64_char (i : Z) : ascii :=
  if i <? 26 then byte (65 + i)
  else if i <? 52 then byte (97 + (i - 26))
  else if i <? 62 then byte (48 + (i - 52))
  else if i =? 62 then "+"%char else "/"%char.

Definition b64_value (c : ascii) : option Z :=
  if range "A" "Z" c then Some (code c - 65)
  else if range "a" "z" c then Some (code c - 97 + 26)
  else if range "0" "9" c then Some (code c - 48 + 52)
  else if Ascii.eqb c "+" then Some 62
  else if Ascii.eqb c "/" then Some 63 else None.

Fixpoint EncodeToString (s : string) : string :=
  match s with
  | EmptyString => ""
  | String a EmptyString =>
      String (b64_char (code a / 4)) (String (b64_char (code a mod 4 * 16)) "")
  | String a (String b EmptyString) =>
      String (b64_char (code a / 4)) (String (b64_char (code a mod 4 * 16 + code b / 16))
        (String (b64_char (code b mod 16 * 4)) ""))
  | String a (String b (String c s)) =>
      String (b64_char (code a / 4)) (String (b64_char (code a mod 4 * 16 + code b / 16))
        (String (b64_char (code b mod 16 * 4 + code c / 64)) (String (b64_char (code c mod 64))
          (EncodeToString s))))
  end.

(** Line ends are skipped; a single character left over is an error, and the
    unused bits of the last one are ignored. *)
Fixpoint drop_newlines (s : string) : string :=
  match s with
  | EmptyString => ""
  | String c s => if (code c =? 10) || (code c =? 13) then drop_newlines s else String c (drop_newlines s)
  end.

Fixpoint decode_quanta (s : string) : option string :=
  match s with
  | EmptyString => Some ""%string
  | String _ EmptyString => None
  | String a (String b EmptyString) =>
      match b64_value a, b64_value b with
      | Some a, Some b => Some (String (byte (a * 4 + b / 16)) "")
      | _, _ => None
      end
  | String a (String b (String c EmptyString)) =>
      match b64_value a, b64_value b, b64_value c with
      | Some a, Some b, Some c =>
          Some (String (byte (a * 4 + b / 16)) (String (byte (b mod 16 * 16 + c / 4)) ""))
      | _, _, _ => None
      end
  | String a (String b (String c (String d s))) =>
      match b64_value a, b64_value b, b64_value c, b64_value d, decode_quanta s with
      | Some a, Some b, Some c, Some d, Some r =>
          Some (String (byte (a * 4 + b / 16)) (String (byte (b mod 16 * 16 + c / 4))
            (String (byte (c mod 4 * 64 + d)) r)))
      | _, _, _, _, _ => None
      end
  end.

Definition DecodeString (s : string) : option string := decode_quanta (drop_newlines s).

(** ** fmt.Sscanf, as far as the two formats use it *)

(** White space before a number is skipped; a line end there is an error. *)
Fixpoint skip_space (fuel : nat) (s : string) : option string :=
  match fuel with
  | O => Some s
  | S fuel =>
      match s with
      | String c _ => if code c =? 10 then None
                      else match space_size s with O => Some s | n => skip_space fuel (sdrop n s) end
      | EmptyString => Some s
      end
  end.

(** Literal text of the format. *)
Definition scan_text (p s : string) : option string :=
  if HasPrefix s p then Some (sdrop (String.length p) s) else None.

(** The leading digits, and what follows them. *)
Fixpoint span_digits (s : string) : string * string :=
  match s with
  | String c r => if digit c then let '(d, rest) := span_digits r in (String c d, rest) else (""%string, s)
  | EmptyString => (""%string, s)
  end.

(** [%d] into an unsigned integer of [bits] bits: no sign is accepted. *)
Definition scan_uint (bits : Z) (s : string) : option (Z * string) :=
  match skip_space (String.length s) s with
  | None => None
  | Some s =>
      let '(d, rest) := span_digits s in
      if (d =s "") || (2 ^ bits <=? parse_digits 0 d) then None else Some (parse_digits 0 d, rest)
  end.

(** [%d] into an int: an optional sign, 64 bits. *)
Definition scan_int (s : string) : option (Z * string) :=
  match skip_space (String.length s) s with
  | None => None
  | Some s =>
      let '(sign, s) := match s with
                        | String c r => if Ascii.eqb c "-" then ("-"%string, r)
                                        else if Ascii.eqb c "+" then ("+"%string, r) else (""%string, s)
                        | EmptyString => (""%string, s)
                        end in
      let '(d, rest) := span_digits s in
      if d =s "" then None
      else match ParseInt (sign +:+ d) with Some n => Some (n, rest) | None => None end
  end.

(** ** Parameters and the PHC string *)

Record Params := mkParams {
  Memory : Z;       (* uint32, KiB *)
  Time : Z;         (* uint32, passes *)
  Parallelism : Z;  (* uint8 *)
  SaltLen : Z;      (* uint32, bytes *)
  KeyLen : Z        (* uint32, bytes *)
}.

Definition ADR003 : Params := mkParams 19456 2 1 16 32.

Definition MinPasswordRunes : Z := 12.
Definition MaxPasswordRunes : Z := 256.
Definition MaxPasswordBytes : Z := 1024.

Inductive CredError :=
| ErrBusy
| ErrPasswordTooLong
| ErrReadingSalt
| ErrNotPHC
| ErrVersion
| ErrUnsupportedVersion (v : Z)
| ErrParameters
| ErrSalt
| ErrTag.

(** golang.org/x/crypto/argon2: the version constant, and the derivation from
    password, salt, time, memory, threads and key length; it panics ([None])
    without a pass or a thread. *)
Class Argon2 := {
  Version : Z;
  IDKey : string -> string -> Z -> Z -> Z -> Z -> option string
}.

(** What its documentation says of it. *)
Class Argon2Laws `{Argon2} := {
  version_int : 0 <= Version < 2 ^ 31;
  IDKey_length : forall pw salt t m p k, 1 <= t -> 1 <= p -> 0 <= k ->
    exists tag, IDKey pw salt t m p k = Some tag /\ len tag = k
}.

Section PHC.
Context `{HA : Argon2}.

Definition Encode (p : Params) (salt tag : string) : string :=
  "$argon2id$v=" +:+ Itoa Version +:+ "$m=" +:+ Itoa (Memory p) +:+ ",t=" +:+ Itoa (Time p) +:+
  ",p=" +:+ Itoa (Parallelism p) +:+ "$" +:+ EncodeToString salt +:+ "$" +:+ EncodeToString tag.

(** [Sscanf(s, "m=%d,t=%d,p=%d", ...)]; what follows the last number is not
    looked at. *)
Definition scan_params (s : string) : option (Z * Z * Z) :=
  match scan_text "m=" s with
  | None => None
  | Some s =>
  match scan_uint 32 s with
  | None => None
  | Some (m, s) =>
  match scan_text ",t=" s with
  | None => None
  | Some s =>
  match scan_uint 32 s with
  | None => None
  | Some (t, s) =>
  match scan_text ",p=" s with
  | None => None
  | Some s =>
  match scan_uint 8 s with
  | None => None
  | Some (p, _) => Some (m, t, p)
  end end end end end end.

Definition scan_version (s : string) : option Z :=
  match scan_text "v=" s with
  | None => None
  | Some s => match scan_int s with Some (v, _) => Some v | None => None end
  end.

Definition uint32 (z : Z) : Z := z mod 2 ^ 32.

Definition Decode (phc : string) : result CredError (Params * string * string) :=
  match Split "$" phc with
  | [p0; p1; p2; p3; p4; p5] =>
      if (p0 <>s "") || (p1 <>s "argon2id") then Err ErrNotPHC
      else match scan_version p2 with
      | None => Err ErrVersion
      | Some version =>
          if negb (version =? Version) then Err (ErrUnsupportedVersion version)
          else match scan_params p3 with
          | None => Err ErrParameters
          | Some (m, t, p) =>
              match DecodeString p4 with
              | None => Err ErrSalt
              | Some salt =>
                  match DecodeString p5 with
                  | None => Err ErrTag
                  | Some tag => Ok (mkParams m t p (uint32 (len salt)) (uint32 (len tag)), salt, tag)
                  end
              end
          end
      end
  | _ => Err ErrNotPHC
  end.

(** [None] is a panic of the derivation. *)
Definition Verify (phc password : string) : option (result CredError bool) :=
  match Decode phc with
  | Err e => Some (Err e)
  | Ok (p, salt, tag) =>
      match IDKey password salt (Time p) (Memory p) (Parallelism p) (KeyLen p) with
      | None => None
      | Some got => Some (Ok (got =s tag))
      end
  end.

(** ** The hasher *)

Record Argon2id := mkArgon2id { params : Params; slots : Z; derivations : Z }.

Definition DefaultConcurrency (gomaxprocs : Z) : Z :=
  if gomaxprocs <? 4 then Z.max gomaxprocs 1 else 4.

Definition NewArgon2id (p : Params) (concurrency : Z) : Argon2id :=
  mkArgon2id p (if concurrency <? 1 then 1 else concurrency) 0.

Definition New (gomaxprocs : Z) : Argon2id := NewArgon2id ADR003 (DefaultConcurrency gomaxprocs).

(** [acquired] says that a slot was free before the context ended; [entropy] is
    what filled the salt.  The slot is given back on every path. *)
Definition Hash (acquired : bool) (entropy : option string) (password : string) (h : Argon2id)
    : option (result CredError string) * Argon2id :=
  if MaxPasswordBytes <? len password then (Some (Err ErrPasswordTooLong), h)
  else if negb acquired then (Some (Err ErrBusy), h)
  else match entropy with
  | None => (Some (Err ErrReadingSalt), h)
  | Some salt =>
      let p := params h in
      match IDKey password salt (Time p) (Memory p) (Parallelism p) (KeyLen p) with
      | None => (None, h)
      | Some tag => (Some (Ok (Encode p salt tag)), mkArgon2id p (slots h) (derivations h + 1))
      end
  end.

End PHC.

(** ** Base64 round-trips *)

Lemma byte_is z c : z = code c -> byte z = c.
Proof. intros ->. unfold byte, code. rewrite N2Z.id. apply ascii_N_embedding. Qed.

(** The characters of the alphabet: each stands for its six bits, and none is a
    line end or a separator of the PHC string. *)
Definition phc_plain (c : ascii) : bool :=
  (33 <=? code c) && (code c <? 127) && negb (Ascii.eqb c "$").

Lemma b64_char_ok i : 0 <= i < 64 ->
  b64_value (b64_char i) = Some i /\ phc_plain (b64_char i) = true.
Proof.
  intros Hi.
  assert (H : forallb (fun n => bool_decide (b64_value (b64_char (Z.of_nat n)) = Some (Z.of_nat n))
                && phc_plain (b64_char (Z.of_nat n))) (seq 0 64) = true) by (vm_compute; reflexivity).
  rewrite forallb_forall in H. specialize (H (Z.to_nat i) ltac:(apply in_seq; lia)).
  rewrite Z2Nat.id in H by lia. apply andb_true_iff in H as [H1 H2].
  by apply bool_decide_eq_true in H1.
Qed.

(** Strings by three bytes. *)
Lemma string_ind3 (P : string -> Prop) :
  P ""%string -> (forall a, P (String a "")) -> (forall a b, P (String a (String b ""))) ->
  (forall a b c s, P s -> P (String a (String b (String c s)))) -> forall s, P s.
Proof.
  intros H0 H1 H2 H3. fix IH 1. intros [|a [|b [|c s]]]; [exact H0|apply H1|apply H2|apply H3, IH].
Qed.

Ltac bytes :=
  repeat match goal with
  | c : ascii |- _ =>
      lazymatch goal with H : 0 <= code c <= 255 |- _ => fail | _ => pose proof (code_range c) end
  end.

Ltac sextets := bytes; split; [Z.to_euclidean_division_equations; lia|Z.to_euclidean_division_equations; lia].

Lemma encode_plain s : sall phc_plain (EncodeToString s) = true.
Proof.
  induction s as [|a|a b|a b c s IH] using string_ind3; [done|..]; cbn [EncodeToString sall];
    rewrite ?IH; rewrite !(fun i Hi => proj2 (b64_char_ok i Hi)) by sextets; done.
Qed.

Lemma drop_newlines_plain s : sall phc_plain s = true -> drop_newlines s = s.
Proof.
  induction s as [|c s IH]; simpl; [done|]. intros [Hc Hs]%andb_true_iff. unfold phc_plain in Hc. eqb_prop.
  rewrite (proj2 (Z.eqb_neq _ 10)), (proj2 (Z.eqb_neq _ 13)) by lia. simpl. by rewrite IH.
Qed.

Lemma base64_roundtrip s : DecodeString (EncodeToString s) = Some s.
Proof.
  unfold DecodeString. rewrite drop_newlines_plain by apply encode_plain.
  induction s as [|a|a b|a b c s IH] using string_ind3; [done|..]; cbn [EncodeToString decode_quanta];
    rewrite ?IH; rewrite !(fun i Hi => proj1 (b64_char_ok i Hi)) by sextets;
    do 2 f_equal; bytes.
  - apply byte_is. Z.to_euclidean_division_equations; lia.
  - apply byte_is. Z.to_euclidean_division_equations; lia.
  - f_equal. apply byte_is. Z.to_euclidean_division_equations; lia.
  - apply byte_is. Z.to_euclidean_division_equations; lia.
  - f_equal; [apply byte_is; Z.to_euclidean_division_equations; lia|].
    f_equal. apply byte_is. Z.to_euclidean_division_equations; lia.
Qed.

(** ** Numbers scan back *)

Definition no_digit_head (s : string) : Prop :=
  match s with EmptyString => True | String c _ => digit c = false end.

Lemma span_digits_app d rest :
  sall digit d = true -> no_digit_head rest -> span_digits (d +:+ rest) = (d, rest).
Proof.
  intros Hd Hr. induction d as [|c d IH]; autorewrite with str.
  - destruct rest as [|c r]; simpl; [done|]. simpl in Hr. by rewrite Hr.
  - simpl in Hd. apply andb_true_iff in Hd as [Hc Hd]. simpl. by rewrite Hc, IH.
Qed.

Lemma Itoa_digits n : 0 <= n ->
  parse_digits 0 (Itoa n) = n /\ exists c r, Itoa n = String c r /\ digit c = true /\ sall digit r = true.
Proof.
  intros Hn. destruct (Z.eq_dec n 0) as [->|Hne]; [split; [done|]; by exists "0"%char, ""%string|].
  destruct (Itoa_pos n ltac:(lia)) as (Hv & Hd & Hf). split; [done|].
  destruct (Hf ltac:(lia)) as (c & r & He & _). exists c, r. rewrite He in Hd. cbn [sall] in Hd.
  by apply andb_true_iff in Hd as [Hc Hr].
Qed.

Lemma skip_space_digit fuel c r : digit c = true -> skip_space fuel (String c r) = Some (String c r).
Proof.
  intros Hd. destruct fuel; [done|]. unfold digit, range in Hd.
  change (code "0") with 48 in Hd. change (code "9") with 57 in Hd.
  cbn [skip_space]. rewrite (proj2 (Z.eqb_neq _ 10)) by lia.
  assert (Hs : space_size (String c r) = 0%nat); [|by rewrite Hs].
  unfold space_size, in_range. repeat case_match; eqb_prop; try done; lia.
Qed.

Lemma scan_uint_itoa bits n rest :
  0 <= n < 2 ^ bits -> no_digit_head rest -> scan_uint bits (Itoa n +:+ rest) = Some (n, rest).
Proof.
  intros Hn Hr. destruct (Itoa_digits n ltac:(lia)) as (Hv & c & r & He & Hc & Hd).
  unfold scan_uint. rewrite He in *. autorewrite with str. rewrite skip_space_digit by done.
  rewrite <- sapp_cons, span_digits_app by (done || by simpl; rewrite Hc).
  rewrite Hv. simpl. by rewrite (proj2 (Z.leb_gt _ _)) by lia.
Qed.

Lemma scan_int_itoa n rest :
  0 <= n < 2 ^ 63 -> no_digit_head rest -> scan_int (Itoa n +:+ rest) = Some (n, rest).
Proof.
  intros Hn Hr. destruct (Itoa_digits n ltac:(lia)) as (Hv & c & r & He & Hc & Hd).
  unfold scan_int. rewrite He in *. autorewrite with str. rewrite skip_space_digit by done.
  destruct (digit_not_sign c Hc) as [-> ->].
  assert (Hcd : sall digit (String c r) = true) by (cbn [sall]; by rewrite Hc).
  rewrite <- sapp_cons, span_digits_app by done. cbn [String.eqb].
  autorewrite with str. rewrite ParseInt_digits by done. cbv zeta. rewrite Hv.
  by rewrite (proj2 (Z.ltb_ge _ _)) by lia.
Qed.

Lemma HasPrefix_app p s : HasPrefix (p +:+ s) p = true.
Proof.
  induction p as [|c p IH]; autorewrite with str; [by destruct s|]. simpl. by rewrite Ascii.eqb_refl.
Qed.

Lemma scan_text_app p s : scan_text p (p +:+ s) = Some s.
Proof.
  unfold scan_text. rewrite HasPrefix_app. f_equal.
  induction p as [|c p IH]; autorewrite with str; [by destruct s|done].
Qed.

Lemma Split_none c s : sall (fun x => negb (Ascii.eqb x c)) s = true -> Split c s = [s].
Proof.
  induction s as [|x s IH]; simpl; [done|]. intros [Hx Hs]%andb_true_iff.
  apply negb_true_iff in Hx. by rewrite Hx, IH.
Qed.

Lemma Split_app c a b :
  sall (fun x => negb (Ascii.eqb x c)) a = true -> Split c (a +:+ String c b) = a :: Split c b.
Proof.
  induction a as [|x a IH]; autorewrite with str.
  - intros _. simpl. by rewrite Ascii.eqb_refl.
  - simpl. intros [Hx Ha]%andb_true_iff. apply negb_true_iff in Hx. by rewrite Hx, IH.
Qed.

(** ** A stored password verifies *)

Lemma plain_digits s : sall digit s = true -> sall phc_plain s = true.
Proof.
  apply sall_impl. intros c Hc. unfold digit, range in Hc. unfold phc_plain.
  change (code "0") with 48 in Hc. change (code "9") with 57 in Hc.
  apply andb_true_iff. split; [lia|]. apply negb_true_iff, Ascii.eqb_neq. intros ->. discriminate.
Qed.

Lemma plain_itoa n : 0 <= n -> sall phc_plain (Itoa n) = true.
Proof.
  intros Hn. destruct (Itoa_digits n Hn) as (_ & c & r & -> & Hc & Hr). apply plain_digits.
  cbn [sall]. by rewrite Hc.
Qed.

Lemma plain_split s : sall phc_plain s = true -> sall (fun x => negb (Ascii.eqb x "$")) s = true.
Proof. apply sall_impl. unfold phc_plain. intros c Hc. by eqb_prop; apply negb_true_iff. Qed.

Section Stored.
Context `{HA : Argon2, HL : !Argon2Laws}.

(** Parameters of the widths the fields have. *)
Definition in_width (p : Params) : Prop :=
  0 <= Memory p < 2 ^ 32 /\ 0 <= Time p < 2 ^ 32 /\ 0 <= Parallelism p < 2 ^ 8.

Lemma scan_params_print p :
  in_width p ->
  scan_params ("m=" +:+ Itoa (Memory p) +:+ ",t=" +:+ Itoa (Time p) +:+ ",p=" +:+ Itoa (Parallelism p))
  = Some (Memory p, Time p, Parallelism p).
Proof.
  intros (Hm & Ht & Hp). unfold scan_params.
  rewrite scan_text_app, scan_uint_itoa, scan_text_app, scan_uint_itoa, scan_text_app by done.
  rewrite <- (sapp_nil_r (Itoa (Parallelism p))). by rewrite scan_uint_itoa.
Qed.

Lemma scan_version_print n : 0 <= n < 2 ^ 31 -> scan_version ("v=" +:+ Itoa n) = Some n.
Proof.
  intros Hn. unfold scan_version. rewrite scan_text_app, <- (sapp_nil_r (Itoa n)).
  by rewrite scan_int_itoa by (done || lia).
Qed.

Lemma Decode_Encode p salt tag :
  in_width p ->
  Decode (Encode p salt tag)
  = Ok (mkParams (Memory p) (Time p) (Parallelism p) (uint32 (len salt)) (uint32 (len tag)), salt, tag).
Proof.
  intros Hp. pose proof (proj1 version_int) as Hv0. pose proof (proj2 version_int) as Hv1.
  set (body := "m=" +:+ Itoa (Memory p) +:+ ",t=" +:+ Itoa (Time p) +:+ ",p=" +:+ Itoa (Parallelism p)).
  assert (He : Encode p salt tag
    = "" +:+ String "$" ("argon2id" +:+ String "$" (("v=" +:+ Itoa Version) +:+ String "$" (body
        +:+ String "$" (EncodeToString salt +:+ String "$" (EncodeToString tag)))))).
  { unfold Encode, body. rewrite !sapp_assoc. autorewrite with str. done. }
  unfold Decode. rewrite He. clear He.
  assert (Hb : sall phc_plain body = true).
  { unfold body. rewrite !sall_app. rewrite !plain_itoa by apply Hp. reflexivity. }
  assert (Hvp : sall phc_plain ("v=" +:+ Itoa Version) = true)
    by (rewrite sall_app, plain_itoa by lia; reflexivity).
  rewrite !Split_app by first [reflexivity | apply plain_split; first [done|apply encode_plain]].
  rewrite Split_none by apply plain_split, encode_plain. cbv iota.
  change (("" <>s "") || ("argon2id" <>s "argon2id")) with false. cbv iota.
  rewrite scan_version_print, Z.eqb_refl by done. unfold body. cbn [negb].
  by rewrite scan_params_print, !base64_roundtrip.
Qed.

Lemma length_encode s : len (EncodeToString s) <= 2 * len s + 2.
Proof.
  unfold len. induction s as [|a|a b|a b c s IH] using string_ind3; cbn [EncodeToString String.length]; lia.
Qed.

Lemma length_itoa n : 0 <= n < 2 ^ 32 -> len (Itoa n) <= 19.
Proof.
  intros Hn. destruct (Z.eq_dec n 0) as [->|]; [done|].
  apply (prints_len _ n); [apply Itoa_pos; lia|lia].
Qed.

(** The PHC string of any parameters meets the constraints on the column it is
    stored in, when salt and tag are short. *)
Lemma Encode_storable p salt tag :
  in_width p -> len salt <= 64 -> len tag <= 64 ->
  HasPrefix (Encode p salt tag) "$argon2id$" = true
  /\ 1 <= len (Encode p salt tag) <= 1024 /\ pg_text (Encode p salt tag) = true.
Proof.
  intros (Hm & Ht & Hp) Hs Hg. pose proof (proj1 version_int). pose proof (proj2 version_int).
  unfold Encode. split; [reflexivity|]. split.
  - rewrite !len_app. pose proof (length_encode salt). pose proof (length_encode tag).
    assert (len (Itoa Version) <= 19) by (apply length_itoa; lia). pose proof (length_itoa (Memory p) ltac:(lia)).
    pose proof (length_itoa (Time p) ltac:(lia)). pose proof (length_itoa (Parallelism p) ltac:(lia)).
    repeat match goal with |- context [len (String ?c ?s)] =>
      let n := eval vm_compute in (len (String c s)) in change (len (String c s)) with n end.
    pose proof (len_nonneg (Itoa Version)). pose proof (len_nonneg (Itoa (Memory p))).
    pose proof (len_nonneg (Itoa (Time p))). pose proof (len_nonneg (Itoa (Parallelism p))).
    pose proof (len_nonneg (EncodeToString salt)). pose proof (len_nonneg (EncodeToString tag)). lia.
  - apply ascii_pg_text. apply (sall_impl (fun c => (33 <=? code c) && (code c <? 127))); [intros; lia|].
    assert (Hplain : forall s, sall phc_plain s = true -> sall (fun c => (33 <=? code c) && (code c <? 127)) s = true)
      by (intros s; apply sall_impl; unfold phc_plain; intros c Hc; by eqb_prop; apply andb_true_iff).
    rewrite !sall_app, !(Hplain (Itoa _)), !(Hplain (EncodeToString _))
      by first [apply encode_plain | apply plain_itoa; lia]. reflexivity.
Qed.

(** What the production hasher returns for a password within the byte bound. *)
Definition stored (password salt : string) (phc tag : string) : Prop :=
  Decode phc = Ok (ADR003, salt, tag) /\ Verify phc password = Some (Ok true)
  /\ HasPrefix phc "$argon2id$" = true /\ 1 <= len phc <= 1024 /\ pg_text phc = true.

Lemma Hash_stored password salt h :
  len password <= MaxPasswordBytes -> len salt = 16 -> params h = ADR003 ->
  exists phc tag,
    Hash true (Some salt) password h
    = (Some (Ok phc), mkArgon2id ADR003 (slots h) (derivations h + 1))
    /\ stored password salt phc tag.
Proof.
  intros Hpw Hsalt Hh.
  destruct (IDKey_length password salt 2 19456 1 32) as (tag & Hk & Htag); [lia..|].
  exists (Encode ADR003 salt tag), tag. unfold Hash. rewrite Hh, (proj2 (Z.ltb_ge _ _) Hpw).
  cbn [negb ADR003 Time Memory Parallelism KeyLen]. rewrite Hk. split; [done|].
  assert (Hd : Decode (Encode ADR003 salt tag) = Ok (ADR003, salt, tag)).
  { rewrite Decode_Encode by done. by rewrite Hsalt, Htag. }
  split; [done|]. split.
  - unfold Verify. rewrite Hd. cbn [ADR003 Time Memory Parallelism KeyLen]. by rewrite Hk, String.eqb_refl.
  - apply Encode_storable; [done|lia..].
Qed.

(** C20. A stored password verifies and can be stored: with a free slot and a
    salt, the production hasher turns any password within the byte bound into a
    PHC string that parses back to the pinned parameters and that salt, verifies
    the password, and meets the constraints of the credentials table; a
    derivation is counted exactly then, and never for a password that is too
    long, without a slot or without a salt. *)
Theorem stored_password_verifies password salt h :
  len password <= MaxPasswordBytes -> len salt = 16 -> params h = ADR003 ->
  (exists phc tag,
    Hash true (Some salt) password h
    = (Some (Ok phc), mkArgon2id ADR003 (slots h) (derivations h + 1))
    /\ stored password salt phc tag)
  /\ forall acquired entropy pw,
       MaxPasswordBytes < len pw \/ acquired = false \/ entropy = None ->
       exists e, Hash acquired entropy pw h = (Some (Err e), h).
Proof.
  intros Hpw Hsalt Hh. split; [by apply Hash_stored|].
  intros acquired entropy pw Hc. unfold Hash.
  destruct (Z.ltb_spec MaxPasswordBytes (len pw)); [eauto|].
  destruct acquired; [|eauto]. destruct entropy; [|eauto]. destruct Hc as [|[|]]; (lia || done).
Qed.
End Stored.

(** ** The properties at work *)

(** A derivation that repeats the length of its input. *)
#[local] Instance toy_argon2 : Argon2 := {
  Version := 19;
  IDKey := fun pw salt t m p k =>
    if (t <? 1) || (p <? 1) then None
    else Some (string_of_list_ascii (repeat (byte (len pw mod 256)) (Z.to_nat k)))
}.

#[local] Instance toy_laws : Argon2Laws.
Proof.
  split; [vm_compute; split; [discriminate|reflexivity]|].
  intros pw salt t m p k Ht Hp Hk. cbn [IDKey toy_argon2].
  rewrite (proj2 (Z.ltb_ge t 1) Ht), (proj2 (Z.ltb_ge p 1) Hp). eexists. split; [reflexivity|].
  generalize (byte (len pw mod 256)). intros c. unfold len.
  assert (Hl : forall n, String.length (string_of_list_ascii (repeat c n)) = n)
    by (induction n as [|n IH]; simpl; [done|by rewrite IH]).
  rewrite Hl. lia.
Qed.

Lemma stored_password_verifies_witness :
  exists phc, (Hash true (Some "0123456789abcdef"%string) "correct horse" (New 8)).1 = Some (Ok phc)
    /\ Verify phc "correct horse" = Some (Ok true) /\ Verify phc "wrong" = Some (Ok false).
Proof.
  destruct (stored_password_verifies "correct horse" "0123456789abcdef" (New 8)) as [(phc & tag & Hh & (_ & Hv & _)) _];
    [vm_compute; discriminate|reflexivity|reflexivity|].
  exists phc. split; [by rewrite Hh|]. split; [done|].
  vm_compute in Hh. injection Hh as <-. vm_compute. reflexivity.
Defined.

Example phc_of_toy :
  Encode ADR003 "0123456789abcdef" "tag"
  = "$argon2id$v=19$m=19456,t=2,p=1$MDEyMzQ1Njc4OWFiY2RlZg$dGFn"%string.
Proof. vm_compute. reflexivity. Qed.
