(* ===== verification/SafeError.v ===== *)
(** * What may be written to jobs.last_error (src/internal/jobs/worker.go)

    [safeError] redacts and then truncates the text of an error.  The redaction
    is an argument: the theorems hold for whatever it returns.  PostgreSQL
    refuses a text parameter that is not valid UTF-8, so the cut must respect
    rune boundaries. *)

From S2P Require Import Prelude Utf8.

(** The constant [max] of [truncate]. *)
Definition max_error_bytes : nat := Z.to_nat 2000.

Definition truncated_suffix : string := "… (truncated)".

(** The loop [for cut > 0 && !utf8.RuneStart(s[cut]) { cut-- }]. *)
Fixpoint back_off (cut : nat) (s : string) : nat :=
  match cut with
  | O => O
  | S c =>
      match sget cut s with
      | Some b => if RuneStart b then cut else back_off c s
      | None => cut
      end
  end.

Definition truncate (s : string) : string :=
  if (String.length s <=? max_error_bytes)%nat then s
  else
    let cut := back_off max_error_bytes s in
    let out := stake cut s in
    let out := if ValidString out then out else ToValidUTF8 out in
    out +:+ truncated_suffix.

Definition safeError (Redact : string -> string) (s : string) : string :=
  truncate (Redact s).

(** ** The loop *)

Lemma back_off_le cut s : (back_off cut s <= cut)%nat.
Proof.
  induction cut as [|c IH]; cbn [back_off]; [done|].
  destruct (sget (S c) s); [|done]. destruct (RuneStart a); lia.
Qed.

(** On a valid string the loop stops at a start byte, at most three back. *)
Lemma back_off_start cut s k c :
  (k <= cut)%nat -> sget (cut - k) s = Some c -> RuneStart c = true ->
  (cut < String.length s)%nat ->
  exists b, (cut - k <= back_off cut s)%nat
            /\ sget (back_off cut s) s = Some b /\ RuneStart b = true.
Proof.
  revert k; induction cut as [|cut IH]; intros k Hk Hget Hst Hlen.
  - exists c. replace (0 - k)%nat with 0%nat in Hget by lia. split; [lia|done].
  - cbn [back_off]. destruct k as [|k].
    { rewrite Nat.sub_0_r in Hget. rewrite Hget, Hst. exists c. split; [lia|done]. }
    destruct (sget (S cut) s) as [b|] eqn:Hb.
    + destruct (RuneStart b) eqn:Hs.
      * exists b. split; [lia|done].
      * destruct (IH k ltac:(lia) Hget Hst ltac:(lia)) as (b' & H1 & H2).
        exists b'. split; [lia|done].
    + exfalso. clear -Hb Hlen. revert s Hb Hlen.
      induction (S cut) as [|m IHm]; intros [|x s]; simpl; intros; try lia; try done.
      apply (IHm s); [done|lia].
Qed.

Lemma suffix_Utf8 : Utf8 truncated_suffix.
Proof. by apply ValidString_Utf8. Qed.
#[export] Hint Resolve suffix_Utf8 : vizra.

Lemma stake_len n s : len (stake n s) <= Z.of_nat n.
Proof. unfold len. rewrite length_stake. lia. Qed.

Lemma truncate_short s : len s <= 2000 -> truncate s = s.
Proof.
  intros Hl. unfold truncate. rewrite (proj2 (Nat.leb_le _ _)); [done|].
  unfold len, max_error_bytes in *. lia.
Qed.

Lemma truncate_long s :
  (max_error_bytes < String.length s)%nat ->
  exists out, truncate s = out +:+ truncated_suffix /\ Utf8 out /\ len out <= 2000.
Proof.
  intros Hl. unfold truncate. rewrite (proj2 (Nat.leb_gt _ _) Hl).
  pose proof (back_off_le max_error_bytes s) as Hb.
  pose proof (stake_len (back_off max_error_bytes s) s) as Hs.
  assert (Z.of_nat max_error_bytes = 2000) by (unfold max_error_bytes; lia).
  eexists. split; [reflexivity|].
  destruct (ValidString (stake _ s)) eqn:Hv.
  - split; [by apply ValidString_Utf8|lia].
  - pose proof (ToValidUTF8_shorter (stake (back_off max_error_bytes s) s)).
    split; [auto with vizra|lia].
Qed.

Lemma len_long s : 2000 < len s -> (max_error_bytes < String.length s)%nat.
Proof. unfold len, max_error_bytes. lia. Qed.

Lemma truncate_len s : len (truncate s) <= 2015.
Proof.
  destruct (Z.leb_spec (len s) 2000) as [Hl|Hl]; [rewrite truncate_short; lia|].
  destruct (truncate_long s (len_long s Hl)) as (out & -> & _ & Hb).
  rewrite len_app. change (len truncated_suffix) with 15. lia.
Qed.

(** ** Properties *)

(** A cut text can be stored: whatever bytes a handler's error contains, if
    it is longer than 2000 bytes the result is valid UTF-8 of at most 2015
    bytes, and for every input the character count stays within the 4096 of
    the jobs_last_error_bounded constraint. *)
Theorem truncate_storable s :
  (2000 < len s -> ValidString (truncate s) = true /\ len (truncate s) <= 2015)
  /\ RuneCount (truncate s) <= 4096.
Proof.
  split.
  - intros Hl. destruct (truncate_long s (len_long s Hl)) as (out & Ht & Hu & Hb).
    split; [|apply truncate_len]. rewrite Ht. apply ValidString_Utf8. auto with vizra.
  - pose proof (RuneCount_le (truncate s)). pose proof (truncate_len s). lia.
Qed.

(** A text of [n] raw 0xff bytes. *)
Definition raw_bytes (n : nat) : string := String.concat "" (List.repeat (String "255"%char "") n).

Lemma truncate_storable_witness :
  ValidString (truncate (raw_bytes 2001)) = true /\ len (truncate (raw_bytes 2001)) <= 2015.
Proof. apply truncate_storable. vm_compute. reflexivity. Defined.

(** A rune is never cut in half and no more than three bytes are lost to
    that: a valid text is stored whole when it fits, and otherwise as its own
    prefix of 1997 to 2000 bytes followed by the marker. *)
Theorem truncate_keeps_prefix s :
  ValidString s = true ->
  (len s <= 2000 -> truncate s = s)
  /\ (2000 < len s -> exists cut, (1997 <= cut <= 2000)%nat
        /\ truncate s = stake cut s +:+ truncated_suffix).
Proof.
  intros Hv%ValidString_Utf8. split; intros Hl; unfold truncate.
  - by apply truncate_short.
  - pose proof (len_long s Hl) as Hlt.
    rewrite (proj2 (Nat.leb_gt _ _) Hlt).
    destruct (Utf8_start_near s max_error_bytes Hv Hlt) as (k & c & Hk3 & Hk & Hget & Hst).
    destruct (back_off_start _ _ _ _ Hk Hget Hst Hlt) as (b & Hlo & Hb & Hsb).
    exists (back_off max_error_bytes s). split.
    { pose proof (back_off_le max_error_bytes s). unfold max_error_bytes in *. lia. }
    by rewrite (proj2 (ValidString_Utf8 _) (Utf8_prefix _ _ _ Hv Hb Hsb)).
Qed.

Lemma truncate_keeps_prefix_witness : truncate "connection refused — retry" = "connection refused — retry".
Proof. apply truncate_keeps_prefix; [reflexivity | vm_compute; discriminate]. Defined.
