(* ===== verification/JobTable.v ===== *)
(** * The jobs table: schema and statements

    The statements are the SQL texts of src/internal/store/sqlcgen/jobs.sql.go,
    and the constraints those of src/migrations/0002_jobs.up.sql.  A table is
    the list of its rows in some physical order: a scan that ties on its ORDER
    BY takes the first, so a theorem over every list covers every choice the
    database may make.  [now] is the transaction timestamp, in microseconds.

    A statement answers [Err] with the SQLSTATE and constraint name and then
    leaves the table as it was, or [Ok] with the new table. *)

From S2P Require Import Prelude Utf8 Pg.

(** ** Rows *)

Inductive JobState := queued | leased | succeeded | failed | dead.

#[export] Instance JobState_eq_dec : EqDecision JobState.
Proof. solve_decision. Defined.

Record Job := mkJob {
  id : uuid;
  kind : string;
  payload : string;
  idempotency_key : option string;
  state : JobState;
  priority : Z;
  attempts : Z;
  max_attempts : Z;
  run_after : timestamp;
  leased_until : option timestamp;
  leased_by : option string;
  last_error : option string;
  correlation_id : string;
  created_at : timestamp;
  updated_at : timestamp;
  finished_at : option timestamp
}.

#[export] Instance Job_eq_dec : EqDecision Job.
Proof. solve_decision. Defined.

Definition Table := list Job.

(** What the server computes from a jsonb value: [octet_length(payload::text)].
    The text form is the server's, not the bytes that were sent. *)
Class Jsonb := jsonb_octets : string -> Z.

(** ** Constraints *)

Definition live (j : Job) : bool :=
  bool_decide (state j = queued) || bool_decide (state j = leased).

Section Constraints.
Context `{Jsonb}.

(** The CHECK constraints, by name; the first violated one is reported. *)
Definition checks (j : Job) : list (string * bool) :=
  [("jobs_attempts_bounded", (0 <=? attempts j) && (attempts j <=? max_attempts j));
   ("jobs_correlation_bounded",
     (1 <=? RuneCount (correlation_id j)) && (RuneCount (correlation_id j) <=? 128));
   ("jobs_kind_bounded", (1 <=? RuneCount (kind j)) && (RuneCount (kind j) <=? 64));
   ("jobs_last_error_bounded",
     match last_error j with None => true | Some e => RuneCount e <=? 4096 end);
   ("jobs_lease_complete",
     negb (bool_decide (state j = leased))
     || (negb (is_null (leased_until j)) && negb (is_null (leased_by j))));
   ("jobs_max_attempts_positive", 1 <=? max_attempts j);
   ("jobs_payload_bounded", jsonb_octets (payload j) <=? 65536);
   ("jobs_terminal_finished", Bool.eqb (live j) (is_null (finished_at j)))].

Definition violated (j : Job) : option string :=
  match List.find (fun c => negb (snd c)) (checks j) with
  | Some c => Some (fst c)
  | None => None
  end.

(** The column types: smallint and int. *)
Definition typed (j : Job) : bool :=
  int16_range (priority j) && int32_range (attempts j) && int32_range (max_attempts j).

Definition row_error (j : Job) : option PgError :=
  if negb (typed j) then Some (mkPgError "22003" "")
  else match violated j with
       | Some c => Some (mkPgError "23514" c)
       | None => None
       end.

(** The key under which a row enters the partial unique index jobs_idem. *)
Definition idem_key (j : Job) : option (string * string) :=
  if live j then match idempotency_key j with
                 | Some k => Some (kind j, k)
                 | None => None
                 end
  else None.

Definition live_keys (t : Table) : list (string * string) := omap idem_key t.

(** UPDATE ... WHERE ... RETURNING: the rows [where_] selects become [set_] of
    themselves; every new row is checked, then the unique index. *)
Definition update (where_ : Job -> bool) (set_ : Job -> Job) (t : Table)
    : result PgError (Table * list Job) :=
  let t' := map (fun j => if where_ j then set_ j else j) t in
  let touched := map set_ (List.filter where_ t) in
  match omap row_error touched with
  | e :: _ => Err e
  | [] => if bool_decide (NoDup (live_keys t')) then Ok (t', touched)
          else Err (mkPgError "23505" "jobs_idem")
  end.

(** ** Statements *)

Record EnqueueJobParams := mkEnqueueJobParams {
  p_id : uuid; p_kind : string; p_payload : string; p_idempotency_key : option string;
  p_priority : Z; p_max_attempts : Z; p_run_after : option timestamp; p_correlation_id : string
}.

Definition new_row (p : EnqueueJobParams) (now : timestamp) : Job :=
  mkJob (p_id p) (p_kind p) (p_payload p) (p_idempotency_key p) queued (p_priority p)
    0 (p_max_attempts p) (match p_run_after p with Some r => r | None => now end)
    None None None (p_correlation_id p) now now None.

(** INSERT ... ON CONFLICT DO NOTHING RETURNING: no row comes back when either
    unique index already holds the new row's key. *)
Definition EnqueueJob (p : EnqueueJobParams) (now : timestamp) (t : Table)
    : result PgError (Table * option Job) :=
  with_text [Some (p_kind p); p_idempotency_key p; Some (p_correlation_id p)]
    (let j := new_row p now in
     match row_error j with
     | Some e => Err e
     | None =>
         if existsb (fun k => id k =s id j) t
            || match idem_key j with
               | Some key => bool_decide (key ∈ live_keys t)
               | None => false
               end
         then Ok (t, None) else Ok (t ++ [j], Some j)
     end).

(** ORDER BY priority, run_after LIMIT 1. *)
Definition before (j k : Job) : bool :=
  (priority j <? priority k)
  || ((priority j =? priority k) && (run_after j <? run_after k)).

Fixpoint first_by_order (l : list Job) : option Job :=
  match l with
  | [] => None
  | j :: l => match first_by_order l with
              | None => Some j
              | Some k => if before k j then Some k else Some j
              end
  end.

Definition eligible (kinds : list string) (now : timestamp) (j : Job) : bool :=
  bool_decide (state j = queued) && (run_after j <=? now)
  && (attempts j <? max_attempts j) && one_of (kind j) kinds.

Definition set_leased (by_ : option string) (until : timestamp) (now : timestamp) (j : Job) : Job :=
  mkJob (id j) (kind j) (payload j) (idempotency_key j) leased (priority j)
    (attempts j + 1) (max_attempts j) (run_after j) (Some until) by_ (last_error j)
    (correlation_id j) (created_at j) now (finished_at j).

(** FOR UPDATE SKIP LOCKED: [locked] are the rows other transactions hold. *)
Definition ClaimJob (locked : list uuid) (by_ : option string) (lease : Z)
    (kinds : list string) (now : timestamp) (t : Table)
    : result PgError (Table * option Job) :=
  with_text (by_ :: map Some kinds)
    (match first_by_order
             (List.filter (fun j => eligible kinds now j && negb (one_of (id j) locked)) t) with
     | None => Ok (t, None)
     | Some c =>
         let? (t', rows) := update (fun j => id j =s id c)
                              (set_leased by_ (now + lease) now) t in
         Ok (t', head rows)
     end).

(** The guard of every statement a lease holder issues. *)
Definition held (i : uuid) (by_ : option string) (j : Job) : bool :=
  (id j =s i) && bool_decide (state j = leased) && sql_eq (leased_by j) by_.

Definition rows_affected (r : result PgError (Table * list Job)) : result PgError (Table * Z) :=
  let? (t, rows) := r in Ok (t, Z.of_nat (length rows)).

Definition set_succeeded (now : timestamp) (j : Job) : Job :=
  mkJob (id j) (kind j) (payload j) (idempotency_key j) succeeded (priority j)
    (attempts j) (max_attempts j) (run_after j) (leased_until j) (leased_by j) None
    (correlation_id j) (created_at j) now (Some now).

Definition CompleteJob (i : uuid) (by_ : option string) (now : timestamp) (t : Table) :=
  with_text [by_] (rows_affected (update (held i by_) (set_succeeded now) t)).

(** The rows FailJob and DeadLetterJob write: a terminal state, with no lease. *)
Definition set_terminal (st : JobState) (err : option string) (now : timestamp) (j : Job) : Job :=
  mkJob (id j) (kind j) (payload j) (idempotency_key j) st (priority j)
    (attempts j) (max_attempts j) (run_after j) None None err
    (correlation_id j) (created_at j) now (Some now).

Definition FailJob (err : option string) (i : uuid) (by_ : option string)
    (now : timestamp) (t : Table) :=
  with_text [err; by_] (rows_affected (update (held i by_) (set_terminal failed err now) t)).

Definition DeadLetterJob (err : option string) (i : uuid) (by_ : option string)
    (now : timestamp) (t : Table) :=
  with_text [err; by_] (rows_affected (update (held i by_) (set_terminal dead err now) t)).

Definition set_requeued (run : timestamp) (err : option string) (now : timestamp) (j : Job) : Job :=
  mkJob (id j) (kind j) (payload j) (idempotency_key j) queued (priority j)
    (attempts j) (max_attempts j) run None None err
    (correlation_id j) (created_at j) now (finished_at j).

Definition RetryJob (backoff : Z) (err : option string) (i : uuid) (by_ : option string)
    (now : timestamp) (t : Table) :=
  with_text [err; by_]
    (rows_affected (update (fun j => held i by_ j && (attempts j <? max_attempts j))
                      (set_requeued (now + backoff) err now) t)).

Definition set_renewed (until : timestamp) (now : timestamp) (j : Job) : Job :=
  mkJob (id j) (kind j) (payload j) (idempotency_key j) (state j) (priority j)
    (attempts j) (max_attempts j) (run_after j) (Some until) (leased_by j) (last_error j)
    (correlation_id j) (created_at j) now (finished_at j).

(** No row back is pgx.ErrNoRows: the lease is no longer held. *)
Definition HeartbeatJob (lease : Z) (i : uuid) (by_ : option string)
    (now : timestamp) (t : Table) : result PgError (Table * option Job) :=
  with_text [by_]
    (let? (t', rows) := update (held i by_) (set_renewed (now + lease) now) t in
     Ok (t', head rows)).

Definition sweep_error : string :=
  "lease elapsed with attempts exhausted: the worker holding this job stopped without recording an outcome".

Definition stale (now : timestamp) (j : Job) : bool :=
  bool_decide (state j = leased)
  && match leased_until j with Some u => u <? now | None => false end.

Definition set_swept (now : timestamp) (j : Job) : Job :=
  if max_attempts j <=? attempts j
  then mkJob (id j) (kind j) (payload j) (idempotency_key j) dead (priority j)
         (attempts j) (max_attempts j) (run_after j) None None (Some sweep_error)
         (correlation_id j) (created_at j) now (Some now)
  else mkJob (id j) (kind j) (payload j) (idempotency_key j) queued (priority j)
         (attempts j) (max_attempts j) (run_after j) None None (last_error j)
         (correlation_id j) (created_at j) now None.

Definition SweepExpiredLeases (now : timestamp) (t : Table) : result PgError (Table * list Job) :=
  update (stale now) (set_swept now) t.

Definition GetLiveJobByIdempotencyKey (k : string) (key : option string) (t : Table)
    : result PgError (option Job) :=
  with_text [Some k; key]
    (Ok (List.find (fun j => (kind j =s k) && sql_eq (idempotency_key j) key && live j) t)).

Definition CountStaleLeases (now : timestamp) (t : Table) : Z :=
  Z.of_nat (length (List.filter (stale now) t)).

End Constraints.

(** ** Invariants *)

Section Invariants.
Context `{Jsonb}.

(** What the types and the CHECK constraints say of a row. *)
Record row_valid (j : Job) : Prop := {
  rv_typed : typed j = true;
  rv_attempts : 0 <= attempts j <= max_attempts j;
  rv_correlation : 1 <= RuneCount (correlation_id j) <= 128;
  rv_kind : 1 <= RuneCount (kind j) <= 64;
  rv_error : match last_error j with None => True | Some e => RuneCount e <= 4096 end;
  rv_lease : state j = leased -> leased_until j <> None /\ leased_by j <> None;
  rv_max : 1 <= max_attempts j;
  rv_payload : jsonb_octets (payload j) <= 65536;
  rv_finished : live j = is_null (finished_at j)
}.

Record table_ok (t : Table) : Prop := {
  ok_rows : Forall row_valid t;
  ok_ids : NoDup (map id t);
  ok_keys : NoDup (live_keys t)
}.

(** No queued row has spent its attempts: such a row could never be claimed. *)
Definition no_zombie (t : Table) : Prop :=
  Forall (fun j => state j = queued -> attempts j < max_attempts j) t.

Lemma violated_none j : violated j = None <-> forallb snd (checks j) = true.
Proof.
  unfold violated. induction (checks j) as [|[c b] l IH]; simpl; [done|].
  destruct b; simpl; [exact IH|done].
Qed.

Lemma row_error_spec j : row_error j = None <-> row_valid j.
Proof.
  unfold row_error. destruct (typed j) eqn:Ht; simpl.
  2:{ split; [done|]. intros []. congruence. }
  destruct (violated j) eqn:Hv.
  - split; [done|]. intros [? ? ? ? He Hl ? ? Hf]. enough (violated j = None) by congruence.
    apply violated_none. unfold checks. simpl. rewrite !andb_true_iff.
    repeat split; try (apply Z.leb_le; lia).
    + destruct (last_error j); [by apply Z.leb_le|done].
    + case_bool_decide as Hs; simpl; [|done]. destruct (Hl Hs) as [H1 H2].
      by rewrite (proj2 (is_null_false _) H1), (proj2 (is_null_false _) H2).
    + by rewrite Hf, Bool.eqb_reflx.
  - split; [|done]. intros _. apply violated_none in Hv.
    unfold checks in Hv. simpl in Hv. rewrite !andb_true_iff in Hv.
    destruct Hv as ([Ha Ha'] & [Hc Hc'] & [Hk Hk'] & He & Hl & Hm & Hp & Hf & _).
    constructor; try done; try lia.
    + destruct (last_error j); [by apply Z.leb_le|done].
    + intros Hs. rewrite bool_decide_true in Hl by done. simpl in Hl. eqb_prop.
      by rewrite <- !is_null_false.
    + by apply Bool.eqb_prop.
Qed.

(** ** Updates *)

Definition updated (where_ : Job -> bool) (set_ : Job -> Job) (t : Table) : Table :=
  map (fun j => if where_ j then set_ j else j) t.

(** A change that keeps identities and only leaves the unique index. *)
Record keeps_keys (t : Table) (where_ : Job -> bool) (set_ : Job -> Job) : Prop := {
  keeps_id : forall j, id (set_ j) = id j;
  keeps_idem : forall j, List.In j t -> where_ j = true -> idem_key (set_ j) = idem_key j \/ idem_key (set_ j) = None
}.

Lemma updated_ids where_ set_ t :
  keeps_keys t where_ set_ -> map id (updated where_ set_ t) = map id t.
Proof.
  intros [Hid _]. unfold updated. rewrite map_map. apply map_ext. intros j.
  by case_match.
Qed.

Lemma updated_live_keys where_ set_ t :
  keeps_keys t where_ set_ -> NoDup (live_keys t) -> NoDup (live_keys (updated where_ set_ t)).
Proof.
  intros [_ Hk] Hn. unfold live_keys, updated in *. rewrite omap_map.
  eapply sublist_NoDup; [exact Hn|]. apply omap_sublist.
  intros j Hj. case_match; [by apply Hk|by left].
Qed.

Lemma touched_valid (where_ : Job -> bool) (set_ : Job -> Job) (t : Table) :
  (forall j, List.In j t -> where_ j = true -> row_valid (set_ j)) ->
  omap row_error (map set_ (List.filter where_ t)) = [].
Proof.
  intros Hv. induction t as [|j t IH]; simpl; [done|].
  destruct (where_ j) eqn:Hw; simpl in *; [|apply IH; auto].
  rewrite (proj2 (row_error_spec _)); [apply IH; auto|]. apply Hv; auto.
Qed.

Lemma update_ok where_ set_ t :
  table_ok t -> keeps_keys t where_ set_ ->
  (forall j, List.In j t -> where_ j = true -> row_valid (set_ j)) ->
  update where_ set_ t = Ok (updated where_ set_ t, map set_ (List.filter where_ t))
  /\ table_ok (updated where_ set_ t).
Proof.
  intros [Hr Hi Hn] Hk Hv. pose proof (updated_live_keys where_ set_ t Hk Hn) as Hkeys.
  split.
  - unfold update. rewrite touched_valid by done. fold (updated where_ set_ t).
    by rewrite bool_decide_true.
  - constructor; [|by rewrite updated_ids|done].
    unfold updated. apply Forall_forall. intros j Hj.
    apply list_elem_of_In, in_map_iff in Hj as (k & <- & Hin).
    destruct (where_ k) eqn:Hw; [by apply Hv|].
    rewrite Forall_forall in Hr. apply Hr. by apply list_elem_of_In.
Qed.

Lemma update_inv where_ set_ t t' rows :
  update where_ set_ t = Ok (t', rows) ->
  t' = updated where_ set_ t /\ rows = map set_ (List.filter where_ t).
Proof. unfold update, updated. intros Hu. split_in Hu. done. Qed.

(** An update whose condition no row meets changes nothing. *)
Lemma updated_none where_ set_ t :
  (forall j, List.In j t -> where_ j = false) ->
  updated where_ set_ t = t /\ List.filter where_ t = [].
Proof.
  intros Hn. induction t as [|j t IH]; simpl; [done|].
  destruct IH as [H1 H2]; [simpl in Hn; auto|].
  rewrite (Hn j) by (simpl; auto). split; [by f_equal|done].
Qed.

Lemma Forall_updated (P : Job -> Prop) where_ set_ t :
  Forall P t -> (forall j, List.In j t -> where_ j = true -> P j -> P (set_ j)) ->
  Forall P (updated where_ set_ t).
Proof.
  intros Hp Hs. unfold updated. rewrite Forall_forall in *. intros j Hj.
  apply list_elem_of_In, in_map_iff in Hj as (k & <- & Hin).
  assert (P k) by (apply Hp; by apply list_elem_of_In).
  destruct (where_ k) eqn:Hw; auto.
Qed.

Lemma table_row t j : table_ok t -> List.In j t -> row_valid j.
Proof. intros [Hr _ _] Hin. rewrite Forall_forall in Hr. apply Hr. by apply list_elem_of_In. Qed.

(** ** The rows the statements write are valid *)

Lemma live_queued j : state j = queued -> live j = true.
Proof. unfold live. by intros ->. Qed.

Lemma live_leased j : state j = leased -> live j = true.
Proof. unfold live. by intros ->. Qed.

Lemma held_leased i by_ j : held i by_ j = true -> state j = leased /\ id j = i /\ sql_eq (leased_by j) by_ = true.
Proof. unfold held. intros Hh. eqb_prop. by apply bool_decide_eq_true_1 in H2. Qed.

Ltac valid_row := intros []; constructor; simpl in *; try done; try lia; auto.

Lemma set_leased_valid by_ until now j :
  row_valid j -> state j = queued -> attempts j < max_attempts j -> by_ <> None ->
  row_valid (set_leased by_ until now j).
Proof.
  intros Hv Hs Ha Hb. revert Hv. valid_row.
  - unfold typed, int16_range, int32_range in *. simpl. lia.
  - rewrite <- rv_finished0. unfold live. simpl. by rewrite Hs.
Qed.

Lemma set_succeeded_valid now j : row_valid j -> row_valid (set_succeeded now j).
Proof. valid_row. Qed.

Lemma set_terminal_valid st err now j :
  row_valid j -> st = failed \/ st = dead ->
  match err with None => True | Some e => RuneCount e <= 4096 end ->
  row_valid (set_terminal st err now j).
Proof. intros Hv [-> | ->] He; revert Hv; valid_row. Qed.

Lemma set_requeued_valid run err now j :
  row_valid j -> state j = leased ->
  match err with None => True | Some e => RuneCount e <= 4096 end ->
  row_valid (set_requeued run err now j).
Proof.
  intros Hv Hs He. revert Hv. valid_row.
  rewrite <- rv_finished0. unfold live. simpl. by rewrite Hs.
Qed.

Lemma set_renewed_valid until now j : row_valid j -> row_valid (set_renewed until now j).
Proof. valid_row. intros Hs. split; [done|]. by apply rv_lease0. Qed.

Lemma sweep_error_short : RuneCount sweep_error <= 4096.
Proof. by vm_compute. Qed.

Lemma set_swept_valid now j : row_valid j -> row_valid (set_swept now j).
Proof.
  pose proof sweep_error_short as Hs. revert Hs. unfold set_swept.
  generalize sweep_error. intros err Hs. case_match; valid_row.
Qed.

End Invariants.

#[export] Hint Resolve set_leased_valid set_succeeded_valid set_terminal_valid
  set_requeued_valid set_renewed_valid set_swept_valid live_queued live_leased : vizra.
