(* ===== verification/Jobs.v ===== *)
(** * The durable job queue (src/internal/jobs/jobs.go, worker.go, convert.go)

    [Enqueue] writes a row in the caller's transaction; a worker claims, runs,
    renews and records; the leader sweeps elapsed leases.  The statements come
    from [JobTable].  Process time (context deadlines) and database time
    ([now()]) are separate arguments: the program never compares the two. *)

From S2P Require Import Prelude Utf8 GoTime SafeError Pg JobTable.

(** ** Durations *)

(** The pgtype.Interval of a duration: whole microseconds, truncated. *)
Definition toInterval (d : Z) : Z := Z.quot d 1000.

(** Five poll intervals, at least 15 seconds (src/internal/jobs/health.go). *)
Definition HealthStaleBound (pollInterval jobTimeout : Z) : Z :=
  let b := 5 * pollInterval in
  if b <? 15 * Second then 15 * Second else b.

(** ** Enqueue *)

Definition Kind := string.
Definition KindNoop : Kind := "noop".

Definition DefaultMaxAttempts : Z := 5.
Definition PriorityUrgent : Z := 1.
Definition DefaultPriority : Z := 100.
Definition PriorityBackground : Z := 200.

Definition MaxPayloadBytes : Z := 65536.
Definition MaxKindBytes : Z := 64.
Definition MaxCorrelationIDBytes : Z := 128.

(** The payload is any Go value; nil is [None]. *)
Record NewJob (V : Type) := mkNewJob {
  nj_Kind : Kind;
  nj_Payload : option V;
  nj_IdempotencyKey : string;
  nj_Priority : Z;
  nj_MaxAttempts : Z;
  nj_RunAfter : option timestamp;
  nj_CorrelationID : string
}.
Arguments mkNewJob {V}.
Arguments nj_Kind {V}. Arguments nj_Payload {V}. Arguments nj_IdempotencyKey {V}.
Arguments nj_Priority {V}. Arguments nj_MaxAttempts {V}. Arguments nj_RunAfter {V}.
Arguments nj_CorrelationID {V}.

Record Enqueued := mkEnqueued {
  e_ID : uuid;
  e_Kind : Kind;
  e_State : JobState;
  e_RunAfter : timestamp;
  e_AlreadyInFlight : bool
}.

Inductive EnqueueError :=
| ErrKindRequired
| ErrNoCorrelationID
| ErrKindTooLong (n : Z)
| ErrCorrelationIDTooLong (n : Z)
| ErrEncoding
| ErrPayloadTooLarge (n : Z)
| ErrUUID
| ErrEnqueueing (e : PgError)
| ErrNoRowNoKey
| ErrLiveUnreadable (e : option PgError).

(** [strPtr] and the [idem] pointer of [Enqueue]: the empty string is nil. *)
Definition strPtr (s : string) : option string := if s =s "" then None else Some s.

Section Enqueue.
Context `{Jsonb} {V : Type}.
(** [json.Marshal] on the payload; it fails on a value JSON cannot express. *)
Context (Marshal : V -> option string).

Definition marshal_payload (p : option V) : option string :=
  match p with Some v => Marshal v | None => Some "{}"%string end.

(** [fresh] is what [uuid.NewV7] returns. *)
Definition Enqueue (fresh : option uuid) (now : timestamp) (j : NewJob V) (t : Table)
    : result EnqueueError Enqueued * Table :=
  if nj_Kind j =s "" then (Err ErrKindRequired, t)
  else if nj_CorrelationID j =s "" then (Err ErrNoCorrelationID, t)
  else if MaxKindBytes <? len (nj_Kind j) then (Err (ErrKindTooLong (len (nj_Kind j))), t)
  else if MaxCorrelationIDBytes <? len (nj_CorrelationID j)
  then (Err (ErrCorrelationIDTooLong (len (nj_CorrelationID j))), t)
  else match marshal_payload (nj_Payload j) with
  | None => (Err ErrEncoding, t)
  | Some raw =>
    if MaxPayloadBytes <? len raw then (Err (ErrPayloadTooLarge (len raw)), t) else
    let maxAttempts := if nj_MaxAttempts j <=? 0 then DefaultMaxAttempts else nj_MaxAttempts j in
    let prio := if nj_Priority j =? 0 then DefaultPriority else nj_Priority j in
    match fresh with
    | None => (Err ErrUUID, t)
    | Some i =>
      let idem := strPtr (nj_IdempotencyKey j) in
      match EnqueueJob (mkEnqueueJobParams i (nj_Kind j) raw idem prio maxAttempts
                          (nj_RunAfter j) (nj_CorrelationID j)) now t with
      | Ok (t', Some row) =>
          (Ok (mkEnqueued (id row) (kind row) (state row) (run_after row) false), t')
      | Err e => (Err (ErrEnqueueing e), t)
      | Ok (t', None) =>
          match idem with
          | None => (Err ErrNoRowNoKey, t')
          | Some _ =>
              match GetLiveJobByIdempotencyKey (nj_Kind j) idem t' with
              | Err e => (Err (ErrLiveUnreadable (Some e)), t')
              | Ok None => (Err (ErrLiveUnreadable None), t')
              | Ok (Some l) =>
                  (Ok (mkEnqueued (id l) (kind l) (state l) (run_after l) true), t')
              end
          end
      end
    end
  end.

End Enqueue.

(** ** Errors a handler returns *)

(** An error with its text; [Wrapped] is [fmt.Errorf("... %w", ...)], whose
    text is already formatted; [Terminal] is the marker type. *)
Inductive goerror :=
| Plain (msg : string)
| Wrapped (msg : string) (inner : goerror)
| Terminal (inner : goerror).

Fixpoint Error (e : goerror) : string :=
  match e with
  | Plain m => m
  | Wrapped m _ => m
  | Terminal e => "terminal: " +:+ Error e
  end.

(** [errors.As] along the Unwrap chain. *)
Fixpoint IsTerminal (e : goerror) : bool :=
  match e with
  | Plain _ => false
  | Wrapped _ e => IsTerminal e
  | Terminal _ => true
  end.

(** ** The retry ladder *)

Definition RetryLadder : list Z := [30 * Second; 2 * Minute; 10 * Minute; Hour; 6 * Hour].

(** [None] would be an index out of range, a panic. *)
Definition Backoff (attempt : Z) : option Z :=
  let attempt := if attempt <? 1 then 1 else attempt in
  let i := attempt - 1 in
  let i := if Z.of_nat (length RetryLadder) <=? i then Z.of_nat (length RetryLadder) - 1 else i in
  RetryLadder !! Z.to_nat i.

(** [rnd] is the draw of [rand.Int64N(int64(d/5))]: between 0 and d/5 - 1. *)
Definition jitter (rnd d : Z) : Z := if d <=? 0 then 0 else rnd - d / 10.

(** ** The worker *)

Record WorkerOptions := mkWorkerOptions {
  Lease : Z;
  Timeout : Z;
  Concurrency : Z;
  PollInterval : Z;
  SweepInterval : Z;
  DrainGrace : Z;
  WorkerID : string;
  HealthStaleAfter : Z
}.

(** [hostname], [pid] and [suffix] are what the process draws for its name. *)
Definition applyDefaults (hostname pid suffix : string) (o : WorkerOptions) : WorkerOptions :=
  let timeout := if Timeout o <=? 0 then 5 * Minute else Timeout o in
  let poll := if PollInterval o <=? 0 then Second else PollInterval o in
  mkWorkerOptions
    (if Lease o <=? 0 then 60 * Second else Lease o)
    timeout
    (if Concurrency o <=? 0 then 4 else Concurrency o)
    poll
    (if SweepInterval o <=? 0 then 2 * Minute else SweepInterval o)
    (if DrainGrace o <=? 0 then 20 * Second else DrainGrace o)
    (if WorkerID o =s "" then hostname +:+ "-" +:+ pid +:+ "-" +:+ suffix else WorkerID o)
    (if HealthStaleAfter o <=? 0 then HealthStaleBound poll timeout else HealthStaleAfter o).

Definition outcomeWriteTimeout : Z := 10 * Second.

Record Claimed := mkClaimed {
  c_ID : uuid;
  c_Kind : Kind;
  c_Payload : string;
  c_Attempts : Z;
  c_MaxAttempts : Z;
  c_CorrelationID : string;
  c_LeasedUntil : timestamp
}.

Definition Handler := Claimed -> option goerror.

Definition Handlers := list (Kind * Handler).

Definition Kinds (hs : Handlers) : list string := map fst hs.

(** Registering a kind twice panics ([None]), except the built-in noop. *)
Definition Register (k : Kind) (h : Handler) (hs : Handlers) : option Handlers :=
  match map_get k hs with
  | Some _ => if k <>s KindNoop then None
              else Some ((k, h) :: List.filter (fun p => fst p <>s k) hs)
  | None => Some ((k, h) :: hs)
  end.

Section Worker.
Context `{Jsonb}.
Context (Redact : string -> string).

Definition claim (o : WorkerOptions) (hs : Handlers) (locked : list uuid) (now : timestamp)
    (t : Table) : result PgError (Table * option Claimed) :=
  let? (t', row) := ClaimJob locked (strPtr (WorkerID o)) (toInterval (Lease o)) (Kinds hs) now t in
  Ok (t', match row with
          | None => None
          | Some r => Some (mkClaimed (id r) (kind r) (payload r) (attempts r) (max_attempts r)
                              (correlation_id r)
                              (match leased_until r with Some u => u | None => 0 end))
          end).

(** What a statement issued under a context with a deadline does: past the
    deadline it fails without reaching the server.  The rows-affected count is
    what [run] looks at; an error of any kind is logged and dropped. *)
Definition issue (deadline process_now : Z) (t : Table)
    (st : result PgError (Table * Z)) : Table * option Z :=
  if process_now <? deadline then
    match st with
    | Ok (t', n) => (t', Some n)
    | Err _ => (t, None)
    end
  else (t, None).

Definition finishFailed (o : WorkerOptions) (j : Claimed) (msg : string)
    (deadline process_now : Z) (now : timestamp) (t : Table) : Table * option Z :=
  issue deadline process_now t
    (FailJob (strPtr (safeError Redact msg)) (c_ID j) (strPtr (WorkerID o)) now t).

(** [started] is when [run] is entered and [finished] when the handler returns,
    on the process clock: the recording context is made on entry.  [None]: the
    ladder lookup would panic. *)
Definition run (o : WorkerOptions) (hs : Handlers) (rnd : Z) (j : Claimed)
    (started finished : Z) (now : timestamp) (t : Table) : option (Table * option Z) :=
  let deadline := started + outcomeWriteTimeout in
  match map_get (c_Kind j) hs with
  | None => Some (finishFailed o j ("no handler registered for kind " +:+ c_Kind j)
                    deadline started now t)
  | Some h =>
      match h j with
      | None =>
          Some (issue deadline finished t (CompleteJob (c_ID j) (strPtr (WorkerID o)) now t))
      | Some err =>
          if IsTerminal err
          then Some (finishFailed o j (Error err) deadline finished now t)
          else if c_MaxAttempts j <=? c_Attempts j
          then Some (issue deadline finished t
                       (DeadLetterJob (strPtr (safeError Redact (Error err)))
                          (c_ID j) (strPtr (WorkerID o)) now t))
          else match Backoff (c_Attempts j) with
               | None => None
               | Some b =>
                   Some (issue deadline finished t
                           (RetryJob (toInterval (b + jitter rnd b)) (strPtr (safeError Redact (Error err)))
                              (c_ID j) (strPtr (WorkerID o)) now t))
               end
      end
  end.

(** One tick of [heartbeat]: [false] is the lost lease, on which the handler's
    context is cancelled; any other failure is logged and retried next tick. *)
Definition heartbeat (o : WorkerOptions) (j : Claimed) (now : timestamp) (t : Table) : Table * bool :=
  match HeartbeatJob (toInterval (Lease o)) (c_ID j) (strPtr (WorkerID o)) now t with
  | Ok (t', Some _) => (t', true)
  | Ok (t', None) => (t', false)
  | Err _ => (t, true)
  end.

(** [leader] is whether this session got the advisory lock.  The counts are
    the requeued and the dead-lettered rows. *)
Definition sweepOnce (leader : bool) (now : timestamp) (t : Table)
    : result PgError (Table * (Z * Z)) :=
  if negb leader then Ok (t, (0, 0))
  else
    let? (t', rows) := SweepExpiredLeases now t in
    let is_dead r := bool_decide (state r = dead) in
    Ok (t', (Z.of_nat (length (List.filter (fun r => negb (is_dead r)) rows)),
             Z.of_nat (length (List.filter is_dead rows)))).

End Worker.

(** ** Lemmas on the claim *)

Section ClaimLemmas.
Context `{Jsonb}.

Lemma first_by_order_spec l :
  match first_by_order l with
  | None => l = []
  | Some j => List.In j l /\ forall k, List.In k l -> before k j = false
  end.
Proof.
  unfold before. induction l as [|j l IH]; [done|]. cbn [first_by_order].
  destruct (first_by_order l) as [k|].
  - destruct IH as [Hin Hmin]. unfold before in *.
    destruct ((priority k <? priority j) || _) eqn:Hb.
    + split; [by right|]. intros x [<-|Hx]; [lia|by apply Hmin].
    + split; [by left|]. intros x [<-|Hx]; [lia|]. specialize (Hmin x Hx). lia.
  - subst l. split; [by left|]. intros x [<-|[]]. lia.
Qed.

Lemma filter_by_id t c :
  NoDup (map id t) -> List.In c t -> List.filter (fun j => id j =s id c) t = [c].
Proof.
  induction t as [|j t IH]; simpl; [done|].
  rewrite NoDup_cons. intros [Hn Hd] [<-|Hin].
  - rewrite String.eqb_refl. f_equal.
    destruct (updated_none (fun k => id k =s id j) (fun x => x) t) as [_ ->]; [|done].
    intros k Hk. apply String.eqb_neq. intros He. apply Hn.
    rewrite <- He. apply list_elem_of_In. by apply in_map.
  - destruct (String.eqb_spec (id j) (id c)) as [He|_]; [|by apply IH].
    exfalso. apply Hn. rewrite He. apply list_elem_of_In. by apply in_map.
Qed.

Lemma same_id t c j :
  NoDup (map id t) -> List.In c t -> List.In j t -> id j = id c -> j = c.
Proof.
  intros Hd Hc Hj He.
  assert (Hf : List.In j (List.filter (fun j => id j =s id c) t)).
  { apply filter_In. split; [done|]. by apply String.eqb_eq. }
  rewrite (filter_by_id t c) in Hf by done. destruct Hf as [?|[]]. done.
Qed.

(** Updating the row with the identity of [c]. *)
Lemma update_one t c (where_ : Job -> bool) (set_ : Job -> Job) :
  table_ok t -> List.In c t -> where_ c = true ->
  (forall j, where_ j = true -> id j = id c) ->
  (forall j, id (set_ j) = id j) ->
  idem_key (set_ c) = idem_key c \/ idem_key (set_ c) = None -> row_valid (set_ c) ->
  update where_ set_ t = Ok (updated where_ set_ t, [set_ c])
  /\ table_ok (updated where_ set_ t).
Proof.
  intros Hok Hc Hw Hid Hsid Hkey Hv.
  assert (Hk : keeps_keys t where_ set_).
  { constructor; [done|]. intros j Hj Hwj.
    by rewrite (same_id t c j (ok_ids _ Hok) Hc Hj (Hid j Hwj)). }
  destruct (update_ok where_ set_ t Hok Hk) as [Hu Ht].
  { intros j Hj Hwj. by rewrite (same_id t c j (ok_ids _ Hok) Hc Hj (Hid j Hwj)). }
  split; [|done]. rewrite Hu. do 2 f_equal.
  replace (List.filter where_ t) with [c]; [done|].
  rewrite <- (filter_by_id t c (ok_ids _ Hok) Hc). symmetry. apply filter_ext_in.
  intros j Hj. destruct (where_ j) eqn:E.
  - symmetry. apply String.eqb_eq. auto.
  - symmetry. apply String.eqb_neq. intros He.
    rewrite (same_id t c j (ok_ids _ Hok) Hc Hj He) in E. congruence.
Qed.

Lemma eligible_spec kinds now j :
  eligible kinds now j = true <->
  state j = queued /\ run_after j <= now /\ attempts j < max_attempts j /\ List.In (kind j) kinds.
Proof.
  unfold eligible. rewrite !andb_true_iff, bool_decide_eq_true, Z.leb_le, Z.ltb_lt, one_of_spec.
  tauto.
Qed.

End ClaimLemmas.

(** The row a claim writes for the worker [w]. *)
Definition claimed_row (w : string) (lease : Z) (now : timestamp) (j : Job) : Job :=
  set_leased (Some w) (now + lease) now j.

Section ClaimFacts.
Context `{Jsonb}.

(** The rows a claim may take. *)
Definition available (kinds : list string) (locked : list uuid) (now : timestamp) (j : Job) : bool :=
  eligible kinds now j && negb (one_of (id j) locked).

Lemma claim_update t c w lease now :
  table_ok t -> List.In c t -> state c = queued -> attempts c < max_attempts c ->
  let set_ := set_leased (Some w) (now + lease) now in
  update (fun j => id j =s id c) set_ t = Ok (updated (fun j => id j =s id c) set_ t, [set_ c])
  /\ table_ok (updated (fun j => id j =s id c) set_ t).
Proof.
  intros Hok Hc Hq Ha set_. apply update_one; try done.
  - apply String.eqb_refl.
  - intros j. apply String.eqb_eq.
  - left. unfold idem_key, live. simpl. by rewrite Hq.
  - apply set_leased_valid; try done. by eapply table_row.
Qed.

Lemma ClaimJob_cases locked w lease kinds now t :
  table_ok t -> forallb pg_text_opt (Some w :: map Some kinds) = true ->
  (ClaimJob locked (Some w) lease kinds now t = Ok (t, None)
   /\ forall j, List.In j t -> available kinds locked now j = false)
  \/ exists c, List.In c t /\ available kinds locked now c = true
       /\ (forall j, List.In j t -> available kinds locked now j = true -> before j c = false)
       /\ ClaimJob locked (Some w) lease kinds now t
          = Ok (updated (fun j => id j =s id c) (claimed_row w lease now) t,
                Some (claimed_row w lease now c))
       /\ table_ok (updated (fun j => id j =s id c) (claimed_row w lease now) t).
Proof.
  intros Hok Htext. unfold ClaimJob, with_text. rewrite Htext.
  change (fun j => eligible kinds now j && _) with (available kinds locked now).
  pose proof (first_by_order_spec (List.filter (available kinds locked now) t)) as Hf.
  destruct (first_by_order _) as [c|].
  - right. exists c. destruct Hf as [Hin Hmin]. apply filter_In in Hin as [Hin Hav].
    assert (Hav' := Hav). unfold available in Hav'. eqb_prop.
    apply eligible_spec in H0 as (Hq & _ & Ha & _).
    destruct (claim_update t c w lease now Hok Hin Hq Ha) as [Hu Ht]. cbv zeta in Hu, Ht.
    rewrite Hu. repeat split; try done; try apply Ht.
    intros j Hj Hj'. apply Hmin. by apply filter_In.
  - left. split; [done|]. intros j Hj. destruct (available kinds locked now j) eqn:E; [|done].
    assert (List.In j []) by (rewrite <- Hf; by apply filter_In). done.
Qed.

Lemma stale_leased now j : stale now j = true -> state j = leased.
Proof. unfold stale. intros Hs. eqb_prop. by apply bool_decide_eq_true_1 in H0. Qed.

Lemma set_swept_key now j :
  state j = leased -> idem_key (set_swept now j) = idem_key j \/ idem_key (set_swept now j) = None.
Proof.
  intros Hs. unfold idem_key, live, set_swept. rewrite Hs.
  destruct (max_attempts j <=? attempts j); simpl; [by right|by left].
Qed.

Lemma sweep_ok now t :
  table_ok t ->
  SweepExpiredLeases now t
  = Ok (updated (stale now) (set_swept now) t, map (set_swept now) (List.filter (stale now) t))
  /\ table_ok (updated (stale now) (set_swept now) t).
Proof.
  intros Hok. apply update_ok; [done| |].
  - constructor; [intros j; unfold set_swept; by case_match|].
    intros j _ Hs. apply set_swept_key. by eapply stale_leased.
  - intros j Hj _. apply set_swept_valid. by eapply table_row.
Qed.

Lemma swept_not_stale now j : stale now j = true -> stale now (set_swept now j) = false.
Proof. intros _. unfold stale, set_swept. by case_match. Qed.

(** ** Lemmas on the statements of a lease holder *)

(** An update that selects no row. *)
Lemma idle_update where_ set_ t :
  (forall j, List.In j t -> where_ j = false) ->
  (update where_ set_ t = Ok (t, []) \/ exists e, update where_ set_ t = Err e)
  /\ (table_ok t -> update where_ set_ t = Ok (t, [])).
Proof.
  intros Hn. unfold update. fold (updated where_ set_ t).
  destruct (updated_none where_ set_ t Hn) as [-> ->]. simpl. split.
  - case_bool_decide; [by left|right; eauto].
  - intros Hok. by rewrite (bool_decide_true _ (ok_keys _ Hok)).
Qed.

Lemma idle_issue where_ set_ ps d p t :
  (forall j, List.In j t -> where_ j = false) ->
  exists n, issue d p t (with_text ps (rows_affected (update where_ set_ t))) = (t, n).
Proof.
  intros Hn. unfold issue. destruct (p <? d); [|eauto].
  unfold with_text. destruct (forallb _ _); [|eauto].
  destruct (idle_update where_ set_ t Hn) as [[-> | [e ->]] _]; simpl; eauto.
Qed.

(** A held row is the only one its holder's statement touches. *)
Lemma held_update_one t r i w (where_ set_ : Job -> _) :
  table_ok t -> List.In r t -> held i (Some w) r = true -> where_ r = true ->
  (forall j, where_ j = true -> held i (Some w) j = true) ->
  (forall j, id (set_ j) = id j) ->
  idem_key (set_ r) = idem_key r \/ idem_key (set_ r) = None -> row_valid (set_ r) ->
  rows_affected (update where_ set_ t) = Ok (updated where_ set_ t, 1)
  /\ table_ok (updated where_ set_ t).
Proof.
  intros Hok Hr Hh Hw Himp Hid Hkey Hv.
  destruct (update_one t r where_ set_) as [Hu Ht]; try done.
  { intros j Hj. apply Himp, held_leased in Hj as (_ & -> & _).
    by apply held_leased in Hh as (_ & -> & _). }
  by rewrite Hu.
Qed.

End ClaimFacts.

(** ** The retry ladder, bounded *)

Lemma Backoff_total attempt : exists b, Backoff attempt = Some b /\ List.In b RetryLadder.
Proof.
  unfold Backoff.
  set (a := if attempt <? 1 then 1 else attempt).
  set (i := if Z.of_nat (length RetryLadder) <=? a - 1 then _ else a - 1).
  assert (Hi : (Z.to_nat i < length RetryLadder)%nat).
  { subst a i. simpl length. destruct (Z.ltb_spec attempt 1);
      [|destruct (Z.leb_spec (Z.of_nat 5) (attempt - 1))]; simpl; lia. }
  destruct (lookup_lt_is_Some_2 RetryLadder (Z.to_nat i) Hi) as [b Hb].
  exists b. split; [done|]. apply list_elem_of_In. by eapply list_elem_of_lookup_2.
Qed.

Lemma Backoff_cases a :
  Backoff a = Some (if a <=? 1 then 30 * Second else if a =? 2 then 2 * Minute
                    else if a =? 3 then 10 * Minute else if a =? 4 then Hour else 6 * Hour).
Proof.
  unfold Backoff. change (Z.of_nat (length RetryLadder)) with 5.
  destruct (Z.leb_spec a 1).
  { destruct (Z.ltb_spec a 1); [done|]. by replace a with 1 by lia. }
  rewrite (proj2 (Z.ltb_ge _ _)) by lia.
  destruct (Z.eqb_spec a 2); [by subst|]. destruct (Z.eqb_spec a 3); [by subst|].
  destruct (Z.eqb_spec a 4); [by subst|]. destruct (Z.eqb_spec a 5); [by subst|].
  by rewrite (proj2 (Z.leb_le _ _)) by lia.
Qed.

Lemma ladder_bounds b : List.In b RetryLadder -> 30 * Second <= b <= 6 * Hour.
Proof. unfold RetryLadder, Hour, Minute, Second, Millisecond. simpl. intros. lia. Qed.

Lemma jitter_bounds rnd b :
  30 * Second <= b -> 0 <= rnd < b / 5 -> b - b / 10 <= b + jitter rnd b <= b + b / 10.
Proof.
  unfold jitter, Second, Millisecond. intros Hb Hr.
  destruct (Z.leb_spec b 0); [lia|].
  assert (b / 5 <= 2 * (b / 10) + 1).
  { pose proof (Z.div_mod b 5). pose proof (Z.mod_pos_bound b 5).
    pose proof (Z.div_mod b 10). pose proof (Z.mod_pos_bound b 10). lia. }
  lia.
Qed.

Lemma requeue_window b rnd :
  30 * Second <= b <= 6 * Hour -> b - b / 10 <= b + jitter rnd b <= b + b / 10 ->
  toInterval (27 * Second) <= toInterval (b + jitter rnd b) <= toInterval (6 * Hour + 36 * Minute).
Proof.
  unfold toInterval, Hour, Minute, Second, Millisecond. intros Hb Hj.
  pose proof (Z.div_mod b 10 ltac:(lia)). pose proof (Z.mod_pos_bound b 10 ltac:(lia)).
  rewrite !Z.quot_div_nonneg by lia. split; apply Z.div_le_mono; lia.
Qed.

Section RunFacts.
Context `{Jsonb}.

Lemma updated_one t r (where_ : Job -> bool) (set_ : Job -> Job) :
  table_ok t -> List.In r t -> where_ r = true ->
  (forall j, where_ j = true -> id j = id r) ->
  updated where_ set_ t = updated (fun k => id k =s id r) (fun _ => set_ r) t.
Proof.
  intros Hok Hr Hw Hid. unfold updated. apply map_ext_in. intros j Hj.
  destruct (where_ j) eqn:E.
  - pose proof (Hid j E) as He. rewrite He, String.eqb_refl.
    by rewrite (same_id t r j (ok_ids _ Hok) Hr Hj He).
  - destruct (String.eqb_spec (id j) (id r)) as [He|]; [|done].
    rewrite (same_id t r j (ok_ids _ Hok) Hr Hj He) in E. congruence.
Qed.

Lemma strPtr_Some s : s <> ""%string -> strPtr s = Some s.
Proof. unfold strPtr. intros Hs. by rewrite (proj2 (String.eqb_neq _ _) Hs). Qed.

(** A stored error text fits its column. *)
Lemma safeError_fits Redact m :
  match strPtr (safeError Redact m) with None => True | Some e => RuneCount e <= 4096 end.
Proof.
  unfold strPtr. destruct (safeError Redact m =s ""); [done|]. unfold safeError.
  pose proof (RuneCount_le (truncate (Redact m))). pose proof (truncate_len (Redact m)). lia.
Qed.

(** The shape every recorded outcome has. *)
Lemma record_one t r i w deadline process_now ps where_ set_ :
  table_ok t -> List.In r t -> held i (Some w) r = true -> where_ r = true ->
  (forall j, where_ j = true -> held i (Some w) j = true) ->
  (forall j, id (set_ j) = id j) ->
  idem_key (set_ r) = idem_key r \/ idem_key (set_ r) = None -> row_valid (set_ r) ->
  process_now < deadline -> forallb pg_text_opt ps = true ->
  issue deadline process_now t (with_text ps (rows_affected (update where_ set_ t)))
  = (updated (fun k => id k =s id r) (fun _ => set_ r) t, Some 1)
  /\ table_ok (updated (fun k => id k =s id r) (fun _ => set_ r) t).
Proof.
  intros Hok Hr Hh Hw Himp Hid Hkey Hv Hd Hps.
  destruct (held_update_one t r i w where_ set_ Hok Hr Hh Hw Himp Hid Hkey Hv) as [Hu Ht].
  rewrite (updated_one t r where_ set_) in * by
    (try done; intros j Hj; apply Himp, held_leased in Hj as (_ & -> & _);
     by apply held_leased in Hh as (_ & -> & _)).
  split; [|done]. unfold issue, with_text. rewrite Hps, Hu.
  by rewrite (proj2 (Z.ltb_lt _ _) Hd).
Qed.

Lemma leaves_index r st err now :
  st = failed \/ st = dead -> idem_key (set_terminal st err now r) = None.
Proof. by intros [-> | ->]. Qed.

Lemma requeue_key r run err now :
  state r = leased -> idem_key (set_requeued run err now r) = idem_key r.
Proof. intros Hs. unfold idem_key, live. simpl. by rewrite Hs. Qed.

(** Past the deadline, or refused by the server, nothing is written. *)
Lemma issue_failed deadline process_now t st :
  deadline <= process_now \/ (exists e, st = Err e) -> issue deadline process_now t st = (t, None).
Proof.
  unfold issue. intros [Hd|[e ->]]; [|by case_match].
  by rewrite (proj2 (Z.ltb_ge _ _) Hd).
Qed.

End RunFacts.

(** ** Properties *)

Section JobProperties.
Context `{Jsonb}.
Context (Redact : string -> string).

(** C38. A claim takes the right row, exactly one, and never fails: on a valid
    table a worker's claim either finds nothing available, or leases to that
    worker a row that was available and that no other available row precedes
    in (priority, run_after) order, counts one attempt, and leaves every other
    row alone; the table stays valid. *)
Theorem claim_takes_first o hs locked now t :
  table_ok t -> WorkerID o <> ""%string ->
  forallb pg_text_opt (Some (WorkerID o) :: map Some (Kinds hs)) = true ->
  let kinds := Kinds hs in
  (claim o hs locked now t = Ok (t, None)
   /\ forall j, List.In j t -> available kinds locked now j = false)
  \/ exists c j, List.In c t /\ available kinds locked now c = true
       /\ (forall k, List.In k t -> available kinds locked now k = true -> before k c = false)
       /\ claim o hs locked now t
          = Ok (updated (fun k => id k =s id c)
                  (claimed_row (WorkerID o) (toInterval (Lease o)) now) t, Some j)
       /\ c_ID j = id c /\ c_Attempts j = attempts c + 1 /\ c_Attempts j <= c_MaxAttempts j
       /\ table_ok (updated (fun k => id k =s id c)
                      (claimed_row (WorkerID o) (toInterval (Lease o)) now) t).
Proof.
  intros Hok Hw Htext kinds. unfold claim. rewrite strPtr_Some by done.
  destruct (ClaimJob_cases locked (WorkerID o) (toInterval (Lease o)) (Kinds hs) now t Hok Htext)
    as [[-> Hn]|(c & Hin & Hav & Hmin & -> & Ht)]; [by left|].
  assert (Ha : attempts c + 1 <= max_attempts c).
  { unfold available in Hav. eqb_prop. apply eligible_spec in H0 as (_ & _ & Ha & _). lia. }
  right. exists c. eexists. by repeat split; try apply Ht.
Qed.

(** The sweep terminates every elapsed lease: on a valid table the
    statement succeeds, no stale lease is left, each swept row is queued with
    an attempt left or dead with its budget spent, no other row changes, and
    the table stays valid and free of unclaimable queued rows. *)
Theorem sweep_reclaims now t :
  table_ok t -> no_zombie t ->
  exists t' n d, sweepOnce true now t = Ok (t', (n, d))
    /\ n + d = CountStaleLeases now t /\ CountStaleLeases now t' = 0
    /\ t' = updated (stale now) (set_swept now) t
    /\ (forall j, stale now j = true ->
          state (set_swept now j)
          = (if attempts j <? max_attempts j then queued else dead)
          /\ attempts (set_swept now j) = attempts j)
    /\ table_ok t' /\ no_zombie t'.
Proof.
  intros Hok Hz. destruct (sweep_ok now t Hok) as [Hs Ht].
  unfold sweepOnce. simpl. rewrite Hs.
  do 3 eexists. split; [reflexivity|]. split.
  { unfold CountStaleLeases. rewrite <- (length_map (set_swept now) (List.filter _ t)).
    pose proof (length_filter_split (fun r => bool_decide (state r = dead))
      (map (set_swept now) (List.filter (stale now) t))). lia. }
  split.
  { unfold CountStaleLeases, updated. clear. induction t as [|j t IH]; simpl; [done|].
    destruct (stale now j) eqn:E; [rewrite (swept_not_stale now j E)|rewrite E]; apply IH. }
  split; [done|]. split.
  { intros j _. unfold set_swept. destruct (Z.leb_spec (max_attempts j) (attempts j)).
    - by rewrite (proj2 (Z.ltb_ge _ _)).
    - by rewrite (proj2 (Z.ltb_lt _ _)). }
  split; [done|]. apply Forall_updated; [done|].
  intros j _ _ Hj. unfold set_swept. case_match eqn:Hm; simpl; [done|]. intros _. lia.
Qed.

(** Fencing: a run or a heartbeat of a worker that no longer holds the
    lease of its job (it was swept, or another worker holds it) leaves the
    table exactly as it was, whatever the handler returned; the heartbeat of a
    valid table reports the loss, which cancels the handler. *)
Theorem lost_lease_writes_nothing o hs rnd j started finished now t :
  (forall r, List.In r t -> held (c_ID j) (strPtr (WorkerID o)) r = false) ->
  (exists n, run Redact o hs rnd j started finished now t = Some (t, n))
  /\ (heartbeat o j now t).1 = t
  /\ (table_ok t -> pg_text_opt (strPtr (WorkerID o)) = true -> (heartbeat o j now t).2 = false).
Proof.
  intros Hn. split; [|split].
  - unfold run, finishFailed, FailJob, CompleteJob, DeadLetterJob, RetryJob.
    assert (Hopt : forall ps where_ set_ d p, (forall r, List.In r t -> where_ r = false) ->
              exists n, Some (issue d p t (with_text ps (rows_affected (update where_ set_ t)))) = Some (t, n)).
    { intros ps where_ set_ d p Hw. destruct (idle_issue where_ set_ ps d p t Hw) as [n ->]. eauto. }
    destruct (map_get _ hs) as [h|]; [|by apply Hopt].
    destruct (h j) as [err|]; [|by apply Hopt].
    destruct (IsTerminal err); [by apply Hopt|].
    destruct (c_MaxAttempts j <=? c_Attempts j); [by apply Hopt|].
    destruct (Backoff_total (c_Attempts j)) as (b & -> & _).
    apply Hopt. intros r Hr. by rewrite Hn.
  - unfold heartbeat, HeartbeatJob, with_text. destruct (forallb _ _); [|done].
    destruct (idle_update _ (set_renewed (now + toInterval (Lease o)) now) t Hn)
      as [[-> | [e ->]] _]; done.
  - intros Hok Hp. unfold heartbeat, HeartbeatJob, with_text. simpl. rewrite Hp. simpl.
    by rewrite (proj2 (idle_update _ _ t Hn) Hok).
Qed.

(** C35. The outcome of a handler that returns within the recording deadline is
    recorded, on every branch: if the worker still holds the row and the error
    text can be stored, [run] changes exactly that row, into succeeded, failed
    (terminal error), dead (attempts spent) or queued again; a requeued row has
    no lease and is due between 27 seconds and 6.6 hours from now. *)
Theorem run_records_outcome o hs (h : Handler) rnd j started finished now t r :
  table_ok t -> List.In r t -> held (c_ID j) (Some (WorkerID o)) r = true ->
  c_Attempts j = attempts r -> c_MaxAttempts j = max_attempts r ->
  map_get (c_Kind j) hs = Some h ->
  WorkerID o <> ""%string -> pg_text (WorkerID o) = true ->
  finished < started + outcomeWriteTimeout ->
  (forall b, Backoff (attempts r) = Some b -> 0 <= rnd < b / 5) ->
  (forall e, h j = Some e -> pg_text_opt (strPtr (safeError Redact (Error e))) = true) ->
  exists r', run Redact o hs rnd j started finished now t
             = Some (updated (fun k => id k =s id r) (fun _ => r') t, Some 1)
    /\ table_ok (updated (fun k => id k =s id r) (fun _ => r') t)
    /\ id r' = id r /\ attempts r' = attempts r
    /\ state r' = match h j with
                  | None => succeeded
                  | Some e => if IsTerminal e then failed
                              else if attempts r <? max_attempts r then queued else dead
                  end
    /\ (state r' = queued ->
          leased_by r' = None
          /\ now + toInterval (27 * Second) <= run_after r'
          /\ run_after r' <= now + toInterval (6 * Hour + 36 * Minute)).
Proof.
  intros Hok Hr Hh Ha Hm Hk Hw Hwt Hd Hrnd Herr. unfold run, finishFailed. rewrite Hk.
  rewrite strPtr_Some by done. pose proof (table_row t r Hok Hr) as Hv.
  destruct (held_leased _ _ _ Hh) as (Hl & Hid & _).
  assert (Hp : forall e, h j = Some e ->
    forallb pg_text_opt [strPtr (safeError Redact (Error e)); Some (WorkerID o)] = true).
  { intros e He. simpl. by rewrite (Herr e He), Hwt. }
  pose proof (safeError_fits Redact) as Hfit.
  destruct (h j) as [err|] eqn:Hhj.
  - destruct (IsTerminal err) eqn:Hterm; [|destruct (Z.leb_spec (c_MaxAttempts j) (c_Attempts j))].
    + destruct (record_one t r (c_ID j) (WorkerID o) (started + outcomeWriteTimeout) finished _ _
        (set_terminal failed (strPtr (safeError Redact (Error err))) now)
        Hok Hr Hh Hh (fun _ x => x) (fun _ => eq_refl) (or_intror (leaves_index _ _ _ _ (or_introl eq_refl)))
        (set_terminal_valid _ _ _ _ Hv (or_introl eq_refl) (Hfit _)) Hd (Hp err eq_refl)) as [Hrec Ht].
      unfold FailJob. rewrite Hrec. eexists. repeat split; try done; apply Ht.
    + destruct (record_one t r (c_ID j) (WorkerID o) (started + outcomeWriteTimeout) finished _ _
        (set_terminal dead (strPtr (safeError Redact (Error err))) now)
        Hok Hr Hh Hh (fun _ x => x) (fun _ => eq_refl) (or_intror (leaves_index _ _ _ _ (or_intror eq_refl)))
        (set_terminal_valid _ _ _ _ Hv (or_intror eq_refl) (Hfit _)) Hd (Hp err eq_refl)) as [Hrec Ht].
      unfold DeadLetterJob. rewrite Hrec, (proj2 (Z.ltb_ge _ _)) by lia.
      eexists. repeat split; try done; apply Ht.
    + destruct (Backoff_total (c_Attempts j)) as (b & Hb & Hin). rewrite Hb.
      pose proof (ladder_bounds b Hin) as Hlb. rewrite Ha in Hb.
      pose proof (jitter_bounds rnd b (proj1 Hlb) (Hrnd b Hb)) as Hj.
      destruct (record_one t r (c_ID j) (WorkerID o) (started + outcomeWriteTimeout) finished _
        (fun k => held (c_ID j) (Some (WorkerID o)) k && (attempts k <? max_attempts k))
        (set_requeued (now + toInterval (b + jitter rnd b)) (strPtr (safeError Redact (Error err))) now)
        Hok Hr Hh ltac:(cbv beta; rewrite Hh; simpl; lia) ltac:(intros k Hk1; cbv beta in Hk1; by eqb_prop) (fun _ => eq_refl)
        (or_introl (requeue_key _ _ _ _ Hl))
        (set_requeued_valid _ _ _ _ Hv Hl (Hfit _)) Hd (Hp err eq_refl)) as [Hrec Ht].
      unfold RetryJob. rewrite Hrec, (proj2 (Z.ltb_lt _ _)) by lia.
      eexists. split; [reflexivity|]. split; [exact Ht|]. simpl.
      pose proof (requeue_window b rnd Hlb Hj). repeat split; lia.
  - destruct (record_one t r (c_ID j) (WorkerID o) (started + outcomeWriteTimeout) finished
      [Some (WorkerID o)] _ (set_succeeded now)
      Hok Hr Hh Hh (fun _ x => x) (fun _ => eq_refl) (or_intror eq_refl)
      (set_succeeded_valid _ _ Hv) Hd ltac:(simpl; by rewrite Hwt)) as [Hrec Ht].
    unfold CompleteJob. rewrite Hrec. eexists. repeat split; try done; apply Ht.
Qed.

(** What the recording deadline costs: the recording context is made when
    [run] is entered, so the outcome of a handler that takes ten seconds or more
    is not written, success included; the row keeps its lease, and once that
    elapses the sweep requeues it, or dead-letters it when this was its last
    attempt. *)
Theorem slow_outcome_unrecorded o hs (h : Handler) rnd j started finished now t r u later :
  table_ok t -> List.In r t -> held (c_ID j) (strPtr (WorkerID o)) r = true ->
  map_get (c_Kind j) hs = Some h -> started + outcomeWriteTimeout <= finished ->
  leased_until r = Some u -> u < later ->
  run Redact o hs rnd j started finished now t = Some (t, None)
  /\ exists t' n, sweepOnce true later t = Ok (t', n) /\ List.In (set_swept later r) t'
       /\ state (set_swept later r) = (if attempts r <? max_attempts r then queued else dead).
Proof.
  intros Hok Hr Hh Hk Hslow Hu Hlater. split.
  - unfold run, finishFailed. rewrite Hk.
    destruct (Backoff_total (c_Attempts j)) as (b & -> & _).
    destruct (h j); [|by rewrite issue_failed by auto].
    destruct (IsTerminal _); [by rewrite issue_failed by auto|].
    destruct (_ <=? _); by rewrite issue_failed by auto.
  - destruct (sweep_ok later t Hok) as [Hs _]. unfold sweepOnce. simpl. rewrite Hs.
    do 2 eexists. split; [reflexivity|]. split.
    + unfold updated. apply in_map_iff. exists r. split; [|done].
      destruct (held_leased _ _ _ Hh) as (Hl & _). unfold stale.
      rewrite Hl, Hu, bool_decide_true by done. simpl.
      by rewrite (proj2 (Z.ltb_lt _ _) Hlater).
    + unfold set_swept. destruct (Z.leb_spec (max_attempts r) (attempts r)).
      * by rewrite (proj2 (Z.ltb_ge _ _)).
      * by rewrite (proj2 (Z.ltb_lt _ _)).
Qed.

(** Only a long error text is made valid: when a handler fails with at most
    2000 bytes that are not valid UTF-8 and redaction leaves them as they are,
    the server refuses the text, so neither the retry, the dead letter nor the
    terminal failure is recorded and the row keeps its lease. *)
Theorem invalid_error_unrecorded o hs (h : Handler) rnd j err started finished now t :
  map_get (c_Kind j) hs = Some h -> h j = Some err ->
  Redact (Error err) = Error err -> len (Error err) <= 2000 -> ValidString (Error err) = false ->
  run Redact o hs rnd j started finished now t = Some (t, None).
Proof.
  intros Hk Hj Hred Hlen Hinv.
  assert (Hp : forall x, forallb pg_text_opt [strPtr (safeError Redact (Error err)); x] = false).
  { intros x. unfold safeError. rewrite Hred, truncate_short by done.
    rewrite strPtr_Some by (intros He; by rewrite He in Hinv).
    simpl. unfold pg_text. by rewrite Hinv. }
  unfold run, finishFailed, FailJob, DeadLetterJob, RetryJob, with_text. rewrite Hk, Hj, Hp.
  destruct (Backoff_total (c_Attempts j)) as (b & -> & _).
  destruct (IsTerminal err); [by rewrite issue_failed by eauto|].
  destruct (_ <=? _); by rewrite issue_failed by eauto.
Qed.

End JobProperties.

(** The ladder is total, bounded and monotone: for every attempt number,
    negative ones included, [Backoff] indexes inside the ladder and returns 30
    seconds to 6 hours; a later attempt never waits less; from the fifth on it
    is 6 hours. *)
Theorem backoff_ladder a a' :
  a <= a' ->
  exists b b', Backoff a = Some b /\ Backoff a' = Some b'
    /\ 30 * Second <= b <= b' /\ b' <= 6 * Hour /\ (5 <= a -> b = 6 * Hour).
Proof.
  intros Hle. do 2 eexists. split; [apply Backoff_cases|]. split; [apply Backoff_cases|].
  unfold Hour, Minute, Second, Millisecond.
  destruct (Z.leb_spec a 1), (Z.leb_spec a' 1); try lia;
    destruct (Z.eqb_spec a 2), (Z.eqb_spec a' 2); try lia;
    destruct (Z.eqb_spec a 3), (Z.eqb_spec a' 3); try lia;
    destruct (Z.eqb_spec a 4), (Z.eqb_spec a' 4); lia.
Qed.

Lemma backoff_ladder_witness :
  exists b b', Backoff 2 = Some b /\ Backoff 7 = Some b'
    /\ 30 * Second <= b <= b' /\ b' <= 6 * Hour /\ (5 <= 2 -> b = 6 * Hour).
Proof. apply backoff_ladder. lia. Defined.

(** ** Enqueue *)

Section EnqueueProperties.
Context `{Jsonb} {V : Type}.
Context (Marshal : V -> option string).

(** The parameters [Enqueue] passes for the marshalled payload [raw]. *)
Definition enqueue_params (j : NewJob V) (raw : string) (i : uuid) : EnqueueJobParams :=
  mkEnqueueJobParams i (nj_Kind j) raw (strPtr (nj_IdempotencyKey j))
    (if nj_Priority j =? 0 then DefaultPriority else nj_Priority j)
    (if nj_MaxAttempts j <=? 0 then DefaultMaxAttempts else nj_MaxAttempts j)
    (nj_RunAfter j) (nj_CorrelationID j).

(** The checks of [Enqueue] that precede the statement. *)
Definition enqueue_guards (j : NewJob V) (raw : string) : Prop :=
  nj_Kind j <> ""%string /\ nj_CorrelationID j <> ""%string
  /\ len (nj_Kind j) <= MaxKindBytes /\ len (nj_CorrelationID j) <= MaxCorrelationIDBytes
  /\ marshal_payload Marshal (nj_Payload j) = Some raw /\ len raw <= MaxPayloadBytes.

Definition enqueued (j : Job) (inFlight : bool) : Enqueued :=
  mkEnqueued (id j) (kind j) (state j) (run_after j) inFlight.

(** Past the guards, [Enqueue] is its two statements. *)
Lemma Enqueue_guarded i now j raw t :
  enqueue_guards j raw ->
  Enqueue Marshal (Some i) now j t =
  match EnqueueJob (enqueue_params j raw i) now t with
  | Ok (t', Some row) => (Ok (enqueued row false), t')
  | Err e => (Err (ErrEnqueueing e), t)
  | Ok (t', None) =>
      match strPtr (nj_IdempotencyKey j) with
      | None => (Err ErrNoRowNoKey, t')
      | Some _ =>
          match GetLiveJobByIdempotencyKey (nj_Kind j) (strPtr (nj_IdempotencyKey j)) t' with
          | Err e => (Err (ErrLiveUnreadable (Some e)), t')
          | Ok None => (Err (ErrLiveUnreadable None), t')
          | Ok (Some l) => (Ok (enqueued l true), t')
          end
      end
  end.
Proof.
  intros (Hk & Hc & Hkl & Hcl & Hm & Hp). unfold Enqueue.
  rewrite (proj2 (String.eqb_neq _ _) Hk), (proj2 (String.eqb_neq _ _) Hc).
  rewrite (proj2 (Z.ltb_ge _ _) Hkl), (proj2 (Z.ltb_ge _ _) Hcl), Hm.
  by rewrite (proj2 (Z.ltb_ge _ _) Hp).
Qed.

(** A refusal before the statement leaves the table; otherwise the guards hold. *)
Lemma Enqueue_cases fresh now j t :
  (exists e, Enqueue Marshal fresh now j t = (Err e, t))
  \/ exists i raw, fresh = Some i /\ enqueue_guards j raw.
Proof.
  unfold Enqueue, enqueue_guards.
  destruct (String.eqb_spec (nj_Kind j) ""); [eauto|].
  destruct (String.eqb_spec (nj_CorrelationID j) ""); [eauto|].
  destruct (Z.ltb_spec MaxKindBytes (len (nj_Kind j))); [eauto|].
  destruct (Z.ltb_spec MaxCorrelationIDBytes (len (nj_CorrelationID j))); [eauto|].
  destruct (marshal_payload _ _) as [raw|]; [|eauto].
  destruct (Z.ltb_spec MaxPayloadBytes (len raw)); [eauto|].
  destruct fresh as [i|]; [|eauto]. right. exists i, raw. repeat split; (done || lia).
Qed.

Lemma EnqueueJob_cases p now t :
  (exists e, EnqueueJob p now t = Err e)
  \/ forallb pg_text_opt [Some (p_kind p); p_idempotency_key p; Some (p_correlation_id p)] = true
     /\ row_valid (new_row p now)
     /\ (EnqueueJob p now t = Ok (t, None)
         \/ EnqueueJob p now t = Ok (t ++ [new_row p now], Some (new_row p now))
            /\ ~ p_id p ∈ map id t
            /\ forall key, idem_key (new_row p now) = Some key -> key ∉ live_keys t).
Proof.
  unfold EnqueueJob, with_text. destruct (forallb _ _); [|eauto].
  destruct (row_error _) as [e|] eqn:He; [eauto|]. apply row_error_spec in He.
  right. split; [done|]. split; [done|].
  destruct (existsb _ t) eqn:Hex; simpl; [by left|].
  assert (Hid : ~ p_id p ∈ map id t).
  { intros Hin%list_elem_of_In%in_map_iff. destruct Hin as (k & Hk & Hin).
    apply not_true_iff_false in Hex. apply Hex. apply existsb_exists.
    exists k. split; [done|]. by apply String.eqb_eq. }
  destruct (idem_key (new_row p now)) as [key|] eqn:Hkey.
  - case_bool_decide; [by left|]. right. repeat split; try done. by intros ? [= <-].
  - right. by repeat split.
Qed.

Lemma live_match r k key :
  (kind r =s k) && sql_eq (idempotency_key r) (Some key) && live r = true ->
  kind r = k /\ idempotency_key r = Some key /\ live r = true.
Proof.
  unfold sql_eq. destruct (idempotency_key r); intros Hm; eqb_prop; [by subst|done].
Qed.

(** [find] for a live key returns the row that was just appended. *)
Lemma find_appended t j k key :
  kind j = k -> idempotency_key j = Some key -> live j = true -> ~ (k, key) ∈ live_keys t ->
  List.find (fun r => (kind r =s k) && sql_eq (idempotency_key r) (Some key) && live r) (t ++ [j])
  = Some j.
Proof.
  intros Hk Hkey Hl Hn. induction t as [|r t IH]; simpl.
  - rewrite Hk, Hkey, Hl, String.eqb_refl. simpl. by rewrite String.eqb_refl.
  - destruct ((kind r =s k) && _ && live r) eqn:E.
    + exfalso. apply Hn. apply live_match in E as (<- & Hr & Hlive).
      unfold live_keys. apply list_elem_of_omap. exists r. split; [left|].
      unfold idem_key. by rewrite Hlive, Hr.
    + apply IH. intros Hin. apply Hn. unfold live_keys in *.
      apply list_elem_of_omap in Hin as (x & Hx & Hf). apply list_elem_of_omap.
      exists x. split; [by right|done].
Qed.

Lemma new_row_claimable p now :
  row_valid (new_row p now) -> state (new_row p now) = queued ->
  attempts (new_row p now) < max_attempts (new_row p now).
Proof. intros Hv _. pose proof (rv_max _ Hv). change (attempts _) with 0. lia. Qed.

(** A new row with a free identity and a free live key. *)
Lemma appended_ok t row :
  table_ok t -> no_zombie t -> row_valid row -> ~ id row ∈ map id t ->
  (forall key, idem_key row = Some key -> key ∉ live_keys t) ->
  (state row = queued -> attempts row < max_attempts row) ->
  table_ok (t ++ [row]) /\ no_zombie (t ++ [row]).
Proof.
  intros [Hr Hi Hk] Hz Hv Hid Hfree Hq. repeat split.
  - apply Forall_app_2; [done|]. by constructor.
  - rewrite map_app. apply NoDup_app. split; [done|]. split; [|apply NoDup_singleton].
    intros x Hx Hin. apply list_elem_of_singleton in Hin. by subst x.
  - unfold live_keys. rewrite omap_app. fold (live_keys t). simpl.
    destruct (idem_key row) as [key|] eqn:Hkey; [|by rewrite app_nil_r].
    apply NoDup_app. split; [done|]. split; [|apply NoDup_singleton].
    intros x Hx Hin. apply list_elem_of_singleton in Hin. subst x. by apply (Hfree key).
  - apply Forall_app_2; [done|]. by constructor.
Qed.

(** Enqueue is idempotent over live jobs: once a call with an idempotency
    key succeeded, repeating it, with any fresh id and at any later time,
    returns the same job, marked as already in flight, and adds no row. *)
Theorem enqueue_idempotent fresh now j t e t1 i' now' :
  nj_IdempotencyKey j <> ""%string ->
  Enqueue Marshal fresh now j t = (Ok e, t1) ->
  exists e', Enqueue Marshal (Some i') now' j t1 = (Ok e', t1)
    /\ e_ID e' = e_ID e /\ e_AlreadyInFlight e' = true.
Proof.
  intros Hkey Henq.
  destruct (Enqueue_cases fresh now j t) as [[er He]|(i & raw & -> & Hg)]; [congruence|].
  rewrite (Enqueue_guarded i now j raw t Hg) in Henq.
  rewrite (Enqueue_guarded i' now' j raw t1 Hg).
  pose proof (strPtr_Some _ Hkey) as Hs. rewrite Hs in Henq. rewrite Hs.
  destruct (EnqueueJob_cases (enqueue_params j raw i) now t) as [[er He]|(Htext & Hv & Hc)];
    [by rewrite He in Henq|].
  assert (Hrep : forall l, In l t1 -> live l = true -> kind l = nj_Kind j ->
            idempotency_key l = Some (nj_IdempotencyKey j) ->
            EnqueueJob (enqueue_params j raw i') now' t1 = Ok (t1, None)).
  { intros l Hl Hlive Hkd Hik. unfold EnqueueJob, with_text.
    change (forallb _ _) with (forallb pg_text_opt
      [Some (nj_Kind j); strPtr (nj_IdempotencyKey j); Some (nj_CorrelationID j)]) in Htext |- *.
    rewrite Htext. change (row_error (new_row (enqueue_params j raw i') now'))
      with (row_error (new_row (enqueue_params j raw i) now)).
    rewrite (proj2 (row_error_spec _) Hv).
    unfold idem_key, live. simpl. rewrite Hs. simpl.
    rewrite (bool_decide_true ((_, _) ∈ live_keys t1)); [by rewrite orb_true_r|].
    apply list_elem_of_omap. exists l. split; [by apply list_elem_of_In|].
    unfold idem_key. by rewrite Hlive, Hik, Hkd. }
  destruct Hc as [Hc|(Hc & _ & Hfree)]; rewrite Hc in Henq.
  - unfold GetLiveJobByIdempotencyKey, with_text in *. destruct (forallb _ _); [|done].
    destruct (List.find _ t) as [l|] eqn:Hf; [|done]. injection Henq as <- <-.
    pose proof (find_some _ _ Hf) as [Hin Hp]. apply live_match in Hp as (Hkd & Hik & Hlive).
    rewrite (Hrep l) by done. rewrite Hf. by eexists.
  - injection Henq as <- <-. set (row := new_row (enqueue_params j raw i) now) in *.
    rewrite (Hrep row); [| apply in_or_app; right; by left | done | done | done].
    unfold GetLiveJobByIdempotencyKey, with_text. simpl in Htext. rewrite Hs in Htext.
    simpl in Htext |- *. rewrite !andb_true_r in *. eqb_prop. rewrite H0, H1. simpl.
    rewrite (find_appended t row (nj_Kind j) _ eq_refl Hs eq_refl); [by eexists|].
    apply Hfree. unfold idem_key, live. simpl. by rewrite Hs.
Qed.

(** Enqueue is all or nothing: an error leaves the table as it was; a
    success leaves a valid table without unclaimable rows, and is either a job
    already in flight, with the table as it was, or one appended row, queued
    with no attempt spent, due now unless the caller scheduled it. *)
Theorem enqueue_all_or_nothing fresh now j t :
  table_ok t -> no_zombie t ->
  match Enqueue Marshal fresh now j t with
  | (Err _, t') => t' = t
  | (Ok e, t') =>
      table_ok t' /\ no_zombie t'
      /\ if e_AlreadyInFlight e then t' = t
         else exists row, t' = t ++ [row] /\ id row = e_ID e /\ state row = queued
              /\ attempts row = 0 /\ kind row = nj_Kind j
              /\ run_after row = match nj_RunAfter j with Some r => r | None => now end
  end.
Proof.
  intros Hok Hz.
  destruct (Enqueue_cases fresh now j t) as [[er ->]|(i & raw & -> & Hg)]; [done|].
  rewrite (Enqueue_guarded i now j raw t Hg).
  destruct (EnqueueJob_cases (enqueue_params j raw i) now t) as [[er ->]|(_ & Hv & Hc)]; [done|].
  destruct Hc as [->|(-> & Hid & Hfree)].
  - destruct (strPtr _); [|done].
    destruct (GetLiveJobByIdempotencyKey _ _ t) as [[l|]|]; simpl; done.
  - destruct (appended_ok _ _ Hok Hz Hv Hid Hfree) as [Ht Hz'].
    { by apply new_row_claimable. }
    split; [done|]. split; [done|]. by exists (new_row (enqueue_params j raw i) now).
Qed.

End EnqueueProperties.

(** ** The properties at work *)

Module Samples.

(** A server that stores the payload text as it was sent. *)
#[local] Instance octets : Jsonb := len.

Definition wide : WorkerOptions :=
  applyDefaults "host" "7" "ab" (mkWorkerOptions 0 0 0 0 0 0 "" 0).
Definition busy : Handler := fun _ => None.
Definition failing (m : string) : Handler := fun _ => Some (Plain m).
Definition handlers (h : Handler) : Handlers := [(KindNoop, h)].

Definition row (i : uuid) (prio : Z) : Job :=
  mkJob i KindNoop "{}" (Some i) queued prio 0 5 100 None None None "c" 100 100 None.
Definition taken (i : uuid) : Job := claimed_row (WorkerID wide) 60000000 100 (row i 100).
Definition held_claim (i : uuid) : Claimed := mkClaimed i KindNoop "{}" 1 5 "c" 60000100.

Definition waiting : Table := [row "a" 100; row "b" 1].
Definition running : Table := [row "a" 100; taken "b"].

Definition request : NewJob string := mkNewJob KindNoop None "nightly" 0 0 None "c".

End Samples.

Section SampleTables.
Context `{Jsonb}.

Lemma table_ok_by t :
  forallb (fun j => is_null (row_error j)) t
  && bool_decide (NoDup (map id t)) && bool_decide (NoDup (live_keys t)) = true -> table_ok t.
Proof.
  intros Ht. rewrite !andb_true_iff, !bool_decide_eq_true, forallb_forall in Ht.
  destruct Ht as [[Hr Hi] Hk]. constructor; try done. apply Forall_forall.
  intros j Hj%list_elem_of_In%Hr. apply row_error_spec. by destruct (row_error j).
Qed.

End SampleTables.

Import Samples.
#[local] Existing Instance octets.

Ltac sample_table := apply table_ok_by; vm_compute; reflexivity.
Ltac sample := first [sample_table | done].

Lemma claim_takes_first_witness :
  exists j, claim wide (handlers busy) ["a"%string] 200 waiting
            = Ok (updated (fun k => id k =s "b") (claimed_row "host-7-ab" 60000000 200) waiting, Some j)
            /\ c_ID j = "b"%string /\ c_Attempts j = 1.
Proof.
  destruct (claim_takes_first wide (handlers busy) ["a"%string] 200 waiting)
    as [[_ Hn]|(c & j & Hin & Hav & _ & Hc & Hi & Ha & _)]; try sample.
  - exfalso. discriminate (Hn (row "b" 1)). right. by left.
  - destruct Hin as [<-|[<-|[]]]; [discriminate Hav|]. exists j. by rewrite Hc.
Defined.

Lemma sweep_reclaims_witness :
  exists t' n d, sweepOnce true 70000000 running = Ok (t', (n, d))
    /\ n + d = 1 /\ CountStaleLeases 70000000 t' = 0.
Proof.
  destruct (sweep_reclaims 70000000 running) as (t' & n & d & Hs & Hn & Hc & _);
    [sample|by repeat constructor|].
  exists t', n, d. by repeat split.
Defined.

Lemma lost_lease_writes_nothing_witness :
  (exists n, run (fun m => m) wide (handlers busy) 0 (held_claim "a") 0 1 200 running = Some (running, n))
  /\ (heartbeat wide (held_claim "a") 200 running).2 = false.
Proof.
  destruct (lost_lease_writes_nothing (fun m => m) wide (handlers busy) 0 (held_claim "a") 0 1 200 running)
    as (Hr & _ & Hh).
  - by intros r [<-|[<-|[]]].
  - split; [exact Hr|]. apply Hh; sample.
Defined.

Lemma run_records_outcome_witness :
  exists r', run (fun m => m) wide (handlers (failing "busy")) 0 (held_claim "b") 0 1 200 running
             = Some (updated (fun k => id k =s "b") (fun _ => r') running, Some 1)
    /\ state r' = queued /\ attempts r' = 1.
Proof.
  destruct (run_records_outcome (fun m => m) wide (handlers (failing "busy")) (failing "busy") 0
              (held_claim "b") 0 1 200 running (taken "b")) as (r' & Hr & _ & _ & Ha & Hs & _);
    try sample.
  - right. by left.
  - intros b Hb. vm_compute in Hb. injection Hb as <-. vm_compute. by split.
  - intros e He. injection He as <-. by vm_compute.
  - exists r'. by rewrite Hr.
Defined.

Lemma slow_outcome_unrecorded_witness :
  run (fun m => m) wide (handlers busy) 0 (held_claim "b") 0 (10 * Second) 200 running
  = Some (running, None)
  /\ exists t' n, sweepOnce true 60000101 running = Ok (t', n)
       /\ List.In (set_swept 60000101 (taken "b")) t'.
Proof.
  destruct (slow_outcome_unrecorded (fun m => m) wide (handlers busy) busy 0 (held_claim "b") 0
              (10 * Second) 200 running (taken "b") 60000100 60000101)
    as (Hr & t' & n & Hs & Hin & _);
    [sample_table | right; by left | done | done | done | done | done | ].
  - split; [exact Hr|]. exists t', n. by split.
Defined.

Lemma invalid_error_unrecorded_witness :
  run (fun m => m) wide (handlers (failing (String (ascii_of_nat 255) ""))) 0 (held_claim "b") 0 1 200 running
  = Some (running, None).
Proof.
  apply (invalid_error_unrecorded (fun m => m) wide _ (failing (String (ascii_of_nat 255) "")) 0
           (held_claim "b") (Plain (String (ascii_of_nat 255) ""))); sample.
Defined.

Lemma enqueue_idempotent_witness :
  exists e', Enqueue (fun s => Some s) (Some "y"%string) 300 request
               (waiting ++ [new_row (enqueue_params request "{}" "x") 200])
             = (Ok e', waiting ++ [new_row (enqueue_params request "{}" "x") 200])
    /\ e_ID e' = "x"%string /\ e_AlreadyInFlight e' = true.
Proof.
  apply (enqueue_idempotent (fun s => Some s) (Some "x"%string) 200 request waiting
           (mkEnqueued "x" KindNoop queued 200 false)); sample.
Defined.

Lemma enqueue_all_or_nothing_witness :
  exists t' e, Enqueue (fun s => Some s) (Some "x"%string) 200 request waiting = (Ok e, t')
    /\ table_ok t' /\ no_zombie t'.
Proof.
  pose proof (enqueue_all_or_nothing (fun s => Some s) (Some "x"%string) 200 request waiting) as Hp.
  destruct (Enqueue _ _ 200 request waiting) as [[e|e] t'] eqn:He.
  - exists t', e. destruct Hp as (Ht & Hz & _); [sample|by repeat constructor|]. done.
  - vm_compute in He. discriminate He.
Defined.
