(* ===== verification/JobSystem.v ===== *)
(** * The queue as a system of workers

    Several workers and producers share one jobs table (claimLoop, run,
    heartbeat and sweepLoop of src/internal/jobs/worker.go, Enqueue of
    jobs.go).  Every statement is one transaction, so an execution is a sequence
    of steps; a worker may stop between any two of them.  [deliveries] records,
    for the proofs only, which job each successful claim handed out. *)

From S2P Require Import Prelude Utf8 GoTime SafeError Pg JobTable Jobs.

(** ** What every statement keeps *)

Section Keeps.
Context `{Jsonb}.

(** The identity and the attempt budget of each row, in table order. *)
Definition budget (j : Job) : uuid * Z * Z := (id j, attempts j, max_attempts j).

Definition claimable (j : Job) : Prop := state j = queued -> attempts j < max_attempts j.

(** A statement result leaves identities and budgets alone, and the
    constraints and claimability hold afterwards. *)
Definition keeps (t t' : Table) : Prop :=
  map budget t' = map budget t /\ (table_ok t -> table_ok t')
  /\ (no_zombie t -> no_zombie t').

Lemma keeps_refl t : keeps t t.
Proof. split; [done|]. by split. Qed.

(** The constraints are checked by the server, so any successful update that
    keeps identities keeps the table valid. *)
Lemma update_keeps_ok where_ set_ t t' rows :
  update where_ set_ t = Ok (t', rows) -> (forall j, id (set_ j) = id j) ->
  table_ok t -> table_ok t'.
Proof.
  unfold update. intros Hu Hid [Hr Hi Hk].
  destruct (omap row_error _) as [|e l] eqn:He; [|done].
  case_bool_decide as Hn; [|done]. injection Hu as <- <-.
  constructor; [|by rewrite map_map; erewrite map_ext; [exact Hi|]; intros j; simpl; case_match|done].
  apply Forall_forall. intros j Hj. apply list_elem_of_In, in_map_iff in Hj as (k & <- & Hin).
  destruct (where_ k) eqn:Hw; [|rewrite Forall_forall in Hr; by apply Hr, list_elem_of_In].
  apply row_error_spec. destruct (row_error (set_ k)) as [e|] eqn:Hek; [|done]. exfalso.
  assert (Hel : e ∈ omap row_error (map set_ (List.filter where_ t))).
  { apply list_elem_of_omap. exists (set_ k). split; [|done].
    apply list_elem_of_In, in_map, filter_In. done. }
  rewrite He in Hel. by apply not_elem_of_nil in Hel.
Qed.

Lemma update_keeps where_ set_ t t' rows :
  update where_ set_ t = Ok (t', rows) ->
  (forall j, budget (set_ j) = budget j) ->
  (forall j, where_ j = true -> claimable (set_ j)) -> keeps t t'.
Proof.
  intros Hu Hb Hc. pose proof (update_inv _ _ _ _ _ Hu) as [-> _]. split; [|split].
  - unfold updated. rewrite map_map. apply map_ext. intros j. by case_match.
  - eapply update_keeps_ok; [exact Hu|]. intros j. specialize (Hb j). by injection Hb.
  - intros Hz. apply Forall_updated; [done|]. intros j _ Hw _. by apply Hc.
Qed.

(** A statement under a deadline either leaves the table or is its update. *)
Lemma issue_update d p ps where_ set_ t :
  let t' := (issue d p t (with_text ps (rows_affected (update where_ set_ t)))).1 in
  t' = t \/ exists rows, update where_ set_ t = Ok (t', rows).
Proof.
  cbv zeta. unfold issue, with_text, rows_affected. destruct (p <? d); [|by left]. destruct (forallb _ _); [|by left].
  destruct (update where_ set_ t) as [[t1 rows]|e]; [right; by exists rows|by left].
Qed.

(** What the end of a run does to the table: nothing, or one update of rows its
    worker holds, which it takes out of the lease. *)
Definition recorded (o : WorkerOptions) (c : Claimed) (t t' : Table) : Prop :=
  t' = t \/ exists where_ set_ rows, update where_ set_ t = Ok (t', rows)
    /\ (forall j, where_ j = true -> held (c_ID c) (strPtr (WorkerID o)) j = true)
    /\ (forall j, where_ j = true -> claimable (set_ j))
    /\ (forall j, budget (set_ j) = budget j /\ state (set_ j) <> leased).

Lemma run_update Redact o hs rnd c started finished now t t' n :
  run Redact o hs rnd c started finished now t = Some (t', n) -> recorded o c t t'.
Proof.
  assert (Hu : forall d p ps where_ set_,
    (forall j, where_ j = true -> held (c_ID c) (strPtr (WorkerID o)) j = true) ->
    (forall j, where_ j = true -> claimable (set_ j)) ->
    (forall j, budget (set_ j) = budget j /\ state (set_ j) <> leased) ->
    Some (issue d p t (with_text ps (rows_affected (update where_ set_ t)))) = Some (t', n) -> recorded o c t t').
  { intros d p ps where_ set_ Hw Hc Hs [= He]. destruct (issue_update d p ps where_ set_ t) as [Ht|[rows Ht]];
      rewrite He in Ht; cbn [fst] in Ht; [by left|]. right. by exists where_, set_, rows. }
  unfold run, finishFailed, FailJob, CompleteJob, DeadLetterJob, RetryJob.
  destruct (map_get _ hs) as [h|]; [|by apply Hu]. destruct (h c) as [err|]; [|by apply Hu].
  destruct (IsTerminal err); [by apply Hu|]. destruct (c_MaxAttempts c <=? c_Attempts c); [by apply Hu|].
  destruct (Backoff _) as [b|]; [|done]. apply Hu; [intros j Hj; by eqb_prop| |done]. intros j Hj _. cbn. lia.
Qed.

Lemma run_keeps Redact o hs rnd j started finished now t t' n :
  run Redact o hs rnd j started finished now t = Some (t', n) -> keeps t t'.
Proof.
  intros [-> |(where_ & set_ & rows & Hu & _ & Hc & Hs)]%run_update; [apply keeps_refl|].
  apply (update_keeps _ _ _ _ _ Hu); [|done]. intros k. apply Hs.
Qed.

Lemma heartbeat_keeps o j now t : keeps t (heartbeat o j now t).1.
Proof.
  unfold heartbeat, HeartbeatJob, with_text. destruct (forallb _ _); [|apply keeps_refl].
  destruct (update _ _ t) as [[t1 rows]|e] eqn:Hu; [|apply keeps_refl].
  assert (keeps t t1); [|by destruct (head rows)].
  apply (update_keeps _ _ _ _ _ Hu); [done|].
  intros k Hk Hs. simpl in Hs. apply held_leased in Hk as [Hl _]. congruence.
Qed.

Lemma sweep_keeps leader now t t' n : sweepOnce leader now t = Ok (t', n) -> keeps t t'.
Proof.
  unfold sweepOnce. destruct leader; simpl; [|intros [= <- _]; apply keeps_refl].
  destruct (SweepExpiredLeases now t) as [[t1 rows]|e] eqn:Hu; [|done]. intros [= <- _].
  apply (update_keeps _ _ _ _ _ Hu); intros j; [unfold set_swept; by case_match|].
  intros _. unfold claimable, set_swept. destruct (Z.leb_spec (max_attempts j) (attempts j)); [done|].
  by simpl.
Qed.

End Keeps.

(** ** Executions *)

Record Sys := mkSys {
  table : Table;
  clock : timestamp;
  inflight : list (WorkerOptions * Claimed);
  deliveries : list uuid
}.

Definition with_table (t : Table) (s : Sys) : Sys :=
  mkSys t (clock s) (inflight s) (deliveries s).

Section System.
Context `{Jsonb} {V : Type} (Marshal : V -> option string) (Redact : string -> string).
(** The worker processes of the site and the kinds each has registered. *)
Context (workers : list (WorkerOptions * list Kind)).

(** [Sys_finish] ends the run of an in-flight job: the handler's outcome is
    whatever [hs] returns, [started], [finished] and the jitter draw are free.
    [Sys_stop] is a worker that dies, or gives up, without writing. *)
Inductive step : Sys -> Sys -> Prop :=
| Sys_enqueue s fresh j e t' :
    Enqueue Marshal fresh (clock s) j (table s) = (e, t') -> step s (with_table t' s)
| Sys_claim s o (hs : Handlers) locked j t' :
    List.In (o, Kinds hs) workers ->
    claim o hs locked (clock s) (table s) = Ok (t', Some j) ->
    step s (mkSys t' (clock s) ((o, j) :: inflight s) (c_ID j :: deliveries s))
| Sys_heartbeat s o j t' alive :
    List.In (o, j) (inflight s) -> heartbeat o j (clock s) (table s) = (t', alive) ->
    step s (with_table t' s)
| Sys_finish s pre o (hs : Handlers) rnd j post started finished t' n :
    inflight s = pre ++ (o, j) :: post ->
    run Redact o hs rnd j started finished (clock s) (table s) = Some (t', n) ->
    step s (mkSys t' (clock s) (pre ++ post) (deliveries s))
| Sys_stop s pre o j post :
    inflight s = pre ++ (o, j) :: post ->
    step s (mkSys (table s) (clock s) (pre ++ post) (deliveries s))
| Sys_sweep s leader t' n :
    sweepOnce leader (clock s) (table s) = Ok (t', n) -> step s (with_table t' s)
| Sys_tick s d :
    0 <= d -> step s (mkSys (table s) (clock s + d) (inflight s) (deliveries s)).

Definition steps := rtc step.

Definition fresh_sys (now : timestamp) : Sys := mkSys [] now [] [].

Definition reachable (s : Sys) : Prop := exists now, steps (fresh_sys now) s.

(** How often the job [i] has been handed to a worker. *)
Definition delivered (i : uuid) (s : Sys) : Z :=
  Z.of_nat (length (List.filter (String.eqb i) (deliveries s))).

Record inv (s : Sys) : Prop := {
  inv_ok : table_ok (table s);
  inv_claimable : no_zombie (table s);
  inv_count : forall j, List.In j (table s) -> attempts j = delivered (id j) s;
  inv_absent : forall i, ~ List.In i (map id (table s)) -> delivered i s = 0
}.

(** The counts only depend on the budgets and the deliveries. *)
Definition counted (ds : list uuid) (b : uuid * Z * Z) : Prop :=
  b.1.2 = Z.of_nat (length (List.filter (String.eqb b.1.1) ds)).

Lemma ids_of_budgets (t t' : Table) : map budget t' = map budget t -> map id t' = map id t.
Proof.
  intros Hb. apply (f_equal (map (fun b : uuid * Z * Z => b.1.1))) in Hb.
  by rewrite !map_map in Hb.
Qed.

Lemma inv_keeps s t' l c :
  inv s -> keeps (table s) t' -> inv (mkSys t' c l (deliveries s)).
Proof.
  intros [Hok Hz Hc Ha] (Hb & Ht & Hz'). constructor; simpl; auto.
  - intros j Hj. apply (in_map budget) in Hj. rewrite Hb in Hj.
    apply in_map_iff in Hj as (k & Hk & Hin). injection Hk as <- <- _. by apply Hc.
  - intros i. rewrite (ids_of_budgets _ _ Hb). apply Ha.
Qed.

Lemma enqueue_inv s fresh j e t' :
  inv s -> Enqueue Marshal fresh (clock s) j (table s) = (e, t') -> inv (with_table t' s).
Proof.
  intros Hinv He. pose proof Hinv as [Hok Hz Hc Ha].
  destruct (Enqueue_cases Marshal fresh (clock s) j (table s)) as [[er He']|(i & raw & -> & Hg)].
  { rewrite He' in He. injection He as <- <-. by apply inv_keeps, keeps_refl. }
  rewrite (Enqueue_guarded Marshal i (clock s) j raw _ Hg) in He.
  destruct (EnqueueJob_cases (enqueue_params j raw i) (clock s) (table s))
    as [[er Her]|(_ & Hv & [Hsame|(Hnew & Hid & Hfree)])].
  - rewrite Her in He. injection He as <- <-. by apply inv_keeps, keeps_refl.
  - rewrite Hsame in He.
    assert (t' = table s) as ->; [|by apply inv_keeps, keeps_refl].
    destruct (strPtr _); [|congruence].
    destruct (GetLiveJobByIdempotencyKey _ _ _) as [[l|]|]; congruence.
  - destruct (appended_ok _ _ Hok Hz Hv Hid Hfree) as [Ht Hz'].
    { by apply new_row_claimable. }
    rewrite Hnew in He. injection He as <- <-. constructor; simpl; try done.
    + intros k [Hk|[<-|[]]]%in_app_or; [by apply Hc|]. simpl.
      symmetry. apply Ha. intros Hin. apply Hid. by apply list_elem_of_In.
    + intros k Hk. apply Ha. intros Hin. apply Hk. rewrite map_app. by apply in_or_app; left.
Qed.

(** What a successful claim did. *)
Lemma claim_inversion o hs locked now t t' j :
  table_ok t -> claim o hs locked now t = Ok (t', Some j) ->
  exists c, List.In c t /\ available (Kinds hs) locked now c = true
    /\ t' = updated (fun k => id k =s id c)
              (set_leased (strPtr (WorkerID o)) (now + toInterval (Lease o)) now) t
    /\ c_ID j = id c /\ c_Attempts j = attempts c + 1 /\ table_ok t'.
Proof.
  intros Hok. unfold claim, ClaimJob, with_text. destruct (forallb _ _); [|done].
  change (fun j => eligible (Kinds hs) now j && _) with (available (Kinds hs) locked now).
  pose proof (first_by_order_spec (List.filter (available (Kinds hs) locked now) t)) as Hf.
  destruct (first_by_order _) as [c|]; [|done].
  destruct Hf as [[Hin Hav]%filter_In _].
  destruct (update _ _ t) as [[t1 rows]|e] eqn:Hu; [|done].
  pose proof (update_inv _ _ _ _ _ Hu) as [-> ->].
  pose proof (update_keeps_ok _ _ _ _ _ Hu (fun _ => eq_refl) Hok).
  rewrite (filter_by_id t c (ok_ids _ Hok) Hin). simpl. intros [= <- <-]. by exists c.
Qed.

Lemma set_leased_ids c by_ until now (t : Table) :
  map id (updated (fun k => id k =s id c) (set_leased by_ until now) t) = map id t.
Proof. unfold updated. rewrite map_map. apply map_ext. intros k. by case_match. Qed.

Lemma claim_inv s o hs locked j t' l :
  inv s -> claim o hs locked (clock s) (table s) = Ok (t', Some j) ->
  inv (mkSys t' (clock s) l (c_ID j :: deliveries s)).
Proof.
  intros [Hok Hz Hc Ha] Hcl.
  destruct (claim_inversion _ _ _ _ _ _ _ Hok Hcl) as (c & Hin & Hav & -> & Hid & _ & Ht).
  constructor; simpl; [done| | |].
  - apply Forall_updated; [done|]. by intros.
  - intros k Hk. unfold updated in Hk. apply in_map_iff in Hk as (r & <- & Hr).
    unfold delivered in *. simpl. rewrite Hid. destruct (String.eqb_spec (id r) (id c)) as [He|He].
    + simpl. rewrite He, String.eqb_refl. simpl. rewrite (Hc r Hr), He. lia.
    + rewrite (proj2 (String.eqb_neq _ _) He). by apply Hc.
  - intros i. rewrite set_leased_ids. intros Hi. unfold delivered in *. simpl.
    rewrite Hid. destruct (String.eqb_spec i (id c)) as [->|_]; [|by apply Ha].
    exfalso. apply Hi. by apply in_map.
Qed.

Lemma step_inv s s' : inv s -> step s s' -> inv s'.
Proof.
  intros Hinv Hs. destruct Hs as [s fresh j e t' He | s o hs locked j t' _ Hc
    | s o j t' alive _ Hh | s pre o hs rnd j post st fi t' n _ Hr | s pre o j post _ | s leader t' n Hs | s d _].
  - by apply (enqueue_inv s fresh j e).
  - by apply (claim_inv s o hs locked).
  - apply inv_keeps; [done|]. pose proof (heartbeat_keeps o j (clock s) (table s)) as Hk.
    by rewrite Hh in Hk.
  - apply inv_keeps; [done|]. by apply run_keeps in Hr.
  - by apply inv_keeps, keeps_refl.
  - apply inv_keeps; [done|]. by apply sweep_keeps in Hs.
  - by apply inv_keeps, keeps_refl.
Qed.

Lemma steps_inv s s' : inv s -> steps s s' -> inv s'.
Proof. intros Hi Hs. induction Hs as [s|s1 s2 s3 H1 _ IH]; [done|]. apply IH. by apply (step_inv s1). Qed.

Lemma reachable_inv s : reachable s -> inv s.
Proof. intros [now Hs]. apply (steps_inv (fresh_sys now)); [|done]. by repeat constructor. Qed.

(** C3. Whatever producers, workers, the sweep and stopping processes do, in
    any order, the table satisfies every constraint and both unique indexes,
    and no queued row has spent its attempts, so none is unclaimable. *)
Theorem queue_invariant s :
  reachable s -> table_ok (table s) /\ no_zombie (table s).
Proof. intros Hr. by destruct (reachable_inv s Hr). Qed.

(** The attempt budget bounds deliveries: in every execution the attempts
    column is the number of times the job was handed to a worker, losing the
    worker included, and that number never exceeds max_attempts. *)
Theorem deliveries_bounded s j :
  reachable s -> List.In j (table s) ->
  attempts j = delivered (id j) s /\ delivered (id j) s <= max_attempts j.
Proof.
  intros Hr Hj. destruct (reachable_inv s Hr) as [Hok _ Hc _].
  pose proof (rv_attempts _ (table_row _ _ Hok Hj)). rewrite <- Hc by done. by split; [|lia].
Qed.

(** ** No job is stuck *)

Definition row_in (s : Sys) (i : uuid) (k : Kind) (P : Job -> Prop) : Prop :=
  exists r, List.In r (table s) /\ id r = i /\ kind r = k /\ P r.

(** The steps in which no outcome is written and no lease renewed: the workers
    claim and are then never heard of, the sweep runs, time passes. *)
Inductive silent_step : Sys -> Sys -> Prop :=
| Silent_claim s o (hs : Handlers) locked j t' :
    List.In (o, Kinds hs) workers ->
    claim o hs locked (clock s) (table s) = Ok (t', Some j) ->
    silent_step s (mkSys t' (clock s) ((o, j) :: inflight s) (c_ID j :: deliveries s))
| Silent_sweep s leader t' n :
    sweepOnce leader (clock s) (table s) = Ok (t', n) -> silent_step s (with_table t' s)
| Silent_tick s d :
    0 <= d -> silent_step s (mkSys (table s) (clock s + d) (inflight s) (deliveries s)).

Definition silent_steps := rtc silent_step.

Lemma silent_step_step s s' : silent_step s s' -> step s s'.
Proof. intros [? ? ? ? ? ? Hw Hc|? ? ? ? Hs|? ? Hd]; [by eapply Sys_claim|by eapply Sys_sweep|by apply Sys_tick]. Qed.

Lemma silent_steps_steps s s' : silent_steps s s' -> steps s s'.
Proof. apply rtc_subrel, silent_step_step. Qed.

Lemma silent_trans s1 s2 s3 : silent_steps s1 s2 -> silent_steps s2 s3 -> silent_steps s1 s3.
Proof. intros H1 H2. unfold silent_steps in *. by etrans. Qed.

Lemma silent_inv s s' : inv s -> silent_steps s s' -> inv s'.
Proof. intros Hi Hs%silent_steps_steps. by eapply steps_inv. Qed.

Lemma tick_steps s now' :
  exists s', silent_steps s s' /\ table s' = table s /\ now' <= clock s'.
Proof.
  exists (mkSys (table s) (clock s + Z.max 0 (now' - clock s)) (inflight s) (deliveries s)).
  split; [|simpl; split; [done|lia]]. apply rtc_once, Silent_tick. lia.
Qed.

(** An elapsed lease is swept. *)
Lemma sweep_steps s r :
  inv s -> List.In r (table s) -> state r = leased ->
  exists s', silent_steps s s' /\ row_in s' (id r) (kind r) (fun r' =>
    live r' = false \/ state r' = queued /\ attempts r' = attempts r /\ max_attempts r' = max_attempts r).
Proof.
  intros Hinv Hr Hl. pose proof (table_row _ _ (inv_ok _ Hinv) Hr) as Hv.
  destruct (rv_lease _ Hv Hl) as [Hu _]. destruct (leased_until r) as [u|] eqn:Hlu; [|done].
  destruct (tick_steps s (u + 1)) as (s1 & Hs1 & Ht1 & Hc1).
  destruct (sweep_ok (clock s1) (table s1)) as [Hsw _]; [rewrite Ht1; apply Hinv|].
  eexists. split.
  { eapply rtc_r; [exact Hs1|]. eapply (Silent_sweep s1 true). unfold sweepOnce. simpl.
    rewrite Hsw. reflexivity. }
  exists (set_swept (clock s1) r). simpl. split.
  { unfold updated. apply in_map_iff. exists r. split; [|by rewrite Ht1].
    assert (stale (clock s1) r = true) as ->; [|done]. unfold stale. rewrite Hl, Hlu.
    apply andb_true_iff. split; [by apply bool_decide_eq_true|lia]. }
  unfold set_swept. case_match; simpl; auto 10.
Qed.

(** A due row is claimed while other transactions hold the others. *)
Lemma claim_steps s r o hs :
  inv s -> List.In r (table s) -> state r = queued ->
  List.In (o, Kinds hs) workers -> List.In (kind r) (Kinds hs) -> WorkerID o <> ""%string ->
  forallb pg_text_opt (Some (WorkerID o) :: map Some (Kinds hs)) = true ->
  exists s', silent_steps s s' /\ row_in s' (id r) (kind r) (fun r' =>
    state r' = leased /\ attempts r' = attempts r + 1 /\ max_attempts r' = max_attempts r).
Proof.
  intros Hinv Hr Hq Hw Hk Hne Htext.
  assert (Ha : attempts r < max_attempts r).
  { pose proof (inv_claimable _ Hinv) as Hz. unfold no_zombie in Hz.
    rewrite Forall_forall in Hz. apply Hz; [by apply list_elem_of_In|done]. }
  destruct (tick_steps s (run_after r)) as (s1 & Hs1 & Ht1 & Hc1).
  assert (Hinv1 : inv s1) by (by apply (silent_inv s)).
  set (locked := List.filter (fun i => i <>s id r) (map id (table s1))).
  assert (Hav : available (Kinds hs) locked (clock s1) r = true).
  { unfold available. apply andb_true_iff. split; [by apply eligible_spec|].
    apply negb_true_iff, not_true_iff_false. rewrite one_of_spec. intros [_ Hx]%filter_In.
    by rewrite String.eqb_refl in Hx. }
  rewrite <- Ht1 in Hr.
  destruct (ClaimJob_cases locked (WorkerID o) (toInterval (Lease o)) (Kinds hs) (clock s1) (table s1)
    (inv_ok _ Hinv1) Htext) as [[_ Hnone]|(c & Hin & Hcav & _ & Hcl & _)].
  { by rewrite (Hnone r Hr) in Hav. }
  assert (c = r) as ->.
  { apply (same_id (table s1)); [apply (ok_ids _ (inv_ok _ Hinv1))|done|done|].
    unfold available in Hcav. eqb_prop. destruct (String.eqb_spec (id c) (id r)) as [|Hd]; [done|].
    exfalso. apply not_true_iff_false in H1. apply H1, one_of_spec, filter_In.
    split; [by apply in_map|]. apply negb_true_iff. by apply String.eqb_neq. }
  eexists. split.
  { eapply rtc_r; [exact Hs1|]. eapply (Silent_claim s1 o hs locked); [done|].
    unfold claim. rewrite strPtr_Some, Hcl by done. reflexivity. }
  exists (claimed_row (WorkerID o) (toInterval (Lease o)) (clock s1) r). simpl. split; [|done].
  unfold updated. apply in_map_iff. exists r. by rewrite String.eqb_refl.
Qed.

Lemma budget_exhausts n s r o hs :
  inv s -> List.In r (table s) -> live r = true ->
  (Z.to_nat (max_attempts r - attempts r) < n)%nat ->
  List.In (o, Kinds hs) workers -> List.In (kind r) (Kinds hs) -> WorkerID o <> ""%string ->
  forallb pg_text_opt (Some (WorkerID o) :: map Some (Kinds hs)) = true ->
  exists s', silent_steps s s' /\ row_in s' (id r) (kind r) (fun r' => live r' = false).
Proof.
  intros Hinv Hr Hl Hn Hw Hk Hne Htext. revert s r Hinv Hr Hl Hn Hk.
  induction n as [|n IH]; intros s r Hinv Hr Hl Hn Hk; [lia|].
  assert (Hleased : exists s' r', silent_steps s s' /\ List.In r' (table s') /\ id r' = id r
    /\ kind r' = kind r /\ state r' = leased /\ max_attempts r' - attempts r' < Z.of_nat n + 1).
  { unfold live in Hl. apply orb_true_iff in Hl as [Hq|Hq]; apply bool_decide_eq_true_1 in Hq.
    - destruct (claim_steps s r o hs) as (s' & Hs & r' & Hr' & Hi & Hk' & Hst & Ha & Hm); try done.
      exists s', r'. repeat split; try done; lia.
    - exists s, r. repeat split; try done; lia. }
  destruct Hleased as (s1 & r1 & Hs1 & Hr1 & Hi1 & Hk1 & Hl1 & Hb).
  assert (Hinv1 : inv s1) by (by apply (silent_inv s)).
  destruct (sweep_steps s1 r1 Hinv1 Hr1 Hl1) as (s2 & Hs2 & r2 & Hr2 & Hi2 & Hk2 & [Hd|(Hq & Ha & Hm)]).
  { exists s2. split; [by eapply silent_trans|]. exists r2. repeat split; congruence. }
  assert (Hinv2 : inv s2) by (by apply (silent_inv s1)).
  rewrite <- Hi1, <- Hi2, <- Hk1, <- Hk2.
  destruct (claim_steps s2 r2 o hs) as (s3 & Hs3 & r3 & Hr3 & Hi3 & Hk3 & Hst3 & Ha3 & Hm3); try done.
  { congruence. }
  pose proof (table_row _ _ (inv_ok _ (silent_inv _ _ Hinv2 Hs3)) Hr3) as Hv3.
  pose proof (rv_attempts _ Hv3).
  destruct (IH s3 r3) as (s4 & Hs4 & Hr4).
  - by apply (silent_inv s2).
  - done.
  - by apply live_leased.
  - lia.
  - congruence.
  - exists s4. split; [|by rewrite <- Hi3, <- Hk3].
    by eapply silent_trans; [exact Hs1|]; eapply silent_trans; [exact Hs2|];
       eapply silent_trans.
Qed.

(** C17. No job is stuck, even if no worker ever records an outcome or renews a
    lease again: from every reachable state, a live job whose kind some worker
    has registered is brought to a terminal state by claims, elapsing leases and
    the sweep alone, which exhaust its budget; and that run is one of the
    system's. *)
Theorem no_job_stuck s r o hs :
  reachable s -> List.In r (table s) -> live r = true ->
  List.In (o, Kinds hs) workers -> List.In (kind r) (Kinds hs) -> WorkerID o <> ""%string ->
  forallb pg_text_opt (Some (WorkerID o) :: map Some (Kinds hs)) = true ->
  exists s' r', silent_steps s s' /\ steps s s' /\ List.In r' (table s') /\ id r' = id r /\ live r' = false.
Proof.
  intros Hreach Hr Hl Hw Hk Hne Htext.
  destruct (budget_exhausts _ s r o hs (reachable_inv s Hreach) Hr Hl (Nat.lt_succ_diag_r _)
              Hw Hk Hne Htext) as (s' & Hs & r' & Hr' & Hi & _ & Hd).
  exists s', r'. split; [done|]. split; [by apply silent_steps_steps|done].
Qed.

End System.

(** ** The properties at work: one job enqueued, then claimed *)

Import Samples.
#[local] Existing Instance octets.

Definition sample_workers : list (WorkerOptions * list Kind) := [(wide, [KindNoop])].
Definition sample_table : Table := (Enqueue (fun s => Some s) (Some "x"%string) 200 request []).2.
Definition sample_claimed : Table :=
  updated (fun k => id k =s "x") (claimed_row (WorkerID wide) (toInterval (Lease wide)) 200) sample_table.
Definition sample_sys : Sys :=
  mkSys sample_claimed 200 [(wide, mkClaimed "x" KindNoop "{}" 1 5 "c" 60000200)] ["x"%string].

Lemma sample_reachable :
  reachable (fun s : string => Some s) (fun m => m) sample_workers sample_sys.
Proof.
  exists 200. eapply rtc_l.
  { eapply (Sys_enqueue _ _ _ (fresh_sys 200) (Some "x"%string) request _ sample_table).
    vm_compute. reflexivity. }
  apply rtc_once.
  apply (Sys_claim _ _ _ (with_table sample_table (fresh_sys 200)) wide (handlers busy) []
           (mkClaimed "x" KindNoop "{}" 1 5 "c" 60000200) sample_claimed).
  - by left.
  - vm_compute. reflexivity.
Qed.

Definition sample_row : Job :=
  claimed_row (WorkerID wide) (toInterval (Lease wide)) 200 (new_row (enqueue_params request "{}" "x") 200).

Lemma queue_invariant_witness : table_ok (table sample_sys) /\ no_zombie (table sample_sys).
Proof. apply (queue_invariant _ _ _ _ sample_reachable). Defined.

Lemma deliveries_bounded_witness :
  attempts sample_row = delivered "x" sample_sys /\ delivered "x" sample_sys <= 5.
Proof.
  apply (deliveries_bounded _ _ _ sample_sys sample_row sample_reachable). by left.
Defined.

Lemma no_job_stuck_witness :
  exists s' r', silent_steps sample_workers sample_sys s'
    /\ steps (fun s : string => Some s) (fun m => m) sample_workers sample_sys s'
    /\ List.In r' (table s') /\ id r' = "x"%string /\ live r' = false.
Proof.
  apply (no_job_stuck _ _ _ sample_sys sample_row wide (handlers busy) sample_reachable);
    [by left | done | by left | by left | done | done].
Defined.
