(* ===== verification/JobHealth.v ===== *)
(** * Worker readiness and the claim loop (src/internal/jobs/health.go, worker.go, metrics.go)

    [Health] remembers when each site's claim loop last made progress; [Report]
    judges it against the staleness bound and pings each database.  An instant
    is a number of nanoseconds; 0 is the zero time. *)

From S2P Require Import Prelude Utf8 GoStrings GoTime GoFmt GoJson SafeError Pg JobTable Jobs.

(** ** State *)

Definition ComponentOK : string := "ok".
Definition ComponentUnavailable : string := "unavailable".
Definition ClaimLoopOK : string := "ok".
Definition ClaimLoopStalled : string := "stalled".
Definition ClaimLoopNotStarted : string := "not_started".

Record siteProgress := mkSiteProgress {
  lastProgress : Z;
  lastClaimOK : Z;
  saturated : bool
}.

Definition no_progress : siteProgress := mkSiteProgress 0 0 false.

Record Health := mkHealth {
  h_sites : gmap string siteProgress;
  h_order : list string;
  h_staleAfter : Z
}.

Record SiteHealth := mkSiteHealth {
  Site : string;
  Database : string;
  DatabaseDetail : string;
  ClaimLoop : string;
  LastProgressAge : string;
  Saturated : bool
}.

Record HealthReport := mkHealthReport {
  Ready : bool;
  Status : string;
  CheckedAt : Z;
  StaleAfter : string;
  Sites : list SiteHealth
}.

Definition NewHealth (sites : list string) (staleAfter : Z) : Health :=
  let order := Strings sites in
  mkHealth (foldl (fun m s => <[s := no_progress]> m) ∅ order) order staleAfter.

(** [touch]: an unknown site is added, then its progress is stamped. *)
Definition touch (site : string) (now : Z) (fn : siteProgress -> siteProgress) (h : Health) : Health :=
  match h_sites h !! site with
  | Some p =>
      mkHealth (<[site := fn (mkSiteProgress now (lastClaimOK p) (saturated p))]> (h_sites h))
        (h_order h) (h_staleAfter h)
  | None =>
      mkHealth (<[site := fn (mkSiteProgress now 0 false)]> (h_sites h))
        (Strings (h_order h ++ [site])) (h_staleAfter h)
  end.

Definition LoopAlive (site : string) (now : Z) : Health -> Health :=
  touch site now (fun p => mkSiteProgress (lastProgress p) (lastClaimOK p) false).

(** The two clock reads of [ClaimOK] are one instant here. *)
Definition ClaimOK (site : string) (now : Z) : Health -> Health :=
  touch site now (fun p => mkSiteProgress (lastProgress p) now false).

Definition ClaimFailed (site : string) (now : Z) : Health -> Health :=
  touch site now (fun p => mkSiteProgress (lastProgress p) (lastClaimOK p) false).

Definition Saturate (site : string) (now : Z) : Health -> Health :=
  touch site now (fun p => mkSiteProgress (lastProgress p) (lastClaimOK p) true).

Section Report.
Context (Redact : string -> string).

Definition progress_of (h : Health) (s : string) : siteProgress :=
  match h_sites h !! s with Some p => p | None => no_progress end.

(** The claim loop's verdict, and the age it prints. *)
Definition loop_verdict (now stale : Z) (p : siteProgress) : string * string :=
  if lastProgress p =? 0 then (ClaimLoopNotStarted, ""%string)
  else
    let age := DurationString (Round (now - lastProgress p) Millisecond) in
    if stale <? now - lastProgress p then (ClaimLoopStalled, age) else (ClaimLoopOK, age).

(** A pinger answers [None], or the text of its error; no pinger is no pass. *)
Definition database_verdict (pingers : gmap string (option string)) (s : string) : string * string :=
  match pingers !! s with
  | None => (ComponentUnavailable, "no connection pool for this site"%string)
  | Some (Some err) => (ComponentUnavailable, safeError Redact err)
  | Some None => (ComponentOK, ""%string)
  end.

Definition site_line (h : Health) (now : Z) (pingers : gmap string (option string)) (s : string)
    : SiteHealth :=
  let p := progress_of h s in
  let '(loop, age) := loop_verdict now (h_staleAfter h) p in
  let '(db, detail) := database_verdict pingers s in
  mkSiteHealth s db detail loop age (saturated p).

Definition line_ready (l : SiteHealth) : bool :=
  (ClaimLoop l =s ClaimLoopOK) && (Database l =s ComponentOK).

Definition Report (h : Health) (now : Z) (pingers : gmap string (option string)) : HealthReport :=
  let lines := map (site_line h now pingers) (h_order h) in
  let ready := negb (bool_decide (h_order h = [])) && forallb line_ready lines in
  mkHealthReport ready (if ready then ComponentOK else ComponentUnavailable) now
    (DurationString (h_staleAfter h)) lines.

(** The status code of [HealthHandler]. *)
Definition HealthHandler (h : Health) (now : Z) (pingers : gmap string (option string)) : Z :=
  if Ready (Report h now pingers) then 200 else 503.

End Report.

(** ** One iteration of the claim loop *)

(** [l_busy] is the number of taken slots of the semaphore. *)
Record LoopState := mkLoopState {
  l_busy : Z;
  l_health : Health
}.

Section Loop.
Context `{Jsonb}.

(** With every slot busy the wait for one ends after a poll interval; otherwise
    the loop claims.  It returns the queue after the claim and the job that now
    runs, if one was claimed. *)
Definition claim_iteration (o : WorkerOptions) (hs : Handlers) (site : string) (locked : list uuid)
    (now : Z) (db_now : timestamp) (t : Table) (s : LoopState)
    : LoopState * Table * option Claimed :=
  if Concurrency o <=? l_busy s
  then (mkLoopState (l_busy s) (Saturate site now (l_health s)), t, None)
  else
    let h := LoopAlive site now (l_health s) in
    match claim o hs locked db_now t with
    | Err _ => (mkLoopState (l_busy s) (ClaimFailed site now h), t, None)
    | Ok (t', None) => (mkLoopState (l_busy s) (ClaimOK site now h), t', None)
    | Ok (t', Some j) => (mkLoopState (l_busy s + 1) (ClaimOK site now h), t', Some j)
    end.

(** A slot is given back when its job ends. *)
Definition release (s : LoopState) : LoopState := mkLoopState (l_busy s - 1) (l_health s).

End Loop.

(** ** Properties *)

Lemma touch_progress site now fn h :
  exists q, h_sites (touch site now fn h) !! site = Some (fn q) /\ lastProgress q = now.
Proof. unfold touch. destruct (h_sites h !! site); eexists; simpl; by rewrite lookup_insert_eq. Qed.

Lemma touch_other site now fn h s :
  s <> site -> h_sites (touch site now fn h) !! s = h_sites h !! s.
Proof. unfold touch. intros Hne. destruct (h_sites h !! site); simpl; by rewrite lookup_insert_ne. Qed.

Lemma touch_stale site now fn h : h_staleAfter (touch site now fn h) = h_staleAfter h.
Proof. unfold touch. by destruct (h_sites h !! site). Qed.

Lemma site_line_ready Redact h now pingers s :
  line_ready (site_line Redact h now pingers s) = true <->
  exists p, h_sites h !! s = Some p /\ lastProgress p <> 0
    /\ now - lastProgress p <= h_staleAfter h /\ pingers !! s = Some None.
Proof.
  unfold site_line, line_ready, loop_verdict, database_verdict, progress_of. cbv zeta.
  destruct (h_sites h !! s) as [p|].
  - destruct (Z.eqb_spec (lastProgress p) 0) as [H0|H0].
    { destruct (pingers !! s) as [[e|]|]; simpl; split; try done; by intros (q & [= <-] & ? & _). }
    destruct (Z.ltb_spec (h_staleAfter h) (now - lastProgress p)) as [Hst|Hst];
      destruct (pingers !! s) as [[e|]|]; simpl; split; try done;
      try (intros (q & [= <-] & _ & ? & ?); (done || lia)). intros _. by exists p.
  - destruct (pingers !! s) as [[e|]|]; simpl; split; try done; by intros (q & ? & _).
Qed.

Lemma report_ready Redact h now pingers :
  Ready (Report Redact h now pingers) = true <->
  h_order h <> []
  /\ forall s, List.In s (h_order h) ->
       exists p, h_sites h !! s = Some p /\ lastProgress p <> 0
         /\ now - lastProgress p <= h_staleAfter h /\ pingers !! s = Some None.
Proof.
  unfold Report. simpl. setoid_rewrite <- (site_line_ready Redact).
  assert (Hall : forallb line_ready (map (site_line Redact h now pingers) (h_order h)) = true <->
    forall s, List.In s (h_order h) -> line_ready (site_line Redact h now pingers s) = true).
  { rewrite forallb_forall. split.
    - intros Ha s Hs. apply Ha. by apply in_map.
    - intros Ha l Hl. apply in_map_iff in Hl as (s & <- & Hs). by apply Ha. }
  rewrite <- Hall, andb_true_iff, negb_true_iff, bool_decide_eq_false. done.
Qed.

(** The worker reports ready, and answers 200, exactly when it knows a site
    and for every one of them the claim loop has started, its last progress is
    within the bound and the database answered a ping made for this report; a
    check that cannot run is not a pass. *)
Theorem ready_iff Redact h now pingers :
  HealthHandler Redact h now pingers = 200 <->
  h_order h <> []
  /\ forall s, List.In s (h_order h) ->
       exists p, h_sites h !! s = Some p /\ lastProgress p <> 0
         /\ now - lastProgress p <= h_staleAfter h /\ pingers !! s = Some None.
Proof. unfold HealthHandler. rewrite <- (report_ready Redact). by destruct (Ready _). Qed.

(** A turning claim loop is never reported stalled: each iteration, whether
    it found every slot busy, failed to claim, found nothing or started a job,
    stamps its site, so for the whole staleness bound after it the site's loop
    is reported ok, saturated exactly when no slot was free; the jobs in flight
    never exceed the configured concurrency, and other sites are untouched. *)
Theorem iteration_is_progress `{Jsonb} Redact o hs site locked now db_now t s s' t' j pingers later :
  0 <= l_busy s <= Concurrency o -> 0 < now -> now <= later <= now + h_staleAfter (l_health s) ->
  claim_iteration o hs site locked now db_now t s = (s', t', j) ->
  0 <= l_busy s' <= Concurrency o
  /\ ClaimLoop (site_line Redact (l_health s') later pingers site) = ClaimLoopOK
  /\ Saturated (site_line Redact (l_health s') later pingers site) = (Concurrency o <=? l_busy s)
  /\ (forall x, x <> site -> h_sites (l_health s') !! x = h_sites (l_health s) !! x).
Proof.
  intros Hb Hnow Hlater Hit.
  assert (Hline : forall fn h b, h_staleAfter h = h_staleAfter (l_health s) ->
    (forall q, lastProgress (fn q) = lastProgress q /\ saturated (fn q) = b) ->
    ClaimLoop (site_line Redact (touch site now fn h) later pingers site) = ClaimLoopOK
    /\ Saturated (site_line Redact (touch site now fn h) later pingers site) = b).
  { intros fn h b Hst Hfn. destruct (touch_progress site now fn h) as (q & Hq & Hn).
    unfold site_line, progress_of, loop_verdict. rewrite Hq, touch_stale, Hst.
    destruct (Hfn q) as [Hp Hs]. rewrite Hp, Hn, Hs, (proj2 (Z.eqb_neq _ _)) by lia.
    rewrite (proj2 (Z.ltb_ge _ _)) by lia. by destruct (database_verdict _ _ _). }
  unfold claim_iteration in Hit. destruct (Z.leb_spec (Concurrency o) (l_busy s)).
  { injection Hit as <- <- <-. simpl. split; [done|].
    destruct (Hline (fun p => mkSiteProgress (lastProgress p) (lastClaimOK p) true) (l_health s) true)
      as [H1 H2]; try done. split; [done|]. split; [done|]. intros x Hx. by apply touch_other. }
  assert (Hother : forall fn x, x <> site ->
    h_sites (touch site now fn (LoopAlive site now (l_health s))) !! x = h_sites (l_health s) !! x).
  { intros fn x Hx. unfold LoopAlive. by rewrite !touch_other. }
  destruct (claim _ _ _ _ t) as [[t1 [c|]]|e]; injection Hit as <- <- <-; simpl;
    (split; [lia|]); apply Logic.and_assoc; (split; [|intros x Hx; by apply Hother]);
    apply Hline; try done; unfold LoopAlive; by rewrite touch_stale.
Qed.

(** ** The properties at work *)

Definition sample_health : Health := LoopAlive "main" 5 (NewHealth ["main"%string] (15 * Second)).

Lemma iteration_is_progress_witness :
  ClaimLoop (site_line (fun m => m) (Saturate "main" 7 sample_health) 9 ∅ "main") = ClaimLoopOK.
Proof.
  destruct (@iteration_is_progress len (fun m => m)
              (applyDefaults "h" "1" "x" (mkWorkerOptions 0 0 0 0 0 0 "" 0)) [] "main" [] 7 0 []
              (mkLoopState 4 sample_health) (mkLoopState 4 (Saturate "main" 7 sample_health)) [] None
              ∅ 9) as (_ & Hl & _); [vm_compute; split; discriminate | done | | done | exact Hl].
  vm_compute. split; discriminate.
Defined.
