(* ===== verification/OwnerStore.v ===== *)
(** * The identity tables and their statements

    The statements are the SQL texts of src/internal/store/sqlcgen/owner_claim.sql.go
    and audit.sql.go; the constraints those of src/migrations/0003_audit_events.up.sql
    and 0005_users_credentials_owner_claim.up.sql.  A statement that also reads
    [users] takes [snap], the users its snapshot contains: under READ COMMITTED
    a statement that waited for a row lock may act on an older one.  The
    columns of users and credentials that no statement of the program reads
    (display names, creation and update times) are left out of the rows. *)

From S2P Require Import Prelude Utf8 Regex GoStrings Pg.

(** ** Rows *)

Inductive UserRole := guest | member | manager | admin | owner.

#[export] Instance UserRole_eq_dec : EqDecision UserRole.
Proof. solve_decision. Defined.

Record User := mkUser {
  u_id : uuid;
  u_username : string;
  u_email : string;
  u_role : UserRole;
  u_tombstoned_at : option timestamp
}.

Record Credential := mkCredential {
  cr_id : uuid;
  cr_user_id : uuid;
  cr_kind : string;
  cr_secret : string
}.

(** The only row of owner_claim_tokens. *)
Record TokenRow := mkTokenRow {
  token_sha256 : string;
  generation : Z;
  minted_at : timestamp;
  expires_at : timestamp;
  consumed_at : option timestamp;
  superseded_at : option timestamp
}.

(** [a_before] and [a_after] are jsonb objects of text values. *)
Record AuditRow := mkAuditRow {
  a_id : uuid;
  a_occurred_at : timestamp;
  a_actor_kind : string;
  a_actor_user_id : option uuid;
  a_actor_label : option string;
  a_action : string;
  a_subject_type : string;
  a_subject_id : option string;
  a_before : option (list (string * string));
  a_after : option (list (string * string));
  a_correlation_id : option string;
  a_ip_prefix : option string
}.

Record Db := mkDb {
  users : list User;
  credentials : list Credential;
  token : option TokenRow;
  audit_events : list AuditRow
}.

Definition empty_db : Db := mkDb [] [] None [].

Definition with_token (t : TokenRow) (db : Db) : Db :=
  mkDb (users db) (credentials db) (Some t) (audit_events db).

(** ** The patterns of the CHECK constraints, which Go compiles as well *)

Definition usernameShape : re :=
  Cat (Cls alnum) (between 2 27 (Cls (either alnum (either (chr "_") (chr "-"))))).

(** [25[0-5]|2[0-4][0-9]|1[0-9]{2}|[1-9]?[0-9]] *)
Definition octet_re : re :=
  Alt (Cat (lit "25") (Cls (range "0" "5")))
  (Alt (Cat (lit "2") (Cat (Cls (range "0" "4")) (Cls digit)))
  (Alt (Cat (lit "1") (times 2 (Cls digit)))
       (Cat (opt (Cls (range "1" "9"))) (Cls digit)))).

Definition ipv4PrefixRe : re :=
  Cat (times 3 (Cat octet_re (lit "."))) (Cat (lit "0") (opt (lit "/24"))).

Definition ipv6PrefixRe : re :=
  Cat (between 1 3 (Cls lower_hex))
  (Cat (upto 3 (Cat (lit ":") (between 1 3 (Cls lower_hex))))
  (Cat (lit "::") (opt (Cat (lit "/") (Alt (lit "48") (lit "64")))))).

(** What the server computes in ways the program leaves to it: lower() of the
    generated columns, and the email pattern with its own [[:space:]]. *)
Class Server := {
  pg_lower : string -> string;
  pg_email_shape : string -> bool
}.

Section Statements.
Context `{Server}.

(** ** users and credentials *)

Definition user_checks (u : User) : list (string * bool) :=
  [("users_email_shape", pg_email_shape (u_email u) && (3 <=? len (u_email u)) && (len (u_email u) <=? 254));
   ("users_username_shape", matches usernameShape (u_username u))].

Definition live_owner (u : User) : bool :=
  bool_decide (u_role u = owner) && is_null (u_tombstoned_at u).

Definition absent {A} (p : A -> bool) (l : list A) : bool := negb (existsb p l).

Definition user_indexes (u : User) (us : list User) : list (string * bool) :=
  [("users_pkey", absent (fun v => u_id v =s u_id u) us);
   ("users_username_fold_key",
     absent (fun v => pg_lower (u_username v) =s pg_lower (u_username u)) us);
   ("users_email_fold_key", absent (fun v => pg_lower (u_email v) =s pg_lower (u_email u)) us);
   ("users_one_owner", negb (live_owner u) || absent live_owner us)].

Definition credential_checks (c : Credential) : list (string * bool) :=
  [("credentials_kind", cr_kind c =s "password");
   ("credentials_password_is_argon2id",
     (cr_kind c <>s "password") || HasPrefix (cr_secret c) "$argon2id$");
   ("credentials_secret_bounded", (1 <=? len (cr_secret c)) && (len (cr_secret c) <=? 1024))].

Definition credential_indexes (c : Credential) (cs : list Credential) : list (string * bool) :=
  [("credentials_pkey", absent (fun d => cr_id d =s cr_id c) cs);
   ("credentials_one_per_user_per_kind",
     absent (fun d => (cr_user_id d =s cr_user_id c) && (cr_kind d =s cr_kind c)) cs)].

(** ** owner_claim_tokens *)

Definition token_checks (t : TokenRow) : list (string * bool) :=
  [("owner_claim_tokens_digest_len", len (token_sha256 t) =? 32);
   ("owner_claim_tokens_generation", 1 <=? generation t);
   ("owner_claim_tokens_one_terminal_state",
     is_null (consumed_at t) || is_null (superseded_at t));
   ("owner_claim_tokens_ttl", minted_at t <? expires_at t)].

Definition AnyUserExists (db : Db) : bool :=
  match users db with [] => false | _ => true end.

(** The [live] column of GetOwnerClaimToken. *)
Definition live (now : timestamp) (t : TokenRow) : bool :=
  is_null (consumed_at t) && is_null (superseded_at t) && (now <? expires_at t).

Definition GetOwnerClaimToken (now : timestamp) (db : Db) : result DbErr (TokenRow * bool) :=
  match token db with
  | None => Err NoRows
  | Some t => Ok (t, live now t)
  end.

Definition bigint_max : Z := 9223372036854775807.

(** The row MintOwnerClaimToken writes over the one that is there. *)
Definition minted (digest : string) (ttl : Z) (now : timestamp) (old : option TokenRow) : TokenRow :=
  mkTokenRow digest (match old with None => 1 | Some t => generation t + 1 end)
    now (now + ttl) None None.

Definition MintOwnerClaimToken (snap : list User) (digest : string) (ttl : Z)
    (now : timestamp) (db : Db) : result DbErr (Db * TokenRow) :=
  match snap with
  | _ :: _ => Err NoRows
  | [] =>
      let t := minted digest ttl now (token db) in
      if bigint_max <? generation t then Err (FromServer (mkPgError "22003" "")) else
      guarded (refuse "23514" (token_checks t)) (Ok (with_token t db, t))
  end.

Definition SupersedeLiveOwnerClaimToken (now : timestamp) (db : Db) : Db * Z :=
  match token db with
  | Some t =>
      if is_null (consumed_at t) && is_null (superseded_at t)
      then (with_token (mkTokenRow (token_sha256 t) (generation t) (minted_at t) (expires_at t)
                          (consumed_at t) (Some now)) db, 1)
      else (db, 0)
  | None => (db, 0)
  end.

Record ClaimOwnerParams := mkClaimOwnerParams {
  p_TokenSha256 : string;
  p_UserID : uuid;
  p_Username : string;
  p_Email : string;
  p_CredentialID : uuid;
  p_PasswordHash : string
}.

Definition consumed (now : timestamp) (t : TokenRow) : TokenRow :=
  mkTokenRow (token_sha256 t) (generation t) (minted_at t) (expires_at t) (Some now) (superseded_at t).

Definition new_owner (p : ClaimOwnerParams) : User :=
  mkUser (p_UserID p) (p_Username p) (p_Email p) owner None.

Definition new_credential (p : ClaimOwnerParams) : Credential :=
  mkCredential (p_CredentialID p) (p_UserID p) "password" (p_PasswordHash p).

(** The guard of the consuming UPDATE. *)
Definition redeemable (snap : list User) (digest : string) (now : timestamp) (t : TokenRow) : bool :=
  (token_sha256 t =s digest) && live now t && match snap with [] => true | _ => false end.

(** What the three parts of the statement write, if nothing refuses it. *)
Definition claimed_db (p : ClaimOwnerParams) (now : timestamp) (t : TokenRow) (db : Db) : Db :=
  mkDb (users db ++ [new_owner p]) (credentials db ++ [new_credential p])
    (Some (consumed now t)) (audit_events db).

Definition ClaimOwner (snap : list User) (p : ClaimOwnerParams) (now : timestamp) (db : Db)
    : result DbErr (Db * (User * Z)) :=
  guarded (text_error [Some (p_Username p); Some (p_Email p); Some (p_PasswordHash p)])
    (match token db with
     | None => Err NoRows
     | Some t =>
         if redeemable snap (p_TokenSha256 p) now t then
           guarded (refuse "23514" (token_checks (consumed now t)))
           (guarded (refuse "23514" (user_checks (new_owner p)))
           (guarded (refuse "23505" (user_indexes (new_owner p) (users db)))
           (guarded (refuse "23514" (credential_checks (new_credential p)))
           (guarded (refuse "23505" (credential_indexes (new_credential p) (credentials db)))
             (Ok (claimed_db p now t db, (new_owner p, generation t)))))))
         else Err NoRows
     end).

(** ** audit_events *)

Definition audit_checks (a : AuditRow) : list (string * bool) :=
  [("audit_events_actor_identified",
     Bool.eqb (a_actor_kind a =s "user") (negb (is_null (a_actor_user_id a))));
   ("audit_events_actor_kind", one_of (a_actor_kind a) ["user"; "api_key"; "system"; "anonymous"]);
   ("audit_events_ip_prefix_shape",
     match a_ip_prefix a with
     | None => true
     | Some p => matches ipv4PrefixRe p || matches ipv6PrefixRe p
     end)].

Definition jsonb_texts (o : option (list (string * string))) : list (option string) :=
  match o with None => [] | Some l => map (fun kv => Some kv.2) l end.

Definition actor_known (a : AuditRow) (db : Db) : bool :=
  match a_actor_user_id a with
  | None => true
  | Some i => existsb (fun u => u_id u =s i) (users db)
  end.

Definition InsertAuditEvent (a : AuditRow) (db : Db) : result DbErr Db :=
  guarded (text_error [Some (a_actor_kind a); a_actor_label a; Some (a_action a);
                       Some (a_subject_type a); a_subject_id a; a_correlation_id a; a_ip_prefix a])
  (guarded (if forallb pg_text_opt (jsonb_texts (a_before a) ++ jsonb_texts (a_after a)) then None
            else Some (mkPgError "22P05" ""))
  (guarded (refuse "23514" (audit_checks a))
  (guarded (refuse "23505" [("audit_events_pkey", absent (fun b => a_id b =s a_id a) (audit_events db))])
  (guarded (refuse "23503" [("audit_events_actor_user_fk", actor_known a db)])
    (Ok (mkDb (users db) (credentials db) (token db) (audit_events db ++ [a]))))))).

End Statements.

Arguments ClaimOwner : simpl never.
Arguments MintOwnerClaimToken : simpl never.
Arguments InsertAuditEvent : simpl never.
