(* ===== verification/AuditLog.v ===== *)
(** * The audit writer (src/internal/audit/audit.go)

    [Emit] writes one row through the queries of the caller's transaction.
    [fresh] is what [uuid.NewV7] returned. *)

From S2P Require Import Prelude Utf8 Regex GoStrings Pg OwnerStore.

Definition ActionOwnerClaimMinted : string := "setup.owner_claim.minted".
Definition ActionOwnerClaimSuperseded : string := "setup.owner_claim.superseded".
Definition ActionOwnerClaimRefused : string := "setup.owner_claim.refused".
Definition ActionOwnerClaimRateLimited : string := "setup.owner_claim.rate_limited".
Definition ActionOwnerClaimSucceeded : string := "setup.owner_claim.succeeded".

Definition ActorSystem : string := "system".
Definition ActorAnonymous : string := "anonymous".
Definition ActorUser : string := "user".
Definition ActorAPIKey : string := "api_key".

Definition SubjectOwnerClaimToken : string := "owner_claim_token".
Definition SubjectUser : string := "user".

Definition ReasonTokenNotAccepted : string := "token_not_accepted".

(** [before] and [after] are maps with text values; nil is [None]. *)
Record Event := mkEvent {
  ActorKind : string;
  ActorUserID : option uuid;
  ActorLabel : option string;
  Action : string;
  SubjectType : string;
  SubjectID : option string;
  Before : option (list (string * string));
  After : option (list (string * string));
  CorrelationID : option string;
  EvIPPrefix : option string
}.

(** The frozen grammar of the ip_prefix column. *)
Definition Valid (s : string) : bool := matches ipv4PrefixRe s || matches ipv6PrefixRe s.

(** ** The client's network prefix *)

(** net.SplitHostPort and net/netip: [ParseAddr] fails on what is not an
    address; [prefix_text a bits] is the text of the masked prefix, if masking
    succeeds. *)
Class Netip (Addr : Type) := {
  SplitHostPort : string -> option string;
  ParseAddr : string -> option Addr;
  Zone : Addr -> string;
  Unmap : Addr -> Addr;
  IsValid : Addr -> bool;
  IsUnspecified : Addr -> bool;
  IsLoopback : Addr -> bool;
  Is4 : Addr -> bool;
  prefix_text : Addr -> Z -> option string
}.

Definition IPPrefix {Addr} `{Netip Addr} (remoteAddr : string) : option string :=
  let host := match SplitHostPort remoteAddr with Some h => h | None => remoteAddr end in
  match ParseAddr host with
  | None => None
  | Some addr =>
      if Zone addr <>s "" then None
      else
        let addr := Unmap addr in
        if negb (IsValid addr) || IsUnspecified addr || IsLoopback addr then None
        else
          let '(bits, re) := if Is4 addr then (24, ipv4PrefixRe) else (64, ipv6PrefixRe) in
          match prefix_text addr bits with
          | None => None
          | Some s => if matches re s then Some s else None
          end
  end.

Inductive EmitError :=
| EmitNoUUID
| EmitInserting (e : DbErr).

Definition audit_row (i : uuid) (now : timestamp) (ev : Event) : AuditRow :=
  let ip := match EvIPPrefix ev with
            | Some p => if Valid p then Some p else None
            | None => None
            end in
  mkAuditRow i now (ActorKind ev) (ActorUserID ev) (ActorLabel ev) (Action ev) (SubjectType ev)
    (SubjectID ev) (Before ev) (After ev) (CorrelationID ev) ip.

Definition Emit (fresh : option uuid) (now : timestamp) (ev : Event) (db : Db) : result EmitError Db :=
  match fresh with
  | None => Err EmitNoUUID
  | Some i => match InsertAuditEvent (audit_row i now ev) db with
              | Ok db' => Ok db'
              | Err e => Err (EmitInserting e)
              end
  end.

Arguments Emit : simpl never.

(** ** What an emitted row does *)

Lemma guarded_ok {A} o (k : result DbErr A) a : guarded o k = Ok a <-> o = None /\ k = Ok a.
Proof. destruct o; simpl; [split; [done|by intros [? _]]|]. by split; [|intros [_ ?]]. Qed.

Lemma Emit_ok fresh now ev db db' :
  Emit fresh now ev db = Ok db' ->
  exists i, fresh = Some i /\ db' = mkDb (users db) (credentials db) (token db)
                                      (audit_events db ++ [audit_row i now ev]).
Proof.
  unfold Emit, InsertAuditEvent. destruct fresh as [i|]; [|done].
  destruct (guarded _ _) as [d|e] eqn:Hg; [|done]. intros [= <-].
  repeat (apply guarded_ok in Hg as [_ Hg]). injection Hg as <-. by exists i.
Qed.

(** Whatever the address library answers, the prefix is in the grammar. *)
Lemma IPPrefix_valid {Addr} `{Netip Addr} remoteAddr s : IPPrefix remoteAddr = Some s -> Valid s = true.
Proof.
  unfold IPPrefix, Valid. destruct (ParseAddr _) as [a|]; [|done].
  destruct (_ =s _); [|done]. destruct (_ || _); [done|]. simpl.
  destruct (Is4 _); destruct (prefix_text _ _) as [x|]; try done;
    destruct (matches _ x) eqn:Hm; try done; intros [= <-]; by rewrite Hm, ?orb_true_r.
Qed.

(** Whatever ip_prefix the caller passes, the written one is in the grammar the
    CHECK enforces, so the column never refuses the row. *)
Lemma audit_row_ip_ok i now ev :
  match a_ip_prefix (audit_row i now ev) with
  | None => true
  | Some p => matches ipv4PrefixRe p || matches ipv6PrefixRe p
  end = true.
Proof.
  unfold audit_row, Valid. simpl. destruct (EvIPPrefix ev) as [p|]; [|done].
  by destruct (_ || _) eqn:E.
Qed.
