(* ===== verification/OwnerClaim.v ===== *)
(** * The owner claim (src/internal/ownerclaim/ownerclaim.go, announce.go)

    A one-time token is minted, shown to the operator and redeemed for the
    owner account.  Each operation is a sequence of statements; other
    transactions may commit between two of them, so an operation takes the
    database each of its statements meets, and the failure a statement may
    meet instead.  Randomness and identifiers are arguments. *)

From S2P Require Import Prelude Utf8 Regex GoStrings GoTime Sha256 Pg Credential OwnerStore AuditLog.

(** ** Errors *)

Inductive OwnerError :=
| ErrTokenNotAccepted
| ErrAlreadyClaimed
| ErrHasUsers
| ErrLiveTokenExists (generation : Z)
| ErrUnavailable
| ValidationError (field message : string)
| ErrBusy
| ErrPg (e : PgError)
| ErrOther.

(** What a statement may meet instead of an answer of its own. *)
Inductive Fault := Lost | Refused (e : PgError).

Definition fault_err (f : Fault) : DbErr :=
  match f with Lost => Broken | Refused e => FromServer e end.

(** A statement under a possible fault. *)
Definition meet {A} (f : option Fault) (r : result DbErr A) : result DbErr A :=
  match f with Some f => Err (fault_err f) | None => r end.

Definition IsServerUnavailable (code : string) : bool :=
  HasPrefix code "08" || HasPrefix code "53" || one_of code ["57P01"; "57P02"; "57P03"].

(** [unavailable]: a constraint error keeps its cause, an outage becomes the
    sentinel. *)
Definition unavailable (err : DbErr) : OwnerError :=
  match err with
  | FromServer e => if IsServerUnavailable (Code e) then ErrUnavailable else ErrPg e
  | NoRows | Broken => ErrUnavailable
  end.

Definition emit_err (e : EmitError) : DbErr :=
  match e with EmitNoUUID => Broken | EmitInserting e => e end.

(** An error returned as it is. *)
Definition plain (err : DbErr) : OwnerError :=
  match err with FromServer e => ErrPg e | NoRows | Broken => ErrOther end.

(** What [Claim] makes of an error of the hasher. *)
Definition hash_err (e : CredError) : OwnerError :=
  match e with Credential.ErrBusy => ErrBusy | _ => ErrOther end.

(** ** Tokens *)

Definition TokenBytes : nat := 32.

Definition tokenShape : re := times 64 (Cls lower_hex).

(** [^[^\s@]+@[^\s@]+\.[^\s@]+$] *)
Definition emailShape : re :=
  let word := plus (Cls (neither go_space (chr "@"))) in
  Cat word (Cat (lit "@") (Cat word (Cat (lit ".") word))).

Definition MaxEmailBytes : Z := 254.

Definition Digest (normalized : string) : string := Sum256 normalized.

(** [entropy] is what [rand.Read] filled in. *)
Definition GenerateToken (entropy : option string) : option (string * string) :=
  match entropy with
  | None => None
  | Some b => Some (hex b, Digest (hex b))
  end.

Record Input := mkInput {
  in_Token : string;
  in_Username : string;
  in_Email : string;
  in_Password : string
}.

(** [interval]: whole microseconds. *)
Definition interval (d : Z) : Z := Z.quot d Microsecond.

Record TokenState := mkTokenState { Exists : bool; Live : bool; Generation : Z }.

Record Result := mkResult {
  r_UserID : uuid;
  r_Username : string;
  r_Role : string;
  r_TokenGeneration : Z
}.

Section OwnerClaim.
Context `{Unicode, Server}.

Definition Normalize (token : string) : string := ToLower (TrimSpace token).

Definition Validate (i : Input) : option OwnerError :=
  if negb (matches tokenShape (Normalize (in_Token i))) then Some ErrTokenNotAccepted
  else if negb (matches usernameShape (in_Username i)) then
    Some (ValidationError "username"
      "use 3 to 30 characters: letters, numbers, hyphen or underscore, starting with a letter or number")
  else if (MaxEmailBytes <? len (in_Email i)) || negb (matches emailShape (in_Email i)) then
    Some (ValidationError "email"
      ("enter an email address of at most " +:+ Itoa MaxEmailBytes +:+ " bytes"))
  else
    let n := RuneCount (in_Password i) in
    if n <? MinPasswordRunes then
      Some (ValidationError "password" ("use at least " +:+ Itoa MinPasswordRunes +:+ " characters"))
    else if MaxPasswordRunes <? n then
      Some (ValidationError "password" ("use at most " +:+ Itoa MaxPasswordRunes +:+ " characters"))
    else if MaxPasswordBytes <? len (in_Password i) then
      Some (ValidationError "password"
        ("use a password of at most " +:+ Itoa MaxPasswordBytes +:+ " bytes"))
    else None.

(** ** Reading *)

Definition State (now : timestamp) (db : Db) : TokenState :=
  match GetOwnerClaimToken now db with
  | Ok (t, l) => mkTokenState true l (generation t)
  | Err _ => mkTokenState false false 0
  end.

Definition Claimed (f : option Fault) (db : Db) : result DbErr bool := meet f (Ok (AnyUserExists db)).

(** ** Minting *)

Inductive MintPoint :=
| MintBegin | MintLock | MintUsers | MintState | MintSuperseded | MintUpsert | MintAudit | MintCommit.

(** What the statements of one mint meet: the users it counts, the token row it
    reads under the lock, and the snapshot of the upsert. *)
Record MintEnv := mkMintEnv {
  m_fault : MintPoint -> option Fault;
  m_users : Db;
  m_state : Db;
  m_snap : list User
}.

Definition token_event (action : string) (gen : Z) (after : option (list (string * string))) : Event :=
  mkEvent ActorSystem None None action SubjectOwnerClaimToken (Some (Itoa gen)) None after None None.

(** The part of [Mint] after the decisions: audit the generation that dies,
    write the new token, audit it, commit.  [db] is the database at the write;
    an error leaves it as it was. *)
Definition mint_write (env : MintEnv) (prior : TokenState) (entropy : option string)
    (uuids : option uuid * option uuid) (ttl : Z) (now : timestamp) (db : Db)
    : result OwnerError (string * Z) * Db :=
  let superseded :=
    if Live prior then
      match m_fault env MintSuperseded with
      | Some f => Err (plain (fault_err f))
      | None =>
          match Emit uuids.1 now (token_event ActionOwnerClaimSuperseded (Generation prior) None) db with
          | Ok db1 => Ok db1
          | Err e => Err (plain (emit_err e))
          end
      end
    else Ok db in
  match superseded with
  | Err e => (Err e, db)
  | Ok db1 =>
  match GenerateToken entropy with
  | None => (Err ErrOther, db)
  | Some (raw, digest) =>
  match meet (m_fault env MintUpsert) (MintOwnerClaimToken (m_snap env) digest (interval ttl) now db1) with
  | Err NoRows => (Err ErrHasUsers, db)
  | Err e => (Err (unavailable e), db)
  | Ok (db2, row) =>
  match m_fault env MintAudit with
  | Some f => (Err (plain (fault_err f)), db)
  | None =>
  match Emit uuids.2 now (token_event ActionOwnerClaimMinted (generation row)
                            (Some [("expires_at"%string, RFC3339 (expires_at row))])) db2 with
  | Err e => (Err (plain (emit_err e)), db)
  | Ok db3 =>
  match m_fault env MintCommit with
  | Some f => (Err (unavailable (fault_err f)), db)
  | None => (Ok (raw, generation row), db3)
  end end end end end end.

Definition Mint (env : MintEnv) (entropy : option string) (uuids : option uuid * option uuid)
    (ttl : Z) (refuseIfUsersExist onlyIfNoLiveToken : bool) (now : timestamp) (db : Db)
    : result OwnerError (string * Z) * Db :=
  match m_fault env MintBegin with
  | Some f => (Err (unavailable (fault_err f)), db)
  | None =>
  match m_fault env MintLock with
  | Some f => (Err (unavailable (fault_err f)), db)
  | None =>
  match (if refuseIfUsersExist then Claimed (m_fault env MintUsers) (m_users env) else Ok false) with
  | Err e => (Err (unavailable e), db)
  | Ok true => (Err ErrHasUsers, db)
  | Ok false =>
  match m_fault env MintState with
  | Some f => (Err (unavailable (fault_err f)), db)
  | None =>
      let prior := State now (m_state env) in
      if onlyIfNoLiveToken && Live prior then (Err (ErrLiveTokenExists (Generation prior)), db)
      else mint_write env prior entropy uuids ttl now db
  end end end end.

(** ** Retiring a token *)

Inductive SupersedePoint := SupBegin | SupUpdate | SupRead | SupAudit | SupCommit.

Definition SupersedeLive (fault : SupersedePoint -> option Fault) (fresh : option uuid)
    (now : timestamp) (db : Db) : result OwnerError Z * Db :=
  match fault SupBegin with
  | Some f => (Err (plain (fault_err f)), db)
  | None =>
  match fault SupUpdate with
  | Some f => (Err (plain (fault_err f)), db)
  | None =>
  let '(db1, n) := SupersedeLiveOwnerClaimToken now db in
  if n =? 0 then (Ok 0, db)
  else
  match meet (fault SupRead) (GetOwnerClaimToken now db1) with
  | Err e => (Err (plain e), db)
  | Ok (row, _) =>
  match fault SupAudit with
  | Some f => (Err (plain (fault_err f)), db)
  | None =>
  match Emit fresh now (token_event ActionOwnerClaimSuperseded (generation row) None) db1 with
  | Err e => (Err (plain (emit_err e)), db)
  | Ok db2 =>
  match fault SupCommit with
  | Some f => (Err (plain (fault_err f)), db)
  | None => (Ok n, db2)
  end end end end end end.

(** ** Claiming *)

Inductive ClaimPoint :=
| ClaimCheck | ClaimRead | ClaimClassify | ClaimBegin | ClaimGate | ClaimRedeem | ClaimAudit | ClaimCommit.

(** What the statements of one claim meet.  [c_hash] is the hasher; [c_ids] are
    the identifiers drawn for the user, its credential and the audit row. *)
Record ClaimEnv := mkClaimEnv {
  c_fault : ClaimPoint -> option Fault;
  c_check : Db;
  c_read : Db;
  c_read_at : timestamp;
  c_classify : Db;
  c_gate : Db;
  c_snap : list User;
  c_hash : string -> result CredError string;
  c_ids : option uuid * option uuid * option uuid
}.

(** [Ok None] is a refusal, which the caller must classify. *)
Definition examineToken (env : ClaimEnv) (i : Input) : result OwnerError (option TokenRow) :=
  match Validate i with
  | Some ErrTokenNotAccepted => Ok None
  | Some e => Err e
  | None =>
      match meet (c_fault env ClaimRead) (GetOwnerClaimToken (c_read_at env) (c_read env)) with
      | Err NoRows => Ok None
      | Err e => Err (unavailable e)
      | Ok (row, l) =>
          if Digest (Normalize (in_Token i)) <>s token_sha256 row then Ok None
          else if negb l then Ok None
          else Ok (Some row)
      end
  end.

(** The one place a token refusal becomes an answer. *)
Definition classifyRefusal (env : ClaimEnv) : OwnerError :=
  match Claimed (c_fault env ClaimClassify) (c_classify env) with
  | Err _ => ErrUnavailable
  | Ok true => ErrAlreadyClaimed
  | Ok false => ErrTokenNotAccepted
  end.

Definition role_text (r : UserRole) : string :=
  match r with
  | guest => "guest" | member => "member" | manager => "manager" | admin => "admin" | owner => "owner"
  end.

Definition nonEmpty (s : string) : option string := if s =s "" then None else Some s.

Definition succeeded_event (u : User) (correlationID : string) (ip : option string) : Event :=
  mkEvent ActorUser (Some (u_id u)) None ActionOwnerClaimSucceeded SubjectUser (Some (u_id u)) None
    (Some [("role"%string, role_text (u_role u)); ("username"%string, u_username u)])
    (nonEmpty correlationID) ip.

(** The write phase: gate, redeem, audit, commit in one transaction.  [db] is
    the database the redeeming statement meets, [now] its clock. *)
Definition claim_write (env : ClaimEnv) (i : Input) (row : TokenRow) (hash : string)
    (userID credID : uuid) (correlationID : string) (ip : option string)
    (now : timestamp) (db : Db) : result OwnerError Result * Db :=
  match c_fault env ClaimBegin with
  | Some f => (Err (unavailable (fault_err f)), db)
  | None =>
  match Claimed (c_fault env ClaimGate) (c_gate env) with
  | Err e => (Err (unavailable e), db)
  | Ok true => (Err ErrAlreadyClaimed, db)
  | Ok false =>
  match meet (c_fault env ClaimRedeem)
          (ClaimOwner (c_snap env)
             (mkClaimOwnerParams (token_sha256 row) userID (in_Username i) (in_Email i) credID hash)
             now db) with
  | Err NoRows => (Err (classifyRefusal env), db)
  | Err e => (Err (unavailable e), db)
  | Ok (db1, (created, gen)) =>
  match c_fault env ClaimAudit with
  | Some f => (Err (unavailable (fault_err f)), db)
  | None =>
  match Emit (c_ids env).2 now (succeeded_event created correlationID ip) db1 with
  | Err e => (Err (unavailable (emit_err e)), db)
  | Ok db2 =>
  match c_fault env ClaimCommit with
  | Some f => (Err (unavailable (fault_err f)), db)
  | None =>
      (Ok (mkResult (u_id created) (u_username created) (role_text (u_role created)) gen), db2)
  end end end end end end.

(** The flag says whether the hasher was called. *)
Definition Claim (env : ClaimEnv) (i : Input) (correlationID : string) (ip : option string)
    (now : timestamp) (db : Db) : result OwnerError Result * Db * bool :=
  match Claimed (c_fault env ClaimCheck) (c_check env) with
  | Err e => (Err (unavailable e), db, false)
  | Ok true => (Err ErrAlreadyClaimed, db, false)
  | Ok false =>
  match examineToken env i with
  | Err e => (Err e, db, false)
  | Ok None => (Err (classifyRefusal env), db, false)
  | Ok (Some row) =>
  match c_hash env (in_Password i) with
  | Err e => (Err (hash_err e), db, true)
  | Ok hash =>
  match (c_ids env).1 with
  | (None, _) | (_, None) => (Err ErrOther, db, true)
  | (Some userID, Some credID) =>
      (claim_write env i row hash userID credID correlationID ip now db, true)
  end end end end.

(** ** Boot (src/internal/ownerclaim/announce.go) *)

Definition AnnounceOff : string := "off".
Definition AnnounceStderr : string := "stderr".

Record BootOutcome := mkBootOutcome {
  b_Claimed : bool;
  b_Minted : bool;
  b_Superseded : bool;
  b_Generation : Z;
  b_Degraded : bool
}.

Definition newline : string := String (ascii_of_N 10) "".

Definition announceCommand (s : TokenState) : string :=
  newline +:+ "vizra: this instance is unclaimed. Get a claim token with:" +:+ newline
  +:+ "    docker compose exec api vizra claim-token" +:+ newline
  +:+ (if Live s then
         "  (a token is already live: generation " +:+ Itoa (Generation s)
         +:+ ". Running the command above" +:+ newline
         +:+ "   mints a new one and invalidates it.)" +:+ newline
       else "")
  +:+ newline.

Definition announceToken (generation ttl : Z) (raw : string) : string :=
  newline +:+ "vizra: this instance is unclaimed." +:+ newline
  +:+ "  Owner claim token (generation " +:+ Itoa generation +:+ "), valid for "
  +:+ DurationString ttl +:+ " — it works once:" +:+ newline
  +:+ "    " +:+ raw +:+ newline
  +:+ "  VIZRA_OWNER_CLAIM_ANNOUNCE=stderr wrote that credential to this log." +:+ newline
  +:+ "  If this instance's logs are shipped anywhere, set it to 'off' and use" +:+ newline
  +:+ "    docker compose exec api vizra claim-token" +:+ newline +:+ newline.

(** [f_users] and [f_state] are the faults of the two reads, [db_users] and
    [db_state] what they see.  The text is what is written to the operator. *)
Definition Boot (f_users f_state : option Fault) (db_users db_state : Db)
    (sup : SupersedePoint -> option Fault) (env : MintEnv) (entropy : option string)
    (uuids : option uuid * option uuid) (mode : string) (ttl : Z) (now : timestamp) (db : Db)
    : BootOutcome * option OwnerError * string * Db :=
  match Claimed f_users db_users with
  | Err e => (mkBootOutcome false false false 0 true, Some (plain e), ""%string, db)
  | Ok true =>
      match SupersedeLive sup uuids.1 now db with
      | (Err e, db') => (mkBootOutcome true false false 0 true, Some e, ""%string, db')
      | (Ok n, db') => (mkBootOutcome true false (0 <? n) 0 false, None, ""%string, db')
      end
  | Ok false =>
      match f_state with
      | Some f => (mkBootOutcome false false false 0 true, Some (plain (fault_err f)), ""%string, db)
      | None =>
          let s := State now db_state in
          if mode <>s AnnounceStderr
          then (mkBootOutcome false false false (Generation s) false, None, announceCommand s, db)
          else match Mint env entropy uuids ttl false true now db with
               | (Err ErrHasUsers, db') => (mkBootOutcome true false false 0 false, None, ""%string, db')
               | (Err (ErrLiveTokenExists g), db') =>
                   (mkBootOutcome false false false g false, None,
                    announceCommand (mkTokenState true true g), db')
               | (Err e, db') => (mkBootOutcome false false false 0 true, Some e, ""%string, db')
               | (Ok (raw, g), db') =>
                   (mkBootOutcome false true false g false, None, announceToken g ttl raw, db')
               end
      end
  end.

End OwnerClaim.
