(* ===== verification/OwnerSystem.v ===== *)
(** * What the owner claim guarantees

    The theorems on minting, redeeming, retiring and booting, and the system of
    all of them: any number of processes run the operations of [OwnerClaim] in
    any order, on views of the database that may be arbitrarily stale. *)

From S2P Require Import Prelude Utf8 Regex GoStrings GoTime Sha256 Pg Credential OwnerStore AuditLog OwnerClaim.

(** ** Normalisation leaves a minted token alone *)

Section Tokens.
Context `{HU : Unicode, HS : Server}.

(** A lower-case hexadecimal byte is an ASCII byte that is neither a space nor
    an upper-case letter. *)
Lemma lower_hex_plain c :
  lower_hex c = true -> code c < 128 /\ in_range 9 13 c = false /\ in_range 32 32 c = false
                        /\ in_range 65 90 c = false /\ code c <> 194 /\ code c <> 225
                        /\ code c <> 226 /\ code c <> 227.
Proof.
  unfold lower_hex, either, digit, range, in_range.
  change (code "0") with 48. change (code "9") with 57.
  change (code "a") with 97. change (code "f") with 102. intros Hc. lia.
Qed.

Lemma hex_no_space c s : lower_hex c = true -> space_size (String c s) = 0%nat.
Proof.
  intros Hc. destruct (lower_hex_plain c Hc) as (Hlt & Hsp1 & Hsp2 & _ & Hn1 & Hn2 & Hn3 & Hn4).
  unfold space_size. rewrite Hsp1, Hsp2. simpl.
  assert (Hno : forall k, k <> code c -> in_range k k c = false) by (unfold in_range; lia).
  rewrite (Hno 194), (Hno 225), (Hno 226), (Hno 227) by congruence.
  simpl. destruct s as [|b [|d s]]; done.
Qed.

Lemma trim_hex s : sall lower_hex s = true -> TrimSpace s = s.
Proof.
  intros Hs. unfold TrimSpace.
  assert (Hl : forall r, sall lower_hex r = true -> TrimLeftSpace r = r).
  { intros [|c r] Hr; [done|]. simpl in Hr. eqb_prop.
    unfold TrimLeftSpace. cbn [String.length trim_left_fuel]. by rewrite hex_no_space. }
  rewrite Hl by done. induction s as [|c s IH]; [done|]. cbn [TrimRightSpace].
  rewrite Hl by done. simpl. simpl in Hs. eqb_prop. f_equal. by apply IH.
Qed.

Lemma lower_hex_fixed fuel s :
  (String.length s <= fuel)%nat -> sall lower_hex s = true -> lower_fuel fuel s = s.
Proof.
  revert fuel; induction s as [|c s IH]; intros fuel Hf Hs; [by destruct fuel|].
  destruct fuel as [|fuel]; [simpl in Hf; lia|]. simpl in Hs. eqb_prop.
  destruct (lower_hex_plain c ltac:(done)) as (Hlt & _ & _ & Hup & _). cbn [lower_fuel].
  unfold rune_size. rewrite (proj2 (Z.ltb_lt _ _) Hlt).
  unfold lower_byte. rewrite Hup, IH; [done|simpl in Hf; lia|done].
Qed.

Lemma Normalize_hex s : sall lower_hex s = true -> Normalize s = s.
Proof. intros Hs. unfold Normalize, ToLower. rewrite trim_hex by done. by apply lower_hex_fixed. Qed.

Lemma minted_shape b :
  String.length b = TokenBytes -> matches tokenShape (hex b) = true.
Proof.
  intros Hb. apply matches_spec, lang_times. rewrite hex_length, Hb. split; [done|apply hex_lower].
Qed.

(** ** Inputs the validation accepts *)

Lemma emailShape_spec s :
  matches emailShape s = true ->
  exists a b c, s = a +:+ "@" +:+ b +:+ "." +:+ c
    /\ a <> ""%string /\ b <> ""%string /\ c <> ""%string.
Proof.
  intros Hm%matches_spec. unfold emailShape in Hm.
  apply lang_Cat in Hm as (a & s1 & -> & [Ha _]%lang_plus & Hm).
  apply lang_Cat in Hm as (at_ & s2 & -> & Hat & Hm).
  apply lang_Cat in Hm as (b & s3 & -> & [Hb _]%lang_plus & Hm).
  apply lang_Cat in Hm as (dot & c & -> & Hdot & [Hc _]%lang_plus).
  assert (Hlit : forall x w, lang (lit (String x "")) w -> w = String x "").
  { intros x w (u & v & -> & (d & -> & Hd)%lang_Cls & ->%lang_eps)%lang_Cat.
    unfold chr in Hd. apply Ascii.eqb_eq in Hd. by subst. }
  apply Hlit in Hat, Hdot. subst. by exists a, b, c.
Qed.

Lemma emailShape_len s : matches emailShape s = true -> 5 <= len s.
Proof.
  intros (a & b & c & -> & Ha & Hb & Hc)%emailShape_spec. rewrite !len_app.
  assert (Hne : forall x : string, x <> ""%string -> 1 <= len x).
  { intros [|y x]; [done|]. unfold len. simpl. lia. }
  pose proof (Hne a Ha). pose proof (Hne b Hb). pose proof (Hne c Hc).
  change (len "@") with 1. change (len ".") with 1. lia.
Qed.

Lemma Validate_inv i :
  Validate i = None ->
  matches tokenShape (Normalize (in_Token i)) = true
  /\ matches usernameShape (in_Username i) = true
  /\ len (in_Email i) <= MaxEmailBytes /\ matches emailShape (in_Email i) = true
  /\ MinPasswordRunes <= RuneCount (in_Password i) <= MaxPasswordRunes
  /\ len (in_Password i) <= MaxPasswordBytes.
Proof.
  unfold Validate. destruct (matches tokenShape _); [|done]. simpl.
  destruct (matches usernameShape _); [|done]. simpl.
  destruct (Z.ltb_spec MaxEmailBytes (len (in_Email i))); [done|]. simpl.
  destruct (matches emailShape _); [|done]. simpl.
  destruct (Z.ltb_spec (RuneCount (in_Password i)) MinPasswordRunes); [done|].
  destruct (Z.ltb_spec MaxPasswordRunes (RuneCount (in_Password i))); [done|].
  destruct (Z.ltb_spec MaxPasswordBytes (len (in_Password i))); [done|].
  intros _. repeat split; (done || lia).
Qed.

End Tokens.

(** ** What the operations write *)

Section Writes.
Context `{HU : Unicode, HS : Server}.

Lemma ClaimOwner_ok snap p now db db' u g :
  ClaimOwner snap p now db = Ok (db', (u, g)) ->
  exists t, token db = Some t /\ redeemable snap (p_TokenSha256 p) now t = true
    /\ db' = claimed_db p now t db /\ u = new_owner p /\ g = generation t
    /\ existsb live_owner (users db) = false.
Proof.
  unfold ClaimOwner. intros Hc. apply guarded_ok in Hc as [_ Hc].
  destruct (token db) as [t|]; [|done]. destruct (redeemable _ _ _ t) eqn:Hr; [|done].
  apply guarded_ok in Hc as [_ Hc]. apply guarded_ok in Hc as [_ Hc].
  apply guarded_ok in Hc as [Hidx Hc]. apply guarded_ok in Hc as [_ Hc].
  apply guarded_ok in Hc as [_ Hc]. injection Hc as <- <- <-.
  exists t. repeat split; try done. apply refuse_none in Hidx.
  unfold user_indexes in Hidx. simpl in Hidx. rewrite !andb_true_iff in Hidx.
  destruct Hidx as (_ & _ & _ & Ho & _). unfold absent, live_owner at 1 in Ho. simpl in Ho.
  by apply negb_true_iff in Ho.
Qed.

Lemma redeemable_live snap d now t :
  redeemable snap d now t = true -> token_sha256 t = d /\ live now t = true /\ snap = [].
Proof. unfold redeemable. destruct snap; intros Hr; eqb_prop; done. Qed.

(** A failed write phase leaves the database; a successful one is the redeeming
    statement followed by the audit row. *)
Lemma claim_write_cases env i row hash uid cid corr ip now db :
  (exists e, claim_write env i row hash uid cid corr ip now db = (Err e, db)
             /\ (e = ErrTokenNotAccepted -> classifyRefusal env = ErrTokenNotAccepted))
  \/ exists t a,
       let p := mkClaimOwnerParams (token_sha256 row) uid (in_Username i) (in_Email i) cid hash in
       token db = Some t /\ redeemable (c_snap env) (token_sha256 row) now t = true
       /\ existsb live_owner (users db) = false
       /\ (c_ids env).2 = Some a
       /\ claim_write env i row hash uid cid corr ip now db
          = (Ok (mkResult uid (in_Username i) "owner" (generation t)),
             mkDb (users db ++ [new_owner p]) (credentials db ++ [new_credential p])
               (Some (consumed now t))
               (audit_events db ++ [audit_row a now (succeeded_event (new_owner p) corr ip)])).
Proof.
  assert (Hun : forall f, unavailable (fault_err f) <> ErrTokenNotAccepted)
    by (intros [|e]; simpl; [done|by case_match]).
  assert (Hun' : forall e, unavailable e <> ErrTokenNotAccepted)
    by (intros [|e|]; simpl; [done|by case_match|done]).
  unfold claim_write. destruct (c_fault env ClaimBegin) as [f|]; [left; eexists; split; [done|intros Hx; by apply Hun in Hx]|].
  destruct (Claimed _ _) as [[|]|e]; [left; by eexists| |left; eexists; split; [done|intros Hx; by apply Hun' in Hx]].
  destruct (meet _ _) as [[db1 [u g]]|e] eqn:Hm.
  2:{ left. destruct e; eexists; (split; [done|intros Hx; try done; by apply Hun' in Hx]). }
  unfold meet in Hm. destruct (c_fault env ClaimRedeem); [done|].
  apply ClaimOwner_ok in Hm as (t & Ht & Hr & -> & -> & -> & Ho).
  destruct (c_fault env ClaimAudit) as [f|]; [left; eexists; split; [done|intros Hx; by apply Hun in Hx]|].
  destruct (Emit _ _ _ _) as [db2|e] eqn:He; [|left; eexists; split; [done|intros Hx; by apply Hun' in Hx]].
  apply Emit_ok in He as (a & Ha & ->).
  destruct (c_fault env ClaimCommit) as [f|]; [left; eexists; split; [done|intros Hx; by apply Hun in Hx]|].
  right. by exists t, a.
Qed.

Lemma Validate_error i e :
  Validate i = Some e -> e = ErrTokenNotAccepted \/ exists f m, e = ValidationError f m.
Proof. unfold Validate. intros Hv. split_in Hv; eauto. Qed.

(** What an accepted examination saw. *)
Lemma examineToken_accepted env i row :
  examineToken env i = Ok (Some row) ->
  Validate i = None /\ token (c_read env) = Some row
  /\ token_sha256 row = Digest (Normalize (in_Token i)) /\ live (c_read_at env) row = true.
Proof.
  unfold examineToken. destruct (Validate i) as [e|] eqn:Hv.
  { destruct (Validate_error i e Hv) as [->|(f & m & ->)]; done. }
  unfold GetOwnerClaimToken, meet. destruct (c_fault env ClaimRead) as [f|]; [by destruct f|].
  destruct (token (c_read env)) as [t|]; [|done].
  destruct (String.eqb_spec (Digest (Normalize (in_Token i))) (token_sha256 t)) as [Hd|]; simpl; [|done].
  destruct (live _ t) eqn:Hl; simpl; [|done]. intros [= <-]. done.
Qed.

Lemma examineToken_error env i e : examineToken env i = Err e -> e <> ErrTokenNotAccepted.
Proof.
  unfold examineToken. destruct (Validate i) as [e'|] eqn:Hv.
  { destruct (Validate_error i e' Hv) as [->|(f & m & ->)]; [done|]. by intros [= <-]. }
  destruct (meet _ _) as [[row l]|[|x|]]; simpl; try done.
  - destruct (_ =s _); simpl; [|done]. by destruct l.
  - intros [= <-]. by case_match.
  - by intros [= <-].
Qed.

(** A failed mint leaves the database; a successful one overwrites the token
    row and audits the generation that dies, if one was live, and the new one. *)
Lemma mint_write_cases env prior entropy uuids ttl now db :
  (exists e, mint_write env prior entropy uuids ttl now db = (Err e, db))
  \/ exists b pre a,
       let t := minted (Sum256 (hex b)) (interval ttl) now (token db) in
       entropy = Some b /\ m_snap env = []
       /\ map a_action pre = (if Live prior then [ActionOwnerClaimSuperseded] else [])
       /\ a_action a = ActionOwnerClaimMinted /\ a_subject_id a = Some (Itoa (generation t))
       /\ refuse "23514" (token_checks t) = None
       /\ mint_write env prior entropy uuids ttl now db
          = (Ok (hex b, generation t),
             mkDb (users db) (credentials db) (Some t) (audit_events db ++ pre ++ [a])).
Proof.
  unfold mint_write.
  set (sup := if Live prior then _ else Ok db).
  assert (Hsup : (exists e, sup = Err e) \/ exists pre, sup = Ok (mkDb (users db) (credentials db) (token db) (audit_events db ++ pre))
    /\ map a_action pre = (if Live prior then [ActionOwnerClaimSuperseded] else [])).
  { subst sup. destruct (Live prior); [|right; exists []; by rewrite app_nil_r; destruct db].
    destruct (m_fault env MintSuperseded); [eauto|].
    destruct (Emit _ _ _ db) as [db1|e] eqn:He; [|eauto].
    apply Emit_ok in He as (i & Hi & ->). right. by eexists. }
  destruct Hsup as [[e ->]|(pre & -> & Hpre)]; [eauto|].
  unfold GenerateToken. destruct entropy as [b|]; [|eauto].
  unfold meet, MintOwnerClaimToken. destruct (m_fault env MintUpsert) as [[|f]|]; [by eauto..|].
  destruct (m_snap env) as [|u us]; [|eauto].
  cbv zeta. change (Digest (hex b)) with (Sum256 (hex b)).
  change (token (mkDb _ _ (token db) _)) with (token db).
  set (t := minted (Sum256 (hex b)) (interval ttl) now (token db)).
  destruct (bigint_max <? generation t); [eauto|].
  destruct (refuse "23514" (token_checks t)) as [e|] eqn:Hchk; simpl; [eauto|].
  destruct (m_fault env MintAudit); [eauto|].
  destruct (Emit uuids.2 _ _ _) as [db3|e] eqn:He; [|eauto].
  apply Emit_ok in He as (i & _ & ->).
  destruct (m_fault env MintCommit); [eauto|]. right.
  eexists b, pre, _. repeat split; try done; [..|by simpl; rewrite <- app_assoc]; done.
Qed.

Lemma Mint_cases env entropy uuids ttl r o now db :
  (exists e, Mint env entropy uuids ttl r o now db = (Err e, db))
  \/ Mint env entropy uuids ttl r o now db
     = mint_write env (State now (m_state env)) entropy uuids ttl now db
     /\ (r = true -> AnyUserExists (m_users env) = false)
     /\ (o = true -> Live (State now (m_state env)) = false).
Proof.
  unfold Mint. destruct (m_fault env MintBegin); [eauto|]. destruct (m_fault env MintLock); [eauto|].
  destruct r.
  - unfold Claimed, meet. destruct (m_fault env MintUsers); [eauto|].
    destruct (AnyUserExists _); [eauto|]. destruct (m_fault env MintState); [eauto|].
    cbv zeta. destruct o; simpl; [|by right]. destruct (Live _) eqn:Hl; [eauto|by right].
  - destruct (m_fault env MintState); [eauto|].
    cbv zeta. destruct o; simpl; [|by right]. destruct (Live _) eqn:Hl; [eauto|by right].
Qed.

Lemma SupersedeLive_cases fault fresh now db :
  (exists e, SupersedeLive fault fresh now db = (Err e, db))
  \/ (SupersedeLive fault fresh now db = (Ok 0, db)
      /\ forall t, token db = Some t -> consumed_at t <> None \/ superseded_at t <> None)
  \/ exists t a, token db = Some t /\ a_action a = ActionOwnerClaimSuperseded
      /\ SupersedeLive fault fresh now db
         = (Ok 1, mkDb (users db) (credentials db)
                    (Some (mkTokenRow (token_sha256 t) (generation t) (minted_at t) (expires_at t)
                             (consumed_at t) (Some now)))
                    (audit_events db ++ [a])).
Proof.
  unfold SupersedeLive. destruct (fault SupBegin); [eauto|]. destruct (fault SupUpdate); [eauto|].
  unfold SupersedeLiveOwnerClaimToken. destruct (token db) as [t|]; [|right; left; by split].
  destruct (consumed_at t) as [x|] eqn:Hct; [right; left; split; [done|];
    intros t' [= <-]; left; congruence|].
  destruct (superseded_at t) as [x|] eqn:Hst; [right; left; split; [done|];
    intros t' [= <-]; right; congruence|].
  simpl. unfold meet. destruct (fault SupRead); [eauto|]. simpl.
  destruct (fault SupAudit); [eauto|].
  destruct (Emit _ _ _ _) as [db2|e] eqn:He; [|eauto]. apply Emit_ok in He as (i & _ & ->).
  destruct (fault SupCommit); [eauto|]. right. right.
  eexists t, _. split; [done|]. split; [|by rewrite Hct]. done.
Qed.

End Writes.

(** ** Properties of one operation *)

Section OperationProperties.
Context `{HU : Unicode, HS : Server}.

Lemma accepted_input_checks i uid :
  Validate i = None ->
  refuse "23514" (user_checks (mkUser uid (in_Username i) (in_Email i) owner None))
  = (if pg_email_shape (in_Email i) then None else Some (mkPgError "23514" "users_email_shape")).
Proof.
  intros (_ & Hu & Hel & He & _)%Validate_inv.
  pose proof (emailShape_len _ He). unfold MaxEmailBytes in Hel.
  unfold user_checks. simpl. rewrite Hu, (proj2 (Z.leb_le _ _)) by lia.
  rewrite (proj2 (Z.leb_le _ 254)) by lia. by destruct (pg_email_shape _).
Qed.

(** C40. An input [Validate] accepts meets the CHECK constraints it will face:
    the normalised token is 64 lower-case hexadecimal characters; the users row
    can be refused only by the server's own reading of white space in the email
    pattern; the password is 12 to 256 characters in at most 1024 bytes. *)
Theorem accepted_input_meets_checks i uid :
  Validate i = None ->
  String.length (Normalize (in_Token i)) = 64%nat
  /\ sall lower_hex (Normalize (in_Token i)) = true
  /\ refuse "23514" (user_checks (mkUser uid (in_Username i) (in_Email i) owner None))
     = (if pg_email_shape (in_Email i) then None
        else Some (mkPgError "23514" "users_email_shape"))
  /\ 12 <= RuneCount (in_Password i) <= 256 /\ len (in_Password i) <= 1024.
Proof.
  intros Hv. pose proof (accepted_input_checks i uid Hv).
  apply Validate_inv in Hv as (Ht & _ & _ & _ & Hp & Hb).
  apply matches_spec, lang_times in Ht as [Hlen Hhex].
  repeat split; try done; unfold MinPasswordRunes, MaxPasswordRunes in Hp; lia.
Qed.

(** The password is hashed only for a proven token: whenever [Claim] calls
    the hasher, its first check found no user, every field was valid, and the
    token row it read was live and carried the digest of the presented token. *)
Theorem hash_only_after_token env i corr ip now db r db' :
  Claim env i corr ip now db = (r, db', true) ->
  AnyUserExists (c_check env) = false /\ Validate i = None
  /\ exists row, token (c_read env) = Some row /\ live (c_read_at env) row = true
       /\ token_sha256 row = Sum256 (Normalize (in_Token i)).
Proof.
  unfold Claim, Claimed, meet. destruct (c_fault env ClaimCheck); [done|].
  destruct (AnyUserExists _); [done|].
  destruct (examineToken env i) as [[row|]|e] eqn:He; [|done..].
  apply examineToken_accepted in He as (Hv & Hr & Hd & Hl). intros _. eauto 10.
Qed.

(** [Claim] is an error that leaves the database, classified when it refuses the
    token, or the redeeming transaction. *)
Lemma Claim_cases env i corr ip now db :
  (exists e h, Claim env i corr ip now db = (Err e, db, h)
               /\ (e = ErrTokenNotAccepted -> classifyRefusal env = ErrTokenNotAccepted))
  \/ exists row hash uid cid t a,
       let p := mkClaimOwnerParams (token_sha256 row) uid (in_Username i) (in_Email i) cid hash in
       examineToken env i = Ok (Some row) /\ c_hash env (in_Password i) = Ok hash
       /\ token db = Some t /\ redeemable (c_snap env) (token_sha256 row) now t = true
       /\ existsb live_owner (users db) = false
       /\ Claim env i corr ip now db
          = (Ok (mkResult uid (in_Username i) "owner" (generation t)),
             mkDb (users db ++ [new_owner p]) (credentials db ++ [new_credential p])
               (Some (consumed now t))
               (audit_events db ++ [audit_row a now (succeeded_event (new_owner p) corr ip)]), true).
Proof.
  unfold Claim. destruct (Claimed _ (c_check env)) as [[|]|er].
  - left. by do 2 eexists.
  - destruct (examineToken env i) as [[row|]|er] eqn:He.
    + destruct (c_hash env (in_Password i)) as [hash|er]; [|left; do 2 eexists; split; [done|by destruct er]].
      destruct (c_ids env).1 as [[uid|] [cid|]]; try (left; by do 2 eexists).
      destruct (claim_write_cases env i row hash uid cid corr ip now db)
        as [(e' & -> & Hn)|(t & a & Ht & Hr & Ho & _ & ->)]; [left; by do 2 eexists|].
      right. by exists row, hash, uid, cid, t, a.
    + left. by do 2 eexists.
    + left. do 2 eexists. split; [done|]. intros Hx. by apply (examineToken_error env i er He) in Hx.
  - left. do 2 eexists. split; [done|]. by destruct er; simpl; try done; case_match.
Qed.

(** A refused token is classified against a fresh read: [Claim] answers
    "token not accepted" only when the last read found the instance still
    unclaimed, and every error of [Claim] leaves the database as it was. *)
Theorem refusal_classified env i corr ip now db e db' h :
  Claim env i corr ip now db = (Err e, db', h) ->
  db' = db
  /\ (e = ErrTokenNotAccepted ->
        c_fault env ClaimClassify = None /\ AnyUserExists (c_classify env) = false).
Proof.
  destruct (Claim_cases env i corr ip now db) as [(e' & h' & -> & Hn)|(? & ? & ? & ? & ? & ? & _ & _ & _ & _ & _ & ->)]; [|done].
  intros [= <- <- <-]. split; [done|]. intros Hx%Hn. revert Hx.
  unfold classifyRefusal, Claimed, meet. destruct (c_fault env ClaimClassify); [done|].
  by destruct (AnyUserExists _).
Qed.

(** C18. A successful claim redeems the one live token for the one owner: the
    token row it consumes is live at the statement's own clock and carries the
    digest of the presented token; exactly one user (the owner), one password
    credential and one audit row are added, in one transaction, and no live
    owner was there before. *)
Theorem claim_creates_owner env i corr ip now db res db' h :
  Claim env i corr ip now db = (Ok res, db', h) ->
  exists t u c a hash,
    token db = Some t /\ live now t = true
    /\ token_sha256 t = Sum256 (Normalize (in_Token i))
    /\ existsb live_owner (users db) = false
    /\ c_hash env (in_Password i) = Ok hash
    /\ users db' = users db ++ [mkUser u (in_Username i) (in_Email i) owner None]
    /\ credentials db' = credentials db ++ [mkCredential c u "password" hash]
    /\ token db' = Some (consumed now t) /\ audit_events db' = audit_events db ++ [a]
    /\ a_action a = ActionOwnerClaimSucceeded /\ a_actor_user_id a = Some u
    /\ res = mkResult u (in_Username i) "owner" (generation t).
Proof.
  destruct (Claim_cases env i corr ip now db)
    as [(e' & h' & -> & _)|(row & hash & uid & cid & t & a & He & Hh & Ht & Hr & Ho & ->)]; [done|].
  intros [= <- <- <-]. apply redeemable_live in Hr as (Hr & Hl & _).
  apply examineToken_accepted in He as (_ & _ & Hd & _).
  eexists t, uid, cid, _, hash. repeat split; try done. by rewrite Hr, Hd.
Qed.

(** A mint is all or nothing and replaces the credential: an error leaves
    the database; a success returns 64 hexadecimal characters whose digest is
    the only one redeemable from then on, until the time to live elapses, under
    a generation one above the previous; it touches no user; it was refused had
    the statement's snapshot held a user, or, at boot, had the row read under
    the lock been live; both the death of a live token and the mint are audited. *)
Theorem mint_replaces_token env b uuids ttl r o now db res db' :
  String.length b = TokenBytes ->
  Mint env (Some b) uuids ttl r o now db = (res, db') ->
  match res with
  | Err _ => db' = db
  | Ok (raw, g) =>
      matches tokenShape raw = true /\ raw = hex b
      /\ g = match token db with Some t => generation t + 1 | None => 1 end
      /\ (forall snap d at_ t, token db' = Some t ->
            redeemable snap d at_ t = true <-> snap = [] /\ d = Sum256 raw /\ at_ < now + interval ttl)
      /\ users db' = users db /\ credentials db' = credentials db
      /\ m_snap env = []
      /\ (r = true -> AnyUserExists (m_users env) = false)
      /\ (o = true -> Live (State now (m_state env)) = false)
      /\ map a_action (audit_events db') = map a_action (audit_events db)
           ++ (if Live (State now (m_state env)) then [ActionOwnerClaimSuperseded] else [])
           ++ [ActionOwnerClaimMinted]
  end.
Proof.
  intros Hb Hm. destruct (Mint_cases env (Some b) uuids ttl r o now db) as [[e He]|(He & Hr & Ho)].
  { rewrite He in Hm. by injection Hm as <- <-. }
  rewrite He in Hm.
  destruct (mint_write_cases env (State now (m_state env)) (Some b) uuids ttl now db)
    as [[e Hw]|(b' & pre & a & [= <-] & Hsnap & Hpre & Ha & _ & _ & Hw)];
    rewrite Hw in Hm; injection Hm as <- <-; [done|].
  split; [by apply minted_shape|]. split; [done|].
  split; [unfold minted; simpl; by destruct (token db)|]. split.
  { intros snap d at_ t [= <-]. unfold redeemable, live, minted. simpl.
    rewrite !andb_true_iff, String.eqb_eq, Z.ltb_lt. destruct snap; intuition congruence. }
  do 5 (split; [done|]). simpl. by rewrite !map_app, Hpre; simpl; rewrite Ha.
Qed.

(** A boot mints only when the operator asked for it on stderr, no user was
    seen and the token row read under the lock was not live; otherwise what it
    prints is a command and never a credential.  It never touches the users.  A
    boot that found the instance claimed and is not degraded leaves no token
    that could ever be live. *)
Theorem boot_mints_on_request fu fs dbu dbs sup env entropy uuids mode ttl now db out err text db' :
  Boot fu fs dbu dbs sup env entropy uuids mode ttl now db = (out, err, text, db') ->
  users db' = users db
  /\ (b_Minted out = true ->
        mode = AnnounceStderr /\ AnyUserExists dbu = false /\ m_snap env = []
        /\ Live (State now (m_state env)) = false)
  /\ (b_Minted out = false -> text = ""%string \/ exists s, text = announceCommand s)
  /\ (mode <> AnnounceStderr -> b_Claimed out = false -> db' = db)
  /\ (b_Claimed out = true -> AnyUserExists dbu = true -> b_Degraded out = false ->
        forall t at_, token db' = Some t -> live at_ t = false).
Proof.
  unfold Boot, Claimed, meet. destruct fu as [f|].
  { intros [= <- <- <- <-]. simpl. repeat split; auto; done. }
  destruct (AnyUserExists dbu) eqn:Hu.
  - destruct (SupersedeLive_cases sup uuids.1 now db) as [[e ->]|[[-> Hn]|(t & a & Ht & _ & ->)]];
      intros [= <- <- <- <-]; simpl; repeat split; auto; try done.
    + intros _ _ _ t at_ Ht. unfold live. destruct (Hn t Ht) as [Hx|Hx]; apply is_null_false in Hx;
        rewrite Hx; by rewrite ?andb_false_r.
    + intros _ _ _ t' at_ [= <-]. unfold live. simpl. by rewrite andb_false_r.
  - destruct fs as [f|]; [intros [= <- <- <- <-]; simpl; repeat split; auto; done|].
    destruct (String.eqb_spec mode AnnounceStderr) as [Hm|Hm]; simpl.
    2:{ intros [= <- <- <- <-]; simpl; repeat split; eauto; done. }
    destruct (Mint_cases env entropy uuids ttl false true now db) as [[e ->]|(-> & _ & Ho)].
    { destruct e; intros [= <- <- <- <-]; simpl; repeat split; eauto; done. }
    destruct (mint_write_cases env (State now (m_state env)) entropy uuids ttl now db)
      as [[e ->]|(b & pre & a & -> & Hs & _ & _ & _ & _ & ->)].
    + destruct e; intros [= <- <- <- <-]; simpl; repeat split; eauto; done.
    + intros [= <- <- <- <-]; simpl; repeat split; eauto; done.
Qed.

(** ** From a mint to an owner *)

Lemma alnum_ascii c : alnum c = true -> (1 <=? code c) && (code c <? 128) = true.
Proof.
  unfold alnum, either, digit, range. change (code "0") with 48. change (code "9") with 57.
  change (code "a") with 97. change (code "z") with 122. change (code "A") with 65.
  change (code "Z") with 90. lia.
Qed.

Lemma username_text s : matches usernameShape s = true -> pg_text s = true.
Proof.
  intros Hm%matches_spec. apply ascii_pg_text.
  destruct s as [|c s]; [by apply head_class_nil in Hm|].
  apply head_class in Hm as [Hc Hs]. apply lang_between in Hs as [_ Hs].
  simpl. rewrite (alnum_ascii c Hc). revert Hs. apply sall_impl. intros x Hx.
  unfold either at 1 in Hx. apply orb_true_iff in Hx as [Hx|Hx]; [by apply alnum_ascii|].
  unfold either, chr in Hx. apply orb_true_iff in Hx as [Hx|Hx];
    apply Ascii.eqb_eq in Hx; by subst.
Qed.

(** A claim that meets no fault and that no other transaction disturbs: every
    read sees [db], before the token expires, and the identifiers are new. *)
Record undisturbed (env : ClaimEnv) (db : Db) (uid cid aid : uuid) : Prop := {
  und_fault : forall p, c_fault env p = None;
  und_check : c_check env = db;
  und_read : c_read env = db;
  und_gate : c_gate env = db;
  und_snap : c_snap env = users db;
  und_ids : c_ids env = (Some uid, Some cid, Some aid);
  und_uid : pg_text uid = true;
  und_new : absent (fun a => a_id a =s aid) (audit_events db) = true
}.

Lemma claim_owner_succeeds p now db t :
  users db = [] -> credentials db = [] -> token db = Some t ->
  redeemable [] (p_TokenSha256 p) now t = true -> token_checks t = token_checks (consumed now t) ->
  refuse "23514" (token_checks t) = None -> refuse "23514" (user_checks (new_owner p)) = None ->
  pg_text (p_Username p) = true -> pg_text (p_Email p) = true -> pg_text (p_PasswordHash p) = true ->
  HasPrefix (p_PasswordHash p) "$argon2id$" = true -> 1 <= len (p_PasswordHash p) <= 1024 ->
  ClaimOwner [] p now db = Ok (claimed_db p now t db, (new_owner p, generation t)).
Proof.
  intros Hu Hc Ht Hr Heq Hk Huc H1 H2 H3 Hpre Hlen.
  assert (Htext : text_error [Some (p_Username p); Some (p_Email p); Some (p_PasswordHash p)] = None)
    by (unfold text_error; simpl; by rewrite H1, H2, H3).
  assert (Hcred : refuse "23514" (credential_checks (new_credential p)) = None).
  { apply refuse_none. simpl. rewrite Hpre. apply andb_true_iff; split; [done|]. simpl.
    rewrite andb_true_r. apply andb_true_iff. lia. }
  unfold ClaimOwner. rewrite Htext, Ht, Hr, <- Heq, Hk, Huc, Hcred, Hu, Hc. done.
Qed.

Lemma emit_succeeded u corr ip (aid : uuid) now db :
  pg_text (u_id u) = true -> pg_text (u_username u) = true -> pg_text_opt (nonEmpty corr) = true ->
  pg_text_opt ip = true -> u_role u = owner -> List.In u (users db) ->
  absent (fun a => a_id a =s aid) (audit_events db) = true ->
  Emit (Some aid) now (succeeded_event u corr ip) db
  = Ok (mkDb (users db) (credentials db) (token db)
          (audit_events db ++ [audit_row aid now (succeeded_event u corr ip)])).
Proof.
  intros Hu Hn Hcorr Hip Hrole Hin Hab. unfold Emit, InsertAuditEvent, text_error.
  pose proof (audit_row_ip_ok aid now (succeeded_event u corr ip)) as Hok.
  assert (Hip' : pg_text_opt (a_ip_prefix (audit_row aid now (succeeded_event u corr ip))) = true).
  { unfold audit_row. simpl. destruct ip as [x|]; [|done]. by destruct (Valid x). }
  set (ipx := a_ip_prefix (audit_row aid now (succeeded_event u corr ip))) in *.
  assert (Hact : existsb (fun v => u_id v =s u_id u) (users db) = true).
  { apply existsb_exists. exists u. split; [done|apply String.eqb_refl]. }
  assert (Hchk : refuse "23514" (audit_checks (audit_row aid now (succeeded_event u corr ip))) = None).
  { apply refuse_none. unfold audit_checks. cbn [forallb snd]. fold ipx. by rewrite Hok. }
  rewrite Hchk. unfold actor_known. simpl. fold ipx. rewrite Hu, Hn, Hcorr, Hrole, Hab, Hact.
  change (match ip with Some p => _ | None => _ end) with ipx. by rewrite Hip'.
Qed.

(** The token of a mint, presented with valid fields and a storable hash. *)
Lemma minted_token_accepted env b uuids ttl r o now db raw g db1
    (cenv : ClaimEnv) i corr ip at_ hash (uid cid aid : uuid) :
  String.length b = TokenBytes ->
  Mint env (Some b) uuids ttl r o now db = (Ok (raw, g), db1) ->
  users db1 = [] -> credentials db1 = [] -> undisturbed cenv db1 uid cid aid ->
  at_ < now + interval ttl -> c_read_at cenv < now + interval ttl ->
  in_Token i = raw -> Validate i = None ->
  pg_text (in_Email i) = true -> pg_email_shape (in_Email i) = true ->
  c_hash cenv (in_Password i) = Ok hash -> pg_text hash = true ->
  HasPrefix hash "$argon2id$" = true -> 1 <= len hash <= 1024 ->
  pg_text_opt (nonEmpty corr) = true -> pg_text_opt ip = true ->
  exists db2, Claim cenv i corr ip at_ db1 = (Ok (mkResult uid (in_Username i) "owner" g), db2, true)
    /\ users db2 = [mkUser uid (in_Username i) (in_Email i) owner None]
    /\ credentials db2 = [mkCredential cid uid "password" hash].
Proof.
  intros Hb Hm Hu Hc [Hf Hck Hrd Hgt Hsn Hids Huid Hnew] Hat Hrat Htok Hval Hem Hes Hh Hht Hha Hhl Hco Hip.
  destruct (Mint_cases env (Some b) uuids ttl r o now db) as [[e He]|(He & _)];
    rewrite He in Hm; [done|].
  destruct (mint_write_cases env (State now (m_state env)) (Some b) uuids ttl now db)
    as [[e Hw]|(b' & pre & a & [= <-] & _ & _ & _ & _ & Hchk & Hw)]; rewrite Hw in Hm; [done|].
  set (t := minted (Sum256 (hex b)) (interval ttl) now (token db)) in *.
  assert (Ht : token db1 = Some t) by (injection Hm as _ _ <-; done).
  assert (Hg : g = generation t) by (by injection Hm). assert (Hraw : raw = hex b) by (by injection Hm).
  assert (Hlive : forall x, x < now + interval ttl -> live x t = true).
  { intros x Hx. unfold live, t, minted. simpl. by apply Z.ltb_lt. }
  assert (Hd : Digest (Normalize (in_Token i)) = token_sha256 t).
  { rewrite Htok, Hraw, Normalize_hex by apply hex_lower. done. }
  assert (Hex : examineToken cenv i = Ok (Some t)).
  { unfold examineToken. rewrite Hval, Hf, Hrd. unfold meet, GetOwnerClaimToken. rewrite Ht.
    by rewrite Hd, String.eqb_refl, Hlive. }
  assert (Hnone : AnyUserExists db1 = false) by (unfold AnyUserExists; by rewrite Hu).
  pose proof (accepted_input_checks i uid Hval) as Huc. rewrite Hes in Huc.
  pose proof (Validate_inv i Hval) as (_ & Hun & _).
  unfold Claim, Claimed. rewrite Hf, Hck, Hex. simpl. rewrite Hnone, Hh, Hids. simpl.
  unfold claim_write, Claimed. rewrite !Hf, Hgt, Hsn, Hu, Hids. simpl. rewrite Hnone.
  set (p := mkClaimOwnerParams (Sum256 (hex b)) uid (in_Username i) (in_Email i) cid hash).
  assert (HC : ClaimOwner [] p at_ db1 = Ok (claimed_db p at_ t db1, (new_owner p, generation t))).
  { apply claim_owner_succeeds; try done; [|by apply username_text].
    unfold redeemable. simpl. by rewrite String.eqb_refl, Hlive. }
  rewrite HC. cbv beta iota.
  rewrite (emit_succeeded (new_owner p) corr ip aid at_ (claimed_db p at_ t db1)); try done.
  - eexists. subst g. split; [reflexivity|]. simpl. by rewrite Hu, Hc.
  - by apply username_text.
  - simpl. rewrite Hu. by left.
Qed.

(** The token a mint returns claims the instance, end to end: presented as
    it was printed, with valid fields, to an unclaimed and otherwise quiet
    instance before it expires, and with the production hasher, it is accepted;
    the claim answers with the owner it created under the generation that was
    minted, and the one stored credential verifies the chosen password. *)
Theorem minted_token_claims `{HA : Argon2, HL : !Argon2Laws} env b uuids ttl r o now db raw g db1
    (cenv : ClaimEnv) i corr ip at_ salt h (uid cid aid : uuid) :
  String.length b = TokenBytes ->
  Mint env (Some b) uuids ttl r o now db = (Ok (raw, g), db1) ->
  users db1 = [] -> credentials db1 = [] -> undisturbed cenv db1 uid cid aid ->
  at_ < now + interval ttl -> c_read_at cenv < now + interval ttl ->
  in_Token i = raw -> Validate i = None ->
  pg_text (in_Email i) = true -> pg_email_shape (in_Email i) = true ->
  (Hash true (Some salt) (in_Password i) h).1 = Some (c_hash cenv (in_Password i)) ->
  len salt = 16 -> params h = ADR003 ->
  pg_text_opt (nonEmpty corr) = true -> pg_text_opt ip = true ->
  exists phc db2,
    Claim cenv i corr ip at_ db1 = (Ok (mkResult uid (in_Username i) "owner" g), db2, true)
    /\ users db2 = [mkUser uid (in_Username i) (in_Email i) owner None]
    /\ credentials db2 = [mkCredential cid uid "password" phc]
    /\ Verify phc (in_Password i) = Some (Ok true).
Proof.
  intros Hb Hm Hu Hc Hun Hat Hrat Htok Hval Hem Hes Hh Hsalt Hp Hco Hip.
  destruct (Validate_inv i Hval) as (_ & _ & _ & _ & _ & Hlen).
  destruct (Hash_stored (in_Password i) salt h Hlen Hsalt Hp) as (phc & tag & He & _ & Hv & Hpre & Hl & Ht).
  rewrite He in Hh. injection Hh as Hh. symmetry in Hh.
  destruct (minted_token_accepted env b uuids ttl r o now db raw g db1 cenv i corr ip at_ phc uid cid aid)
    as (db2 & HC & Hus & Hcr); try done. by exists phc, db2.
Qed.

End OperationProperties.

(** ** The system *)

Section System.
Context `{HU : Unicode, HS : Server}.

(** One committed operation of any process, or a rolled back one; every view an
    operation reads is arbitrary, so it may be stale.  [W_audit] is the audit
    row a refused or rate-limited request leaves. *)
Inductive step : Db -> Db -> Prop :=
| W_mint env entropy uuids ttl r o now db res db' :
    Mint env entropy uuids ttl r o now db = (res, db') -> step db db'
| W_supersede fault fresh now db res db' :
    SupersedeLive fault fresh now db = (res, db') -> step db db'
| W_claim env i corr ip now db res db' h :
    Claim env i corr ip now db = (res, db', h) -> step db db'
| W_boot fu fs dbu dbs sup env entropy uuids mode ttl now db out err text db' :
    Boot fu fs dbu dbs sup env entropy uuids mode ttl now db = (out, err, text, db') -> step db db'
| W_audit fresh now ev db db' :
    one_of (Action ev) [ActionOwnerClaimRefused; ActionOwnerClaimRateLimited] = true ->
    Emit fresh now ev db = Ok db' -> step db db'.

Definition steps := rtc step.

Definition count (action : string) (db : Db) : Z :=
  Z.of_nat (length (List.filter (fun a => a_action a =s action) (audit_events db))).

Definition current_generation (db : Db) : Z :=
  match token db with Some t => generation t | None => 0 end.

(** Every user is the live owner, with one password credential; the audit trail
    has one succeeded row per user and one minted row per generation. *)
Record inv (db : Db) : Prop := {
  inv_one : (length (users db) <= 1)%nat;
  inv_owner : forallb live_owner (users db) = true;
  inv_credential : map cr_user_id (credentials db) = map u_id (users db);
  inv_succeeded : count ActionOwnerClaimSucceeded db = Z.of_nat (length (users db));
  inv_minted : count ActionOwnerClaimMinted db = current_generation db
}.

Lemma count_app action us cs t l l' :
  count action (mkDb us cs t (l ++ l'))
  = count action (mkDb us cs t l) + Z.of_nat (length (List.filter (fun a => a_action a =s action) l')).
Proof. unfold count. simpl. rewrite List.filter_app, length_app. lia. Qed.

Lemma count_actions action us cs us' cs' t t' l l' :
  map a_action l = map a_action l' ->
  count action (mkDb us cs t l) = count action (mkDb us' cs' t' l').
Proof.
  unfold count. simpl. intros Hl. f_equal. revert l' Hl.
  induction l as [|a l IH]; intros [|b l'] Hl; try done. simpl in *.
  injection Hl as Hab Hl. rewrite Hab. destruct (_ =s _); simpl; by rewrite (IH l' Hl).
Qed.

(** Audit rows of other actions, and a token row of the same generation, keep
    the invariant. *)
Lemma inv_more db t pre :
  inv db -> current_generation (mkDb (users db) (credentials db) t []) = current_generation db ->
  List.filter (fun a => a_action a =s ActionOwnerClaimSucceeded) pre = [] ->
  List.filter (fun a => a_action a =s ActionOwnerClaimMinted) pre = [] ->
  inv (mkDb (users db) (credentials db) t (audit_events db ++ pre)).
Proof.
  intros [H1 H2 H3 H4 H5] Hg Hs Hm. constructor; simpl; try done.
  - rewrite count_app, Hs. simpl. rewrite Z.add_0_r, <- H4. by destruct db.
  - rewrite count_app, Hm. simpl. rewrite Z.add_0_r.
    unfold current_generation in *. simpl in *. rewrite Hg, <- H5. by destruct db.
Qed.

Lemma filter_actions action (l : list AuditRow) :
  ~ List.In action (map a_action l) -> List.filter (fun a => a_action a =s action) l = [].
Proof.
  induction l as [|a l IH]; simpl; [done|]. intros Hn.
  destruct (String.eqb_spec (a_action a) action); [tauto|]. apply IH. tauto.
Qed.

Lemma mint_inv env prior entropy uuids ttl now db :
  inv db -> inv (mint_write env prior entropy uuids ttl now db).2.
Proof.
  intros Hi. destruct (mint_write_cases env prior entropy uuids ttl now db)
    as [[e ->]|(b & pre & a & _ & _ & Hpre & Ha & _ & _ & ->)]; [done|].
  destruct Hi as [H1 H2 H3 H4 H5]. simpl. rewrite app_assoc.
  assert (Hno : forall act, act <> ActionOwnerClaimSuperseded ->
    List.filter (fun a => a_action a =s act) pre = []).
  { intros act Hact. apply filter_actions. rewrite Hpre. destruct (Live prior); [|by intros []].
    intros [Hx|[]]. congruence. }
  constructor; simpl; try done.
  - rewrite !count_app, (Hno ActionOwnerClaimSucceeded) by done. simpl. rewrite Ha.
    change (ActionOwnerClaimMinted =s ActionOwnerClaimSucceeded) with false. simpl.
    rewrite !Z.add_0_r, <- H4. by destruct db.
  - rewrite !count_app, (Hno ActionOwnerClaimMinted) by done. simpl. rewrite Ha, String.eqb_refl. simpl.
    rewrite Z.add_0_r. unfold count in *. simpl in *. rewrite H5.
    unfold current_generation. simpl. destruct (token db); simpl; lia.
Qed.

Lemma no_live_owner db : inv db -> existsb live_owner (users db) = false -> users db = [].
Proof.
  intros [_ H2 _ _ _] Ho. destruct (users db) as [|v us]; [done|]. simpl in *. eqb_prop. congruence.
Qed.

Lemma owner_claim_inv env i corr ip now db :
  inv db -> inv (Claim env i corr ip now db).1.2.
Proof.
  intros Hi. destruct (Claim_cases env i corr ip now db)
    as [(e & h & -> & _)|(row & hash & uid & cid & t & a & _ & _ & Ht & _ & Ho & ->)]; [done|].
  pose proof (no_live_owner db Hi Ho) as Hnil. destruct Hi as [H1 H2 H3 H4 H5].
  rewrite Hnil in *. constructor; simpl; try done.
  - by rewrite map_app, H3.
  - rewrite count_app. unfold count in *. simpl in *. lia.
  - rewrite count_app. unfold count, current_generation in *. simpl in *. rewrite Ht in *. lia.
Qed.

Lemma supersede_inv fault fresh now db :
  inv db -> inv (SupersedeLive fault fresh now db).2.
Proof.
  intros Hi. destruct (SupersedeLive_cases fault fresh now db) as [[e ->]|[[-> _]|(t & a & Ht & Ha & ->)]];
    try done. simpl. apply inv_more; [done| | |].
  - unfold current_generation. simpl. by rewrite Ht.
  - by rewrite filter_actions; [|simpl; rewrite Ha; intros [|[]]].
  - by rewrite filter_actions; [|simpl; rewrite Ha; intros [|[]]].
Qed.

Lemma Mint_inv env entropy uuids ttl r o now db :
  inv db -> inv (Mint env entropy uuids ttl r o now db).2.
Proof.
  intros Hi. destruct (Mint_cases env entropy uuids ttl r o now db) as [[e ->]|(-> & _)]; [done|].
  by apply mint_inv.
Qed.

(** What a boot writes is what the mint or the retirement it runs writes. *)
Lemma boot_writes fu fs dbu dbs sup env entropy uuids mode ttl now db :
  (Boot fu fs dbu dbs sup env entropy uuids mode ttl now db).2 = db
  \/ (Boot fu fs dbu dbs sup env entropy uuids mode ttl now db).2 = (SupersedeLive sup uuids.1 now db).2
  \/ (Boot fu fs dbu dbs sup env entropy uuids mode ttl now db).2
     = (Mint env entropy uuids ttl false true now db).2.
Proof.
  unfold Boot. destruct (Claimed fu dbu) as [[|]|e]; [| |by left].
  - right. left. by destruct (SupersedeLive _ _ _ _) as [[|] db'].
  - destruct fs; [by left|]. cbv zeta. destruct (_ =s _); simpl; [|by left].
    right. right. by destruct (Mint _ _ _ _ _ _ _ _) as [[[raw g]|[]] db'].
Qed.

Lemma audit_inv fresh now ev db db' :
  inv db -> one_of (Action ev) [ActionOwnerClaimRefused; ActionOwnerClaimRateLimited] = true ->
  Emit fresh now ev db = Ok db' -> inv db'.
Proof.
  intros Hi Hact (i & _ & ->)%Emit_ok. apply one_of_spec in Hact.
  apply inv_more; [done|done| |]; rewrite filter_actions; try done; simpl;
    destruct Hact as [<-|[<-|[]]]; by intros [|[]].
Qed.

Lemma owner_step_inv db db' : inv db -> step db db' -> inv db'.
Proof.
  intros Hi Hs. destruct Hs as [env en uu ttl r o now db res db' Hm | fault fr now db res db' Hm
    | env i corr ip now db res db' h Hm
    | fu fs dbu dbs sup env en uu mode ttl now db out err text db' Hm | fr now ev db db' Ha Hm].
  - pose proof (Mint_inv env en uu ttl r o now db Hi) as Hx. by rewrite Hm in Hx.
  - pose proof (supersede_inv fault fr now db Hi) as Hx. by rewrite Hm in Hx.
  - pose proof (owner_claim_inv env i corr ip now db Hi) as Hx. by rewrite Hm in Hx.
  - destruct (boot_writes fu fs dbu dbs sup env en uu mode ttl now db) as [Hx|[Hx|Hx]];
      rewrite Hm in Hx; simpl in Hx; subst; [done|by apply supersede_inv|by apply Mint_inv].
  - by apply (audit_inv fr now ev db).
Qed.

Lemma owner_steps_inv db db' : inv db -> steps db db' -> inv db'.
Proof. intros Hi Hs. induction Hs as [d|d1 d2 d3 H1 _ IH]; [done|]. apply IH. by apply (owner_step_inv d1). Qed.

Lemma empty_inv : inv empty_db.
Proof. constructor; simpl; (done || lia). Qed.

(** Users are never removed or changed, and are added only to an empty table. *)
Lemma step_users db db' : inv db -> step db db' -> users db <> [] -> users db' = users db.
Proof.
  intros Hi Hs Hne.
  assert (Hmint : forall env en uu ttl r o now, users (Mint env en uu ttl r o now db).2 = users db).
  { intros. destruct (Mint_cases env en uu ttl r o now db) as [[e ->]|(-> & _)]; [done|].
    by destruct (mint_write_cases env (State now (m_state env)) en uu ttl now db)
      as [[e ->]|(b & pre & a & _ & _ & _ & _ & _ & _ & ->)]. }
  assert (Hsup : forall fault fr now, users (SupersedeLive fault fr now db).2 = users db).
  { intros. by destruct (SupersedeLive_cases fault fr now db) as [[e ->]|[[-> _]|(t & a & _ & _ & ->)]]. }
  destruct Hs as [env en uu ttl r o now db res db' Hm | fault fr now db res db' Hm
    | env i corr ip now db res db' h Hm
    | fu fs dbu dbs sup env en uu mode ttl now db out err text db' Hm | fr now ev db db' _ Hm].
  - specialize (Hmint env en uu ttl r o now). by rewrite Hm in Hmint.
  - specialize (Hsup fault fr now). by rewrite Hm in Hsup.
  - destruct (Claim_cases env i corr ip now db)
      as [(e & h' & Hx & _)|(row & hash & uid & cid & t & a & _ & _ & _ & _ & Ho & _)];
      [rewrite Hm in Hx; by injection Hx as _ -> _|].
    exfalso. apply Hne. by apply no_live_owner.
  - destruct (boot_writes fu fs dbu dbs sup env en uu mode ttl now db) as [Hx|[Hx|Hx]];
      rewrite Hm in Hx; simpl in Hx; subst; auto.
  - by apply Emit_ok in Hm as (i & _ & ->).
Qed.

(** C6. At most one owner, ever: in every execution there is at most one user,
    it is the live owner and has one password credential, and the audit trail
    counts exactly one succeeded row per user and one minted row per token
    generation, whatever stale views the operations acted on. *)
Theorem one_owner db :
  steps empty_db db ->
  (length (users db) <= 1)%nat /\ forallb live_owner (users db) = true
  /\ map cr_user_id (credentials db) = map u_id (users db)
  /\ count ActionOwnerClaimSucceeded db = Z.of_nat (length (users db))
  /\ count ActionOwnerClaimMinted db = current_generation db.
Proof. intros Hs. by destruct (owner_steps_inv empty_db db empty_inv Hs). Qed.

(** A claim is final: once a user exists no later step changes the users,
    so the claimed bit never goes back, and no claim succeeds any more. *)
Theorem claimed_is_final db db' env i corr ip now :
  steps empty_db db -> users db <> [] -> steps db db' ->
  users db' = users db /\ AnyUserExists db' = true
  /\ exists e h, Claim env i corr ip now db' = (Err e, db', h).
Proof.
  intros H0 Hne Hs. pose proof (owner_steps_inv _ _ empty_inv H0) as Hi. clear H0.
  assert (Hu : users db' = users db /\ inv db').
  { induction Hs as [d|d1 d2 d3 H1 _ IH]; [done|].
    pose proof (step_users _ _ Hi H1 Hne) as He. rewrite <- He.
    apply IH; [by rewrite He|by apply (owner_step_inv d1)]. }
  destruct Hu as [Hu Hi']. split; [done|].
  split; [unfold AnyUserExists; rewrite Hu; by destruct (users db)|].
  destruct (Claim_cases env i corr ip now db')
    as [(e & h & Hc & _)|(row & hash & uid & cid & t & a & _ & _ & _ & _ & Ho & _)]; [eauto|].
  exfalso. apply Hne. rewrite <- Hu. by apply no_live_owner.
Qed.

End System.

(** ** The properties at work: one mint, one claim *)

Module Samples.

#[local] Instance latin : Unicode := fun s => s.
#[local] Instance server : Server := {| pg_lower := fun s => s; pg_email_shape := matches emailShape |}.

Definition entropy : string := "0123456789abcdef0123456789abcdef".
Definition ttl : Z := 24 * Hour.
Definition quiet : MintEnv := mkMintEnv (fun _ => None) empty_db empty_db [].
Definition uuids : option uuid * option uuid := (Some "a1"%string, Some "a2"%string).

Definition first_mint := Mint quiet (Some entropy) uuids ttl true false 1000 empty_db.
Definition minted_db : Db := first_mint.2.

#[local] Existing Instance toy_argon2.
Definition salt : string := "0123456789abcdef".
Definition hashed (password : string) : result CredError string :=
  match (Hash true (Some salt) password (New 8)).1 with Some r => r | None => Err ErrReadingSalt end.
Definition phc : string := match hashed "correct horse battery" with Ok s => s | Err _ => "" end.
Definition request (tok : string) : Input := mkInput tok "operator" "me@example.org" "correct horse battery".
Definition calm (db : Db) : ClaimEnv :=
  mkClaimEnv (fun _ => None) db db 2000 db db (users db) hashed
    (Some "u"%string, Some "c"%string, Some "a3"%string).

Definition first_claim := Claim (calm minted_db) (request (hex entropy)) "corr" None 2000 minted_db.
Definition claimed_db : Db := first_claim.1.2.

End Samples.

Import Samples.
#[local] Existing Instance latin.
#[local] Existing Instance server.
#[local] Existing Instance toy_argon2.
#[local] Existing Instance toy_laws.

Lemma accepted_input_meets_checks_witness :
  sall lower_hex (Normalize (in_Token (request (hex entropy)))) = true
  /\ refuse "23514" (user_checks (mkUser "u" "operator" "me@example.org" owner None)) = None.
Proof.
  destruct (accepted_input_meets_checks (request (hex entropy)) "u") as (_ & Hx & Hy & _);
    [by vm_compute|]. by split.
Defined.

Lemma hash_only_after_token_witness :
  exists row, token minted_db = Some row /\ live 2000 row = true
    /\ token_sha256 row = Sum256 (Normalize (hex entropy)).
Proof.
  destruct (hash_only_after_token (calm minted_db) (request (hex entropy)) "corr" None 2000 minted_db
              first_claim.1.1 claimed_db) as (_ & _ & Hrow); [by vm_compute|exact Hrow].
Defined.

Lemma refusal_classified_witness :
  (Claim (calm minted_db) (request "wrong") "corr" None 2000 minted_db).1.2 = minted_db
  /\ AnyUserExists minted_db = false.
Proof.
  destruct (refusal_classified (calm minted_db) (request "wrong") "corr" None 2000 minted_db
              ErrTokenNotAccepted minted_db false) as [_ [_ Hn]]; [by vm_compute|done|].
  split; [by vm_compute|exact Hn].
Defined.

Lemma claim_creates_owner_witness :
  exists u, users claimed_db = [mkUser u "operator" "me@example.org" owner None].
Proof.
  destruct (claim_creates_owner (calm minted_db) (request (hex entropy)) "corr" None 2000 minted_db
              (mkResult "u" "operator" "owner" 1) claimed_db true)
    as (t & u & c & a & hash & _ & _ & _ & _ & _ & Hu & _); [by vm_compute|].
  exists u. rewrite Hu. by vm_compute.
Defined.

Lemma mint_replaces_token_witness :
  matches tokenShape (hex entropy) = true
  /\ map a_action (audit_events minted_db) = [ActionOwnerClaimMinted].
Proof.
  pose proof (mint_replaces_token quiet entropy uuids ttl true false 1000 empty_db
                (Ok (hex entropy, 1)) minted_db) as Hm.
  destruct Hm as (Hs & _ & _ & _ & _ & _ & _ & _ & _ & Ha); [done|by vm_compute|].
  split; [exact Hs|]. rewrite Ha. by vm_compute.
Defined.

Lemma minted_token_claims_witness :
  exists db2, Claim (calm minted_db) (request (hex entropy)) "corr" None 2000 minted_db
              = (Ok (mkResult "u" "operator" "owner" 1), db2, true)
    /\ users db2 = [mkUser "u" "operator" "me@example.org" owner None].
Proof.
  destruct (minted_token_claims quiet entropy uuids ttl true false 1000 empty_db (hex entropy) 1 minted_db
           (calm minted_db) (request (hex entropy)) "corr" None 2000 salt (New 8) "u" "c" "a3")
    as (p & db2 & Hc & Hu & _); [by vm_compute|by vm_compute|by vm_compute|by vm_compute|by split|by vm_compute..|].
  exists db2. split; [exact Hc|exact Hu].
Defined.

Lemma boot_mints_on_request_witness :
  exists out text db', Boot None None empty_db empty_db (fun _ => None) quiet (Some entropy) uuids
                         AnnounceOff ttl 1000 empty_db = (out, None, text, db')
    /\ users db' = [] /\ db' = empty_db.
Proof.
  destruct (boot_mints_on_request None None empty_db empty_db (fun _ => None) quiet (Some entropy) uuids
              AnnounceOff ttl 1000 empty_db (mkBootOutcome false false false 0 false) None
              (announceCommand (mkTokenState false false 0)) empty_db)
    as (Hu & _ & _ & Hsame & _); [by vm_compute|].
  do 3 eexists. split; [by vm_compute|]. by split; [exact Hu|apply Hsame].
Defined.

Lemma sample_steps : steps empty_db claimed_db.
Proof.
  eapply rtc_l.
  { eapply (W_mint quiet (Some entropy) uuids ttl true false 1000 empty_db first_mint.1 minted_db).
    by vm_compute. }
  apply rtc_once. eapply (W_claim (calm minted_db) (request (hex entropy)) "corr" None 2000 minted_db
    first_claim.1.1 claimed_db true). by vm_compute.
Qed.

Lemma one_owner_witness :
  (length (users claimed_db) <= 1)%nat /\ count ActionOwnerClaimSucceeded claimed_db = 1.
Proof.
  destruct (one_owner claimed_db sample_steps) as (Hl & _ & _ & Hc & _).
  split; [exact Hl|]. rewrite Hc. by vm_compute.
Defined.

Lemma claimed_is_final_witness :
  exists e h, Claim (calm claimed_db) (request (hex entropy)) "corr" None 3000 claimed_db
              = (Err e, claimed_db, h).
Proof.
  apply (claimed_is_final claimed_db claimed_db (calm claimed_db) (request (hex entropy)) "corr" None 3000
           sample_steps); [by vm_compute|apply rtc_refl].
Defined.
