(* ===== verification/Limiter.v ===== *)
(** * Rate limiting (src/internal/cache/ratelimit.go)

    A fixed-window counter: the cache's INCR with EXPIRE NX when the cache
    answers, a per-process map when it does not.  What a limiter relies on is
    the interface [WindowCounter]; the in-process map is proved to implement it,
    and the cache server, which is not part of the program, is any other
    implementation.  Instants and windows are in nanoseconds. *)

From S2P Require Import Prelude GoStrings.

(** ** Counting in fixed windows *)

(** [hit k w now s] counts one event for [k] and returns the count of the
    current window, opening one of length [w] when there is none.  [window k now s]
    is the window that is open at [now]: its count and its end. *)
Class WindowCounter (S : Type) := {
  hit : string -> Z -> Z -> S -> S * Z;
  window : string -> Z -> S -> option (Z * Z)
}.

(** The laws: a hit in an open window adds one and leaves its end; otherwise it
    opens a window with count one that lasts at least until before [now + w];
    it does not touch the window of another key; a window stays open, as it is,
    up to its end, and no event changes it. *)
Class FixedWindow (S : Type) `{WindowCounter S} := {
  hit_open k w now s n e :
    window k now s = Some (n, e) ->
    (hit k w now s).2 = n + 1 /\ window k now (hit k w now s).1 = Some (n + 1, e);
  hit_new k w now s :
    window k now s = None -> 0 <= w ->
    (hit k w now s).2 = 1
    /\ (0 < w -> window k now (hit k w now s).1 = Some (1, now + w));
  hit_other k k' w now now' s :
    k <> k' -> now <= now' -> window k' now' (hit k w now s).1 = window k' now' s;
  window_stays k now now' s n e :
    window k now s = Some (n, e) -> now <= now' -> now' < e -> window k now' s = Some (n, e);
  window_ends k now now' s n e :
    window k now s = Some (n, e) -> now <= now' -> e < now' -> window k now' s = None
}.

(** The answer both limiters give for a count. *)
Definition verdict (limit n : Z) : bool * Z := if limit <? n then (false, 0) else (true, limit - n).

(** ** MemoryLimiter *)

Record memWindow := mkMemWindow { count : Z; expires : Z }.

Record MemoryLimiter := mkMemoryLimiter { windows : gmap string memWindow }.

Definition NewMemoryLimiter : MemoryLimiter := mkMemoryLimiter ∅.

(** [now.After(w.expires)]. *)
Definition expired (now : Z) (w : memWindow) : bool := expires w <? now.

(** Expired windows are dropped when there are more than 4096 keys. *)
Definition sweep (now : Z) (m : gmap string memWindow) : gmap string memWindow :=
  if bool_decide (4096 < Z.of_nat (size m)) then filter (fun kw => expired now kw.2 = false) m else m.

Definition mem_hit (key : string) (win now : Z) (m : MemoryLimiter) : MemoryLimiter * Z :=
  let ws := sweep now (windows m) in
  let w := match ws !! key with
           | Some w => if expired now w then mkMemWindow 0 (now + win) else w
           | None => mkMemWindow 0 (now + win)
           end in
  let w := mkMemWindow (count w + 1) (expires w) in
  (mkMemoryLimiter (<[key := w]> ws), count w).

Definition MemoryAllow (key : string) (limit win now : Z) (m : MemoryLimiter)
    : MemoryLimiter * (bool * Z) :=
  let '(m', n) := mem_hit key win now m in (m', verdict limit n).

(** ** FallbackLimiter *)

Record FallbackLimiter := mkFallbackLimiter {
  namespace : option string;          (* the cache client, if there is one *)
  fallback : MemoryLimiter;
  degraded : bool
}.

Definition NewFallbackLimiter (c : option string) : FallbackLimiter :=
  mkFallbackLimiter c NewMemoryLimiter (match c with None => true | Some _ => false end).

(** [Client.Key]. *)
Definition Key (ns : string) (parts : list string) : string := ns +:+ ":" +:+ Join parts ":".

Section Fallback.
Context {Cache : Type} `{WindowCounter Cache}.

(** [ended] is whether the request's context has ended before the call,
    [ended_after] whether it has when the command failed, [answers] whether the
    cache server answers the transaction. *)
Definition Allow (ended answers ended_after : bool) (key : string) (limit win now : Z)
    (c : Cache) (l : FallbackLimiter) : Cache * FallbackLimiter * (bool * Z) :=
  if ended then (c, l, (false, 0)) else
  match namespace l with
  | None =>
      let '(m, a) := MemoryAllow key limit win now (fallback l) in
      (c, mkFallbackLimiter None m (degraded l), a)
  | Some ns =>
      if answers then
        let '(c', n) := hit (Key ns ["rl"%string; key]) win now c in
        (c', mkFallbackLimiter (Some ns) (fallback l) false, verdict limit n)
      else if ended_after then (c, l, (false, 0))
      else
        let '(m, a) := MemoryAllow key limit win now (fallback l) in
        (c, mkFallbackLimiter (Some ns) m true, a)
  end.

End Fallback.

(** ** The in-process map is a fixed-window counter *)

#[export] Instance memory_counter : WindowCounter MemoryLimiter := {|
  hit := mem_hit;
  window k now m :=
    match windows m !! k with
    | Some w => if expired now w then None else Some (count w, expires w)
    | None => None
    end
|}.

Lemma sweep_lookup now m k :
  sweep now m !! k
  = match m !! k with
    | Some w => if bool_decide (4096 < Z.of_nat (size m)) && expired now w then None else Some w
    | None => None
    end.
Proof.
  unfold sweep. case_bool_decide; simpl; [|by destruct (m !! k)].
  destruct (m !! k) as [w|] eqn:Hk.
  - destruct (expired now w) eqn:He.
    + apply map_lookup_filter_None. right. intros w' Hw'. simpl. congruence.
    + apply map_lookup_filter_Some. done.
  - apply map_lookup_filter_None. by left.
Qed.

#[export] Instance memory_fixed_window : FixedWindow MemoryLimiter.
Proof.
  constructor; simpl.
  - intros k w now s n e Hw. unfold mem_hit. rewrite sweep_lookup.
    destruct (windows s !! k) as [v|]; [|done]. destruct (expired now v) eqn:He; [done|].
    injection Hw as <- <-. rewrite andb_false_r, He. simpl. split; [done|].
    rewrite lookup_insert_eq. unfold expired in *. simpl. by rewrite He.
  - intros k w now s Hw Hpos. unfold mem_hit. rewrite sweep_lookup.
    assert (Hfresh : match (match windows s !! k with
      | Some v => if bool_decide (4096 < Z.of_nat (size (windows s))) && expired now v then None else Some v
      | None => None end) with
      | Some v => if expired now v then mkMemWindow 0 (now + w) else v
      | None => mkMemWindow 0 (now + w) end = mkMemWindow 0 (now + w)).
    { destruct (windows s !! k) as [v|]; [|done]. destruct (expired now v) eqn:He; [|done].
      destruct (bool_decide _); simpl; by rewrite ?He. }
    rewrite Hfresh. simpl. split; [done|]. intros _. rewrite lookup_insert_eq. unfold expired. simpl.
    by rewrite (proj2 (Z.ltb_ge _ _)) by lia.
  - intros k k' w now now' s Hne Hle. unfold mem_hit. cbn [windows fst].
    rewrite lookup_insert_ne by done. rewrite sweep_lookup.
    destruct (windows s !! k') as [v|]; [|done]. destruct (expired now v) eqn:He.
    + assert (expired now' v = true) as Hx by (unfold expired in *; lia).
      rewrite Hx. destruct (bool_decide _); simpl; [done|by rewrite Hx].
    + by rewrite andb_false_r.
  - intros k now now' s n e Hw Hle Hlt. destruct (windows s !! k) as [v|]; [|done].
    destruct (expired now v); [done|]. injection Hw as <- <-. unfold expired.
    by rewrite (proj2 (Z.ltb_ge _ _)) by lia.
  - intros k now now' s n e Hw Hle Hlt. destruct (windows s !! k) as [v|]; [|done].
    destruct (expired now v); [done|]. injection Hw as <- <-. unfold expired.
    by rewrite (proj2 (Z.ltb_lt _ _)) by lia.
Qed.

(** ** Properties of every fixed-window counter *)

Section Windows.
Context {S : Type} `{FixedWindow S}.

(** A run of requests, each a key and an instant; the answers for the key [k]
    are counted. *)
Fixpoint serve (k : string) (limit win : Z) (reqs : list (string * Z)) (s : S) : S * Z :=
  match reqs with
  | [] => (s, 0)
  | (k', now) :: reqs =>
      let '(s', n) := hit k' win now s in
      let '(s'', a) := serve k limit win reqs s' in
      (s'', if (k' =s k) && (verdict limit n).1 then a + 1 else a)
  end.

Definition asked (k : string) (reqs : list (string * Z)) : Z :=
  Z.of_nat (length (List.filter (fun r => r.1 =s k) reqs)).

(** Instants that do not go back and stay before [e]. *)
Fixpoint timely (from e : Z) (reqs : list (string * Z)) : Prop :=
  match reqs with
  | [] => True
  | (_, now) :: reqs => from <= now < e /\ timely now e reqs
  end.

Lemma asked_cons k k' now reqs :
  asked k ((k', now) :: reqs) = (if k' =s k then 1 else 0) + asked k reqs.
Proof. unfold asked. simpl. destruct (k' =s k); simpl; lia. Qed.

Lemma asked_nonneg k reqs : 0 <= asked k reqs.
Proof. unfold asked. lia. Qed.

Lemma serve_open k limit win reqs : forall s from n e,
  window k from s = Some (n, e) -> timely from e reqs ->
  (serve k limit win reqs s).2 = Z.max 0 (Z.min (asked k reqs) (limit - n))
  /\ exists last, from <= last /\ (last < e \/ last = from)
       /\ window k last (serve k limit win reqs s).1 = Some (n + asked k reqs, e).
Proof.
  induction reqs as [|[k' now] reqs IH]; intros s from n e Hw Ht; simpl.
  { split; [unfold asked; simpl; lia|]. exists from. split; [lia|]. split; [by right|].
    unfold asked. simpl. by rewrite Z.add_0_r. }
  destruct Ht as [[Hle Hlt] Ht]. rewrite asked_cons.
  pose proof (window_stays _ _ _ _ _ _ Hw Hle Hlt) as Hnow.
  pose proof (asked_nonneg k reqs).
  destruct (hit k' win now s) as [s' c] eqn:Hh.
  destruct (String.eqb_spec k' k) as [->|Hne].
  - destruct (hit_open k win now s n e Hnow) as [Hc Hw']. rewrite Hh in Hc, Hw'. simpl in Hc, Hw'.
    destruct (IH s' now (n + 1) e Hw' Ht) as [Ha (last & Hl & He & Hlast)].
    destruct (serve _ _ _ reqs s') as [s'' a]. simpl in *. subst c. split.
    + unfold verdict. destruct (Z.ltb_spec limit (n + 1)); simpl; lia.
    + exists last. split; [lia|]. split; [lia|]. rewrite Hlast. do 2 f_equal. lia.
  - assert (Hw' : window k now s' = Some (n, e)).
    { pose proof (hit_other k' k win now now s Hne (Z.le_refl _)) as Ho. rewrite Hh in Ho.
      simpl in Ho. by rewrite Ho. }
    destruct (IH s' now n e Hw' Ht) as [Ha (last & Hl & He & Hlast)].
    destruct (serve _ _ _ reqs s') as [s'' a]. simpl in *. split; [lia|].
    exists last. split; [lia|]. split; [lia|]. by rewrite Hlast.
Qed.

(** The requests of one window: its first request opens it. *)
Lemma serve_window k limit win now reqs s :
  0 < win -> window k now s = None -> timely now (now + win) reqs ->
  (serve k limit win ((k, now) :: reqs) s).2 = Z.max 0 (Z.min (asked k reqs + 1) limit)
  /\ exists last, now <= last < now + win
       /\ window k last (serve k limit win ((k, now) :: reqs) s).1 = Some (asked k reqs + 1, now + win).
Proof.
  intros Hwin Hnone Ht. simpl. rewrite String.eqb_refl.
  destruct (hit_new k win now s Hnone ltac:(lia)) as [Hc Hw]. specialize (Hw Hwin).
  destruct (hit k win now s) as [s' c]. simpl in Hc, Hw. subst c.
  destruct (serve_open k limit win reqs s' now 1 (now + win) Hw Ht) as [Ha (last & Hl & He & Hlast)].
  destruct (serve _ _ _ reqs s') as [s'' a]. simpl in *. pose proof (asked_nonneg k reqs). split.
  - unfold verdict. destruct (Z.ltb_spec limit 1); simpl; lia.
  - exists last. split; [lia|]. rewrite Hlast. do 2 f_equal. lia.
Qed.

End Windows.

(** C21. The in-process limiter is a fixed window: of the requests for a key in
    the window its first request opened, exactly the first [limit] are allowed,
    whatever other keys are asked for in between and whatever the map sheds; a
    refused request does not move the window's end, so after it a request is
    allowed again. *)
Theorem memory_window_bound k limit win now reqs (m : MemoryLimiter) later :
  0 < win -> 1 <= limit -> window k now m = None -> timely now (now + win) reqs ->
  now + win < later ->
  (serve k limit win ((k, now) :: reqs) m).2 = Z.min (asked k reqs + 1) limit
  /\ (MemoryAllow k limit win later (serve k limit win ((k, now) :: reqs) m).1).2 = (true, limit - 1).
Proof.
  intros Hwin Hlim Hnone Ht Hlater.
  destruct (serve_window k limit win now reqs m Hwin Hnone Ht) as [Ha (last & Hl & Hw)].
  pose proof (asked_nonneg k reqs). split; [lia|].
  set (m' := (serve k limit win ((k, now) :: reqs) m).1) in *.
  pose proof (window_ends k last later m' _ _ Hw ltac:(lia) ltac:(lia)) as Hend.
  destruct (hit_new k win later m' Hend ltac:(lia)) as [Hc _]. unfold MemoryAllow.
  change (hit k win later m') with (mem_hit k win later m') in Hc.
  destruct (mem_hit k win later m') as [m'' c]. simpl in Hc. subst c.
  unfold verdict. by rewrite (proj2 (Z.ltb_ge _ _)) by lia.
Qed.

(** The cached limiter: a request whose context has ended, before or while
    the command runs, is refused and changes nothing, the degraded flag
    included; when the cache does not answer, the decision is exactly the
    in-process one and the limiter reports itself degraded; when it answers, the
    decision is the cache's count, the in-process counters are untouched and
    the flag is cleared; without a cache it stays degraded. *)
Theorem fallback_decides {Cache} `{WindowCounter Cache} ended answers ended_after key limit win now
    (c : Cache) l :
  let '(c', l', a) := Allow ended answers ended_after key limit win now c l in
  if ended || (negb answers && ended_after && negb (bool_decide (namespace l = None)))
  then c' = c /\ l' = l /\ a = (false, 0)
  else match namespace l with
       | Some ns =>
           if answers
           then (c', a) = (let '(x, n) := hit (Key ns ["rl"%string; key]) win now c in (x, verdict limit n))
                /\ fallback l' = fallback l /\ degraded l' = false
           else c' = c /\ (fallback l', a) = MemoryAllow key limit win now (fallback l) /\ degraded l' = true
       | None => c' = c /\ (fallback l', a) = MemoryAllow key limit win now (fallback l)
                 /\ degraded l' = degraded l
       end.
Proof.
  unfold Allow. destruct (MemoryAllow key limit win now (fallback l)) as [m a].
  destruct ended; [done|]. simpl. destruct (namespace l) as [ns|] eqn:Hns.
  - rewrite bool_decide_false by done. destruct answers; simpl; [by destruct (hit _ _ _ c)|].
    by destruct ended_after.
  - rewrite bool_decide_true by done. simpl. by rewrite andb_false_r.
Qed.

Lemma memory_window_bound_witness :
  (serve "k" 2 10 [("k", 0); ("other", 1); ("k", 3); ("k", 9)]%string NewMemoryLimiter).2 = 2
  /\ (MemoryAllow "k" 2 10 11
        (serve "k" 2 10 [("k", 0); ("other", 1); ("k", 3); ("k", 9)]%string NewMemoryLimiter).1).2
     = (true, 1).
Proof.
  apply (memory_window_bound "k" 2 10 0 [("other", 1); ("k", 3); ("k", 9)]%string NewMemoryLimiter 11);
    try done; simpl; lia.
Defined.
