(* ===== verification/SearchHmac.v ===== *)
(** * Signed requests to the search service (src/internal/search/hmac.go)

    Core signs each internal request with HMAC-SHA256 over a canonical string;
    the receiver checks the shape of the headers, the clock window and the
    signature, in this order.  Clocks are whole seconds since the epoch. *)

From S2P Require Import Prelude Utf8 Regex GoStrings Decimals Sha256.

Definition HeaderTimestamp : string := "X-Vizra-Timestamp".
Definition HeaderNonce : string := "X-Vizra-Nonce".
Definition HeaderSignature : string := "X-Vizra-Signature".
Definition SignatureVersion : string := "v1".

(** 300 seconds. *)
Definition MaxClockSkew : Z := 300.
Definition MinTimestamp : Z := 1000000000.
Definition MaxTimestamp : Z := 4102444800.
Definition MinKeyBytes : Z := 32.

Inductive HmacError :=
| ErrSignatureMissing
| ErrMethodNotCanonical
| ErrSignatureInvalid
| ErrTimestampSkew
| ErrKeyTooShort
| ErrEntropy.

Definition lf : string := String (ascii_of_N 10) "".

Definition CanonicalString (method path timestamp nonce bodyHash : string) : string :=
  Join [SignatureVersion; method; path; timestamp; nonce; bodyHash] lf.

(** ** Shapes *)

Definition ValidateMethod (method : string) : option HmacError :=
  if method =s "" then Some ErrMethodNotCanonical
  else if sall (range "A" "Z") method then None else Some ErrMethodNotCanonical.

Definition ValidateTimestamp (raw : string) : result HmacError Z :=
  match raw with
  | EmptyString => Err ErrSignatureMissing
  | String c _ =>
      if negb (range "1" "9" c) then Err ErrSignatureMissing
      else if negb (sall digit raw) then Err ErrSignatureMissing
      else if 19 <? len raw then Err ErrTimestampSkew
      else match ParseInt raw with
           | None => Err ErrSignatureMissing
           | Some secs =>
               if (secs <? MinTimestamp) || (MaxTimestamp <? secs) then Err ErrTimestampSkew
               else Ok secs
           end
  end.

Definition ValidateNonce (nonce : string) : option HmacError :=
  if (len nonce <? 32) || negb (len nonce mod 2 =? 0) || (128 <? len nonce) then Some ErrSignatureMissing
  else if sall lower_hex nonce then None else Some ErrSignatureMissing.

Definition WithinWindow (secs nowSecs : Z) : bool :=
  if (secs <? MinTimestamp) || (MaxTimestamp <? secs) then false
  else if (nowSecs <? MinTimestamp) || (MaxTimestamp <? nowSecs) then false
  else
    let delta := nowSecs - secs in
    let delta := if delta <? 0 then - delta else delta in
    delta <=? MaxClockSkew.

(** ** Signing *)

Definition BodyHash (body : string) : string := hex (Sum256 body).

Definition Sign (key method path timestamp nonce body : string) : result HmacError string :=
  if len key <? MinKeyBytes then Err ErrKeyTooShort
  else match ValidateMethod method with
  | Some e => Err e
  | None =>
      Ok (SignatureVersion +:+ "=" +:+
          hex (HMAC key (CanonicalString method path timestamp nonce (BodyHash body))))
  end.

(** [entropy] is what [rand.Read] filled in. *)
Definition NewNonce (entropy : option string) : result HmacError string :=
  match entropy with None => Err ErrEntropy | Some b => Ok (hex b) end.

(** Headers by canonical name; [Set] replaces every value. *)
Definition Header := list (string * string).

Definition Values (h : Header) (k : string) : list string :=
  map snd (List.filter (fun kv => kv.1 =s k) h).

Definition Get (h : Header) (k : string) : string := hd ""%string (Values h k).

Definition Set_ (k v : string) (h : Header) : Header :=
  List.filter (fun kv => kv.1 <>s k) h ++ [(k, v)].

Definition SignRequest (h : Header) (method path key body : string) (entropy : option string) (now : Z)
    : result HmacError Header :=
  let ts := Itoa now in
  let? nonce := NewNonce entropy in
  let? sig := Sign key method path ts nonce body in
  Ok (Set_ HeaderSignature sig (Set_ HeaderNonce nonce (Set_ HeaderTimestamp ts h))).

(** ** Verifying *)

Definition single (h : Header) (k : string) : bool :=
  match Values h k with [_] => true | _ => false end.

Definition Verify (key method path : string) (h : Header) (body : string) (now : Z) : option HmacError :=
  if len key <? MinKeyBytes then Some ErrKeyTooShort
  else match ValidateMethod method with
  | Some e => Some e
  | None =>
      let ts := Get h HeaderTimestamp in
      let nonce := Get h HeaderNonce in
      let sig := Get h HeaderSignature in
      if (ts =s "") || (nonce =s "") || (sig =s "") then Some ErrSignatureMissing
      else if negb (single h HeaderTimestamp && single h HeaderNonce && single h HeaderSignature)
      then Some ErrSignatureMissing
      else match ValidateNonce nonce with
      | Some e => Some e
      | None =>
          if negb (HasPrefix sig (SignatureVersion +:+ "=")) then Some ErrSignatureMissing
          else match ValidateTimestamp ts with
          | Err e => Some e
          | Ok secs =>
              if negb (WithinWindow secs now) then Some ErrTimestampSkew
              else match Sign key method path ts nonce body with
              | Err e => Some e
              | Ok want => if want =s sig then None else Some ErrSignatureInvalid
              end
          end
      end
  end.

(** ** Headers *)

Lemma filter_drop (k k' : string) (h : Header) :
  k <> k' -> List.filter (fun kv => kv.1 =s k') (List.filter (fun kv => kv.1 <>s k) h)
             = List.filter (fun kv => kv.1 =s k') h.
Proof.
  intros Hne. induction h as [|[x v] h IH]; [done|]. simpl.
  destruct (String.eqb_spec x k) as [->|Hx]; simpl.
  - rewrite (proj2 (String.eqb_neq k k') Hne). done.
  - destruct (x =s k'); [by f_equal|done].
Qed.

Lemma Values_set k v h : Values (Set_ k v h) k = [v].
Proof.
  unfold Values, Set_. rewrite List.filter_app. simpl. rewrite String.eqb_refl.
  assert (Hn : List.filter (fun kv : string * string => kv.1 =s k) (List.filter (fun kv => kv.1 <>s k) h) = []).
  { induction h as [|[x y] h IH]; [done|]. simpl.
    destruct (x =s k) eqn:E; simpl; [done|by rewrite E]. }
  by rewrite Hn.
Qed.

Lemma Values_set_ne k k' v h : k <> k' -> Values (Set_ k v h) k' = Values h k'.
Proof.
  intros Hne. unfold Values, Set_. rewrite List.filter_app, filter_drop by done. simpl.
  rewrite (proj2 (String.eqb_neq k k') Hne). by rewrite app_nil_r.
Qed.

(** ** Properties *)

Lemma ValidateTimestamp_itoa now :
  MinTimestamp <= now <= MaxTimestamp -> ValidateTimestamp (Itoa now) = Ok now.
Proof.
  unfold MinTimestamp, MaxTimestamp. intros Hn.
  pose proof (Itoa_pos now ltac:(lia)) as Hp. pose proof (prints_len _ _ Hp ltac:(lia)) as Hl.
  destruct Hp as (Hv & Hd & Hf). destruct (Hf ltac:(lia)) as (c & r & He & Hc).
  unfold ValidateTimestamp. rewrite He in *. rewrite Hc, Hd. simpl.
  rewrite (proj2 (Z.ltb_ge _ _) Hl), (ParseInt_digits c r) by done. cbv zeta. rewrite Hv.
  rewrite (proj2 (Z.ltb_ge _ _)) by lia. unfold MinTimestamp, MaxTimestamp.
  by rewrite (proj2 (Z.ltb_ge now _)), (proj2 (Z.ltb_ge _ now)) by lia.
Qed.

Lemma WithinWindow_spec secs now :
  WithinWindow secs now = true <->
  MinTimestamp <= secs <= MaxTimestamp /\ MinTimestamp <= now <= MaxTimestamp
  /\ Z.abs (now - secs) <= MaxClockSkew.
Proof.
  unfold WithinWindow.
  destruct (Z.ltb_spec secs MinTimestamp), (Z.ltb_spec MaxTimestamp secs); simpl;
    try (split; [done|lia]).
  destruct (Z.ltb_spec now MinTimestamp), (Z.ltb_spec MaxTimestamp now); simpl;
    try (split; [done|lia]).
  destruct (Z.ltb_spec (now - secs) 0); rewrite Z.leb_le; lia.
Qed.

Lemma sign_verifies h method path key body b now now' :
  MinKeyBytes <= len key -> ValidateMethod method = None -> String.length b = 16%nat ->
  MinTimestamp <= now <= MaxTimestamp -> MinTimestamp <= now' <= MaxTimestamp ->
  Z.abs (now' - now) <= MaxClockSkew ->
  exists h', SignRequest h method path key body (Some b) now = Ok h'
    /\ Verify key method path h' body now' = None.
Proof.
  intros Hk Hm Hb Hn Hn' Hskew. unfold SignRequest, Sign. simpl.
  rewrite (proj2 (Z.ltb_ge _ _) Hk), Hm. eexists. split; [reflexivity|].
  set (sig := SignatureVersion +:+ "=" +:+ _).
  set (h' := Set_ HeaderSignature sig _).
  assert (Hts : Values h' HeaderTimestamp = [Itoa now])
    by (unfold h'; do 2 rewrite Values_set_ne by done; apply Values_set).
  assert (Hno : Values h' HeaderNonce = [hex b])
    by (unfold h'; rewrite Values_set_ne by done; apply Values_set).
  assert (Hsi : Values h' HeaderSignature = [sig]) by apply Values_set.
  unfold Verify, Get, single. rewrite (proj2 (Z.ltb_ge _ _) Hk), Hm, Hts, Hno, Hsi.
  cbn [hd]. destruct (Itoa_pos now ltac:(unfold MinTimestamp in Hn; lia)) as (_ & _ & Hf).
  destruct (Hf ltac:(unfold MinTimestamp in Hn; lia)) as (c & r & Hi & _).
  assert (Hne : (Itoa now =s "") = false) by (by rewrite Hi).
  assert (Hlen : len (hex b) = 32) by (unfold len; rewrite hex_length, Hb; done).
  assert (Hnb : (hex b =s "") = false).
  { apply String.eqb_neq. intros Hx. by rewrite Hx in Hlen. }
  rewrite Hne, Hnb. change (sig =s "") with false. cbn [negb orb andb].
  unfold ValidateNonce. rewrite Hlen, hex_lower. cbn [negb orb andb Z.ltb Z.eqb].
  change ((32 <? 32) || negb (32 mod 2 =? 0) || (128 <? 32)) with false. cbv iota.
  assert (Hpre : HasPrefix sig (SignatureVersion +:+ "=") = true) by done.
  rewrite Hpre, ValidateTimestamp_itoa by done. cbn [negb]. cbv iota.
  rewrite (proj2 (WithinWindow_spec now now')) by done. cbn [negb].
  unfold Sign. rewrite (proj2 (Z.ltb_ge _ _) Hk), Hm. cbv iota.
  fold sig. by rewrite String.eqb_refl.
Qed.

(** A signed request verifies: whatever headers the request had, with a
    secret of at least 32 bytes and an upper-case method [SignRequest] succeeds,
    and every receiver whose clock is within 300 seconds accepts the result,
    given the same method, path and body. *)
Theorem signed_request_verifies h method path key body b now now' :
  MinKeyBytes <= len key -> ValidateMethod method = None -> String.length b = 16%nat ->
  MinTimestamp <= now <= MaxTimestamp -> MinTimestamp <= now' <= MaxTimestamp ->
  Z.abs (now' - now) <= MaxClockSkew ->
  exists h', SignRequest h method path key body (Some b) now = Ok h'
    /\ Verify key method path h' body now' = None.
Proof. apply sign_verifies. Qed.

(** ** The canonical string is unambiguous *)

Definition lf_char : ascii := ascii_of_N 10.
Definition no_lf (s : string) : bool := sall (fun c => negb (Ascii.eqb c lf_char)) s.

Lemma split_first a a' x x' :
  no_lf a = true -> no_lf a' = true ->
  a +:+ String lf_char x = a' +:+ String lf_char x' -> a = a' /\ x = x'.
Proof.
  revert a'. induction a as [|c a IH]; intros [|c' a']; autorewrite with str;
    unfold no_lf; cbn [sall]; intros Ha Ha' He.
  - by injection He.
  - injection He as <- _. by rewrite Ascii.eqb_refl in Ha'.
  - injection He as -> _. by rewrite Ascii.eqb_refl in Ha.
  - injection He as <- He. eqb_prop. destruct (IH a') as [-> ->]; done.
Qed.

Lemma no_lf_app a b : no_lf (a +:+ String lf_char b) = false.
Proof. unfold no_lf. rewrite sall_app. cbn [sall]. by rewrite Ascii.eqb_refl, andb_false_r. Qed.

Lemma split_last a a' x x' :
  no_lf x = true -> no_lf x' = true ->
  a +:+ String lf_char x = a' +:+ String lf_char x' -> a = a' /\ x = x'.
Proof.
  intros Hx Hx'. revert a'. induction a as [|c a IH]; intros [|c' a']; autorewrite with str; intros He.
  - by injection He.
  - injection He as _ ->. by rewrite no_lf_app in Hx.
  - injection He as _ <-. by rewrite no_lf_app in Hx'.
  - injection He as <- He. destruct (IH a' He) as [-> ->]. done.
Qed.

Lemma hex_no_lf s : no_lf (hex s) = true.
Proof.
  pose proof (hex_lower s) as Hh. revert Hh. apply sall_impl. intros c Hc.
  apply negb_true_iff, Ascii.eqb_neq. intros ->. discriminate Hc.
Qed.

Lemma shape_no_lf (p : ascii -> bool) s : p lf_char = false -> sall p s = true -> no_lf s = true.
Proof.
  intros Hp. apply sall_impl. intros c Hc. apply negb_true_iff, Ascii.eqb_neq. intros ->. congruence.
Qed.

Lemma ValidateMethod_none m : ValidateMethod m = None -> m <> ""%string /\ sall (range "A" "Z") m = true.
Proof.
  unfold ValidateMethod. destruct (String.eqb_spec m ""); [done|]. by destruct (sall _ m).
Qed.

Lemma ValidateTimestamp_ok ts secs :
  ValidateTimestamp ts = Ok secs -> prints ts secs /\ MinTimestamp <= secs <= MaxTimestamp.
Proof.
  unfold ValidateTimestamp. destruct ts as [|c r] eqn:He; [done|]. rewrite <- He.
  destruct (range "1" "9" c) eqn:Hc; [|done]. destruct (sall digit ts) eqn:Hd; [|done]. cbn [negb].
  destruct (19 <? len ts); [done|]. rewrite He in Hd |- *. rewrite ParseInt_digits by done. cbv zeta. rewrite <- He in Hd |- *.
  destruct (9223372036854775807 <? _); [done|].
  destruct (Z.ltb_spec (parse_digits 0 ts) MinTimestamp); [done|].
  destruct (Z.ltb_spec MaxTimestamp (parse_digits 0 ts)); [done|]. simpl.
  intros [= <-]. split; [|lia]. split; [done|]. split; [done|]. intros _. by exists c, r.
Qed.

Lemma ValidateNonce_none n :
  ValidateNonce n = None -> 32 <= len n <= 128 /\ len n mod 2 = 0 /\ sall lower_hex n = true.
Proof.
  unfold ValidateNonce. destruct (Z.ltb_spec (len n) 32); [done|].
  destruct (Z.eqb_spec (len n mod 2) 0); [|done]. destruct (Z.ltb_spec 128 (len n)); [done|].
  simpl. destruct (sall lower_hex n); [|done]. intros _. repeat split; (done || lia).
Qed.

Lemma canonical_injective m p t n b m' p' t' n' b' :
  sall (range "A" "Z") m = true -> sall (range "A" "Z") m' = true ->
  sall digit t = true -> sall digit t' = true -> sall lower_hex n = true -> sall lower_hex n' = true ->
  CanonicalString m p t n (BodyHash b) = CanonicalString m' p' t' n' (BodyHash b') ->
  m = m' /\ p = p' /\ t = t' /\ n = n' /\ Sum256 b = Sum256 b'.
Proof.
  intros Hm Hm' Ht Ht' Hn Hn' He.
  assert (Hcan : forall m p t n h, CanonicalString m p t n h
    = "v1" +:+ String lf_char (m +:+ String lf_char (p +:+ String lf_char (t +:+ String lf_char (n +:+ String lf_char h)))))
    by done.
  rewrite !Hcan in He.
  apply shape_no_lf in Hm, Hm', Ht, Ht', Hn, Hn'; [|done..].
  apply split_first in He as [_ He]; [|done..].
  apply split_first in He as [-> He]; [|done..].
  assert (Hassoc : forall p t n h, p +:+ String lf_char (t +:+ String lf_char (n +:+ String lf_char h))
    = ((p +:+ String lf_char t) +:+ String lf_char n) +:+ String lf_char h).
  { intros. rewrite !sapp_assoc. by autorewrite with str. }
  rewrite !Hassoc in He.
  pose proof (hex_no_lf (Sum256 b)) as Hb1. pose proof (hex_no_lf (Sum256 b')) as Hb2.
  apply split_last in He as [He Hb]; [|done..].
  apply split_last in He as [He ->]; [|done..].
  apply split_last in He as [-> ->]; [|done..].
  repeat split; try done. apply (f_equal unhex) in Hb. unfold BodyHash in Hb.
  rewrite !unhex_hex in Hb. congruence.
Qed.

(** C30. What an accepted request proves: one value of each header, a timestamp
    of canonical digits within 300 seconds, a nonce of 16 to 64 bytes of lower
    hexadecimal, and a signature that is the HMAC of the canonical string; and
    that string is unambiguous: another acceptable request with the same signed
    bytes has the same method, path, timestamp, nonce and body digest. *)
Theorem accepted_request key method path h body now :
  Verify key method path h body now = None ->
  exists ts nonce secs,
    Values h HeaderTimestamp = [ts] /\ Values h HeaderNonce = [nonce]
    /\ Values h HeaderSignature
       = [SignatureVersion +:+ "=" +:+ hex (HMAC key (CanonicalString method path ts nonce (BodyHash body)))]
    /\ MinKeyBytes <= len key /\ prints ts secs /\ Z.abs (now - secs) <= MaxClockSkew
    /\ 32 <= len nonce <= 128 /\ sall lower_hex nonce = true
    /\ forall method' path' ts' nonce' body' secs',
         ValidateMethod method' = None -> ValidateTimestamp ts' = Ok secs' -> ValidateNonce nonce' = None ->
         CanonicalString method' path' ts' nonce' (BodyHash body')
         = CanonicalString method path ts nonce (BodyHash body) ->
         method' = method /\ path' = path /\ ts' = ts /\ nonce' = nonce /\ Sum256 body' = Sum256 body.
Proof.
  unfold Verify, Get, single. destruct (Z.ltb_spec (len key) MinKeyBytes); [done|].
  destruct (ValidateMethod method) eqn:Hm; [done|].
  destruct (Values h HeaderTimestamp) as [|ts [|]]; [done| |by destruct (_ || _)].
  destruct (Values h HeaderNonce) as [|nonce [|]]; [by rewrite ?orb_true_r| |by destruct (_ || _)].
  destruct (Values h HeaderSignature) as [|sig [|]]; [by rewrite ?orb_true_r| |by destruct (_ || _)].
  cbn [hd]. destruct (_ || _); [done|]. cbn [negb andb].
  destruct (ValidateNonce nonce) eqn:Hn; [done|]. destruct (HasPrefix sig _); [|done]. cbn [negb].
  destruct (ValidateTimestamp ts) as [secs|] eqn:Ht; [|done].
  destruct (WithinWindow secs now) eqn:Hw; [|done]. cbn [negb]. unfold Sign.
  rewrite (proj2 (Z.ltb_ge _ _)), Hm by done.
  destruct (String.eqb_spec (SignatureVersion +:+ "=" +:+ hex (HMAC key
    (CanonicalString method path ts nonce (BodyHash body)))) sig) as [<-|]; [|done]. intros _.
  apply WithinWindow_spec in Hw as (_ & _ & Hskew).
  destruct (ValidateTimestamp_ok _ _ Ht) as [Hp _]. destruct (ValidateNonce_none _ Hn) as (Hl & _ & Hh).
  exists ts, nonce, secs. do 8 (split; [done|]).
  intros m' p' t' n' b' s' Hm' [(_ & Hd' & _) _]%ValidateTimestamp_ok (_ & _ & Hh')%ValidateNonce_none He.
  apply ValidateMethod_none in Hm as [_ Hm]. apply ValidateMethod_none in Hm' as [_ Hm'].
  destruct Hp as (_ & Hd & _). by apply canonical_injective in He.
Qed.

(** ** The properties at work *)

Definition sample_key : string := "0123456789abcdef0123456789abcdef".
Definition sample_header : Header :=
  match SignRequest [] "POST" "/internal/v1/query" sample_key "{}" (Some "fedcba9876543210"%string) 1789000000 with
  | Ok h => h
  | Err _ => []
  end.

Lemma signed_request_verifies_witness :
  exists h', SignRequest [] "POST" "/internal/v1/query" sample_key "{}" (Some "fedcba9876543210"%string) 1789000000
             = Ok h'
    /\ Verify sample_key "POST" "/internal/v1/query" h' "{}" 1789000300 = None.
Proof. apply (signed_request_verifies [] "POST"); vm_compute; by try split. Defined.

Lemma accepted_request_witness :
  exists ts nonce secs, Values sample_header HeaderTimestamp = [ts]
    /\ Values sample_header HeaderNonce = [nonce] /\ prints ts secs
    /\ Z.abs (1789000300 - secs) <= MaxClockSkew.
Proof.
  destruct (accepted_request sample_key "POST" "/internal/v1/query" sample_header "{}" 1789000300)
    as (ts & nonce & secs & H1 & H2 & _ & _ & H3 & H4 & _); [by vm_compute|].
  by exists ts, nonce, secs.
Defined.
