(* ===== verification/Origin.v ===== *)
(** * Origins and sites (src/internal/config/origin.go, src/internal/site/site.go)

    [NormalizeOrigin] renders an origin the way a browser sends it, so that two
    can be compared; a site is resolved from the Host header and supplies the
    cache namespace and the storage prefix.  The URL parser of the language's
    library is the parameter [NetUrl]: its host grammar differs between
    releases, and nothing below depends on it. *)

From S2P Require Import Prelude Utf8 Regex GoStrings.

Record URL := mkURL {
  u_Scheme : string;
  u_User : bool;
  u_Host : string;
  u_Path : string;
  u_RawQuery : string;
  u_Fragment : string
}.

(** [url.Parse]; [None] is its error. *)
Class NetUrl := Parse : string -> option URL.

(** [URL.Hostname] and [URL.Port]: the port is what follows the last colon, if
    it is digits; brackets around the rest are dropped. *)
Definition splitHostPort (h : string) : string * string :=
  let '(host, port) :=
    match cut_last ":" h with
    | Some (a, b) => if sall digit b then (a, b) else (h, ""%string)
    | None => (h, ""%string)
    end in
  (if HasPrefix host "[" && HasSuffix host "]"
   then stake (String.length host - 2) (sdrop 1 host) else host, port).

Definition Hostname (u : URL) : string := (splitHostPort (u_Host u)).1.
Definition Port (u : URL) : string := (splitHostPort (u_Host u)).2.

Definition isASCII (s : string) : bool := sall is_ascii s.

Section Origin.
Context `{Unicode, NetUrl}.

(** What [NormalizeOrigin] does with a parsed origin. *)
Definition render_origin (u : URL) : string :=
  let scheme := ToLower (u_Scheme u) in
  if (scheme <>s "http") && (scheme <>s "https") then ""
  else if (u_Path u <>s "") && (u_Path u <>s "/") then ""
  else if (u_RawQuery u <>s "") || (u_Fragment u <>s "") || u_User u then ""
  else
    let host := TrimSuffix (ToLower (Hostname u)) "." in
    if host =s "" then ""
    else if negb (isASCII host) then ""
    else
      let host := if Contains host ":" then "[" +:+ host +:+ "]" else host in
      let port := Port u in
      let port := if ((scheme =s "http") && (port =s "80")) || ((scheme =s "https") && (port =s "443"))
                  then ""%string else port in
      if port <>s "" then scheme +:+ "://" +:+ host +:+ ":" +:+ port
      else scheme +:+ "://" +:+ host.

Definition NormalizeOrigin (raw : string) : string :=
  let raw := TrimSpace raw in
  if raw =s "" then ""
  else match Parse raw with
  | None => ""
  | Some u => if u_Host u =s "" then "" else render_origin u
  end.

(** ** Sites *)

Record Site := mkSite {
  Handle : string;
  BaseURL : string;
  DSN : string;
  CacheNamespace : string;
  StoragePrefix : string
}.

Definition Host (s : Site) : string :=
  match Parse (BaseURL s) with None => ""%string | Some u => Hostname u end.

Record Resolver := mkResolver {
  sites : list Site;
  byHost : list (string * Site)
}.

Definition NewResolver (s : Site) : Resolver :=
  mkResolver [s] (if Host s =s "" then [] else [(ToLower (Host s), s)]).

(** The key [ByHost] looks up: lower case, without the port, brackets or the
    trailing dot. *)
Definition host_key (host : string) : string :=
  let h := ToLower host in
  let h := match cut_last ":" h with
           | Some (a, _) => if Contains h "]" then h else a
           | None => h
           end in
  TrimSuffix (Trim (fun c => Ascii.eqb c "[" || Ascii.eqb c "]") h) ".".

Definition ByHost (r : Resolver) (host : string) : option Site :=
  match map_get (host_key host) (byHost r) with
  | Some s => Some s
  | None => match sites r with [s] => Some s | _ => None end
  end.

Definition CacheKey (s : Site) (parts : list string) : string :=
  CacheNamespace s +:+ ":" +:+ Join parts ":".

Definition StorageKey (s : Site) (parts : list string) : string :=
  StoragePrefix s +:+ "/" +:+ Join parts "/".

End Origin.
