(* ===== verification/ClaimBody.v ===== *)
(** * The body of a claim (src/internal/httpapi/setup.go, steps 2 and 3 of handleClaimOwner)

    How the bytes of a request become the input of a claim: at most
    [claimBodyLimitBytes] are read, one JSON value is decoded strictly into the
    request struct, and more values after it are refused.  The decoder is the
    one of GoJsonParse.v. *)

From S2P Require Import Prelude Utf8 Regex GoStrings GoFmt GoJson GoJsonParse Sha256 Pg Credential OwnerStore AuditLog OwnerClaim.

Definition claimBodyLimitBytes : Z := 8192.

(** What the handler makes of the body. *)
Inductive Decoded :=
| BodyTooLarge
| BodyEmpty
| BodyMalformed
| BodyTrailing (i : Input)
| Body (i : Input).

Definition claimOwnerRequest : JsonRead.GoType :=
  JsonRead.TStruct [("token", JsonRead.TString); ("username", JsonRead.TString); ("email", JsonRead.TString);
                    ("password", JsonRead.TString)]%string.

Definition input_of (g : JsonRead.GoVal) : Input :=
  let text i := JsonRead.text_of (JsonRead.field i g) in
  mkInput (text 0%nat) (text 1%nat) (text 2%nat) (text 3%nat).

(** [faulty]: reading the body fails after its bytes, as when the client is
    gone. *)
Definition decode_body (body : string) (faulty : bool) : Decoded :=
  let '(read, ended) := JsonRead.MaxBytes claimBodyLimitBytes body faulty in
  match JsonRead.Decode claimOwnerRequest read ended with
  | Err JsonRead.ErrTooLarge => BodyTooLarge
  | Err JsonRead.ErrEOF => BodyEmpty
  | Err JsonRead.ErrOther => BodyMalformed
  | Ok (g, rest) => if JsonRead.More rest then BodyTrailing (input_of g) else Body (input_of g)
  end.

(** The body a client sends for an input. *)
Definition claim_json (i : Input) : Json :=
  JObject [("token", JString (in_Token i)); ("username", JString (in_Username i)); ("email", JString (in_Email i));
           ("password", JString (in_Password i))]%string.

(** ** What is accepted *)

Definition valid_input (i : Input) : bool :=
  forallb ValidString [in_Token i; in_Username i; in_Email i; in_Password i].

Lemma input_decodes strict i : valid_input i = true ->
  JsonRead.decode strict (JsonRead.val_of (claim_json i)) claimOwnerRequest (JsonRead.zero claimOwnerRequest)
  = Some (JsonRead.GStruct (map JsonRead.GString [in_Token i; in_Username i; in_Email i; in_Password i])).
Proof.
  unfold valid_input. cbn [forallb]. rewrite !andb_true_iff. intros (H1 & H2 & H3 & H4 & _).
  etrans; [refine (JsonRead.decode_struct 4 strict _ _ _ _ _)|].
  - apply (bool_decide_unpack _). vm_compute. exact I.
  - repeat (apply Forall3_cons; [split; [vm_compute; reflexivity|cbn [snd]; by apply JsonRead.decode_text]|]). apply Forall3_nil.
  - done.
Qed.

(** A member that a strict decoder stores in the struct. *)
Definition known_member (kv : string * JsonRead.Val) : Prop :=
  is_Some (JsonRead.field_index kv.1 ["token"; "username"; "email"; "password"]%string)
  /\ (kv.2 = JsonRead.VNull \/ exists s, kv.2 = JsonRead.VString s).

Lemma strict_members l : forall vals vals',
  JsonRead.decode_fields true (JsonRead.decode true)
    [("token", JsonRead.TString); ("username", JsonRead.TString); ("email", JsonRead.TString); ("password", JsonRead.TString)]%string
    l vals = Some vals' -> Forall known_member l.
Proof.
  induction l as [|[k v] l IH]; intros vals vals'; cbn [JsonRead.decode_fields map fst]; [constructor|].
  destruct (JsonRead.field_index k _) as [i|] eqn:Hi; [|done]. destruct (_ !! i) as [f|] eqn:Hf; [|done].
  destruct (vals !! i) as [x|]; [|done]. destruct (JsonRead.decode true v f.2 x) as [y|] eqn:Hd; [|done]. intros Hl.
  constructor; [|by eapply IH]. split; [by exists i|]. cbn [snd].
  assert (Ht : f.2 = JsonRead.TString).
  { apply list_elem_of_lookup_2 in Hf. rewrite !elem_of_cons, elem_of_nil in Hf. by destruct Hf as [->|[->|[->|[->|[]]]]]. }
  rewrite Ht in Hd. destruct v; try done; [by left|right; eauto].
Qed.

Lemma body_back i w w' : valid_input i = true -> sall JsonRead.is_ws w = true -> sall JsonRead.is_ws w' = true ->
  len (w +:+ compact (claim_json i) +:+ w') <= claimBodyLimitBytes ->
  decode_body (w +:+ compact (claim_json i) +:+ w') false = Body i.
Proof.
  intros Hi Hw Hw' Hl. unfold decode_body, JsonRead.MaxBytes. rewrite (proj2 (Z.ltb_ge _ _)) by done.
  unfold JsonRead.Decode. rewrite JsonRead.first_value_ws, JsonRead.first_compact;
    [|unfold JsonRead.maxNestingDepth; cbn; lia|by apply JsonRead.ws_text_stops|done].
  cbn [JsonRead.val_of claim_json JsonRead.bracketed]. change (JsonRead.VObject _) with (JsonRead.val_of (claim_json i)).
  rewrite input_decodes by done. unfold JsonRead.More. rewrite <- (sapp_nil_r w'), JsonRead.skip_ws by done. by destruct i.
Qed.


(** ** The decoder at work *)

Definition sample_input : Input := mkInput "00ff" "operator" "me@example.org" ("a <b> " +:+ dquote +:+ newline +:+ RuneError).


(** Each refusal of the decoder. *)
Example bodies_refused :
  decode_body "" false = BodyEmpty
  /\ decode_body newline false = BodyEmpty
  /\ decode_body "{" false = BodyMalformed
  /\ decode_body newline true = BodyMalformed
  /\ decode_body (compact (JObject [("token", JInt 7)]%string)) false = BodyMalformed
  /\ decode_body (compact (JObject [("role", JString "owner")]%string)) false = BodyMalformed
  /\ decode_body (compact (JArray [])) false = BodyMalformed
  /\ decode_body (compact (claim_json sample_input) +:+ "{") false = BodyTrailing sample_input
  /\ decode_body (compact (JObject [("password"%string, JString (spaces 9000))])) false = BodyTooLarge.
Proof. vm_compute. repeat split. Qed.

(** What is accepted beside the one object the message asks for: a closing
    bracket after it, a name in another case, a name given twice, null, and any
    length of white space after the limit. *)
Example bodies_accepted :
  decode_body (compact (claim_json sample_input) +:+ "}]x") false = Body sample_input
  /\ decode_body (compact (JObject [("TOKEN", JString "t"); ("token", JString "u"); ("Email", JString "e")]%string)) false
     = Body (mkInput "u" "" "e" "")
  /\ decode_body "null" false = Body (mkInput "" "" "" "")
  /\ decode_body (compact (claim_json sample_input) +:+ spaces 9000) false = Body sample_input.
Proof. vm_compute. repeat split. Qed.
