(* ===== verification/ClaimHttp.v ===== *)
(** * The setup endpoints (src/internal/httpapi/setup.go, setup_limits.go, middleware.go)

    The guard that keeps an unclaimed instance shut, the claim-status read and
    the claim itself: ceilings, the claimed cache, the order of the refusals,
    the mapping of errors to answers, the failure budgets and the audit rows.
    A handler returns its answer and the state of the server after it.  The
    media type reaches the handler already parsed; the body is decoded by
    [ClaimBody]. *)

From S2P Require Import Prelude Utf8 Regex GoStrings GoTime GoFmt GoJson Sha256 Pg Credential OwnerStore AuditLog OwnerClaim ClaimBody OwnerSystem Limiter Origin.

(** ** Constants *)

Definition pathSetupClaimStatus : string := "/api/v1/setup/claim-status".
Definition pathSetupClaimOwner : string := "/api/v1/setup/claim-owner".
Definition claimRateWindow : Z := 15 * Minute.
Definition claimFailuresPerOrigin : Z := 10.
Definition claimFailuresGlobal : Z := 60.
Definition claimOwnerCeiling : Z := 600.
Definition claimStatusCeiling : Z := 3000.
Definition claimedNegativeTTL : Z := Second.
Definition claimedMessage : string := "this instance already has an owner".
Definition tokenRefusedMessage : string := "that claim token was not accepted".

(** ** Answers *)

(** A JSON answer: a success with its body, or the Error schema. *)
Inductive Answer :=
| Success (status : Z) (body : list (string * string))
| Failure (status : Z) (code message : string).

Definition status_of (a : Answer) : Z :=
  match a with Success s _ => s | Failure s _ _ => s end.

Definition code_of (a : Answer) : string :=
  match a with Success _ _ => "" | Failure _ c _ => c end.

(** What a handler returns instead of an answer: a coded error, or any other. *)
Inductive HandlerError :=
| Coded (status : Z) (code message : string)
| Uncoded.

Definition httpCodeName (status : Z) : string :=
  if status =? 400 then "bad_request"
  else if status =? 401 then "unauthorized"
  else if status =? 403 then "forbidden"
  else if status =? 404 then "not_found"
  else if status =? 405 then "method_not_allowed"
  else if status =? 409 then "conflict"
  else if status =? 413 then "payload_too_large"
  else if status =? 415 then "unsupported_media_type"
  else if status =? 429 then "rate_limited"
  else if status =? 503 then "unavailable"
  else "internal_error".

(** [errorHandler]: a message below 500 is the error's own, never above. *)
Definition errorHandler (e : HandlerError) : Answer :=
  match e with
  | Coded status code message =>
      Failure status code (if status <? 500 then message else "an internal error occurred")
  | Uncoded => Failure 500 (httpCodeName 500) "an internal error occurred"
  end.

(** ** The claimed cache *)

Record claimedCache := mkClaimedCache { cc_claimed : bool; cc_negative : Z }.

(** The cached bit and whether it may be used. *)
Definition cache_get (now : Z) (cc : claimedCache) : bool * bool :=
  if cc_claimed cc then (true, true)
  else if negb (cc_negative cc =? 0) && (now - cc_negative cc <? claimedNegativeTTL) then (false, true)
  else (false, false).

Definition cache_set (claimed : bool) (now : Z) (cc : claimedCache) : claimedCache :=
  if claimed then mkClaimedCache true (cc_negative cc) else mkClaimedCache (cc_claimed cc) now.

(** ** Requests and the server *)

Record Request := mkRequest {
  Method : string;
  Path : string;
  ContentType : string;
  MediaType : option string;      (* mime.ParseMediaType of the content type *)
  OriginHeader : string;
  SecFetchSite : string;
  XForwardedFor : string;
  Forwarded : string;
  RemoteAddr : string;
  RequestID : string;
  ReqBody : string;
  BodyFails : bool                (* reading the body fails after its bytes *)
}.

Definition decoded (r : Request) : Decoded := decode_body (ReqBody r) (BodyFails r).

(** The cache server is [Cache]; [limiter] is nil when no limiter is configured. *)
Record Server {Cache : Type} := mkServer {
  claimed : claimedCache;
  limiter : option FallbackLimiter;
  cache : Cache;
  store : Db
}.
Arguments Server : clear implicits.
Arguments mkServer {Cache}.

(** What one request meets: the clock, the context and cache flags of each
    limiter call by key, the claimed lookup, whether a pool resolves, the claim's
    statements, and the identifier of an audit row outside a transaction. *)
Record Env := mkEnv {
  e_now : Z;
  e_flags : string -> bool * bool * bool;
  e_lookup : option bool;
  e_pool : bool;
  e_claim : ClaimEnv;
  e_db_now : timestamp;
  e_audit : option uuid;
  e_audit_fault : bool
}.

Definition claimExemptRoutes : list string :=
  ["GET /healthz"; "GET /readyz"; "GET /version"; "GET /schemaz";
   "GET " +:+ pathSetupClaimStatus; "POST " +:+ pathSetupClaimOwner].

Section Handlers.
Context `{Unicode, NetUrl, OwnerStore.Server} {Addr : Type} `{Netip Addr}.
Context {Cache : Type} `{WindowCounter Cache}.
(** The site the request resolved to and the configured public origin. *)
Context (site : Site) (PublicOrigin : string).

Definition with_claimed (cc : claimedCache) (s : Server Cache) : Server Cache :=
  mkServer cc (limiter s) (cache s) (store s).

Definition with_store (db : Db) (s : Server Cache) : Server Cache :=
  mkServer (claimed s) (limiter s) (cache s) db.

(** [e_lookup] is what [lookupClaimed] answers; [None] is its error. *)
Definition instanceClaimed (e : Env) (s : Server Cache) : option bool * Server Cache :=
  let '(c, fresh) := cache_get (e_now e) (claimed s) in
  if fresh then (Some c, s)
  else match e_lookup e with
       | None => (None, s)
       | Some c => (Some c, with_claimed (cache_set c (e_now e) (claimed s)) s)
       end.

(** The structural guard: [next] is the rest of the chain. *)
Definition requireClaimed (e : Env) (r : Request) (next : Server Cache -> Answer * Server Cache) (s : Server Cache)
    : Answer * Server Cache :=
  if one_of (Method r +:+ " " +:+ Path r) claimExemptRoutes then next s
  else match instanceClaimed e s with
       | (None, s') =>
           (errorHandler (Coded 503 "unavailable" "the instance state could not be read"), s')
       | (Some false, s') =>
           (errorHandler (Coded 403 "instance_unclaimed"
              "this instance has no owner yet; every other route is refused until it is claimed"), s')
       | (Some true, s') => next s'
       end.

(** ** Limits *)

(** One call of the limiter for a key. *)
Definition spend (e : Env) (key : string) (limit : Z) (s : Server Cache) : bool * Server Cache :=
  match limiter s with
  | None => (true, s)
  | Some l =>
      let '(ended, answers, ended_after) := e_flags e key in
      let '(c, l', a) := Allow ended answers ended_after key limit claimRateWindow (e_now e) (cache s) l in
      (a.1, mkServer (claimed s) (Some l') c (store s))
  end.

Definition setup_key (bucket : string) : string :=
  CacheKey site ["rl"; "setup.claim"; bucket]%string.

Definition allowSetupRequest (e : Env) (bucket : string) (limit : Z) (s : Server Cache) : bool * Server Cache :=
  spend e (setup_key bucket) limit s.

Definition clientIPPrefix (r : Request) : option string :=
  if (XForwardedFor r <>s "") || (Forwarded r <>s "") then None else IPPrefix (RemoteAddr r).

Definition claimLimiterKeys (r : Request) : option string * string :=
  (match clientIPPrefix r with Some p => Some (setup_key p) | None => None end, setup_key "all").

Definition consumeClaimFailure (e : Env) (r : Request) (s : Server Cache) : bool * Server Cache :=
  match limiter s with
  | None => (false, s)
  | Some _ =>
      let '(perOrigin, global) := claimLimiterKeys r in
      let '(limited, s1) :=
        match perOrigin with
        | Some k => let '(ok, s1) := spend e k claimFailuresPerOrigin s in (negb ok, s1)
        | None => (false, s)
        end in
      let '(ok, s2) := spend e global claimFailuresGlobal s1 in
      (limited || negb ok, s2)
  end.

Definition claimLimitTransition (e : Env) (s : Server Cache) : bool * Server Cache :=
  match limiter s with
  | None => (false, s)
  | Some _ => spend e (setup_key "audited") 1 s
  end.

(** An audit row outside any transaction; a failure is logged and dropped. *)
Definition record (e : Env) (r : Request) (action : string) (after : list (string * string)) (s : Server Cache) : Server Cache :=
  if negb (e_pool e) || e_audit_fault e then s
  else match Emit (e_audit e) (e_db_now e)
               (mkEvent ActorAnonymous None None action SubjectOwnerClaimToken None None (Some after)
                  (nonEmpty (RequestID r)) (clientIPPrefix r)) (store s) with
       | Ok db => with_store db s
       | Err _ => s
       end.

Definition recordClaimRefusal (e : Env) (r : Request) (s : Server Cache) : Server Cache :=
  record e r ActionOwnerClaimRefused [("reason"%string, ReasonTokenNotAccepted)] s.

Definition recordClaimRateLimited (e : Env) (r : Request) (s : Server Cache) : Server Cache :=
  record e r ActionOwnerClaimRateLimited [("bucket", "failure")]%string s.

Definition refuseToken (e : Env) (r : Request) (s : Server Cache) : HandlerError * Server Cache :=
  let '(limited, s1) := consumeClaimFailure e r s in
  if limited then
    let '(transition, s2) := claimLimitTransition e s1 in
    (Coded 429 "rate_limited" "too many failed attempts; try again shortly",
     if transition then recordClaimRateLimited e r s2 else s2)
  else (Coded 403 "forbidden" tokenRefusedMessage, recordClaimRefusal e r s1).

(** ** Refusals before the claim *)

(** [strings.EqualFold] on these ASCII names. *)
Definition requireJSONContentType (r : Request) : option HandlerError :=
  let refused := Coded 415 "unsupported_media_type" "send application/json" in
  if ContentType r =s "" then Some refused
  else match MediaType r with
       | None => Some refused
       | Some mt => if ToLower mt =s "application/json" then None else Some refused
       end.

Definition checkOrigin (r : Request) : option HandlerError :=
  let mismatch :=
    if OriginHeader r =s "" then false
    else
      let gotN := NormalizeOrigin (OriginHeader r) in
      let wantN := NormalizeOrigin PublicOrigin in
      (gotN =s "") || (wantN =s "") || (gotN <>s wantN) in
  if mismatch then
    Some (Coded 403 "origin_mismatch"
      "the request Origin does not match this instance's configured public origin")
  else if one_of (SecFetchSite r) [""; "same-origin"; "none"] then None
  else Some (Coded 403 "origin_mismatch" "this request appears to come from another site").

(** ** The mapping of claim errors *)

Definition unavailableAnswer : HandlerError :=
  Coded 503 "unavailable" "the instance state could not be read".

Definition mark_claimed (e : Env) (s : Server Cache) : Server Cache :=
  with_claimed (cache_set true (e_now e) (claimed s)) s.

(** [ErrOther] and the sentinels of [Mint] carry no context error, so they fall
    through to the 500 of the shared handler. *)
Definition mapClaimError (e : Env) (r : Request) (err : OwnerError) (s : Server Cache) : HandlerError * Server Cache :=
  match err with
  | ErrAlreadyClaimed => (Coded 409 "conflict" claimedMessage, mark_claimed e s)
  | ErrTokenNotAccepted => refuseToken e r s
  | ErrBusy => (Coded 503 "unavailable" "the server is busy; try again shortly", s)
  | ErrUnavailable => (unavailableAnswer, s)
  | ValidationError _ m => (Coded 400 "bad_request" m, s)
  | ErrPg pg =>
      if IsServerUnavailable (Code pg) then (unavailableAnswer, s)
      else if (Code pg =s "23505") && (ConstraintName pg =s "users_one_owner")
      then (Coded 409 "conflict" claimedMessage, mark_claimed e s)
      else if Code pg =s "23505"
      then (Coded 409 "conflict" "that username or email address is already taken", s)
      else if Code pg =s "23514"
      then (Coded 400 "bad_request" "one of the submitted values is not acceptable", s)
      else (Uncoded, s)
  | ErrHasUsers | ErrLiveTokenExists _ | ErrOther => (Uncoded, s)
  end.

(** ** Handlers *)

Definition tooMany : HandlerError :=
  Coded 429 "rate_limited" "too many requests to the setup endpoint; try again shortly".

Definition handleClaimStatus (e : Env) (s : Server Cache) : Answer * Server Cache :=
  let '(ok, s1) := allowSetupRequest e "ceiling.status" claimStatusCeiling s in
  if negb ok then (errorHandler tooMany, s1)
  else match instanceClaimed e s1 with
       | (None, s2) => (errorHandler unavailableAnswer, s2)
       | (Some c, s2) =>
           (Success 200 [("claimed"%string, if c then "true" else "false")%string],
            with_claimed (cache_set c (e_now e) (claimed s2)) s2)
       end.

Definition handleClaimOwner (e : Env) (r : Request) (s : Server Cache) : Answer * Server Cache :=
  let '(ok, s1) := allowSetupRequest e "ceiling.claim" claimOwnerCeiling s in
  if negb ok then (errorHandler tooMany, s1)
  else match instanceClaimed e s1 with
  | (None, s2) => (errorHandler unavailableAnswer, s2)
  | (Some true, s2) => (errorHandler (Coded 409 "conflict" claimedMessage), s2)
  | (Some false, s2) =>
  match requireJSONContentType r with
  | Some err => (errorHandler err, s2)
  | None =>
  match decoded r with
  | BodyTooLarge => (errorHandler (Coded 413 "payload_too_large" "the request body is too large"), s2)
  | BodyEmpty => (errorHandler (Coded 400 "bad_request" "the request body is empty"), s2)
  | BodyMalformed =>
      (errorHandler (Coded 400 "bad_request" "the request body is not the expected JSON object"), s2)
  | BodyTrailing _ =>
      (errorHandler (Coded 400 "bad_request" "the request body must contain exactly one JSON object"), s2)
  | Body i =>
  match checkOrigin r with
  | Some err => (errorHandler err, s2)
  | None =>
  if negb (e_pool e) then (errorHandler unavailableAnswer, s2)
  else match Claim (e_claim e) i (RequestID r) (clientIPPrefix r) (e_db_now e) (store s2) with
  | (Ok res, db, _) =>
      (Success 201 [("username"%string, r_Username res); ("role"%string, r_Role res)],
       mark_claimed e (with_store db s2))
  | (Err err, db, _) =>
      let '(he, s3) := mapClaimError e r err (with_store db s2) in (errorHandler he, s3)
  end end end end end.

End Handlers.

(** ** What the handlers guarantee *)

(** The two outcomes of a claim, as the handler sees them. *)
Lemma Claim_outcome `{Unicode, OwnerStore.Server} env i corr ip now db :
  (exists err h, Claim env i corr ip now db = (Err err, db, h))
  \/ exists res u db' h, Claim env i corr ip now db = (Ok res, db', h)
       /\ users db' = users db ++ [mkUser u (in_Username i) (in_Email i) owner None].
Proof.
  destruct (Claim_cases env i corr ip now db)
    as [(err & h & -> & _)|(row & hash & uid & cid & t & a & _ & _ & _ & _ & _ & ->)]; [by left; eauto|].
  right. by do 4 eexists.
Qed.

Section HandlerProperties.
Context `{HU : Unicode, HN : NetUrl, HS : OwnerStore.Server} {Addr : Type} `{HA : Netip Addr}.
Context {Cache : Type} `{HC : WindowCounter Cache}.
Context (site : Site) (PublicOrigin : string).

Lemma instanceClaimed_spec e (s : Server Cache) :
  store (instanceClaimed e s).2 = store s /\ limiter (instanceClaimed e s).2 = limiter s
  /\ match (instanceClaimed e s).1 with
     | Some true => cc_claimed (claimed (instanceClaimed e s).2) = true
                    /\ (cc_claimed (claimed s) = true \/ e_lookup e = Some true)
     | Some false => cc_claimed (claimed s) = false
     | None => e_lookup e = None /\ cc_claimed (claimed s) = false
     end.
Proof.
  unfold instanceClaimed, cache_get. destruct (cc_claimed (claimed s)) eqn:Hc; [by simpl; auto|].
  destruct (_ && _); [by simpl; auto|]. destruct (e_lookup e) as [[]|]; simpl; auto.
Qed.

Lemma spend_store e key limit (s : Server Cache) :
  store (spend e key limit s).2 = store s /\ claimed (spend e key limit s).2 = claimed s.
Proof.
  unfold spend. destruct (limiter s) as [l|]; [|done].
  destruct (e_flags e key) as [[x y] z]. by destruct (Allow _ _ _ _ _ _ _ _ _) as [[c l'] a].
Qed.

Lemma consume_store e r (s : Server Cache) :
  store (consumeClaimFailure site e r s).2 = store s
  /\ claimed (consumeClaimFailure site e r s).2 = claimed s.
Proof.
  unfold consumeClaimFailure. destruct (limiter s); [|done].
  destruct (claimLimiterKeys site r) as [[k|] g].
  - pose proof (spend_store e k claimFailuresPerOrigin s) as [H1 H2].
    destruct (spend e k _ s) as [ok s1]. simpl in H1, H2.
    pose proof (spend_store e g claimFailuresGlobal s1) as [H3 H4].
    destruct (spend e g _ s1) as [ok2 s2]. simpl in *. by rewrite H3, H4.
  - pose proof (spend_store e g claimFailuresGlobal s) as [H3 H4].
    by destruct (spend e g _ s) as [ok2 s2].
Qed.

(** At most one audit row, of the given action; nothing else of the store. *)
Definition logged (action : string) (db db' : Db) : Prop :=
  db' = db \/ exists a, a_action a = action
    /\ db' = mkDb (users db) (credentials db) (token db) (audit_events db ++ [a]).

Lemma record_logged e r action after (s : Server Cache) :
  logged action (store s) (store (record e r action after s)).
Proof.
  unfold record. destruct (_ || _); [by left|].
  destruct (Emit _ _ _ _) as [db|] eqn:He; [|by left].
  apply Emit_ok in He as (i & _ & ->). right. eexists. split; [|done]. done.
Qed.

Lemma refuseToken_effect e r (s : Server Cache) :
  (refuseToken site e r s).1 = Coded 403 "forbidden" tokenRefusedMessage
    /\ logged ActionOwnerClaimRefused (store s) (store (refuseToken site e r s).2)
  \/ (refuseToken site e r s).1 = Coded 429 "rate_limited" "too many failed attempts; try again shortly"
    /\ logged ActionOwnerClaimRateLimited (store s) (store (refuseToken site e r s).2).
Proof.
  unfold refuseToken. pose proof (consume_store e r s) as [Hs _].
  destruct (consumeClaimFailure site e r s) as [limited s1]. simpl in Hs. destruct limited.
  - right. assert (Ht : store (claimLimitTransition site e s1).2 = store s1).
    { unfold claimLimitTransition. destruct (limiter s1); [|done]. by apply spend_store. }
    destruct (claimLimitTransition site e s1) as [tr s2]. simpl in Ht. simpl. split; [done|].
    rewrite <- Hs, <- Ht. destruct tr; [apply record_logged|by left].
  - left. split; [done|]. simpl. rewrite <- Hs. apply record_logged.
Qed.

(** The guard: behind it a route is reached only if it is on the allowlist
    or the instance is known to be claimed, by the cache or by the lookup just
    made; otherwise the answer is 403 [instance_unclaimed], or 503 when the
    lookup failed, and in no case is the store touched by the guard itself. *)
Theorem guard_admits e r (next : Server Cache -> Answer * Server Cache) s :
  (one_of (Method r +:+ " " +:+ Path r) claimExemptRoutes = true
   /\ requireClaimed e r next s = next s)
  \/ (exists s', requireClaimed e r next s = next s' /\ store s' = store s
        /\ cc_claimed (claimed s') = true
        /\ (cc_claimed (claimed s) = true \/ e_lookup e = Some true))
  \/ (cc_claimed (claimed s) = false
      /\ store (requireClaimed e r next s).2 = store s
      /\ (status_of (requireClaimed e r next s).1 = 403
           /\ code_of (requireClaimed e r next s).1 = "instance_unclaimed"%string
          \/ status_of (requireClaimed e r next s).1 = 503 /\ e_lookup e = None)).
Proof.
  unfold requireClaimed. destruct (one_of _ _); [by left|]. right.
  pose proof (instanceClaimed_spec e s) as (Hs & _ & Hc).
  destruct (instanceClaimed e s) as [[[]|] s']; simpl in Hs, Hc.
  - left. exists s'. split; [done|]. split; [done|]. exact Hc.
  - right. simpl. auto.
  - right. simpl. destruct Hc as [Hl Hf]. auto.
Qed.

(** A claimed instance is inert: once the cache holds the bit, or when the
    lookup answers that the instance is claimed, the claim endpoint answers 409,
    or 429 above its ceiling, whatever the request carries, and writes nothing;
    the status endpoint never writes to the store. *)
Theorem claimed_instance_inert e r (s : Server Cache) :
  (cc_claimed (claimed s) = true
   \/ e_lookup e = Some true /\ cache_get (e_now e) (claimed s) = (false, false)) ->
  (status_of (handleClaimOwner site PublicOrigin e r s).1 = 409
   \/ status_of (handleClaimOwner site PublicOrigin e r s).1 = 429)
  /\ store (handleClaimOwner site PublicOrigin e r s).2 = store s
  /\ store (handleClaimStatus site e s).2 = store s.
Proof.
  intros Hcl. unfold handleClaimOwner, handleClaimStatus, allowSetupRequest.
  pose proof (spend_store e (setup_key site "ceiling.claim") claimOwnerCeiling s) as [H1 H2].
  pose proof (spend_store e (setup_key site "ceiling.status") claimStatusCeiling s) as [H3 H4].
  destruct (spend e (setup_key site "ceiling.claim") _ s) as [ok s1].
  destruct (spend e (setup_key site "ceiling.status") _ s) as [ok' s1']. simpl in *.
  assert (Htrue : forall x : Server Cache, claimed x = claimed s ->
    (instanceClaimed e x).1 = Some true /\ store (instanceClaimed e x).2 = store x).
  { intros x Hx. unfold instanceClaimed. rewrite Hx. destruct Hcl as [Hc|[Hl Hg]].
    - unfold cache_get. by rewrite Hc.
    - rewrite Hg, Hl. done. }
  apply Logic.and_assoc. split.
  - destruct ok; simpl; [|by auto]. destruct (Htrue s1 H2) as [Hi Hst].
    destruct (instanceClaimed e s1) as [c s2]. simpl in *. subst c. simpl. split; [auto|congruence].
  - destruct ok'; simpl; [|done]. destruct (Htrue s1' H4) as [Hi Hst].
    destruct (instanceClaimed e s1') as [c s2]. simpl in *. subst c. simpl. congruence.
Qed.

Lemma checkOrigin_none r :
  checkOrigin PublicOrigin r = None ->
  OriginHeader r = ""%string
  \/ NormalizeOrigin (OriginHeader r) = NormalizeOrigin PublicOrigin
     /\ NormalizeOrigin PublicOrigin <> ""%string.
Proof.
  unfold checkOrigin. destruct (String.eqb_spec (OriginHeader r) ""); [by left|].
  destruct (String.eqb_spec (NormalizeOrigin (OriginHeader r)) ""); [done|].
  destruct (String.eqb_spec (NormalizeOrigin PublicOrigin) ""); [done|]. simpl.
  destruct (String.eqb_spec (NormalizeOrigin (OriginHeader r)) (NormalizeOrigin PublicOrigin)) as [->|];
    [|done]. by right.
Qed.

(** The effect of an error on the store. *)
Lemma mapClaimError_effect e r err (s : Server Cache) :
  store (mapClaimError site e r err s).2 = store s
  \/ err = ErrTokenNotAccepted /\ mapClaimError site e r err s = refuseToken site e r s.
Proof.
  destruct err as [| | | | |f m| |pg|]; simpl; try (by left); [by right|].
  destruct (IsServerUnavailable _); [by left|]. destruct (_ && _); [by left|].
  destruct (_ =s _); [by left|]. destruct (_ =s _); by left.
Qed.

Lemma mapClaimError_status e r err (s : Server Cache) :
  status_of (errorHandler (mapClaimError site e r err s).1) <> 201.
Proof.
  destruct err as [| | | | |f m| |pg|]; simpl; try done.
  - destruct (refuseToken_effect e r s) as [[-> _]|[-> _]]; done.
  - destruct (IsServerUnavailable _); [done|]. destruct (_ && _); [done|].
    destruct (_ =s _); [done|]. by destruct (_ =s _).
Qed.

(** What the handler does once its own refusals are passed. *)
Lemma handleClaimOwner_cases e r (s : Server Cache) :
  (status_of (handleClaimOwner site PublicOrigin e r s).1 <> 201
   /\ store (handleClaimOwner site PublicOrigin e r s).2 = store s)
  \/ exists i (s2 : Server Cache), decoded r = Body i /\ checkOrigin PublicOrigin r = None /\ store s2 = store s
       /\ handleClaimOwner site PublicOrigin e r s
          = match Claim (e_claim e) i (RequestID r) (clientIPPrefix r) (e_db_now e) (store s2) with
            | (Ok res, db, _) =>
                (Success 201 [("username"%string, r_Username res); ("role"%string, r_Role res)],
                 mark_claimed e (with_store db s2))
            | (Err err, db, _) =>
                let '(he, s3) := mapClaimError site e r err (with_store db s2) in (errorHandler he, s3)
            end.
Proof.
  unfold handleClaimOwner, allowSetupRequest.
  pose proof (spend_store e (setup_key site "ceiling.claim") claimOwnerCeiling s) as [H1 _].
  destruct (spend _ _ _ s) as [ok s1]. simpl in H1. destruct ok; simpl; [|by left].
  pose proof (instanceClaimed_spec e s1) as (Hs & _). destruct (instanceClaimed e s1) as [c s2].
  simpl in Hs. assert (Hst : store s2 = store s) by congruence.
  destruct c as [[]|]; [by left| |by left].
  destruct (requireJSONContentType r) as [he|] eqn:Hct.
  { left. split; [|done]. unfold requireJSONContentType in Hct. split_in Hct; done. }
  destruct (decoded r) as [| | |i|i]; try (by left).
  destruct (checkOrigin PublicOrigin r) as [he|] eqn:Ho.
  { left. split; [|done]. unfold checkOrigin in Ho. split_in Ho; done. }
  destruct (e_pool e); simpl; [|by left]. right. by exists i, s2.
Qed.

(** C33. The answer and the store agree: 201 is answered exactly when a claim
    succeeded, for a request from the configured origin or with none, and then
    the owner is added and the bit cached; on any other answer users, credentials
    and token are as before, and at most one audit row is added, a refusal with
    403 or the first rate limitation with 429. *)
Theorem claim_answer_effects e r (s s' : Server Cache) a :
  handleClaimOwner site PublicOrigin e r s = (a, s') ->
  if status_of a =? 201
  then cc_claimed (claimed s') = true
       /\ (OriginHeader r = ""%string
           \/ NormalizeOrigin (OriginHeader r) = NormalizeOrigin PublicOrigin
              /\ NormalizeOrigin PublicOrigin <> ""%string)
       /\ exists i u, decoded r = Body i
            /\ users (store s') = users (store s) ++ [mkUser u (in_Username i) (in_Email i) owner None]
  else store s' = store s
       \/ code_of a = "forbidden"%string /\ logged ActionOwnerClaimRefused (store s) (store s')
       \/ code_of a = "rate_limited"%string /\ logged ActionOwnerClaimRateLimited (store s) (store s').
Proof.
  intros Hh. destruct (handleClaimOwner_cases e r s) as [[H1 H2]|(i & s2 & Hd & Ho & Hst & He)].
  { rewrite Hh in H1, H2. simpl in *. rewrite (proj2 (Z.eqb_neq _ _) H1). by left. }
  rewrite He in Hh.
  destruct (Claim_outcome (e_claim e) i (RequestID r) (clientIPPrefix r) (e_db_now e) (store s2))
    as [(err & h & Hc)|(res & u & db & h & Hc & Hu)]; rewrite Hc in Hh.
  - pose proof (mapClaimError_status e r err (with_store (store s2) s2)) as Hne.
    pose proof (mapClaimError_effect e r err (with_store (store s2) s2)) as Heff.
    pose proof (refuseToken_effect e r (with_store (store s2) s2)) as Href.
    destruct (mapClaimError site e r err (with_store (store s2) s2)) as [he s3]. injection Hh as <- <-.
    simpl in Hne, Heff. rewrite (proj2 (Z.eqb_neq _ _) Hne).
    destruct Heff as [Heq|[_ Heq]]; [left; congruence|]. right. rewrite <- Heq in Href.
    simpl in Href. rewrite Hst in Href. destruct Href as [[-> Hl]|[-> Hl]]; [by left|by right].
  - injection Hh as <- <-. simpl. split; [done|]. split; [by apply checkOrigin_none|].
    exists i, u. split; [done|]. by rewrite Hu, Hst.
Qed.

(** A claim whose email the server refuses as text. *)
Lemma unstorable_email_claim env i corr ip now db row hash uid cid aid :
  (forall p, c_fault env p = None) -> AnyUserExists (c_check env) = false ->
  AnyUserExists (c_gate env) = false -> examineToken env i = Ok (Some row) ->
  c_hash env (in_Password i) = Ok hash -> c_ids env = (Some uid, Some cid, aid) ->
  pg_text (in_Email i) = false ->
  Claim env i corr ip now db = (Err (ErrPg (mkPgError "22021" "")), db, true).
Proof.
  intros Hf Hck Hgt Hex Hh Hids Hem. unfold Claim, Claimed, claim_write.
  rewrite !Hf, Hck, Hex, Hh, Hids. simpl. rewrite Hgt.
  unfold ClaimOwner, text_error. simpl. rewrite Hem. by rewrite andb_false_r.
Qed.

(** The email pattern accepts bytes the text column does not: with every
    guard passed and a live token, an email that is valid for [Validate] but is
    not storable text (a zero byte, which JSON can carry) is refused by the
    server with 22021, which is no CHECK and no outage, so the endpoint answers
    500 and the claim fails, leaving the store as it was. *)
Theorem unstorable_email_is_500 e r (s : Server Cache) i row hash uid cid aid :
  limiter s = None -> claimed s = mkClaimedCache false 0 -> e_lookup e = Some false ->
  requireJSONContentType r = None -> decoded r = Body i -> checkOrigin PublicOrigin r = None ->
  e_pool e = true ->
  (forall p, c_fault (e_claim e) p = None) -> AnyUserExists (c_check (e_claim e)) = false ->
  AnyUserExists (c_gate (e_claim e)) = false -> examineToken (e_claim e) i = Ok (Some row) ->
  c_hash (e_claim e) (in_Password i) = Ok hash -> c_ids (e_claim e) = (Some uid, Some cid, aid) ->
  pg_text (in_Email i) = false ->
  handleClaimOwner site PublicOrigin e r s
  = (Failure 500 "internal_error" "an internal error occurred",
     mkServer (mkClaimedCache false (e_now e)) None (cache s) (store s)).
Proof.
  intros Hlim Hcl Hlk Hct Hd Ho Hp Hf Hck Hgt Hex Hh Hids Hem.
  unfold handleClaimOwner, allowSetupRequest, spend. rewrite Hlim. simpl.
  unfold instanceClaimed. rewrite Hcl, Hlk. simpl. rewrite Hct, Hd, Ho, Hp. simpl.
  rewrite (unstorable_email_claim _ i _ _ _ _ row hash uid cid aid) by done. simpl.
  unfold with_store, with_claimed, cache_set. simpl. by rewrite ?Hlim, ?Hcl.
Qed.

End HandlerProperties.

(** ** The properties at work *)

Module HttpSamples.

Import OwnerSystem.Samples.

#[local] Instance whole : NetUrl := fun s => Some (mkURL "https" false "photos.example.org" "" "" "").
#[local] Instance no_addresses : Netip unit := {|
  SplitHostPort := fun _ => None; ParseAddr := fun _ => None; Zone := fun _ => ""%string;
  Unmap := fun a => a; IsValid := fun _ => false; IsUnspecified := fun _ => false;
  IsLoopback := fun _ => false; Is4 := fun _ => false; prefix_text := fun _ _ => None |}.

Definition site : Site := mkSite "main" "https://photos.example.org" "" "ns" "st".
Definition request (i : Input) : Request :=
  mkRequest "POST" pathSetupClaimOwner "application/json" (Some "application/json"%string)
    "https://photos.example.org" "same-origin" "" "" "192.0.2.7:4000" "req-1" (compact (claim_json i)) false.
Definition env (lookup : option bool) (c : ClaimEnv) : Env :=
  mkEnv 5 (fun _ => (false, false, false)) lookup true c 2000 (Some "a9"%string) false.
Definition server (cc : claimedCache) (db : Db) : Server MemoryLimiter :=
  mkServer cc None NewMemoryLimiter db.

(** An address with a zero byte before the at sign. *)
Definition nul_email : string := "me" +:+ String zero ("@example.org").
Definition nul_input : Input := mkInput (hex entropy) "operator" nul_email "correct horse battery".

End HttpSamples.

Import HttpSamples OwnerSystem.Samples.
#[local] Existing Instance latin.
#[local] Existing Instance OwnerSystem.Samples.server.
#[local] Existing Instance whole.
#[local] Existing Instance no_addresses.

Definition cold : claimedCache := mkClaimedCache false 0.

(** The store after the sample claim, audited under the request's identifier. *)
Definition claimed_db_http : Db :=
  (Claim (calm minted_db) (OwnerSystem.Samples.request (hex entropy)) "req-1" None 2000 minted_db).1.2.

Lemma claimed_instance_inert_witness :
  store (handleClaimOwner site "https://photos.example.org" (env (Some true) (calm claimed_db))
           (HttpSamples.request (OwnerSystem.Samples.request "x"))
           (HttpSamples.server cold claimed_db)).2 = claimed_db.
Proof.
  destruct (claimed_instance_inert site "https://photos.example.org" (env (Some true) (calm claimed_db))
              (HttpSamples.request (OwnerSystem.Samples.request "x"))
              (HttpSamples.server cold claimed_db)) as (_ & Hs & _); [by right|exact Hs].
Defined.

Lemma claim_answer_effects_witness :
  exists a s', handleClaimOwner site "https://photos.example.org" (env (Some false) (calm minted_db))
                 (HttpSamples.request (OwnerSystem.Samples.request (hex entropy)))
                 (HttpSamples.server cold minted_db) = (a, s')
    /\ status_of a = 201 /\ cc_claimed (claimed s') = true.
Proof.
  pose proof (claim_answer_effects site "https://photos.example.org" (env (Some false) (calm minted_db))
    (HttpSamples.request (OwnerSystem.Samples.request (hex entropy)))
    (HttpSamples.server cold minted_db)
    (HttpSamples.server (mkClaimedCache true 5) claimed_db_http)
    (Success 201 [("username", "operator"); ("role", "owner")]%string)) as Hc.
  do 2 eexists. split; [vm_compute; reflexivity|]. split; [done|].
  apply Hc. vm_compute. reflexivity.
Defined.

Lemma unstorable_email_is_500_witness :
  status_of (handleClaimOwner site "https://photos.example.org" (env (Some false) (calm minted_db))
               (HttpSamples.request nul_input) (HttpSamples.server cold minted_db)).1 = 500.
Proof.
  rewrite (unstorable_email_is_500 site "https://photos.example.org" (env (Some false) (calm minted_db))
             (HttpSamples.request nul_input) (HttpSamples.server cold minted_db) nul_input
             (minted (Sum256 (hex entropy)) (interval ttl) 1000 None) phc "u" "c" (Some "a3"%string));
    try done; by vm_compute.
Defined.
