(* ===== verification/Config.v ===== *)
(** * Configuration (src/internal/config/config.go, keys.go)

    One validator, [LoadFrom], which boot, setup, doctor and CI share: it reads
    every key through a lookup, collects every problem and answers either the
    configuration or all the problems, sorted.  The URL functions of the
    language's library are the parameters [NetUrl] and [UrlPrint]. *)

From Stdlib Require Import Sorted Permutation.
From S2P Require Import Prelude Utf8 Regex GoStrings Decimals GoTime Origin.

(** ** The key registry (keys.go) *)

Record Key := mkKey {
  Name : string;
  Secret : bool;
  RequiredInProduction : bool;
  RefuseIfPresent : bool;
  Default : string;
  Doc : string
}.

Definition EscapeHatches : list Key :=
  [mkKey "VIZRA_DEV_DISABLE_AUTH" false false false ""
    "Skips authentication entirely. Development only.";
   mkKey "VIZRA_DEV_ALLOW_ANY_ORIGIN" false false false ""
    "Disables the CSRF same-origin check. Development only.";
   mkKey "VIZRA_DEV_SKIP_MIGRATIONS" false false false ""
    "Boots without applying migrations. Development only.";
   mkKey "VIZRA_DEV_AUTOLOGIN_USER" false false true ""
    "Signs every request in as this user. Development only.";
   mkKey "VIZRA_DEV_FAKE_SEARCH" false false false ""
    "Returns canned search results. Development only.";
   mkKey "VIZRA_DEV_INSECURE_COOKIES" false false false ""
    "Drops the Secure attribute from session cookies. Development only.";
   mkKey "VIZRA_DEV_TRUST_ANY_HMAC" false false false ""
    "Accepts any internal HMAC signature. Development only."]%string.

Definition Registry : list Key :=
  [mkKey "VIZRA_MODE" false false false "development"
    "development | production. Production enables the fail-secure checks.";
   mkKey "VIZRA_PUBLIC_ORIGIN" false true false "http://localhost:8080"
    "Scheme, host and optional port the instance is reached at. The CSRF same-origin check compares against this.";
   mkKey "VIZRA_LISTEN_ADDR" false false false ":8080"
    "Address the public API server binds.";
   mkKey "VIZRA_METRICS_ADDR" false false false "127.0.0.1:9090"
    "Address the Prometheus listener binds. Never the same as VIZRA_LISTEN_ADDR: metrics are not part of the public API contract.";
   mkKey "VIZRA_SITE_HANDLE" false false false "default"
    "Handle of the single site row in core (ADR-007). One entry; the seam exists so tenancy is not precluded.";
   mkKey "DATABASE_URL" true true false ""
    "PostgreSQL DSN. The only DSN source in core (ADR-007 § The DSN source).";
   mkKey "VIZRA_CACHE_URL" true true false "redis://127.0.0.1:6379/0"
    "RESP server URL (Valkey managed, or any RESP >= 7.2 server). ADR-001 Q-004.";
   mkKey "VIZRA_CACHE_NAMESPACE" false false false "default"
    "Cache key namespace. Supplied by the site resolver; never hardcoded (Q-008 item 4).";
   mkKey "VIZRA_STORAGE_PREFIX" false false false "default"
    "Storage key prefix. Supplied by the site resolver; never a hardcoded root (Q-008 item 3).";
   mkKey "VIZRA_SESSION_SECRET" true true false ""
    "At least 32 bytes. Production refuses a known development value.";
   mkKey "VIZRA_MFA_KEY_KEK" true true false ""
    "Key-encryption key wrapping TOTP secrets. Unset in production is a boot refusal, never a warning (ADR-003).";
   mkKey "VIZRA_SEARCH_MODE" false false false "off"
    "off | managed | external. Default off until M3 (ADR-002, Q-001).";
   mkKey "VIZRA_SEARCH_URL" false false false ""
    "Base URL of vizra-search. Required when VIZRA_SEARCH_MODE is not off.";
   mkKey "SEARCH_HMAC_KEY" true false false ""
    "Shared secret for the internal search contract. At least 32 bytes. Required when VIZRA_SEARCH_MODE is not off. Named by the contract (api/search-internal.openapi.yaml), so it is NOT VIZRA_-prefixed.";
   mkKey "VIZRA_SEARCH_TIMEOUT" false false false "2s"
    "Per-request timeout for internal search calls.";
   mkKey "VIZRA_CORS_ALLOWED_ORIGINS" false false false ""
    "Comma-separated exact origins. Production refuses '*'.";
   mkKey "VIZRA_ALLOW_INSECURE_PUBLIC_ORIGIN" false false false ""
    "Set to true to allow a plain-http VIZRA_PUBLIC_ORIGIN in production. Explicit by design (ADR-002).";
   mkKey "VIZRA_QUEUE_AGE_THRESHOLD" false false false "15m"
    "Oldest queued job age above which readiness reports degraded and doctor FAILs (Q-028).";
   mkKey "VIZRA_WORKER_CONCURRENCY" false false false "4"
    "Maximum jobs a worker process runs at once.";
   mkKey "VIZRA_JOB_LEASE" false false false "60s"
    "Lease duration. The heartbeat renews at lease/3.";
   mkKey "VIZRA_JOB_TIMEOUT" false false false "5m"
    "Per-job wall-clock timeout, applied as a context deadline.";
   mkKey "VIZRA_SHUTDOWN_GRACE" false false false "20s"
    "Time allowed for in-flight requests after SIGTERM.";
   mkKey "VIZRA_OWNER_CLAIM_ANNOUNCE" false false false "off"
    "Where an unclaimed instance announces its owner-claim token: 'off' (default) prints only the command that mints one; 'stderr' WRITES A LIVE CREDENTIAL to the container log, which every log driver captures, ships and retains. Use 'stderr' only on a single host with no log aggregation.";
   mkKey "VIZRA_OWNER_CLAIM_TTL" false false false "1h"
    "How long an owner-claim token stays redeemable. It is minted on demand by `vizra claim-token`, so this only has to cover one claim attempt."]%string.

Record RetiredKey := mkRetiredKey {
  r_Name : string;
  ReplacedBy : string;
  Why : string
}.

Definition RetiredKeys : list RetiredKey :=
  [mkRetiredKey "VIZRA_SEARCH_HMAC_KEY" "SEARCH_HMAC_KEY"
     ("the canonical contract api/search-internal.openapi.yaml names this secret SEARCH_HMAC_KEY "
      +:+ "and vizra-search reads it under that name; core read a different spelling of the same shared secret")]%string.

Fixpoint default_in (keys : list Key) (k : string) : string :=
  match keys with
  | [] => ""
  | key :: keys => if Name key =s k then Default key else default_in keys k
  end.

Definition defaultFor (k : string) : string := default_in Registry k.
Definition DefaultFor (name : string) : string := default_in Registry name.

Definition AllKeys : list Key := Registry ++ EscapeHatches.

(** ** Values (config.go) *)

Definition ModeDevelopment : string := "development".
Definition ModeProduction : string := "production".
Definition SearchOff : string := "off".
Definition SearchManaged : string := "managed".
Definition SearchExternal : string := "external".
Definition OwnerClaimAnnounceOff : string := "off".
Definition OwnerClaimAnnounceStderr : string := "stderr".

Record Config := mkConfig {
  cfg_Mode : string;
  cfg_PublicOrigin : string;
  cfg_ListenAddr : string;
  cfg_MetricsAddr : string;
  cfg_SiteHandle : string;
  cfg_DatabaseURL : string;
  cfg_CacheURL : string;
  cfg_CacheNamespace : string;
  cfg_StoragePrefix : string;
  cfg_SessionSecret : string;
  cfg_MFAKeyKEK : string;
  cfg_SearchMode : string;
  cfg_SearchURL : string;
  cfg_SearchHMACKey : string;
  cfg_SearchTimeout : Z;
  cfg_CORSAllowedOrigins : list string;
  cfg_AllowInsecureOrigin : bool;
  cfg_OwnerClaimAnnounce : string;
  cfg_OwnerClaimTTL : Z;
  cfg_QueueAgeThreshold : Z;
  cfg_WorkerConcurrency : Z;
  cfg_JobLease : Z;
  cfg_JobTimeout : Z;
  cfg_ShutdownGrace : Z
}.

Definition Lookup := string -> option string.

Record Problem := mkProblem { p_Key : string; p_Message : string }.

Definition Problem_String (p : Problem) : string := p_Key p +:+ ": " +:+ p_Message p.

(** [ValidationError.Error] and [ValidationError.Has]. *)
Definition ValidationError_Error (ps : list Problem) : string :=
  "configuration is invalid (" +:+ Itoa (Z.of_nat (length ps)) +:+ " problem(s)):" +:+
  String (ascii_of_N 10) "  - " +:+ Join (map Problem_String ps) (String (ascii_of_N 10) "  - ").

Definition Has (ps : list Problem) (key : string) : bool :=
  existsb (fun p => p_Key p =s key) ps.

Definition knownDevSecrets : list string :=
  ["change"; "changeme"; "dev"; "devsecret"; "development"; "example";
   "insecure"; "password"; "placeholder"; "please-change-me"; "secret";
   "test"; "testing"; "todo"; "vizra"; "vizra-dev"; "xxx"; "0000"; "1234"]%string.

Definition knownPublishedSecrets : list string :=
  ["Ar4Lo8Cq2Ei6Uk0Wn3Sv7Yb1Md5Pt9Xz"; "Aa1Bb2Cc3Dd4Aa1Bb2Cc3Dd4Aa1Bb2Cc"]%string.

Definition isPublishedSecret (v : string) : bool := one_of v knownPublishedSecrets.

Definition minSecretBytes : Z := 32.

Definition looksLikeDevSecret `{Unicode} (v : string) : bool :=
  existsb (fun bad => Contains (ToLower v) bad) knownDevSecrets.

Definition truthy `{Unicode} (v : string) : bool :=
  one_of (ToLower (TrimSpace v)) ["1"; "t"; "true"; "y"; "yes"; "on"]%string.

Definition splitList (v : string) : list string :=
  if v =s "" then []
  else List.filter (fun p => p <>s "") (map TrimSpace (Split "," v)).

(** A copy of the URL that carries the user name, printed:
    [u.User = url.User(name); u.String()]. *)
Class UrlPrint := WithUser : URL -> string -> string.

Definition redactOrigin `{NetUrl, UrlPrint} (o : string) : string :=
  match Parse o with
  | Some u => if u_User u then WithUser u "redacted" else o
  | None => o
  end.

Definition bad (k msg : string) : list Problem := [mkProblem k msg].

(** [sort.Slice] by key, then message: a total order, so the result is unique. *)
Definition problem_le (a b : Problem) : bool :=
  match String.compare (p_Key a) (p_Key b) with
  | Lt => true
  | Gt => false
  | Eq => match String.compare (p_Message a) (p_Message b) with Gt => false | _ => true end
  end.

Fixpoint insert_problem (p : Problem) (ps : list Problem) : list Problem :=
  match ps with
  | [] => [p]
  | q :: ps => if problem_le p q then p :: q :: ps else q :: insert_problem p ps
  end.

Fixpoint sort_problems (ps : list Problem) : list Problem :=
  match ps with [] => [] | p :: ps => insert_problem p (sort_problems ps) end.

(** ** The validator *)

Section Loader.
Context `{HU : Unicode, HN : NetUrl, HP : UrlPrint}.
Context (lookup : Lookup).

Definition get (k : string) : string :=
  match lookup k with Some v => TrimSpace v | None => defaultFor k end.

(** A duration and the problems it raised; 0 when there is one. *)
Definition mustDuration (key : string) : Z * list Problem :=
  match ParseDuration (get key) with
  | None => (0, bad key "must be a duration such as 15m or 2s")
  | Some d => if d <=? 0 then (0, bad key "must be greater than zero") else (d, [])
  end.

Definition mustInt64 (key : string) : Z * list Problem :=
  match ParseInt (get key) with
  | None => (0, bad key "must be an integer")
  | Some n => (n, [])
  end.

(** [url.Parse] of an absolute http or https URL. *)
Definition absolute_http (s : string) : option URL :=
  match Parse s with
  | Some u => if (u_Host u =s "") || ((u_Scheme u <>s "http") && (u_Scheme u <>s "https"))
              then None else Some u
  | None => None
  end.

Definition trim_slashes (s : string) : string := trim_right_set (chr "/") s.

Definition mode : string := ToLower (get "VIZRA_MODE").
Definition production : bool := mode =s ModeProduction.
Definition search_mode : string := ToLower (get "VIZRA_SEARCH_MODE").
Definition announce : string := ToLower (get "VIZRA_OWNER_CLAIM_ANNOUNCE").
Definition insecure_allowed : bool := truthy (get "VIZRA_ALLOW_INSECURE_PUBLIC_ORIGIN").
Definition raw_origin : string := trim_slashes (get "VIZRA_PUBLIC_ORIGIN").
Definition search_url : string := trim_slashes (get "VIZRA_SEARCH_URL").
Definition cors : list string := splitList (get "VIZRA_CORS_ALLOWED_ORIGINS").

Definition duration_keys : list string :=
  ["VIZRA_SEARCH_TIMEOUT"; "VIZRA_QUEUE_AGE_THRESHOLD"; "VIZRA_JOB_LEASE"; "VIZRA_JOB_TIMEOUT";
   "VIZRA_SHUTDOWN_GRACE"; "VIZRA_OWNER_CLAIM_TTL"]%string.

(** The modes, the durations and the numbers. *)
Definition check_values : list Problem :=
  (if one_of mode [ModeDevelopment; ModeProduction] then []
   else bad "VIZRA_MODE" "must be 'development' or 'production'")
  ++ (if one_of search_mode [SearchOff; SearchManaged; SearchExternal] then []
      else bad "VIZRA_SEARCH_MODE" "must be 'off', 'managed' or 'external'")
  ++ flat_map (fun k => (mustDuration k).2) duration_keys
  ++ (if one_of announce [OwnerClaimAnnounceOff; OwnerClaimAnnounceStderr] then []
      else bad "VIZRA_OWNER_CLAIM_ANNOUNCE" "must be 'off' or 'stderr'")
  ++ (mustInt64 "VIZRA_WORKER_CONCURRENCY").2
  ++ (if (mustInt64 "VIZRA_WORKER_CONCURRENCY").1 <? 1
      then bad "VIZRA_WORKER_CONCURRENCY" "must be at least 1" else [])
  ++ (let lease := (mustDuration "VIZRA_JOB_LEASE").1 in
      let timeout := (mustDuration "VIZRA_JOB_TIMEOUT").1 in
      if (0 <? lease) && (0 <? timeout) && (timeout <=? lease)
      then bad "VIZRA_JOB_TIMEOUT" "must exceed VIZRA_JOB_LEASE, or a running job loses its lease before it can finish"
      else [])
  ++ (if get "VIZRA_SITE_HANDLE" =s "" then bad "VIZRA_SITE_HANDLE" "must not be empty" else [])
  ++ (if get "VIZRA_CACHE_NAMESPACE" =s ""
      then bad "VIZRA_CACHE_NAMESPACE" "must not be empty; it is supplied by the site resolver, never hardcoded"
      else [])
  ++ (if get "VIZRA_STORAGE_PREFIX" =s ""
      then bad "VIZRA_STORAGE_PREFIX" "must not be empty; it is supplied by the site resolver, never a hardcoded root"
      else []).

(** The public origin: what is stored, and the problems. *)
Definition check_origin : string * list Problem :=
  let k := "VIZRA_PUBLIC_ORIGIN"%string in
  if raw_origin =s "" then (raw_origin, bad k "must be set")
  else match absolute_http raw_origin with
  | None => (raw_origin, bad k "must be an absolute http or https origin, for example https://photos.example.org")
  | Some u =>
      if (u_Path u <>s "") && (u_Path u <>s "/") then (raw_origin, bad k "must not carry a path")
      else if production && (u_Scheme u =s "http") && negb insecure_allowed
      then (raw_origin, bad k "production refuses a plain-http origin; set VIZRA_ALLOW_INSECURE_PUBLIC_ORIGIN=true only behind a trusted TLS terminator")
      else
        let n := NormalizeOrigin raw_origin in
        if n =s ""
        then (raw_origin, bad k "must be comparable with a browser Origin header; write an internationalised host in its A-label (punycode) form, for example https://xn--80ak6aa92e.example")
        else (n, [])
  end.

(** The DSN and the cache URL. *)
Definition check_stores : list Problem :=
  (let v := get "DATABASE_URL" in
   if v =s "" then bad "DATABASE_URL" "must be set"
   else if negb (HasPrefix v "postgres://") && negb (HasPrefix v "postgresql://")
   then bad "DATABASE_URL" "must be a postgres:// or postgresql:// DSN" else [])
  ++ (let v := get "VIZRA_CACHE_URL" in
      if v =s "" then bad "VIZRA_CACHE_URL" "must be set"
      else if negb (HasPrefix v "redis://") && negb (HasPrefix v "rediss://")
      then bad "VIZRA_CACHE_URL" "must be a redis:// or rediss:// URL (Valkey speaks the same scheme)" else []).

(** The search topology. *)
Definition check_search : list Problem :=
  if search_mode =s SearchOff then []
  else
    (if search_url =s "" then bad "VIZRA_SEARCH_URL" "must be set when VIZRA_SEARCH_MODE is not 'off'"
     else match absolute_http search_url with
          | None => bad "VIZRA_SEARCH_URL" "must be an absolute http or https URL"
          | Some _ => []
          end)
    ++ (let v := get "SEARCH_HMAC_KEY" in
        if len v <? minSecretBytes
        then bad "SEARCH_HMAC_KEY" ("must be at least " +:+ Itoa minSecretBytes +:+ " bytes when VIZRA_SEARCH_MODE is not 'off'")
        else if production && isPublishedSecret v
        then bad "SEARCH_HMAC_KEY" "this value is published in this repository (api/search-hmac-testvectors.json is a TEST VECTOR, not a configuration value). Generate a real key: openssl rand -base64 32"
        else if production && looksLikeDevSecret v
        then bad "SEARCH_HMAC_KEY" "production refuses a known development value"
        else []).

(** ** The fail-secure production block *)

Definition check_secret (name : string) : list Problem :=
  let v := get name in
  if v =s "" then bad name "must be set in production"
  else if isPublishedSecret v
  then bad name "this value is published in this repository and must never be a production secret. Generate a real one: openssl rand -base64 32"
  else if len v <? minSecretBytes
  then bad name ("must be at least " +:+ Itoa minSecretBytes +:+ " bytes in production; got " +:+ Itoa (len v))
  else if looksLikeDevSecret v then bad name "production refuses a known development value"
  else [].

Definition check_cors (o : string) : list Problem :=
  let k := "VIZRA_CORS_ALLOWED_ORIGINS"%string in
  if o =s "*" then bad k "production refuses the wildcard origin '*'; list exact origins"
  else match absolute_http o with
  | None => bad k ("each entry must be an absolute http or https origin; got " +:+ redactOrigin o)
  | Some u => if (u_Scheme u =s "http") && negb insecure_allowed
              then bad k ("production refuses a plain-http CORS origin: " +:+ redactOrigin o) else []
  end.

Definition check_retired (r : RetiredKey) : list Problem :=
  match lookup (r_Name r) with
  | None => []
  | Some raw =>
      if raw =s "" then []
      else bad (r_Name r)
        ("was renamed to " +:+ ReplacedBy r +:+ " and is NO LONGER READ. There is no compatibility alias, so this value has no effect: "
         +:+ Why r +:+ ". Rename the variable — production will not boot believing a key is configured when none is.")
  end.

Definition check_hatch (h : Key) : list Problem :=
  match lookup (Name h) with
  | None => []
  | Some raw =>
      if RefuseIfPresent h then
        if raw <>s ""
        then bad (Name h) "is a development-only escape hatch that carries a value, and must not be present in production"
        else []
      else if truthy (TrimSpace raw)
      then bad (Name h) "is a development-only escape hatch and must not be set in production"
      else []
  end.

Definition check_production : list Problem :=
  if production then
    flat_map check_secret ["VIZRA_SESSION_SECRET"; "VIZRA_MFA_KEY_KEK"]%string
    ++ flat_map check_cors cors
    ++ flat_map check_retired RetiredKeys
    ++ flat_map check_hatch EscapeHatches
  else [].

(** Every problem, in the order the checks run. *)
Definition problems : list Problem :=
  check_values ++ check_origin.2 ++ check_stores ++ check_search ++ check_production.

Definition config_read : Config :=
  mkConfig mode check_origin.1 (get "VIZRA_LISTEN_ADDR") (get "VIZRA_METRICS_ADDR")
    (get "VIZRA_SITE_HANDLE") (get "DATABASE_URL") (get "VIZRA_CACHE_URL")
    (get "VIZRA_CACHE_NAMESPACE") (get "VIZRA_STORAGE_PREFIX") (get "VIZRA_SESSION_SECRET")
    (get "VIZRA_MFA_KEY_KEK") search_mode search_url (get "SEARCH_HMAC_KEY")
    (mustDuration "VIZRA_SEARCH_TIMEOUT").1 cors insecure_allowed announce
    (mustDuration "VIZRA_OWNER_CLAIM_TTL").1 (mustDuration "VIZRA_QUEUE_AGE_THRESHOLD").1
    (mustInt64 "VIZRA_WORKER_CONCURRENCY").1 (mustDuration "VIZRA_JOB_LEASE").1
    (mustDuration "VIZRA_JOB_TIMEOUT").1 (mustDuration "VIZRA_SHUTDOWN_GRACE").1.

Definition LoadFrom : result (list Problem) Config :=
  match problems with
  | [] => Ok config_read
  | ps => Err (sort_problems ps)
  end.

End Loader.

(** A candidate env file, as a map. *)
Definition CheckEnv `{Unicode, NetUrl, UrlPrint} (env : list (string * string)) : option (list Problem) :=
  match LoadFrom (fun k => map_get k env) with Ok _ => None | Err ps => Some ps end.

(** ** What a configuration that boots guarantees *)

Lemma flat_map_nil {A B} (f : A -> list B) l :
  flat_map f l = [] -> forall x, List.In x l -> f x = [].
Proof.
  induction l as [|a l IH]; simpl; [done|]. intros [Ha Hl]%app_eq_nil x [->|Hx]; auto.
Qed.

Lemma flat_map_same {A B} (f g : A -> list B) l :
  (forall x, List.In x l -> f x = g x) -> flat_map f l = flat_map g l.
Proof.
  induction l as [|a l IH]; intros Hfg; simpl; [done|].
  rewrite Hfg by (by left). f_equal. apply IH. intros x Hx. apply Hfg. by right.
Qed.

Lemma bad_unless (b : bool) k msg : (if b then bad k msg else []) = [] -> b = false.
Proof. by destruct b. Qed.

Lemma bad_if (b : bool) k msg : (if b then [] else bad k msg) = [] -> b = true.
Proof. by destruct b. Qed.

(** A secret fit for production. *)
Definition strong `{Unicode} (v : string) : Prop :=
  minSecretBytes <= len v /\ ~ List.In v knownPublishedSecrets
  /\ forall b, List.In b knownDevSecrets -> Contains (ToLower v) b = false.

Section Boot.
Context `{HU : Unicode, HN : NetUrl, HP : UrlPrint}.
Implicit Types l : Lookup.

Lemma unpublished v : isPublishedSecret v = false -> ~ List.In v knownPublishedSecrets.
Proof. intros Hp Hin%one_of_spec. unfold isPublishedSecret in Hp. congruence. Qed.

Lemma not_dev v : looksLikeDevSecret v = false ->
  forall b, List.In b knownDevSecrets -> Contains (ToLower v) b = false.
Proof.
  unfold looksLikeDevSecret. intros Hd b Hb. destruct (Contains (ToLower v) b) eqn:Hc; [|done].
  assert (existsb (fun b => Contains (ToLower v) b) knownDevSecrets = true); [|congruence].
  apply existsb_exists. by exists b.
Qed.

Lemma check_secret_strong l name : check_secret l name = [] -> strong (get l name).
Proof.
  unfold check_secret. destruct (get l name =s ""); [done|].
  destruct (isPublishedSecret _) eqn:Hp; [done|]. destruct (Z.ltb_spec (len (get l name)) minSecretBytes); [done|].
  intros Hd%bad_unless. split; [done|]. split; [by apply unpublished|]. by apply not_dev.
Qed.

Lemma duration_positive l k : (mustDuration l k).2 = [] -> 0 < (mustDuration l k).1.
Proof.
  unfold mustDuration. destruct (ParseDuration _) as [d|]; [|done].
  by destruct (Z.leb_spec d 0).
Qed.

Lemma absolute_scheme s u :
  absolute_http s = Some u -> u_Scheme u = "http"%string \/ u_Scheme u = "https"%string.
Proof.
  unfold absolute_http. destruct (Parse s) as [v|]; [|done].
  destruct (_ || _) eqn:Hs; intros; simplify_eq. eqb_prop.
  destruct (String.eqb_spec (u_Scheme u) "http"); [by left|].
  destruct (String.eqb_spec (u_Scheme u) "https"); [by right|done].
Qed.

(** Plain http passes only with the explicit permission. *)
Lemma https_or_allowed l s u :
  absolute_http s = Some u -> (u_Scheme u =s "http") && negb (insecure_allowed l) = false ->
  u_Scheme u = "https"%string \/ insecure_allowed l = true.
Proof.
  intros [->| ->]%absolute_scheme; [|by left]. destruct (insecure_allowed l); [by right|done].
Qed.

Lemma check_origin_ok l :
  (check_origin l).2 = [] ->
  (check_origin l).1 = NormalizeOrigin (raw_origin l) /\ NormalizeOrigin (raw_origin l) <> ""%string
  /\ exists u, absolute_http (raw_origin l) = Some u
       /\ (production l = true -> u_Scheme u = "https"%string \/ insecure_allowed l = true).
Proof.
  unfold check_origin. destruct (raw_origin l =s ""); [done|].
  destruct (absolute_http (raw_origin l)) as [u|] eqn:Hu; [|done].
  destruct (_ && _); [done|]. destruct (production l && _ && _) eqn:Hp; [done|].
  destruct (String.eqb_spec (NormalizeOrigin (raw_origin l)) ""); [done|]. intros _. split_and!; [done..|].
  exists u. split; [done|]. intros Hpr. rewrite Hpr in Hp. by eapply https_or_allowed.
Qed.

Lemma check_cors_ok l o : check_cors l o = [] ->
  o <> "*"%string /\ exists u, absolute_http o = Some u
     /\ (u_Scheme u = "https"%string \/ insecure_allowed l = true).
Proof.
  unfold check_cors. destruct (String.eqb_spec o "*"); [done|].
  destruct (absolute_http o) as [u|] eqn:Hu; [|done]. intros Hp%bad_unless. split; [done|].
  exists u. split; [done|]. by eapply https_or_allowed.
Qed.

(** A name that is absent, or present with nothing after the equals sign. *)
Definition unset (v : option string) : Prop := v = None \/ v = Some ""%string.

Lemma check_retired_ok l r : check_retired l r = [] -> unset (l (r_Name r)).
Proof.
  unfold check_retired, unset. destruct (l (r_Name r)) as [raw|]; [|auto].
  destruct (String.eqb_spec raw ""); [subst; auto|done].
Qed.

Lemma check_hatch_ok l h : check_hatch l h = [] ->
  if RefuseIfPresent h then unset (l (Name h))
  else forall raw, l (Name h) = Some raw -> truthy (TrimSpace raw) = false.
Proof.
  unfold check_hatch, unset. destruct (l (Name h)) as [raw|]; [|destruct (RefuseIfPresent h); by auto].
  destruct (RefuseIfPresent h).
  - destruct (String.eqb_spec raw ""); [subst; auto|done].
  - intros Ht%bad_unless x. by intros [= <-].
Qed.

Lemma LoadFrom_ok l c :
  LoadFrom l = Ok c ->
  c = config_read l /\ check_values l = [] /\ (check_origin l).2 = [] /\ check_stores l = []
  /\ check_search l = [] /\ check_production l = [].
Proof.
  unfold LoadFrom, problems. destruct (_ ++ _) as [|p ps] eqn:Hp; [|done]. intros [= <-].
  by repeat match goal with H : _ ++ _ = [] |- _ => apply app_eq_nil in H as [? H] end.
Qed.

(** What holds in every mode. *)
Definition sound (c : Config) : Prop :=
  List.In (cfg_Mode c) [ModeDevelopment; ModeProduction]
  /\ List.In (cfg_OwnerClaimAnnounce c) [OwnerClaimAnnounceOff; OwnerClaimAnnounceStderr]
  /\ 1 <= cfg_WorkerConcurrency c /\ 0 < cfg_JobLease c < cfg_JobTimeout c
  /\ 0 < cfg_OwnerClaimTTL c /\ 0 < cfg_SearchTimeout c
  /\ cfg_SiteHandle c <> ""%string /\ cfg_CacheNamespace c <> ""%string /\ cfg_StoragePrefix c <> ""%string
  /\ (cfg_SearchMode c <> SearchOff -> minSecretBytes <= len (cfg_SearchHMACKey c)).

Lemma search_key_long l :
  check_search l = [] -> search_mode l <> SearchOff ->
  minSecretBytes <= len (get l "SEARCH_HMAC_KEY")
  /\ (production l = true -> strong (get l "SEARCH_HMAC_KEY")).
Proof.
  unfold check_search. intros Hs Hne. rewrite (proj2 (String.eqb_neq _ _) Hne) in Hs.
  apply app_eq_nil in Hs as [_ Hs].
  destruct (Z.ltb_spec (len (get l "SEARCH_HMAC_KEY")) minSecretBytes); [done|]. split; [done|].
  intros Hp. rewrite Hp in Hs. cbn [andb] in Hs. destruct (isPublishedSecret _) eqn:Hu; [done|].
  apply bad_unless in Hs. split; [done|]. split; [by apply unpublished|by apply not_dev].
Qed.

Lemma check_values_ok l :
  check_values l = [] -> check_search l = [] -> sound (config_read l).
Proof.
  unfold check_values. intros Hv Hs.
  repeat match goal with H : _ ++ _ = [] |- _ => apply app_eq_nil in H as [? H] end.
  repeat match goal with
  | H : (if _ then [] else bad _ _) = [] |- _ => apply bad_if in H
  | H : (if _ then bad _ _ else []) = [] |- _ => apply bad_unless in H
  end.
  assert (Hd : forall k, List.In k duration_keys -> 0 < (mustDuration l k).1)
    by (intros k Hk; apply duration_positive; by eapply (flat_map_nil (fun k => (mustDuration l k).2))).
  pose proof (Hd "VIZRA_JOB_LEASE"%string ltac:(simpl; auto 9)).
  pose proof (Hd "VIZRA_JOB_TIMEOUT"%string ltac:(simpl; auto 9)).
  pose proof (Hd "VIZRA_OWNER_CLAIM_TTL"%string ltac:(simpl; auto 9)).
  pose proof (Hd "VIZRA_SEARCH_TIMEOUT"%string ltac:(simpl; auto 9)).
  eqb_prop. unfold sound, config_read; cbn -[mustDuration mustInt64 get minSecretBytes List.In].
  split_and!; try (by apply one_of_spec); try done; try lia.
  by apply search_key_long.
Qed.

(** C12. A configuration that boots is fit to serve.  In every mode: the
    announcement mode is one the boot knows, there is a worker slot, a job's
    timeout exceeds its lease, and with search enabled the shared key is long
    enough to sign with; the stored origin is the normalised one.  In production
    also: the session secret, the key-encryption key and the search key are at
    least 32 bytes, not published and no development value; the origin and every
    CORS origin is https unless plain http was explicitly permitted, and none is
    the wildcard; no retired name and no development escape hatch is set. *)
Theorem boot_is_fail_secure l c :
  LoadFrom l = Ok c ->
  sound c
  /\ cfg_PublicOrigin c = NormalizeOrigin (raw_origin l) /\ cfg_PublicOrigin c <> ""%string
  /\ (cfg_Mode c = ModeProduction ->
        strong (cfg_SessionSecret c) /\ strong (cfg_MFAKeyKEK c)
        /\ (cfg_SearchMode c <> SearchOff -> strong (cfg_SearchHMACKey c))
        /\ (forall o, o = raw_origin l \/ List.In o (cfg_CORSAllowedOrigins c) ->
              exists u, absolute_http o = Some u
                /\ (u_Scheme u = "https"%string \/ cfg_AllowInsecureOrigin c = true))
        /\ ~ List.In "*"%string (cfg_CORSAllowedOrigins c)
        /\ (forall r, List.In r RetiredKeys -> unset (l (r_Name r)))
        /\ (forall h, List.In h EscapeHatches ->
              if RefuseIfPresent h then unset (l (Name h))
              else forall raw, l (Name h) = Some raw -> truthy (TrimSpace raw) = false)).
Proof.
  intros (-> & Hv & (Ho & Hn & u & Hu & Hup)%check_origin_ok & _ & Hs & Hp)%LoadFrom_ok.
  split; [by apply check_values_ok|]. split; [done|].
  split; [unfold config_read; cbn [cfg_PublicOrigin]; by rewrite Ho|].
  cbn [config_read cfg_Mode cfg_SessionSecret cfg_MFAKeyKEK cfg_SearchMode cfg_SearchHMACKey
       cfg_CORSAllowedOrigins cfg_AllowInsecureOrigin].
  intros Hm%String.eqb_eq. change (production l = true) in Hm.
  unfold check_production in Hp. rewrite Hm in Hp.
  apply app_eq_nil in Hp as [Hsec [Hcors [Hret Hhat]%app_eq_nil]%app_eq_nil].
  pose proof (flat_map_nil _ _ Hcors) as Hc.
  split; [apply check_secret_strong, (flat_map_nil _ _ Hsec); simpl; auto|].
  split; [apply check_secret_strong, (flat_map_nil _ _ Hsec); simpl; auto|].
  split; [by intros Hne; apply search_key_long|].
  split.
  { intros o [->|Hin]; [eauto|]. by apply (check_cors_ok l o), Hc. }
  split; [intros Hin; by destruct (check_cors_ok l _ (Hc _ Hin))|].
  split; intros x Hx.
  - by apply check_retired_ok, (flat_map_nil _ _ Hret).
  - by apply check_hatch_ok, (flat_map_nil _ _ Hhat).
Qed.
End Boot.

(** ** What a refusal reveals *)

(** The names whose value is a credential or may name an account. *)
Definition secret_name (k : string) : bool :=
  existsb (fun key => (Name key =s k) && Secret key) Registry
  || existsb (fun h => (Name h =s k) && RefuseIfPresent h) EscapeHatches
  || existsb (fun r => r_Name r =s k) RetiredKeys.

Section Refusal.
Context `{HU : Unicode, HN : NetUrl, HP : UrlPrint}.
Implicit Types l : Lookup.

(** Two values no message can tell apart: both empty or neither, of one length,
    both published, both of development shape, and with the same URL scheme. *)
Definition same_shape (v w : option string) : Prop :=
  match v, w with
  | None, None => True
  | Some a, Some b =>
      (a =s "") = (b =s "") /\ len (TrimSpace a) = len (TrimSpace b)
      /\ isPublishedSecret (TrimSpace a) = isPublishedSecret (TrimSpace b)
      /\ looksLikeDevSecret (TrimSpace a) = looksLikeDevSecret (TrimSpace b)
      /\ forall p, List.In p ["postgres://"; "postgresql://"; "redis://"; "rediss://"]%string ->
           HasPrefix (TrimSpace a) p = HasPrefix (TrimSpace b) p
  | _, _ => False
  end.

Lemma empty_by_len a b : len a = len b -> (a =s "") = (b =s "").
Proof. destruct a, b; unfold len; simpl; intros; try done; lia. Qed.

Section Pair.
Context (l l' : Lookup).
Context (Hplain : forall k, secret_name k = false -> l k = l' k).
Context (Hsecret : forall k, secret_name k = true -> same_shape (l k) (l' k)).

Lemma get_plain k : secret_name k = false -> get l k = get l' k.
Proof. intros Hk. unfold get. by rewrite Hplain. Qed.

Lemma get_secret k : secret_name k = true ->
  (get l k =s "") = (get l' k =s "") /\ len (get l k) = len (get l' k)
  /\ isPublishedSecret (get l k) = isPublishedSecret (get l' k)
  /\ looksLikeDevSecret (get l k) = looksLikeDevSecret (get l' k)
  /\ forall p, List.In p ["postgres://"; "postgresql://"; "redis://"; "rediss://"]%string ->
       HasPrefix (get l k) p = HasPrefix (get l' k) p.
Proof.
  intros Hk. specialize (Hsecret k Hk). unfold get, same_shape in *.
  destruct (l k) as [a|], (l' k) as [b|]; try done.
  destruct Hsecret as (_ & Hl & Hp & Hd & Hx). split; [by apply empty_by_len|]. done.
Qed.

(** Read every plain key of [l'] instead of [l]. *)
Ltac plain :=
  repeat match goal with |- context [get l ?k] => rewrite (get_plain k eq_refl) end.

Lemma values_same : check_values l = check_values l'.
Proof.
  unfold check_values, mode, search_mode, announce, mustInt64, duration_keys. cbn [flat_map].
  unfold mustDuration. by plain.
Qed.

Lemma production_same : production l = production l'.
Proof. unfold production, mode. by plain. Qed.

Lemma insecure_same : insecure_allowed l = insecure_allowed l'.
Proof. unfold insecure_allowed. by plain. Qed.

Lemma origin_same : check_origin l = check_origin l'.
Proof. unfold check_origin, raw_origin. rewrite production_same, insecure_same. by plain. Qed.

Lemma stores_same : check_stores l = check_stores l'.
Proof.
  unfold check_stores.
  destruct (get_secret "DATABASE_URL" eq_refl) as (-> & _ & _ & _ & Hp).
  destruct (get_secret "VIZRA_CACHE_URL" eq_refl) as (-> & _ & _ & _ & Hq).
  by rewrite !Hp, !Hq by (simpl; auto 9).
Qed.

Lemma search_same : check_search l = check_search l'.
Proof.
  unfold check_search, search_mode, search_url. rewrite production_same. plain.
  by destruct (get_secret "SEARCH_HMAC_KEY" eq_refl) as (_ & -> & -> & -> & _).
Qed.

Lemma secret_same k : secret_name k = true -> check_secret l k = check_secret l' k.
Proof. intros Hk. unfold check_secret. by destruct (get_secret k Hk) as (-> & -> & -> & -> & _). Qed.

Lemma hatch_same h : List.In h EscapeHatches -> check_hatch l h = check_hatch l' h.
Proof.
  intros Hin. assert (Hs : secret_name (Name h) = RefuseIfPresent h).
  { assert (Ha : forallb (fun h => Bool.eqb (secret_name (Name h)) (RefuseIfPresent h)) EscapeHatches = true)
      by reflexivity. rewrite forallb_forall in Ha. by apply eqb_prop, Ha. }
  unfold check_hatch. destruct (RefuseIfPresent h).
  - specialize (Hsecret _ Hs). unfold same_shape in Hsecret.
    destruct (l (Name h)), (l' (Name h)); try done. by destruct Hsecret as [-> _].
  - by rewrite (Hplain _ Hs).
Qed.

Lemma retired_same r : List.In r RetiredKeys -> check_retired l r = check_retired l' r.
Proof.
  intros [<-|[]]. unfold check_retired. specialize (Hsecret "VIZRA_SEARCH_HMAC_KEY"%string eq_refl).
  cbn [r_Name]. unfold same_shape in Hsecret.
  destruct (l "VIZRA_SEARCH_HMAC_KEY"%string), (l' "VIZRA_SEARCH_HMAC_KEY"%string); try done.
  by destruct Hsecret as [-> _].
Qed.

Lemma problems_same : problems l = problems l'.
Proof.
  unfold problems. rewrite values_same, origin_same, stores_same, search_same. do 4 f_equal.
  unfold check_production. rewrite production_same. destruct (production l'); [|done].
  f_equal; [cbn [flat_map]; by rewrite !secret_same by reflexivity|].
  f_equal; [unfold cors, check_cors; rewrite insecure_same; by plain|].
  f_equal; apply flat_map_same; [apply retired_same|apply hatch_same].
Qed.
End Pair.

(** Every problem names a key the program documents. *)
Definition known (p : Problem) : bool :=
  one_of (p_Key p) (map Name AllKeys ++ map r_Name RetiredKeys).

Lemma known_flat_map {A} (f : A -> list Problem) xs :
  (forall x, List.In x xs -> forallb known (f x) = true) -> forallb known (flat_map f xs) = true.
Proof.
  induction xs as [|x xs IH]; intros Hf; simpl; [done|]. rewrite forallb_app, Hf by (by left).
  apply IH. intros y Hy. apply Hf. by right.
Qed.

Ltac known_solve := rewrite ?forallb_app; repeat (case_match; simpl); try done.

Lemma durations_known l : forallb known (flat_map (fun k => (mustDuration l k).2) duration_keys) = true.
Proof.
  apply known_flat_map. intros k Hk.
  assert (Hkn : one_of k (map Name AllKeys ++ map r_Name RetiredKeys) = true).
  { assert (Ha : forallb (fun k => one_of k (map Name AllKeys ++ map r_Name RetiredKeys)) duration_keys = true)
      by reflexivity. rewrite forallb_forall in Ha. by apply Ha. }
  unfold mustDuration. repeat case_match; simpl; rewrite ?andb_true_r; done.
Qed.

Lemma problems_known l : forallb known (problems l) = true.
Proof.
  unfold problems. rewrite !forallb_app, !andb_true_iff. split_and!.
  - unfold check_values. rewrite !forallb_app, durations_known. unfold mustInt64.
    rewrite !andb_true_iff. split_and!; repeat case_match; done.
  - unfold check_origin. repeat case_match; done.
  - unfold check_stores. rewrite forallb_app, andb_true_iff. split; repeat case_match; done.
  - unfold check_search. case_match; [done|]. rewrite forallb_app, andb_true_iff. split; repeat case_match; done.
  - unfold check_production. case_match; [|done]. rewrite !forallb_app, !andb_true_iff.
    split_and!; apply known_flat_map.
    + intros k [<-|[<-|[]]]; unfold check_secret; repeat case_match; done.
    + intros o _. unfold check_cors. repeat case_match; done.
    + intros r [<-|[]]. unfold check_retired. repeat case_match; done.
    + intros h Hh.
      assert (Hkn : one_of (Name h) (map Name AllKeys ++ map r_Name RetiredKeys) = true).
      { apply one_of_spec. apply in_or_app. left. apply in_map, in_or_app. by right. }
      unfold check_hatch. repeat case_match; simpl; rewrite ?andb_true_r; done.
Qed.

Lemma insert_perm p ps : Permutation (insert_problem p ps) (p :: ps).
Proof.
  induction ps as [|q ps IH]; simpl; [done|]. destruct (problem_le p q); [done|].
  rewrite IH. apply Permutation_swap.
Qed.

Lemma sort_perm ps : Permutation (sort_problems ps) ps.
Proof. induction ps as [|p ps IH]; simpl; [done|]. by rewrite insert_perm, IH. Qed.

Lemma compare_self a : String.compare a a = Eq.
Proof. pose proof (String.compare_antisym a a) as H. by destruct (String.compare a a). Qed.

Lemma compare_total a b : String.compare a b = Gt -> String.compare b a = Lt.
Proof. rewrite String.compare_antisym. by destruct (String.compare b a). Qed.

Lemma problem_le_total a b : problem_le a b = false -> problem_le b a = true.
Proof.
  unfold problem_le. destruct (String.compare (p_Key a) (p_Key b)) eqn:Hk; [|done|].
  - apply String.compare_eq_iff in Hk. rewrite Hk.
    destruct (String.compare (p_Message a) (p_Message b)) eqn:Hm; [done..|].
    intros _. by rewrite compare_self, (compare_total _ _ Hm).
  - intros _. by rewrite (compare_total _ _ Hk).
Qed.

Lemma insert_sorted p ps :
  Sorted (fun a b => problem_le a b = true) ps ->
  Sorted (fun a b => problem_le a b = true) (insert_problem p ps).
Proof.
  induction 1 as [|q ps Hs IH Hd]; simpl; [by repeat constructor|].
  destruct (problem_le p q) eqn:Hp; [by repeat constructor|].
  apply problem_le_total in Hp. constructor; [done|].
  destruct ps as [|r ps]; simpl; [by constructor|].
  destruct (problem_le p r); [by constructor|]. inversion Hd; subst. by constructor.
Qed.

Lemma sort_sorted ps : Sorted (fun a b => problem_le a b = true) (sort_problems ps).
Proof. induction ps; simpl; [constructor|by apply insert_sorted]. Qed.

(** C34. A refusal reports everything and gives nothing away: the problems are
    the ones every check found, sorted, at least one, each naming a key the
    registry documents; and two environments that differ only in the contents of
    credentials, with values of one length, scheme and weakness class, get the
    same report, so no message carries a credential. *)
Theorem refusal_hides_secrets l l' :
  (forall k, secret_name k = false -> l k = l' k) ->
  (forall k, secret_name k = true -> same_shape (l k) (l' k)) ->
  match LoadFrom l, LoadFrom l' with
  | Err ps, Err ps' =>
      ps = ps' /\ ps <> [] /\ Permutation ps (problems l) /\ forallb known ps = true
      /\ Sorted (fun a b => problem_le a b = true) ps
  | Ok _, Ok _ => True
  | _, _ => False
  end.
Proof.
  intros Hp Hs. pose proof (sort_perm (problems l)) as Hperm. pose proof (sort_sorted (problems l)) as Hsort.
  pose proof (problems_known l) as Hk. rewrite (problems_same l l' Hp Hs) in *.
  unfold LoadFrom. rewrite (problems_same l l' Hp Hs).
  destruct (problems l') as [|q qs]; [done|]. split_and!; try done.
  - intros He. rewrite He in Hperm. by apply Permutation_nil_cons in Hperm.
  - apply forallb_forall. intros x Hx. rewrite forallb_forall in Hk. apply Hk.
    by apply (Permutation_in _ Hperm).
Qed.
End Refusal.

(** ** The properties at work *)

#[local] Instance ascii_only : Unicode := fun s => s.
#[local] Instance schemes : NetUrl := fun s =>
  if HasPrefix s "https://" then Some (mkURL "https" false (sdrop 8 s) "" "" "")
  else if HasPrefix s "http://" then Some (mkURL "http" false (sdrop 7 s) "" "" "")
  else None.
#[local] Instance no_users : UrlPrint := fun u _ => u_Host u.

Definition sample_env : list (string * string) :=
  [("VIZRA_MODE", "Production"); ("VIZRA_PUBLIC_ORIGIN", "https://Photos.Example.org:443/");
   ("DATABASE_URL", "postgres://db.internal/photos");
   ("VIZRA_SESSION_SECRET", "k9Qw7ZrT2mLp4XbN8vYc1HgJ5fDs3AeU");
   ("VIZRA_MFA_KEY_KEK", "W6uR8kZq3NbTyH5mXcP2vLgJ9fSd4AeK");
   ("VIZRA_DEV_DISABLE_AUTH", "0"); ("VIZRA_DEV_AUTOLOGIN_USER", "")]%string.

Definition sample_lookup : Lookup := fun k => map_get k sample_env.

Lemma boot_is_fail_secure_witness :
  exists c, LoadFrom sample_lookup = Ok c
    /\ cfg_PublicOrigin c = "https://photos.example.org"%string
    /\ strong (cfg_SessionSecret c) /\ cfg_JobLease c < cfg_JobTimeout c.
Proof.
  destruct (LoadFrom sample_lookup) as [c|] eqn:Hc; [|vm_compute in Hc; discriminate Hc].
  destruct (boot_is_fail_secure sample_lookup c Hc) as (Hs & Ho & _ & Hp).
  exists c. split; [done|].
  split; [rewrite Ho; vm_compute; reflexivity|].
  split; [|apply Hs].
  apply Hp. apply LoadFrom_ok in Hc as [-> _]. vm_compute. reflexivity.
Defined.

(** The same environment with the session secret cut to nine bytes, twice. *)
Definition weak_lookup (v : string) : Lookup := fun k =>
  if k =s "VIZRA_SESSION_SECRET" then Some v else sample_lookup k.

Lemma refusal_hides_secrets_witness :
  exists ps, LoadFrom (weak_lookup "hunter2-a") = Err ps /\ LoadFrom (weak_lookup "hunter2-b") = Err ps
    /\ map p_Key ps = ["VIZRA_SESSION_SECRET"%string].
Proof.
  pose proof (refusal_hides_secrets (weak_lookup "hunter2-a") (weak_lookup "hunter2-b")) as H.
  destruct (LoadFrom (weak_lookup "hunter2-a")) as [c|ps] eqn:Ha; [vm_compute in Ha; discriminate Ha|].
  destruct (LoadFrom (weak_lookup "hunter2-b")) as [c|ps'] eqn:Hb; [vm_compute in Hb; discriminate Hb|].
  exists ps. split; [done|].
  assert (Hs : ps = ps').
  { apply H; intros k Hk; unfold weak_lookup.
    - destruct (String.eqb_spec k "VIZRA_SESSION_SECRET"); [subst; vm_compute in Hk; discriminate Hk|done].
    - destruct (String.eqb_spec k "VIZRA_SESSION_SECRET").
      + split_and!; try reflexivity. intros p Hp. repeat destruct Hp as [<-|Hp]; done.
      + destruct (sample_lookup k); [|done]. by split_and!. }
  split; [by subst|]. vm_compute in Ha. injection Ha as <-. reflexivity.
Defined.

(** Nothing but a DSN is needed in development. *)
Example defaults_boot :
  is_ok (LoadFrom (fun k => map_get k [("DATABASE_URL", "postgres://localhost/vizra")]%string)) = true
  /\ CheckEnv [] = Some [mkProblem "DATABASE_URL" "must be set"].
Proof. split; vm_compute; reflexivity. Qed.
