(* ===== verification/Search.v ===== *)
(** * The search boundary (src/internal/search/search.go, sql.go, remote.go, service.go)

    Three implementations of one interface: SQL, the signing client of the
    search service, and their composition, which callers hold.  A remote fault
    must never fail a request and must never be silent.  The wire is a
    parameter: the JSON codec, the request constructor of net/http, and a
    transport that answers a request however it likes. *)

From Stdlib Require Import SpecFloat.
From S2P Require Import Prelude Utf8 Regex GoStrings Decimals Sha256 SearchHmac Authz.

(** ** The contract's data (search.go) *)

Definition StatusOK : string := "ok".
Definition StatusNotIndexed : string := "not_indexed".

Definition HealthOff : string := "off".
Definition HealthOK : string := "ok".
Definition HealthDegraded : string := "degraded".

Record Viewer := mkViewer {
  v_UserID : string;
  v_IsAnonymous : bool;
  v_Role : Role;
  v_Scope : Scope
}.

Definition ViewerFrom (s : Subject) (scope : Scope) : Viewer :=
  mkViewer (UserID s) (Anonymous s)
    (if SubjectRole s =s "" then RoleAnonymous else SubjectRole s) scope.

Record Site := mkSite { s_Handle : string; s_BaseURL : string }.

(** A [*time.Time] is an optional instant. *)
Record Filters := mkFilters {
  Tags : list string;
  Categories : list string;
  OwnerIDs : list string;
  Licenses : list string;
  AlbumID : string;
  CameraMake : string;
  CameraModel : string;
  TakenFrom : option Z;
  TakenTo : option Z;
  Safety : string
}.

Record SearchRequest := mkSearchRequest {
  Query : string;
  q_Viewer : Viewer;
  q_Site : Site;
  q_Filters : option Filters;
  q_Limit : Z;
  Offset : Z;
  Sort : string;
  q_CorrelationID : string
}.

(** A float64 is its binary form. *)
Record Hit := mkHit { AssetID : string; PublicKey : string; Score : spec_float }.

(** A nil slice is [None]. *)
Record SearchResult := mkSearchResult {
  r_Status : string;
  Results : option (list Hit);
  Total : Z;
  r_TookMS : Z;
  SearchSchemaVersion : option Z
}.

Record SuggestRequest := mkSuggestRequest {
  Prefix : string;
  g_Viewer : Viewer;
  g_Site : Site;
  g_Limit : Z;
  g_CorrelationID : string
}.

Record Suggestion := mkSuggestion { Text : string; sg_Kind : string; Count : Z }.

Record SuggestResult := mkSuggestResult {
  sr_Status : string;
  Suggestions : option (list Suggestion);
  sr_TookMS : Z
}.

(** The payload of an event, a map from names to JSON values, is its JSON text. *)
Record Event := mkEvent {
  EventID : string;
  ev_Kind : string;
  OccurredAt : Z;
  SubjectType : string;
  SubjectID : string;
  VisibilityVersion : option Z;
  Payload : list (string * string)
}.

Record EventBatch := mkEventBatch {
  b_Site : Site;
  Events : list Event;
  b_CorrelationID : string
}.

Record PublishResult := mkPublishResult { p_Status : string; Accepted : Z; Duplicates : Z }.

(** ** SQL (sql.go)

    [ended] is the error of the context, if it has ended. *)

Inductive SearchError :=
| CtxError
| ErrEncoding (path : string)
| ErrRequest (msg : string)
| ErrSigning (path : string) (e : HmacError)
| ErrUnreachable (path msg : string)
| ErrReading (path : string)
| ErrHTTP (path : string) (status : Z)
| ErrUnparseable (path : string)
| ErrHealthz (status : Z).

Definition SQL_Search (ended : bool) (req : SearchRequest) : result SearchError SearchResult :=
  if ended then Err CtxError else Ok (mkSearchResult StatusOK (Some []) 0 0 None).

Definition SQL_Suggest (ended : bool) (req : SuggestRequest) : result SearchError SuggestResult :=
  if ended then Err CtxError else Ok (mkSuggestResult StatusOK (Some []) 0).

Definition SQL_Publish (ended : bool) (batch : EventBatch) : result SearchError PublishResult :=
  if ended then Err CtxError
  else Ok (mkPublishResult StatusOK (Z.of_nat (length (Events batch))) 0).

(** ** The signing client (remote.go) *)

(** encoding/json for one operation's request and response. *)
Class Codec (In Out : Type) := {
  Marshal : In -> option string;
  Unmarshal : string -> option Out
}.

(** [http.NewRequestWithContext]: the escaped path of the URL, or its error. *)
Class NewRequest := request_path : string -> result string string.

Record Request := mkRequest {
  rq_Method : string;
  rq_URL : string;
  rq_Path : string;
  rq_Header : Header;
  rq_Body : string
}.

(** [resp_Body] is [None] when reading it fails. *)
Record Response := mkResponse { StatusCode : Z; resp_Body : option string }.

(** What one call meets: the randomness of the nonce, the clock in seconds, and
    the transport, which answers or fails with a text. *)
Record CallEnv := mkCallEnv {
  ce_entropy : option string;
  ce_now : Z;
  ce_Do : Request -> result string Response
}.

Record RemoteClient := mkRemoteClient {
  baseURL : string;
  key : string;
  faulted : bool;
  everUsed : bool
}.

(** The time limit and the refusal to follow redirects belong to the transport:
    a 3xx reaches the client as any other status. *)
Definition NewRemote (base k : string) : RemoteClient :=
  mkRemoteClient (trim_right_set (chr "/") base) k false false.

Definition maxResponseBytes : Z := 8388608.

(** [io.LimitReader]: the first [n] bytes. *)
Definition limited (n : Z) (s : string) : string :=
  if len s <=? n then s else stake (Z.to_nat n) s.

(** What follows the first occurrence of [p]. *)
Fixpoint after (p s : string) : option string :=
  if HasPrefix s p then Some (sdrop (String.length p) s)
  else match s with EmptyString => None | String _ s => after p s end.

Definition quote_colon : string := String (ascii_of_N 34) ": ".

Definition redactedTransportError (msg : string) : string :=
  match after quote_colon msg with Some rest => rest | None => msg end.

Section Client.
Context `{NewRequest}.

(** The outcome of a call and the request it sent, if it got that far. *)
Definition exchange {In Out} `{Codec In Out} (env : CallEnv) (path : string) (inp : In) (c : RemoteClient)
    : result SearchError Out * option Request :=
  match Marshal inp with
  | None => (Err (ErrEncoding path), None)
  | Some body =>
  match request_path (baseURL c +:+ path) with
  | Err msg => (Err (ErrRequest msg), None)
  | Ok p =>
  match SignRequest (Set_ "Content-Type" "application/json" []) "POST" p (key c) body
          (ce_entropy env) (ce_now env) with
  | Err e => (Err (ErrSigning path e), None)
  | Ok h =>
      let req := mkRequest "POST" (baseURL c +:+ path) p h body in
      (match ce_Do env req with
       | Err msg => Err (ErrUnreachable path (redactedTransportError msg))
       | Ok resp =>
           match resp_Body resp with
           | None => Err (ErrReading path)
           | Some raw =>
               if negb (StatusCode resp =? 200) then Err (ErrHTTP path (StatusCode resp))
               else match Unmarshal (limited maxResponseBytes raw) with
                    | None => Err (ErrUnparseable path)
                    | Some out => Ok out
                    end
           end
       end, Some req)
  end end end.

(** Every call leaves its outcome behind for the health report. *)
Definition call {In Out} `{Codec In Out} (env : CallEnv) (path : string) (inp : In) (c : RemoteClient)
    : result SearchError Out * option Request * RemoteClient :=
  let '(r, sent) := exchange env path inp c in
  (r, sent, mkRemoteClient (baseURL c) (key c) (negb (is_ok r)) true).

Definition Remote_Search `{Codec SearchRequest SearchResult} (env : CallEnv) (req : SearchRequest)
    (c : RemoteClient) : result SearchError SearchResult * option Request * RemoteClient :=
  let '(r, sent, c') := call env "/internal/v1/search" req c in
  (match r with
   | Err e => Err e
   | Ok out => Ok (mkSearchResult (r_Status out)
                     (match Results out with None => Some [] | some => some end)
                     (Total out) (r_TookMS out) (SearchSchemaVersion out))
   end, sent, c').

Definition Remote_Suggest `{Codec SuggestRequest SuggestResult} (env : CallEnv) (req : SuggestRequest)
    (c : RemoteClient) : result SearchError SuggestResult * option Request * RemoteClient :=
  let '(r, sent, c') := call env "/internal/v1/suggestions" req c in
  (match r with
   | Err e => Err e
   | Ok out => Ok (mkSuggestResult (sr_Status out)
                     (match Suggestions out with None => Some [] | some => some end) (sr_TookMS out))
   end, sent, c').

Definition Remote_Publish `{Codec EventBatch PublishResult} (env : CallEnv) (batch : EventBatch)
    (c : RemoteClient) : result SearchError PublishResult * option Request * RemoteClient :=
  call env "/internal/v1/events" batch c.

(** The liveness call: unsigned, and not counted as use when the request cannot
    even be built. *)
Definition ping (env : CallEnv) (c : RemoteClient) : option SearchError * RemoteClient :=
  match request_path (baseURL c +:+ "/healthz") with
  | Err msg => (Some (ErrRequest msg), c)
  | Ok p =>
      match ce_Do env (mkRequest "GET" (baseURL c +:+ "/healthz") p [] "") with
      | Err msg => (Some (ErrRequest msg), mkRemoteClient (baseURL c) (key c) true true)
      | Ok resp =>
          let ok := StatusCode resp =? 200 in
          (if ok then None else Some (ErrHealthz (StatusCode resp)),
           mkRemoteClient (baseURL c) (key c) (negb ok) true)
      end
  end.

Definition Remote_Probe (env : CallEnv) (c : RemoteClient) : string * RemoteClient :=
  if negb (everUsed c) then
    let '(err, c') := ping env c in
    (match err with Some _ => HealthDegraded | None => HealthOK end, c')
  else (if faulted c then HealthDegraded else HealthOK, c).

(** ** The composition (service.go) *)

(** The searcher used when the remote one is not; [ended] is the context's. *)
Record Searcher := mkSearcher {
  Search : bool -> SearchRequest -> result SearchError SearchResult;
  Suggest : bool -> SuggestRequest -> result SearchError SuggestResult;
  Publish : bool -> EventBatch -> result SearchError PublishResult
}.

Definition SQLSearcher : Searcher := mkSearcher SQL_Search SQL_Suggest SQL_Publish.

(** [remote] is nil when search is off. *)
Record Service := mkService { sql : Searcher; remote : option RemoteClient }.

Definition NewService (sqlImpl : Searcher) (r : option RemoteClient) : Service := mkService sqlImpl r.

Definition Enabled (s : Service) : bool := match remote s with Some _ => true | None => false end.

Definition Health (env : CallEnv) (s : Service) : string * Service :=
  match remote s with
  | None => (HealthOff, s)
  | Some c => let '(h, c') := Remote_Probe env c in (h, mkService (sql s) (Some c'))
  end.

Definition Service_Search `{Codec SearchRequest SearchResult} (ended : bool) (env : CallEnv)
    (req : SearchRequest) (s : Service)
    : result SearchError SearchResult * option Request * Service :=
  match remote s with
  | None => (Search (sql s) ended req, None, s)
  | Some c =>
      let '(res, sent, c') := Remote_Search env req c in
      let s' := mkService (sql s) (Some c') in
      (match res with
       | Err _ => Search (sql s) ended req
       | Ok out => if r_Status out =s StatusNotIndexed then Search (sql s) ended req else Ok out
       end, sent, s')
  end.

Definition Service_Suggest `{Codec SuggestRequest SuggestResult} (ended : bool) (env : CallEnv)
    (req : SuggestRequest) (s : Service)
    : result SearchError SuggestResult * option Request * Service :=
  match remote s with
  | None => (Suggest (sql s) ended req, None, s)
  | Some c =>
      let '(res, sent, c') := Remote_Suggest env req c in
      let s' := mkService (sql s) (Some c') in
      (match res with
       | Err _ => Suggest (sql s) ended req
       | Ok out => if sr_Status out =s StatusNotIndexed then Suggest (sql s) ended req else Ok out
       end, sent, s')
  end.

(** Publication returns the error: the job that drives it retries. *)
Definition Service_Publish `{Codec EventBatch PublishResult} (ended : bool) (env : CallEnv)
    (batch : EventBatch) (s : Service)
    : result SearchError PublishResult * option Request * Service :=
  match remote s with
  | None => (Publish (sql s) ended batch, None, s)
  | Some c =>
      let '(res, sent, c') := Remote_Publish env batch c in
      (res, sent, mkService (sql s) (Some c'))
  end.

End Client.

(** ** What the boundary guarantees *)

Section Contained.
Context `{HR : NewRequest}.

(** The nonce is 16 bytes and the clock is a plausible one. *)
Definition sane (env : CallEnv) : Prop :=
  (forall b, ce_entropy env = Some b -> String.length b = 16%nat)
  /\ MinTimestamp <= ce_now env <= MaxTimestamp.

Lemma SignRequest_inv h method path k body e now h' :
  SignRequest h method path k body e now = Ok h' ->
  MinKeyBytes <= len k /\ ValidateMethod method = None /\ exists b, e = Some b.
Proof.
  unfold SignRequest, NewNonce, Sign. destruct e as [b|]; [|done].
  destruct (Z.ltb_spec (len k) MinKeyBytes); [done|].
  destruct (ValidateMethod method); [done|]. eauto.
Qed.

(** Whatever a call sends, a receiver with the same key accepts. *)
Lemma sent_verifies {In Out} `{HC : Codec In Out} env path (inp : In) c (r : result SearchError Out) rq now' :
  exchange env path inp c = (r, Some rq) -> sane env ->
  MinTimestamp <= now' <= MaxTimestamp -> Z.abs (now' - ce_now env) <= MaxClockSkew ->
  Verify (key c) (rq_Method rq) (rq_Path rq) (rq_Header rq) (rq_Body rq) now' = None
  /\ Marshal inp = Some (rq_Body rq).
Proof.
  unfold exchange. intros He [Hent Hnow] Hn' Hskew.
  destruct (Marshal inp) as [body|]; [|done].
  destruct (request_path _) as [p|]; [|done].
  destruct (SignRequest _ _ _ _ _ _ _) as [h|] eqn:Hs; [|done].
  apply (f_equal snd) in He. cbn [snd] in He. injection He as <-.
  cbn [rq_Method rq_Path rq_Header rq_Body]. split; [|done].
  destruct (SignRequest_inv _ _ _ _ _ _ _ _ Hs) as (Hk & Hm & b & Hb).
  destruct (sign_verifies (Set_ "Content-Type" "application/json" []) "POST" p (key c) body b
              (ce_now env) now') as (h' & Hs' & Hv); auto.
  rewrite Hb, Hs' in Hs. by injection Hs as <-.
Qed.

(** What the next health report says, without asking. *)
Lemma health_after_call {In Out} `{HC : Codec In Out} env path (inp : In) c (r : result SearchError Out) sent c' env' q :
  call env path inp c = (r, sent, c') ->
  (Health env' (mkService q (Some c'))).1 = (if is_ok r then HealthOK else HealthDegraded)
  /\ exchange env path inp c = (r, sent).
Proof.
  unfold call. destruct (exchange env path inp c) as [r0 s0] eqn:He. intros [= <- <- <-]. split; [|done].
  unfold Health, Remote_Probe. simpl. by destruct (is_ok r0).
Qed.

(** Whatever a call sent, the receiver accepts: with the same key, and at a time
    within the clock window of the one it was signed at. *)
Definition accepted (c : RemoteClient) (now' : Z) (sent : option Request) : Prop :=
  forall rq, sent = Some rq -> Verify (key c) (rq_Method rq) (rq_Path rq) (rq_Header rq) (rq_Body rq) now' = None.

(** What a call leaves behind: its outcome for the next health report, and a
    request the receiver accepts. *)
Lemma call_leaves {In Out} `{HC : Codec In Out} env path (inp : In) c (r : result SearchError Out) sent c' env' q now' :
  call env path inp c = (r, sent, c') -> sane env ->
  MinTimestamp <= now' <= MaxTimestamp -> Z.abs (now' - ce_now env) <= MaxClockSkew ->
  exchange env path inp c = (r, sent)
  /\ (Health env' (mkService q (Some c'))).1 = (if negb (is_ok r) then HealthDegraded else HealthOK)
  /\ accepted c now' sent.
Proof.
  intros Hc Hsane Hn' Hskew. destruct (health_after_call _ _ _ _ _ _ _ env' q Hc) as [Hh He].
  split; [done|]. split; [rewrite Hh; by destruct (is_ok r)|].
  intros rq ->. by destruct (sent_verifies _ _ _ _ _ rq now' He Hsane Hn' Hskew).
Qed.

(** C24. A remote fault is contained and never silent: whatever the transport
    does, a search and a suggestion of a live request are answered, with a list
    that is not nil, from SQL when the remote call faulted; the next health
    report says degraded exactly then, without a call of its own; a publication,
    which a durable job retries, returns the remote outcome itself, and health
    tells it; and every signed request sent, by any of the three, is accepted by
    a receiver with the same key whose clock is within the window, as long as
    both clocks are in the accepted range and a nonce has its 16 bytes. *)
Theorem remote_fault_contained `{HCS : Codec SearchRequest SearchResult, HCG : Codec SuggestRequest SuggestResult,
    HCP : Codec EventBatch PublishResult}
    env req greq batch c env' now' res sent s' sug gsent gs' pub psent ps' :
  sane env -> MinTimestamp <= now' <= MaxTimestamp -> Z.abs (now' - ce_now env) <= MaxClockSkew ->
  Service_Search false env req (mkService SQLSearcher (Some c)) = (res, sent, s') ->
  Service_Suggest false env greq (mkService SQLSearcher (Some c)) = (sug, gsent, gs') ->
  Service_Publish false env batch (mkService SQLSearcher (Some c)) = (pub, psent, ps') ->
  let fault := negb (is_ok (exchange (Out := SearchResult) env "/internal/v1/search" req c).1) in
  let gfault := negb (is_ok (exchange (Out := SuggestResult) env "/internal/v1/suggestions" greq c).1) in
  (exists out, res = Ok out /\ Results out <> None /\ (fault = true -> res = SQL_Search false req))
  /\ (Health env' s').1 = (if fault then HealthDegraded else HealthOK)
  /\ (exists out, sug = Ok out /\ Suggestions out <> None /\ (gfault = true -> sug = SQL_Suggest false greq))
  /\ (Health env' gs').1 = (if gfault then HealthDegraded else HealthOK)
  /\ pub = (exchange env "/internal/v1/events" batch c).1
  /\ (Health env' ps').1 = (if negb (is_ok pub) then HealthDegraded else HealthOK)
  /\ accepted c now' sent /\ accepted c now' gsent /\ accepted c now' psent.
Proof.
  intros Hsane Hn' Hskew HS HG HP. cbv zeta.
  unfold Service_Search, Remote_Search in HS. unfold Service_Suggest, Remote_Suggest in HG.
  unfold Service_Publish, Remote_Publish in HP. cbn [remote sql Search Suggest SQLSearcher] in HS, HG, HP.
  destruct (call env "/internal/v1/search" req c) as [[r sn] c1] eqn:Hc1.
  destruct (call env "/internal/v1/suggestions" greq c) as [[g gn] c2] eqn:Hc2.
  destruct (call env "/internal/v1/events" batch c) as [[b pn] c3] eqn:Hc3.
  destruct (call_leaves _ _ _ _ _ _ _ env' SQLSearcher now' Hc1 Hsane Hn' Hskew) as (-> & Hh1 & Ha1).
  destruct (call_leaves _ _ _ _ _ _ _ env' SQLSearcher now' Hc2 Hsane Hn' Hskew) as (-> & Hh2 & Ha2).
  destruct (call_leaves _ _ _ _ _ _ _ env' SQLSearcher now' Hc3 Hsane Hn' Hskew) as (-> & Hh3 & Ha3).
  injection HS as <- <- <-. injection HG as <- <- <-. injection HP as <- <- <-.
  split_and!; try done.
  - destruct r as [out|e]; [|by eexists; split_and!]. cbn [r_Status].
    destruct (r_Status out =s StatusNotIndexed); [by eexists; split_and!|].
    eexists. split; [done|]. split; [by cbn; destruct (Results out)|done].
  - destruct g as [out|e]; [|by eexists; split_and!]. cbn [sr_Status].
    destruct (sr_Status out =s StatusNotIndexed); [by eexists; split_and!|].
    eexists. split; [done|]. split; [by cbn; destruct (Suggestions out)|done].
Qed.
End Contained.

(** ** The properties at work *)

#[local] Instance any_url : NewRequest := fun _ => Ok "/internal/v1/search"%string.
#[local] Instance search_codec : Codec SearchRequest SearchResult := {|
  Marshal := fun r => Some (Query r);
  Unmarshal := fun s => if s =s "{}" then Some (mkSearchResult StatusOK None 0 0 None) else None
|}.
#[local] Instance suggest_codec : Codec SuggestRequest SuggestResult := {|
  Marshal := fun r => Some (Prefix r);
  Unmarshal := fun _ => None
|}.
#[local] Instance events_codec : Codec EventBatch PublishResult := {|
  Marshal := fun _ => Some "[]"%string;
  Unmarshal := fun _ => None
|}.

Definition sample_request : SearchRequest :=
  mkSearchRequest "sunset" (mkViewer "" true RoleAnonymous "") (mkSite "default" "") None 10 0 "" "corr".

Definition sample_client : RemoteClient := NewRemote "http://search:9000/" "0123456789abcdef0123456789abcdef".

(** A search service that answers every call with HTTP 502. *)
Definition bad_gateway : CallEnv :=
  mkCallEnv (Some "fedcba9876543210"%string) 1789000000 (fun _ => Ok (mkResponse 502 (Some ""%string))).

Definition sample_suggest : SuggestRequest :=
  mkSuggestRequest "sun" (mkViewer "" true RoleAnonymous "") (mkSite "default" "") 10 "corr".
Definition sample_service : Service := NewService SQLSearcher (Some sample_client).
Definition sample_batch : EventBatch := mkEventBatch (mkSite "default" "") [] "corr".

Lemma remote_fault_contained_witness :
  (Service_Search false bad_gateway sample_request sample_service).1.1 = SQL_Search false sample_request
  /\ (Health bad_gateway (Service_Search false bad_gateway sample_request sample_service).2).1 = HealthDegraded
  /\ exists rq, (Service_Publish false bad_gateway sample_batch sample_service).1.2 = Some rq
       /\ Verify (key sample_client) "POST" (rq_Path rq) (rq_Header rq) "[]" 1789000100 = None.
Proof.
  destruct (Service_Search false bad_gateway sample_request sample_service) as [[res sent] s'] eqn:HS.
  destruct (Service_Suggest false bad_gateway sample_suggest sample_service) as [[sug gsent] g'] eqn:HG.
  destruct (Service_Publish false bad_gateway sample_batch sample_service) as [[pub ps] p'] eqn:HP.
  assert (Hps : match ps with Some rq => rq_Method rq = "POST"%string /\ rq_Body rq = "[]"%string | None => False end).
  { apply (f_equal (fun x => x.1.2)) in HP. cbn [fst snd] in HP. subst ps. vm_compute. by split. }
  destruct (remote_fault_contained bad_gateway sample_request sample_suggest sample_batch
              sample_client bad_gateway 1789000100 res sent s' sug gsent g' pub ps p')
    as ((out & _ & _ & Hf) & Hh & _ & _ & _ & _ & _ & _ & Ha).
  - split; [by intros b [= <-]|by vm_compute].
  - by vm_compute.
  - by vm_compute.
  - exact HS.
  - exact HG.
  - exact HP.
  - cbn [fst snd]. split; [apply Hf; by vm_compute|]. split; [rewrite Hh; by vm_compute|].
    destruct ps as [rq|]; [|done]. destruct Hps as [Hm Hb]. exists rq. split; [done|].
    specialize (Ha rq eq_refl). by rewrite Hm, Hb in Ha.
Defined.
