(* ===== verification/Probes.v ===== *)
(** * Probes (src/internal/httpapi/probes.go, modules.go)

    Liveness, readiness with its two-second single-flight cache, and the module
    versions /version reports.  What a probe asks (the two pings, the queue
    snapshot) may depend on whether the request's context has ended; instants
    are in nanoseconds and 0 is the zero time. *)

From S2P Require Import Prelude Utf8 Regex GoStrings GoTime GoFmt GoJson Limiter SearchHmac Search Origin Config.

Definition statusOK : string := "ok".
Definition statusDegraded : string := "degraded".
Definition statusUnavailable : string := "unavailable".
Definition statusOff : string := "off".

Record readinessComponent := mkComponent { rc_Name : string; rc_Status : string; rc_Detail : string }.

Record readinessResponse := mkReadiness {
  rr_Status : string;
  rr_Components : list readinessComponent;
  rr_CheckedAt : Z
}.

(** ** Liveness *)

Definition handleHealthz (draining : bool) : Z * string :=
  if draining then (503, "draining"%string) else (200, "ok"%string).

(** ** Readiness *)

(** The handles of the server.  A ping is given whether its context has ended
    and says whether it was answered; the snapshot is the age of the oldest
    queued job, if it can be read. *)
Record Deps := mkDeps {
  d_Config : option Config;
  d_PingDatabase : bool -> bool;
  d_PingCache : bool -> bool;
  d_OwnerClaimDegraded : bool;
  d_Limiter : option FallbackLimiter;
  d_Search : option Service;
  d_QueueSnapshot : option (bool -> option Z)
}.

(** The worst of two states. *)
Definition demote (worst to : string) : string :=
  if worst =s statusUnavailable then worst
  else if to =s statusUnavailable then statusUnavailable
  else if (to =s statusDegraded) && (worst =s statusOK) then statusDegraded
  else worst.

Definition database_component (d : Deps) (ended : bool) : readinessComponent :=
  if d_PingDatabase d ended then mkComponent "database" statusOK ""
  else mkComponent "database" statusUnavailable "PostgreSQL is unreachable".

Definition owner_components (d : Deps) : list readinessComponent :=
  if d_OwnerClaimDegraded d
  then [mkComponent "owner_claim" statusDegraded "the owner-claim bootstrap did not complete; run `vizra doctor`"]
  else [].

Definition cache_component (d : Deps) (ended : bool) : readinessComponent :=
  if negb (d_PingCache d ended)
  then mkComponent "cache" statusDegraded "cache unreachable; rate limits are per-process only"
  else match d_Limiter d with
       | Some l => if degraded l
                   then mkComponent "cache" statusDegraded "rate limiting is running on the in-process fallback"
                   else mkComponent "cache" statusOK ""
       | None => mkComponent "cache" statusOK ""
       end.

Definition search_component `{NewRequest} (d : Deps) (env : CallEnv) : readinessComponent * option Service :=
  match d_Search d with
  | None => (mkComponent "search" statusOff "", None)
  | Some s =>
      let '(h, s') := Health env s in
      (if h =s HealthOff then mkComponent "search" statusOff ""
       else if h =s HealthOK then mkComponent "search" statusOK ""
       else mkComponent "search" statusDegraded
              "search is configured but unreachable or misconfigured; results are served from SQL",
       Some s')
  end.

Definition worker_components (d : Deps) (ended : bool) : list readinessComponent :=
  match d_QueueSnapshot d with
  | None => []
  | Some snapshot =>
      [match snapshot ended with
       | None => mkComponent "worker" statusDegraded "the job queue could not be read"
       | Some age =>
           if match d_Config d with Some c => cfg_QueueAgeThreshold c <? age | None => false end
           then mkComponent "worker" statusDegraded "the oldest queued job is older than the configured threshold"
           else mkComponent "worker" statusOK ""
       end]
  end.

(** The components in the order they are checked; the status is the worst. *)
Definition computeReadiness `{NewRequest} (d : Deps) (env : CallEnv) (ended : bool) (now : Z)
    : readinessResponse * option Service :=
  let '(sc, search') := search_component d env in
  let cs := database_component d ended :: owner_components d
            ++ [cache_component d ended; sc] ++ worker_components d ended in
  (mkReadiness (fold_left (fun w c => demote w (rc_Status c)) cs statusOK) cs now, search').

(** The cache: [taken] is 0 until a value was computed. *)
Record readinessCache := mkReadinessCache { ttl : Z; rvalue : readinessResponse; taken : Z }.

Definition fresh (now : Z) (r : readinessCache) : bool :=
  negb (taken r =? 0) && (now - taken r <? ttl r).

Definition with_search (d : Deps) (s : option Service) : Deps :=
  mkDeps (d_Config d) (d_PingDatabase d) (d_PingCache d) (d_OwnerClaimDegraded d) (d_Limiter d) s
    (d_QueueSnapshot d).

(** A call that meets no computation in flight; [computed] is when its own one
    ended. *)
Definition Get `{NewRequest} (d : Deps) (env : CallEnv) (ended : bool) (now computed : Z) (r : readinessCache)
    : readinessResponse * readinessCache * Deps :=
  if fresh now r then (rvalue r, r, d)
  else
    let '(v, s') := computeReadiness d env ended now in
    (v, mkReadinessCache (ttl r) v computed, with_search d s').

Definition handleReadyz `{NewRequest} (draining : bool) (d : Deps) (env : CallEnv) (ended : bool)
    (now computed : Z) (r : readinessCache) : Z * readinessResponse * readinessCache * Deps :=
  if draining
  then (503, mkReadiness statusUnavailable [mkComponent "database" statusOK "the process is draining"] now, r, d)
  else
    let '(resp, r', d') := Get d env ended now computed r in
    (if rr_Status resp =s statusUnavailable then 503 else 200, resp, r', d').

(** ** The bodies as they are sent *)

(** [time.Time.MarshalJSON] without its quotes. *)
Class TimeText := rfc3339 : Z -> string.

Definition component_json (c : readinessComponent) : Json :=
  JObject ([("name", JString (rc_Name c)); ("status", JString (rc_Status c))]%string
           ++ (if rc_Detail c =s "" then [] else [("detail"%string, JString (rc_Detail c))])).

Definition readiness_json `{TimeText} (r : readinessResponse) : Json :=
  JObject [("status", JString (rr_Status r)); ("components", JArray (map component_json (rr_Components r)));
           ("checked_at", JString (rfc3339 (rr_CheckedAt r)))]%string.

(** [c.JSON]: the encoder ends the value with a line break. *)
Definition json_body (j : Json) : string := compact j +:+ newline.

(** ** Single flight: the cache under concurrent callers

    A caller answers from the cache, waits for the computation in flight, or
    becomes it.  Each computation has a number, which stands for its wait
    group. *)

Inductive Caller :=
| Waiting (flight : nat)
| Computing (flight : nat)
| Answered (v : readinessResponse).

(** [f_values] records, for the proofs only, what was computed. *)
Record Flight := mkFlight {
  f_cache : readinessCache;
  f_next : nat;
  f_inFlight : option nat;
  f_callers : list Caller;
  f_values : list readinessResponse
}.

Inductive fstep : Flight -> Flight -> Prop :=
| F_cached now c n i cs vs :
    fresh now c = true ->
    fstep (mkFlight c n i cs vs) (mkFlight c n i (cs ++ [Answered (rvalue c)]) vs)
| F_wait now c n g cs vs :
    fresh now c = false ->
    fstep (mkFlight c n (Some g) cs vs) (mkFlight c n (Some g) (cs ++ [Waiting g]) vs)
| F_compute now c n cs vs :
    fresh now c = false ->
    fstep (mkFlight c n None cs vs) (mkFlight c (S n) (Some n) (cs ++ [Computing n]) vs)
| F_finish now c n i cs vs k g v :
    cs !! k = Some (Computing g) -> 0 < now ->
    fstep (mkFlight c n i cs vs)
      (mkFlight (mkReadinessCache (ttl c) v now) n None (<[k := Answered v]> cs) (v :: vs))
| F_wake c n i cs vs k g :
    cs !! k = Some (Waiting g) -> i <> Some g ->
    fstep (mkFlight c n i cs vs) (mkFlight c n i (<[k := Answered (rvalue c)]> cs) vs).

Definition newReadinessCache (t : Z) (zero : readinessResponse) : readinessCache := mkReadinessCache t zero 0.

(** ** Module versions (modules.go) *)

Definition reportedModules : list string :=
  ["github.com/labstack/echo/v5"; "github.com/jackc/pgx/v5"; "github.com/redis/go-redis/v9";
   "github.com/golang-migrate/migrate/v4"; "go.opentelemetry.io/otel"]%string.

Definition shortName (path : string) : string := List.last (Split "/" path) ""%string.

(** The dependencies of the build information, as path and version; a later
    entry of the map replaces an earlier one. *)
Definition moduleVersions (deps : list (string * string)) : gmap string string :=
  fold_left (fun m '(p, v) => if one_of p reportedModules then <[shortName p := v]> m else m) deps ∅.

(** ** Properties *)

Lemma demote_unavailable w to :
  demote w to = statusUnavailable <-> w = statusUnavailable \/ to = statusUnavailable.
Proof.
  unfold demote. destruct (String.eqb_spec w statusUnavailable); [tauto|].
  destruct (String.eqb_spec to statusUnavailable); [tauto|].
  destruct (_ && _); split; try done; tauto.
Qed.

Lemma demote_ok w to :
  demote w to = statusOK <-> w = statusOK /\ to <> statusUnavailable /\ to <> statusDegraded.
Proof.
  unfold demote. destruct (String.eqb_spec w statusUnavailable) as [->|]; [split; [done|by intros [? _]]|].
  destruct (String.eqb_spec to statusUnavailable) as [->|]; [split; [done|by intros (_ & ? & _)]|].
  destruct (String.eqb_spec to statusDegraded) as [->|], (String.eqb_spec w statusOK) as [->|]; simpl;
    split; try done; tauto.
Qed.

Definition statuses_of (cs : list readinessComponent) (w : string) : string :=
  fold_left (fun w c => demote w (rc_Status c)) cs w.

Lemma statuses_unavailable cs : forall w,
  statuses_of cs w = statusUnavailable
  <-> w = statusUnavailable \/ exists c, List.In c cs /\ rc_Status c = statusUnavailable.
Proof.
  unfold statuses_of. induction cs as [|c cs IH]; intros w; simpl; [split; [tauto|by intros [?|(? & [] & _)]]|].
  rewrite IH, demote_unavailable. split.
  - intros [[?|?]|(x & ? & ?)]; eauto.
  - intros [?|(x & [->|?] & ?)]; eauto.
Qed.

Definition well (c : readinessComponent) : bool :=
  (rc_Status c <>s statusUnavailable) && (rc_Status c <>s statusDegraded).

Lemma statuses_ok cs : forall w,
  statuses_of cs w = statusOK <-> w = statusOK /\ forallb well cs = true.
Proof.
  unfold statuses_of. induction cs as [|c cs IH]; intros w; simpl; [split; [by split|tauto]|].
  rewrite IH, demote_ok. unfold well at 2. rewrite !andb_true_iff, !negb_true_iff, !String.eqb_neq. tauto.
Qed.

Lemma statuses_known cs : forall w,
  List.In w [statusOK; statusDegraded; statusUnavailable] ->
  List.In (statuses_of cs w) [statusOK; statusDegraded; statusUnavailable].
Proof.
  unfold statuses_of. induction cs as [|c cs IH]; intros w Hw; [done|]. apply IH. unfold demote.
  repeat case_match; simpl; tauto.
Qed.

Section Readiness.
Context `{HR : NewRequest}.

(** Nothing to report: every dependency the server has is well. *)
Definition all_well (d : Deps) (env : CallEnv) (ended : bool) : bool :=
  d_PingDatabase d ended && negb (d_OwnerClaimDegraded d) && d_PingCache d ended
  && match d_Limiter d with Some l => negb (degraded l) | None => true end
  && match d_Search d with Some s => one_of (Health env s).1 [HealthOff; HealthOK] | None => true end
  && match d_QueueSnapshot d with
     | Some snapshot =>
         match snapshot ended, d_Config d with
         | Some age, Some c => age <=? cfg_QueueAgeThreshold c
         | Some _, None => true
         | None, _ => false
         end
     | None => true
     end.

Lemma compute_unavailable d env ended now :
  rr_Status (computeReadiness d env ended now).1 = statusUnavailable <-> d_PingDatabase d ended = false.
Proof.
  unfold computeReadiness. destruct (search_component d env) as [sc s'] eqn:Hsc.
  cbn [fst rr_Status]. change (fold_left _ ?cs ?w) with (statuses_of cs w). rewrite statuses_unavailable.
  split.
  - intros [?|(c & Hin & Hc)]; [done|]. revert Hin. simpl. rewrite in_app_iff. simpl.
    intros [<-|[Ho|[<-|[<-|Hw]]]].
    + unfold database_component in Hc. by destruct (d_PingDatabase d ended).
    + unfold owner_components in Ho. destruct (d_OwnerClaimDegraded d); [|done]. by destruct Ho as [<-|[]].
    + unfold cache_component in Hc. by repeat case_match.
    + unfold search_component in Hsc. repeat case_match; simplify_eq; done.
    + unfold worker_components in Hw. destruct (d_QueueSnapshot d); [|done]. destruct Hw as [<-|[]].
      by repeat case_match.
  - intros Hdb. right. exists (database_component d ended). split; [by left|].
    unfold database_component. by rewrite Hdb.
Qed.

Lemma search_well d env :
  well (search_component d env).1
  = match d_Search d with Some s => one_of (Health env s).1 [HealthOff; HealthOK] | None => true end.
Proof.
  unfold search_component. destruct (d_Search d) as [s|]; [|done].
  destruct (Health env s) as [h s2]. cbn [fst]. unfold one_of. simpl.
  destruct (h =s HealthOff); [done|]. by destruct (h =s HealthOK).
Qed.

Lemma compute_ok d env ended now :
  rr_Status (computeReadiness d env ended now).1 = statusOK <-> all_well d env ended = true.
Proof.
  unfold computeReadiness, all_well. rewrite <- search_well.
  destruct (search_component d env) as [sc s']. cbn [fst rr_Status].
  change (fold_left _ ?cs ?w) with (statuses_of cs w). rewrite statuses_ok.
  assert (Hb : forallb well (database_component d ended :: owner_components d
                ++ [cache_component d ended; sc] ++ worker_components d ended)
               = d_PingDatabase d ended && negb (d_OwnerClaimDegraded d)
                 && (d_PingCache d ended && match d_Limiter d with Some l => negb (degraded l) | None => true end)
                 && well sc && forallb well (worker_components d ended)).
  { cbn [forallb]. rewrite forallb_app. cbn [app forallb].
    assert (well (database_component d ended) = d_PingDatabase d ended) as ->
      by (unfold database_component; by destruct (d_PingDatabase d ended)).
    assert (forallb well (owner_components d) = negb (d_OwnerClaimDegraded d)) as ->
      by (unfold owner_components; by destruct (d_OwnerClaimDegraded d)).
    assert (well (cache_component d ended)
            = d_PingCache d ended && match d_Limiter d with Some l => negb (degraded l) | None => true end) as ->
      by (unfold cache_component; destruct (d_PingCache d ended), (d_Limiter d) as [l|]; try done; by destruct (degraded l)).
    by rewrite !andb_assoc. }
  rewrite Hb, !andb_assoc.
  assert (forallb well (worker_components d ended)
    = match d_QueueSnapshot d with
      | Some snapshot => match snapshot ended, d_Config d with
                         | Some age, Some c => age <=? cfg_QueueAgeThreshold c
                         | Some _, None => true
                         | None, _ => false
                         end
      | None => true
      end) as ->; [|tauto].
  unfold worker_components. destruct (d_QueueSnapshot d) as [snap|]; [|done].
  destruct (snap ended) as [age|]; [|done]. destruct (d_Config d) as [c|]; [|done].
  by destruct (Z.ltb_spec (cfg_QueueAgeThreshold c) age), (Z.leb_spec age (cfg_QueueAgeThreshold c)); try lia.
Qed.

Lemma compute_known d env ended now :
  List.In (rr_Status (computeReadiness d env ended now).1) [statusOK; statusDegraded; statusUnavailable].
Proof.
  unfold computeReadiness. destruct (search_component d env). apply statuses_known. by left.
Qed.

(** Readiness: a draining process answers 503 and touches nothing; a value
    younger than the cache's time to live is served as it is; otherwise the
    answer is 503 exactly when the database ping failed, its status is ok exactly
    when every dependency is well, anything else is a 200 that says degraded,
    and the value is kept for the next callers. *)
Theorem readiness_rules draining d env ended now computed r :
  let '(code, resp, r', _) := handleReadyz draining d env ended now computed r in
  (code = 200 \/ code = 503)
  /\ (draining = true -> code = 503 /\ r' = r)
  /\ (draining = false -> fresh now r = true -> resp = rvalue r /\ r' = r)
  /\ (draining = false -> fresh now r = false ->
        (code = 503 <-> d_PingDatabase d ended = false)
        /\ (rr_Status resp = statusOK <-> all_well d env ended = true)
        /\ (code = 200 -> rr_Status resp = statusOK \/ rr_Status resp = statusDegraded)
        /\ rvalue r' = resp /\ taken r' = computed).
Proof.
  unfold handleReadyz, Get. destruct draining; [by split_and!; auto|].
  pose proof (compute_unavailable d env ended now) as Hu. pose proof (compute_ok d env ended now) as Ho.
  pose proof (compute_known d env ended now) as Hk.
  destruct (fresh now r); [split_and!; try done; case_match; auto|].
  destruct (computeReadiness d env ended now) as [v s']. cbn [fst] in *.
  split_and!; [case_match; auto|done..|]. intros _ _. split_and!; try done.
  - rewrite <- Hu. destruct (String.eqb_spec (rr_Status v) statusUnavailable); by split.
  - destruct (String.eqb_spec (rr_Status v) statusUnavailable); [done|].
    intros _. destruct Hk as [Hk|[Hk|[Hk|[]]]]; rewrite <- Hk; auto; congruence.
Qed.

(** The request's own context reaches the pings, and the answer is cached: one
    caller that gives up while the database is well makes every caller be
    answered 503 for the life of the cached value. *)
Theorem cancelled_probe_is_served d env now computed r env' later computed' :
  d_PingDatabase d true = false -> fresh now r = false -> 0 < computed -> later - computed < ttl r ->
  let '(_, _, r', d') := handleReadyz false d env true now computed r in
  (handleReadyz false d' env' false later computed' r').1.1.1 = 503.
Proof.
  intros Hping Hf Hc Hl. unfold handleReadyz at 1, Get. rewrite Hf.
  pose proof (proj2 (compute_unavailable d env true now) Hping) as Hu.
  destruct (computeReadiness d env true now) as [v s']. cbn [fst] in Hu.
  unfold handleReadyz, Get, fresh. cbn [taken ttl rvalue].
  rewrite (proj2 (Z.eqb_neq _ _)), (proj2 (Z.ltb_lt _ _) Hl) by lia. simpl. by rewrite Hu.
Qed.
End Readiness.

(** ** One computation at a time *)

Record flight_inv (f : Flight) : Prop := {
  inv_computing : forall k g, f_callers f !! k = Some (Computing g) -> f_inFlight f = Some g;
  inv_flown : forall g, f_inFlight f = Some g -> exists k, f_callers f !! k = Some (Computing g);
  inv_single : forall k k' g g', f_callers f !! k = Some (Computing g) ->
    f_callers f !! k' = Some (Computing g') -> k = k';
  inv_value : taken (f_cache f) <> 0 -> List.In (rvalue (f_cache f)) (f_values f);
  inv_answer : forall k v, f_callers f !! k = Some (Answered v) -> List.In v (f_values f);
  inv_first : taken (f_cache f) = 0 -> forall k g, f_callers f !! k = Some (Waiting g) -> f_inFlight f = Some g
}.

(** A caller of a list to which one was added, or in which one was replaced. *)
Lemma lookup_added (cs : list Caller) x k y :
  (cs ++ [x]) !! k = Some y -> cs !! k = Some y \/ k = length cs /\ y = x.
Proof.
  intros [Hk|[Hk Hx]]%lookup_app_Some; [by left|right].
  destruct (k - length cs)%nat as [|m] eqn:Hm; simpl in Hx; [|done]. split; [lia|congruence].
Qed.

Lemma lookup_replaced (cs : list Caller) j x k y :
  <[j := x]> cs !! k = Some y -> k <> j /\ cs !! k = Some y \/ k = j /\ y = x.
Proof. intros [[-> [-> _]]|[Hne Hk]]%list_lookup_insert_Some; [by right|left; auto]. Qed.

Lemma lookup_kept (cs : list Caller) x k y : cs !! k = Some y -> (cs ++ [x]) !! k = Some y.
Proof. intros Hk. by apply lookup_app_l_Some. Qed.

Lemma fresh_taken now c : fresh now c = true -> taken c <> 0.
Proof. unfold fresh. intros Hf. eqb_prop. by apply Z.eqb_neq. Qed.

Ltac callers := repeat match goal with
  | H : (_ ++ [_]) !! _ = Some _ |- _ => apply lookup_added in H as [H|[? H]]; [|simplify_eq]
  | H : <[_ := _]> _ !! _ = Some _ |- _ => apply lookup_replaced in H as [[? H]|[? H]]; [|simplify_eq]
  end; try done.

Lemma flight_step f f' : fstep f f' -> flight_inv f -> flight_inv f'.
Proof.
  intros Hs [Hc Hfl H1 Hv Ha Hf].
  destruct Hs as [now c n i cs vs Hfr|now c n g cs vs Hfr|now c n cs vs Hfr|now c n i cs vs k g v Hk Hn|c n i cs vs k g Hk Hi];
    cbn [f_cache f_next f_inFlight f_callers f_values] in *.
  - pose proof (fresh_taken _ _ Hfr). split; cbn; intros; callers; eauto.
    destruct (Hfl _ H0) as [k Hk]. eauto using lookup_kept.
  - split; cbn; intros; callers; eauto.
    destruct (Hfl _ H) as [k Hk]. eauto using lookup_kept.
  - assert (Hnone : forall k g, cs !! k <> Some (Computing g)) by (intros k g Hk; by apply Hc in Hk).
    split; cbn; intros; callers; simplify_eq; eauto; try (by exfalso; eapply Hnone).
    + exists (length cs). by apply list_lookup_middle.
    + by specialize (Hf H _ _ H0).
  - split; cbn; intros; callers; eauto; try lia.
    by destruct (H1 _ _ _ _ H Hk).
  - split; cbn; intros; callers; eauto.
    destruct (Hfl _ H) as [j Hj]. exists j. rewrite list_lookup_insert_ne; [done|]. intros ->. congruence.
Qed.

Definition no_flight (t : Z) (zero : readinessResponse) : Flight :=
  mkFlight (newReadinessCache t zero) 0 None [] [].

Lemma flights_inv t zero f : rtc fstep (no_flight t zero) f -> flight_inv f.
Proof.
  intros Hs. remember (no_flight t zero) as f0 eqn:He.
  assert (H0 : flight_inv f0) by (subst; by split).
  clear He. induction Hs; eauto using flight_step.
Qed.

(** C39. Single flight: however callers arrive, at most one of them is computing;
    every answer is a value some computation produced, never the empty one the
    cache starts with; and a waiting caller either has its computation running
    or can return at once. *)
Theorem single_flight t zero f :
  rtc fstep (no_flight t zero) f ->
  (forall k k' g g', f_callers f !! k = Some (Computing g) ->
     f_callers f !! k' = Some (Computing g') -> k = k')
  /\ (forall k v, f_callers f !! k = Some (Answered v) -> List.In v (f_values f))
  /\ (forall k g, f_callers f !! k = Some (Waiting g) ->
        (exists k', f_callers f !! k' = Some (Computing g))
        \/ exists f', fstep f f' /\ f_callers f' = <[k := Answered (rvalue (f_cache f))]> (f_callers f)).
Proof.
  intros Hs%flights_inv. split; [apply inv_single, Hs|]. split; [apply inv_answer, Hs|].
  intros k g Hk. destruct (decide (f_inFlight f = Some g)) as [He|Hne].
  - left. by apply (inv_flown f Hs).
  - right. destruct f as [c n i cs vs]. cbn in *. eexists. by split; [eapply F_wake|].
Qed.

(** ** The properties at work *)

Definition ready_value : readinessResponse := mkReadiness statusOK [] 5.

Lemma single_flight_witness :
  exists f, rtc fstep (no_flight 2000 ready_value) f /\ f_callers f = [Computing 0; Waiting 0]
    /\ exists k, f_callers f !! k = Some (Computing 0).
Proof.
  set (f := mkFlight (newReadinessCache 2000 ready_value) 1 (Some 0%nat) [Computing 0; Waiting 0] []).
  assert (Hr : rtc fstep (no_flight 2000 ready_value) f).
  { eapply rtc_l; [by apply (F_compute 7)|]. eapply rtc_l; [by apply (F_wait 8)|]. constructor. }
  exists f. split; [exact Hr|]. split; [reflexivity|].
  destruct (single_flight 2000 ready_value f Hr) as (_ & _ & Hw).
  destruct (Hw 1%nat 0%nat eq_refl) as [Hc|(f' & Hs & Hf)]; [exact Hc|].
  exists 0%nat. reflexivity.
Defined.

(** Two of the reported modules share a short name. *)
Example module_versions_collide :
  moduleVersions [("github.com/labstack/echo/v5", "v5.0.1"); ("github.com/jackc/pgx/v5", "v5.9.0")]%string
  = {["v5"%string := "v5.9.0"%string]}.
Proof. vm_compute. reflexivity. Qed.
