(* ===== verification/Migrate.v ===== *)
(** * Schema migrations (src/internal/migrate/migrate.go)

    Which version a binary embeds, what /schemaz reports of a database, and the
    run over every site.  The migration library and the ledger it keeps are the
    parameter [Ledger]. *)

From Stdlib Require Import Permutation Sorted.
From S2P Require Import Prelude Utf8 Regex GoStrings Decimals Origin.

(** ** The embedded version *)

Inductive MigrateError :=
| ErrNoVersionPrefix (name : string)
| ErrNonNumeric (name : string)
| ErrTwice (v : Z)
| ErrNoMigrations
| ErrGap (v pos : Z).

Definition MigrateError_Error (e : MigrateError) : string :=
  match e with
  | ErrNoVersionPrefix name => "migrate: " +:+ name +:+ " does not start with a version prefix"
  | ErrNonNumeric name => "migrate: " +:+ name +:+ " has a non-numeric version prefix"
  | ErrTwice v => "migrate: version " +:+ Itoa v +:+ " appears twice"
  | ErrNoMigrations => "migrate: no migrations are embedded"
  | ErrGap v pos =>
      "migrate: migration versions are not a gapless 1..N sequence; found " +:+ Itoa v
      +:+ " at position " +:+ Itoa pos
  end.

(** The text before the first [c], if there is one. *)
Fixpoint before_first (c : ascii) (s : string) : option string :=
  match s with
  | EmptyString => None
  | String x s =>
      if Ascii.eqb x c then Some ""%string
      else match before_first c s with Some p => Some (String x p) | None => None end
  end.

(** The version of one file name; [None] for a file that is no up migration. *)
Definition version_of (name : string) : result MigrateError (option Z) :=
  if negb (HasSuffix name ".up.sql") then Ok None
  else match before_first "_" name with
  | None | Some EmptyString => Err (ErrNoVersionPrefix name)
  | Some p => match ParseInt p with
              | None => Err (ErrNonNumeric name)
              | Some v => Ok (Some v)
              end
  end.

(** The loop over the directory: the highest version and the versions seen. *)
Fixpoint scan (names : list string) (max : Z) (seen : list Z) : result MigrateError (Z * list Z) :=
  match names with
  | [] => Ok (max, seen)
  | name :: names =>
      let? o := version_of name in
      match o with
      | None => scan names max seen
      | Some v =>
          if existsb (Z.eqb v) seen then Err (ErrTwice v)
          else scan names (if max <? v then v else max) (v :: seen)
      end
  end.

Fixpoint insert_version (v : Z) (l : list Z) : list Z :=
  match l with [] => [v] | w :: l => if v <=? w then v :: w :: l else w :: insert_version v l end.

Fixpoint sort_versions (l : list Z) : list Z :=
  match l with [] => [] | v :: l => insert_version v (sort_versions l) end.

(** The sorted versions from position [pos] on. *)
Fixpoint gapless (pos : Z) (l : list Z) : option MigrateError :=
  match l with
  | [] => None
  | v :: l => if v =? pos then gapless (pos + 1) l else Some (ErrGap v pos)
  end.

Definition EmbeddedVersion (entries : list string) : result MigrateError Z :=
  let? (max, seen) := scan entries 0 [] in
  if max =? 0 then Err ErrNoMigrations
  else match gapless 1 (sort_versions seen) with
       | Some e => Err e
       | None => Ok max
       end.

(** ** DSNs *)

Definition normalizeDSN (dsn : string) : string :=
  if HasPrefix dsn "pgx5://" then dsn
  else if HasPrefix dsn "postgres://" then "pgx5://" +:+ TrimPrefix dsn "postgres://"
  else if HasPrefix dsn "postgresql://" then "pgx5://" +:+ TrimPrefix dsn "postgresql://"
  else dsn.

(** ** The schema probe *)

Definition StateCurrent : string := "current".
Definition StateBehind : string := "behind".
Definition StateAhead : string := "ahead".
Definition StateDirty : string := "dirty".
Definition StateUnknown : string := "unknown".

Record Status := mkStatus {
  st_AppliedVersion : Z;
  st_EmbeddedVersion : Z;
  st_Dirty : bool;
  st_State : string;
  st_Detail : string
}.

(** What the ledger query answers: the row, or the text of an error. *)
Definition Probe (pool : option (result string (Z * bool))) (embedded : Z) : Status :=
  match pool with
  | None => mkStatus 0 embedded false StateUnknown "no database pool"
  | Some (Err msg) =>
      if Contains msg "no rows"
      then mkStatus 0 embedded false StateBehind "the ledger is empty; run `vizra migrate`"
      else mkStatus 0 embedded false StateUnknown "the migration ledger could not be read"
  | Some (Ok (version, dirty)) =>
      if dirty then mkStatus version embedded dirty StateDirty "a previous migration failed part-way; resolve it deliberately"
      else if version <? embedded then mkStatus version embedded dirty StateBehind "run `vizra migrate`"
      else if embedded <? version
      then mkStatus version embedded dirty StateAhead "the database is newer than this binary; rolling this image out is refused"
      else mkStatus version embedded dirty StateCurrent ""
  end.

(** ** Applying *)

(** The wrapped texts are the migration library's. *)
Inductive ApplyError :=
| ErrOpen (text : string)
| ErrLedger (text : string)
| ErrDirty (v : Z)
| ErrApplying (text : string).

Definition ApplyError_Error (e : ApplyError) : string :=
  match e with
  | ErrOpen text => "migrate: cannot open the migration ledger: " +:+ text
  | ErrLedger text => "migrate: reading the ledger: " +:+ text
  | ErrDirty v =>
      "migrate: the ledger is dirty at version " +:+ Itoa v
      +:+ "; a previous migration failed part-way. "
      +:+ "Inspect the database and resolve it deliberately: this is not repaired automatically"
  | ErrApplying text => "migrate: applying: " +:+ text
  end.

Definition redact (text dsn : string) : string :=
  if dsn =s "" then text else ReplaceAll text dsn "<DATABASE_URL>".

Inductive UpOutcome := UpDone | UpNoChange | UpFailed (text : string).

(** The migration library on the databases of the world [W]: opening (the text
    of its failure; the library makes sure of the ledger's table and creates it
    where it is missing), reading the ledger (an empty one reads as version 0,
    clean), and applying. *)
Class Ledger (W : Type) := {
  l_open : string -> W -> option string * W;
  l_version : string -> W -> result string (Z * bool);
  l_up : string -> W -> UpOutcome * W
}.

Section Apply.
Context {W : Type} `{Ledger W}.

(** [newMigrator]: the library is given the normalised DSN. *)
Definition newMigrator (dsn : string) (w : W) : result ApplyError string * W :=
  match l_open (normalizeDSN dsn) w with
  | (Some text, w') => (Err (ErrOpen (redact text dsn)), w')
  | (None, w') => (Ok (normalizeDSN dsn), w')
  end.

(** Whether something was applied, the version, and the error. *)
Definition applyOne (dsn : string) (w : W) : bool * Z * option ApplyError * W :=
  match newMigrator dsn w with
  | (Err e, w) => (false, 0, Some e, w)
  | (Ok m, w) =>
  match l_version m w with
  | Err text => (false, 0, Some (ErrLedger text), w)
  | Ok (before, true) => (false, before, Some (ErrDirty before), w)
  | Ok (before, false) =>
      match l_up m w with
      | (UpNoChange, w') => (false, before, None, w')
      | (UpFailed text, w') => (false, before, Some (ErrApplying text), w')
      | (UpDone, w') =>
          (true, match l_version m w' with Ok (v, _) => v | Err _ => 0 end, None, w')
      end
  end end.

Record SiteResult := mkSiteResult {
  sr_Handle : string;
  sr_Applied : bool;
  sr_Version : Z;
  sr_Err : option ApplyError
}.

(** Every site, in order; a failure does not stop the run. *)
Fixpoint apply_sites (sites : list Site) (w : W) : list SiteResult * W :=
  match sites with
  | [] => ([], w)
  | s :: sites =>
      let '(applied, v, err, w') := applyOne (DSN s) w in
      let '(rs, w'') := apply_sites sites w' in
      (mkSiteResult (Handle s) applied v err :: rs, w'')
  end.

Definition failed (r : SiteResult) : bool := match sr_Err r with Some _ => true | None => false end.

(** The results, and the error [n of m failed] as its two numbers. *)
Definition ApplyAll (r : Resolver) (w : W) : list SiteResult * option (Z * Z) * W :=
  let '(out, w') := apply_sites (sites r) w in
  let n := length (List.filter failed out) in
  (out, if (0 <? n)%nat then Some (Z.of_nat n, Z.of_nat (length out)) else None, w').

End Apply.

(** ** The embedded version is the length of a gapless sequence *)

(** The versions of the up migrations, when every one of them has one. *)
Fixpoint versions (names : list string) : option (list Z) :=
  match names with
  | [] => Some []
  | name :: names =>
      match version_of name, versions names with
      | Ok None, Some vs => Some vs
      | Ok (Some v), Some vs => Some (v :: vs)
      | _, _ => None
      end
  end.

Definition max_of (vs : list Z) (max : Z) : Z := fold_left (fun m v => if m <? v then v else m) vs max.

Lemma existsb_In v l : existsb (Z.eqb v) l = true <-> List.In v l.
Proof.
  rewrite existsb_exists. split; [by intros (x & Hx & ->%Z.eqb_eq)|]. intros Hv. exists v.
  split; [done|apply Z.eqb_refl].
Qed.

Lemma scan_spec names : forall max seen m s, List.NoDup seen ->
  scan names max seen = Ok (m, s) <->
  exists vs, versions names = Some vs /\ s = rev vs ++ seen /\ List.NoDup s /\ m = max_of vs max.
Proof.
  induction names as [|name names IH]; intros max seen m s Hn; simpl.
  { split; [intros [= <- <-]; by exists []|]. intros (vs & [= <-] & -> & _ & ->). done. }
  destruct (version_of name) as [[v|]|e]; [|by rewrite IH; destruct (versions names)|split; [done|by intros (? & ? & _)]].
  destruct (existsb (Z.eqb v) seen) eqn:He.
  - split; [done|]. intros (vs & Hv & -> & Hd & _). destruct (versions names) as [ws|]; [|done].
    injection Hv as <-. simpl in Hd. rewrite <- app_assoc in Hd. simpl in Hd.
    apply NoDup_remove_2 in Hd. exfalso. apply Hd, in_or_app. right. by apply existsb_In.
  - assert (Hnd : List.NoDup (v :: seen)).
    { constructor; [|done]. intros Hi%existsb_In. congruence. }
    rewrite (IH _ _ _ _ Hnd). split.
    + intros (vs & -> & -> & Hd & ->). exists (v :: vs). simpl. by rewrite <- app_assoc.
    + intros (vs & Hv & -> & Hd & ->). destruct (versions names) as [ws|]; [|done].
      injection Hv as <-. exists ws. simpl in *. by rewrite <- app_assoc in *.
Qed.

Lemma insert_version_perm v l : Permutation (insert_version v l) (v :: l).
Proof.
  induction l as [|w l IH]; simpl; [done|]. destruct (v <=? w); [done|]. rewrite IH. apply perm_swap.
Qed.

Lemma sort_versions_perm l : Permutation (sort_versions l) l.
Proof. induction l as [|v l IH]; simpl; [done|]. by rewrite insert_version_perm, IH. Qed.

Lemma insert_version_sorted v l : StronglySorted Z.le l -> StronglySorted Z.le (insert_version v l).
Proof.
  induction 1 as [|w l Hs IH Hf]; simpl; [by repeat constructor|].
  destruct (Z.leb_spec v w) as [Hle|Hlt].
  - constructor; [by constructor|]. constructor; [done|]. eapply Forall_impl; [exact Hf|]. simpl. lia.
  - constructor; [done|]. rewrite insert_version_perm. constructor; [lia|done].
Qed.

Lemma sort_versions_sorted l : StronglySorted Z.le (sort_versions l).
Proof. induction l; simpl; [constructor|by apply insert_version_sorted]. Qed.

(** The numbers from [a] on. *)
Fixpoint upward (a : Z) (n : nat) : list Z :=
  match n with O => [] | S n => a :: upward (a + 1) n end.

Lemma gapless_spec l : forall a, gapless a l = None <-> l = upward a (length l).
Proof.
  induction l as [|v l IH]; intros a; simpl; [done|].
  destruct (Z.eqb_spec v a) as [->|Hne]; [|split; [done|by intros [= -> _]]].
  rewrite IH. split; [by intros <-|by intros [= <-]].
Qed.

Lemma upward_In a n x : List.In x (upward a n) <-> a <= x < a + Z.of_nat n.
Proof.
  revert a. induction n as [|n IH]; intros a; simpl; [lia|]. rewrite IH. lia.
Qed.

Lemma upward_length a n : length (upward a n) = n.
Proof. revert a. induction n as [|n IH]; intros a; simpl; [done|]. by rewrite IH. Qed.

Lemma upward_sorted a n : StronglySorted Z.le (upward a n).
Proof.
  revert a. induction n as [|n IH]; intros a; simpl; [constructor|]. constructor; [done|].
  apply List.Forall_forall. intros x Hx%upward_In. lia.
Qed.

Lemma upward_nodup a n : List.NoDup (upward a n).
Proof.
  revert a. induction n as [|n IH]; intros a; simpl; constructor; [|done]. rewrite upward_In. lia.
Qed.

Lemma sorted_perm_eq l1 : forall l2,
  StronglySorted Z.le l1 -> StronglySorted Z.le l2 -> Permutation l1 l2 -> l1 = l2.
Proof.
  induction l1 as [|a l1 IH]; intros l2 H1 H2 Hp; [by apply Permutation_nil in Hp|].
  destruct l2 as [|b l2]; [by apply Permutation_sym, Permutation_nil in Hp|].
  inversion H1 as [|? ? Hs1 Hf1]; inversion H2 as [|? ? Hs2 Hf2]; subst.
  assert (a = b) as <-.
  { rewrite List.Forall_forall in Hf1, Hf2.
    assert (Ha : List.In a (b :: l2)) by (eapply Permutation_in; [exact Hp|by left]).
    assert (Hb : List.In b (a :: l1)) by (eapply Permutation_in; [exact (Permutation_sym Hp)|by left]).
    destruct Ha as [->|Ha], Hb as [Hb|Hb]; try done. specialize (Hf1 _ Hb). specialize (Hf2 _ Ha). lia. }
  f_equal. apply IH; [done..|]. by apply Permutation_cons_inv in Hp.
Qed.

Lemma max_of_spec vs : forall m, (forall v, List.In v vs -> v <= max_of vs m) /\ m <= max_of vs m
  /\ (max_of vs m = m \/ List.In (max_of vs m) vs).
Proof.
  unfold max_of. induction vs as [|v vs IH]; intros m; simpl; [split; [done|split; [lia|by left]]|].
  destruct (IH (if m <? v then v else m)) as (Ha & Hb & Hc). destruct (Z.ltb_spec m v).
  - split; [intros x [->|Hx]; auto|]. split; [lia|]. destruct Hc as [->|Hc]; auto.
  - split; [intros x [->|Hx]; [lia|auto]|]. split; [lia|]. destruct Hc as [->|Hc]; auto.
Qed.

(** The highest of the numbers 1 to [k], in any order. *)
Lemma max_of_upward vs k :
  (0 < k)%nat -> Permutation vs (upward 1 k) -> max_of vs 0 = Z.of_nat k.
Proof.
  intros Hk Hp. destruct (max_of_spec vs 0) as (Ha & Hb & Hc).
  assert (Hin : forall x, List.In x vs <-> 1 <= x < 1 + Z.of_nat k).
  { intros x. rewrite <- upward_In. split; apply Permutation_in; [done|by symmetry]. }
  assert (Z.of_nat k <= max_of vs 0) by (apply Ha, Hin; lia).
  destruct Hc as [Hc|Hc%Hin]; lia.
Qed.

Lemma gapless_sorted s :
  gapless 1 (sort_versions s) = None <-> Permutation s (upward 1 (length s)).
Proof.
  rewrite gapless_spec, (Permutation_length (sort_versions_perm s)). split; intros Hs.
  - by rewrite <- Hs, sort_versions_perm.
  - apply sorted_perm_eq; [apply sort_versions_sorted|apply upward_sorted|].
    by rewrite sort_versions_perm.
Qed.

(** The embedded version is [n] exactly when every up migration has a version
    and these are 1 to [n], each once: a gap, a duplicate, a name without a
    version and an empty set are all refused. *)
Theorem embedded_version_iff entries n :
  EmbeddedVersion entries = Ok n <->
  0 < n /\ exists vs, versions entries = Some vs /\ Permutation vs (upward 1 (Z.to_nat n)).
Proof.
  unfold EmbeddedVersion.
  pose proof (fun m s => scan_spec entries 0 [] m s (List.NoDup_nil _)) as Hs. split.
  - destruct (scan entries 0 []) as [[m s]|]; [|done].
    destruct (proj1 (Hs m s) eq_refl) as (vs & Hv & Hr & _ & Hm). rewrite app_nil_r in Hr.
    destruct (Z.eqb_spec m 0) as [|Hne]; [done|].
    destruct (gapless 1 (sort_versions s)) eqn:Hg; [done|]. intros [= <-].
    apply gapless_sorted in Hg. rewrite Hr, length_rev in Hg. rewrite <- Permutation_rev in Hg.
    assert (Hk : (0 < length vs)%nat) by (destruct vs; simpl; [done|lia]).
    rewrite (max_of_upward vs _ Hk Hg) in Hm. subst m. split; [lia|]. exists vs. by rewrite Nat2Z.id.
  - intros (Hn & vs & Hv & Hp).
    assert (Hd : List.NoDup (rev vs)).
    { eapply Permutation_NoDup; [|apply (upward_nodup 1 (Z.to_nat n))]. by rewrite <- Permutation_rev. }
    rewrite (proj2 (Hs (max_of vs 0) (rev vs))) by (exists vs; by rewrite app_nil_r).
    rewrite (max_of_upward vs (Z.to_nat n) ltac:(lia) Hp), Z2Nat.id by lia.
    rewrite (proj2 (Z.eqb_neq n 0)) by lia.
    rewrite (proj2 (gapless_sorted (rev vs))); [done|].
    rewrite length_rev, (Permutation_length Hp), upward_length, <- Permutation_rev. done.
Qed.

(** ** A run reports every site and leaves a dirty ledger alone *)

Section Runs.
Context {W : Type} `{HL : Ledger W}.

(** The world after the ledgers of the sites were opened, one after the other. *)
Definition open_next (w : W) (s : Site) : W := (l_open (normalizeDSN (DSN s)) w).2.

(** Each ledger, once opened, is dirty or unreadable. *)
Fixpoint none_clean (sites : list Site) (w : W) : Prop :=
  match sites with
  | [] => True
  | s :: sites => (forall before, l_version (normalizeDSN (DSN s)) (open_next w s) <> Ok (before, false))
                  /\ none_clean sites (open_next w s)
  end.

(** One result per site, in order, whether or not an earlier one failed; the
    run fails exactly when some site did, with the right counts; and a site
    whose ledger is dirty or unreadable is opened and not touched otherwise. *)
Theorem apply_all_reports r w :
  let '(out, err, w') := ApplyAll r w in
  map sr_Handle out = map Handle (sites r)
  /\ (err = None <-> forall x, List.In x out -> sr_Err x = None)
  /\ (forall n m, err = Some (n, m) -> n = Z.of_nat (length (List.filter failed out))
        /\ m = Z.of_nat (length (sites r)))
  /\ (none_clean (sites r) w -> w' = foldl open_next w (sites r)).
Proof.
  unfold ApplyAll. destruct (apply_sites (sites r) w) as [out w'] eqn:He.
  assert (Hm : map sr_Handle out = map Handle (sites r)).
  { revert w out w' He. induction (sites r) as [|s ss IH]; intros w out w' He; simpl in He; [by simplify_eq|].
    destruct (applyOne (DSN s) w) as [[[a v] e] w1]. destruct (apply_sites ss w1) as [rs w2] eqn:Hr.
    injection He as <- <-. simpl. f_equal. by eapply IH. }
  split; [done|]. split; [|split].
  - destruct (Nat.ltb_spec 0 (length (List.filter failed out))) as [Hlt|Hge]; split; try done.
    + intros Ha. exfalso. destruct (List.filter failed out) as [|x xs] eqn:Hf; [simpl in Hlt; lia|].
      assert (Hx : List.In x (List.filter failed out)) by (rewrite Hf; by left).
      apply filter_In in Hx as [Hx Hb]. unfold failed in Hb. by rewrite (Ha x Hx) in Hb.
    + intros _ x Hx. destruct (sr_Err x) eqn:Hx'; [|done]. exfalso.
      assert (List.In x (List.filter failed out)) as Hi
        by (apply filter_In; split; [done|]; unfold failed; by rewrite Hx').
      destruct (List.filter failed out); [done|simpl in Hge; lia].
  - intros n m. case_match; [|done]. intros [= <- <-]. split; [done|].
    by rewrite <- (length_map sr_Handle), Hm, length_map.
  - clear Hm. revert w out w' He. induction (sites r) as [|s ss IH]; intros w out w' He Hd; simpl in He; [by simplify_eq|].
    destruct Hd as [Hd Hds].
    assert (H1 : (applyOne (DSN s) w).2 = open_next w s).
    { unfold open_next in *. unfold applyOne, newMigrator. destruct (l_open _ w) as [[text|] w1]; [done|]. cbn [snd] in *.
      destruct (l_version _ w1) as [[b []]|]; try done. by destruct (Hd b). }
    destruct (applyOne (DSN s) w) as [[[a v] e] w1]. simpl in H1. subst w1.
    destruct (apply_sites ss (open_next w s)) as [rs w2] eqn:Hr. injection He as <- <-. by eapply IH.
Qed.
End Runs.

Example embedded_samples :
  map EmbeddedVersion
    [["0001_a.up.sql"; "0001_a.down.sql"; "0002_b.up.sql"; "embed.go"];
     ["0001_a.up.sql"; "0003_b.up.sql"]; ["0001_a.up.sql"; "1_b.up.sql"]; ["_a.up.sql"]; []]%string
  = [Ok 2; Err (ErrGap 3 2); Err (ErrTwice 1); Err (ErrNoVersionPrefix "_a.up.sql"); Err ErrNoMigrations].
Proof. vm_compute. reflexivity. Qed.

(** The redaction looks for the DSN as it was configured, and the library is
    given the normalised one: a text that quotes what the library was given, as
    the parse errors of net/url do, passes with its password. *)
Example normalised_dsn_survives :
  redact "parse 'pgx5://vizra:hunter2@db/%zz': invalid URL escape" "postgres://vizra:hunter2@db/%zz"
  = "parse 'pgx5://vizra:hunter2@db/%zz': invalid URL escape"%string
  /\ redact "cannot dial postgres://vizra:hunter2@db/x" "postgres://vizra:hunter2@db/x"
     = "cannot dial <DATABASE_URL>"%string.
Proof. vm_compute. split; reflexivity. Qed.
