(* ===== verification/Gauges.v ===== *)
(** * Queue gauges (src/internal/jobs/metrics.go and the aggregates of
    src/internal/store/sqlcgen/jobs.sql.go)

    What one collection reads of the jobs table, what the gauges hold after it,
    and the age readiness compares with its threshold.  An aggregate returns its
    groups in any order, so [Collect] takes the rows as they came. *)

From Stdlib Require Import SpecFloat.
From S2P Require Import Prelude Utf8 GoStrings GoTime GoFmt SafeError Pg JobTable Jobs Config Search Probes.

(** ** The aggregates *)

Definition state_text (s : JobState) : string :=
  match s with
  | queued => "queued" | leased => "leased" | succeeded => "succeeded"
  | failed => "failed" | dead => "dead"
  end.

Definition group : Type := string * JobState.

Definition live_groups (t : Table) : list group := map (fun j => (kind j, state j)) (List.filter live t).

(** GROUP BY kind, state with count( * ). *)
Definition JobDepthByKindState (t : Table) : list (group * Z) :=
  map (fun g => (g, Z.of_nat (length (List.filter (fun h => bool_decide (h = g)) (live_groups t)))))
    (remove_dups (live_groups t)).

Definition queued_of (k : string) (t : Table) : list Job :=
  List.filter (fun j => bool_decide (state j = queued) && (kind j =s k)) t.

(** The creation instant of the oldest of some jobs. *)
Definition oldest (js : list Job) : option timestamp :=
  foldr (fun j o => match o with None => Some (created_at j) | Some m => Some (Z.min (created_at j) m) end)
    None js.

(** GROUP BY kind with now() - min(created_at): the age in microseconds. *)
Definition OldestQueuedAgeByKind (now : timestamp) (t : Table) : list (string * Z) :=
  omap (fun k => match oldest (queued_of k t) with Some m => Some (k, now - m) | None => None end)
    (remove_dups (map kind t)).

(** SELECT ... WHERE id = $1. *)
Definition GetJob (i : uuid) (t : Table) : option Job := List.find (fun j => id j =s i) t.

(** ** Seconds as a float *)

(** EXTRACT(EPOCH FROM interval)::float8 of a number of microseconds: the
    nearest double of the quotient, for ages a double holds exactly (285
    years). *)
Definition age_seconds (us : Z) : spec_float := SFdiv 53 1024 (float64 us) (float64 1000000).

(** [int64(x)] of a float64: towards zero. *)
Definition int64_of (x : spec_float) : Z :=
  match x with
  | S754_finite true m e => - Z.shiftl (Z.pos m) e
  | _ => uint64_of x
  end.

(** [time.Duration(x * float64(time.Second))]. *)
Definition seconds_duration (x : spec_float) : Z := int64_of (SFmul 53 1024 x (float64 Second)).

Definition age_duration (us : Z) : Z := seconds_duration (age_seconds us).

(** ** Collecting *)

Record Metrics := mkMetrics {
  m_Depth : gmap (string * string) spec_float;
  m_OldestQueuedAge : gmap string spec_float;
  m_StaleLeases : spec_float
}.

Definition NewMetrics : Metrics := mkMetrics ∅ ∅ (float64 0).

Record Snapshot := mkSnapshot {
  s_OldestQueuedAge : Z;
  s_StaleLeases : Z;
  s_Depth : gmap string Z
}.

Definition depth_key (g : group) : string := g.1 +:+ "/" +:+ state_text g.2.

(** The rows of the depth query, put into the snapshot and the gauges. *)
Definition put_depths (rows : list (group * Z)) : gmap string Z * gmap (string * string) spec_float :=
  fold_left (fun '(d, m) '(g, n) => (<[depth_key g := n]> d, <[(g.1, state_text g.2) := float64 n]> m))
    rows (∅, ∅).

(** One row of the age query: its gauge, and the largest positive age so far. *)
Definition put_age (st : gmap string spec_float * Z) (r : string * Z) : gmap string spec_float * Z :=
  (<[r.1 := age_seconds r.2]> st.1, if st.2 <? age_duration r.2 then age_duration r.2 else st.2).

Definition put_ages (rows : list (string * Z)) : gmap string spec_float * Z := fold_left put_age rows (∅, 0).

(** What the three statements answer; gauges may be nil. *)
Definition Collect {E} (depths : result E (list (group * Z))) (ages : result E (list (string * Z)))
    (stale : result E Z) (m : option Metrics) : Snapshot * option E * option Metrics :=
  match depths with
  | Err e => (mkSnapshot 0 0 ∅, Some e, m)
  | Ok drows =>
      let '(d, dg) := put_depths drows in
      let m1 := match m with
                | Some m => Some (mkMetrics dg (m_OldestQueuedAge m) (m_StaleLeases m))
                | None => None
                end in
      match ages with
      | Err e => (mkSnapshot 0 0 d, Some e, m1)
      | Ok arows =>
          let '(ag, oldest) := put_ages arows in
          let m2 := match m1 with
                    | Some m => Some (mkMetrics (m_Depth m) ag (m_StaleLeases m))
                    | None => None
                    end in
          match stale with
          | Err e => (mkSnapshot oldest 0 d, Some e, m2)
          | Ok n =>
              (mkSnapshot oldest n d, None,
               match m2 with
               | Some m => Some (mkMetrics (m_Depth m) (m_OldestQueuedAge m) (float64 n))
               | None => None
               end)
          end
      end
  end.

(** The three statements of one collection, each on the table it meets. *)
Definition collect_queue (t1 t2 t3 : Table) (now2 now3 : timestamp) (m : option Metrics)
    : Snapshot * option unit * option Metrics :=
  Collect (Ok (JobDepthByKindState t1)) (Ok (OldestQueuedAgeByKind now2 t2)) (Ok (CountStaleLeases now3 t3)) m.

Example age_samples : map age_duration [0; 1; 1500000; 3600000001; -5] = [0; 1000; 1500000000; 3600000001000; -5000].
Proof. vm_compute. reflexivity. Qed.

(** ** Properties *)

Lemma fold_insert {R A} `{Countable K} (f : R -> K) (g : R -> A) (rows : list R) :
  NoDup (map f rows) -> forall (m : gmap K A) k v,
  fold_left (fun m r => <[f r := g r]> m) rows m !! k = Some v
  <-> (exists r, r ∈ rows /\ f r = k /\ g r = v) \/ (m !! k = Some v /\ k ∉ map f rows).
Proof.
  induction rows as [|r rows IH]; intros Hnd m k v.
  { split; [right; split; [done|apply not_elem_of_nil]|]. by intros [(? & ?%elem_of_nil & _)|[? _]]. }
  cbn [map] in *. apply NoDup_cons in Hnd as [Hn Hnd]. cbn [fold_left]. rewrite IH by done.
  setoid_rewrite elem_of_cons. rewrite lookup_insert_Some. split.
  - intros [(x & Hx & Hf & Hg)|([[<- <-]|[Hne Hm]] & Hk)]; [left; exists x; auto|left; exists r; auto|].
    right. split; [done|]. intros [->|?]; [done|tauto].
  - intros [(x & [->|Hx] & Hf & Hg)|[Hm Hk]].
    + right. subst. split; [by left|done].
    + left. by exists x.
    + right. split; [right; split; [|done]; intros He; apply Hk; by left|]. tauto.
Qed.

Lemma put_depths_eq rows :
  put_depths rows
  = (fold_left (fun m r => <[depth_key r.1 := r.2]> m) rows ∅,
     fold_left (fun m r => <[(r.1.1, state_text r.1.2) := float64 r.2]> m) rows ∅).
Proof.
  unfold put_depths. generalize (∅ : gmap string Z). generalize (∅ : gmap (string * string) spec_float).
  induction rows as [|[g n] rows IH]; intros a b; [done|]. cbn [fold_left]. by rewrite IH.
Qed.

Lemma state_text_inj a b : state_text a = state_text b -> a = b.
Proof. by destruct a, b. Qed.

(** A kind may hold a slash; a state has none. *)
Lemma depth_key_inj g h : depth_key g = depth_key h -> g = h.
Proof.
  destruct g as [k s], h as [k' s']. unfold depth_key. cbn [fst snd]. intros He.
  assert (Hs : forall (k : string) s, cut_last "/" (k +:+ "/" +:+ state_text s) = Some (k, state_text s)).
  { intros q st. change ("/" +:+ state_text st) with (String "/" (state_text st)).
    apply cut_last_app. by destruct st. }
  pose proof (Hs k s) as H1. rewrite He, Hs in H1. injection H1 as -> He2. by apply state_text_inj in He2 as ->.
Qed.

Lemma depth_rows t g n :
  (g, n) ∈ JobDepthByKindState t
  <-> 0 < n /\ n = Z.of_nat (length (List.filter (fun j => bool_decide ((kind j, state j) = g)) (List.filter live t))).
Proof.
  unfold JobDepthByKindState. rewrite list_elem_of_fmap.
  assert (Hc : forall h, length (List.filter (fun x => bool_decide (x = h)) (live_groups t))
    = length (List.filter (fun j => bool_decide ((kind j, state j) = h)) (List.filter live t))).
  { intros h. unfold live_groups. generalize (List.filter live t) as l.
    induction l as [|j l IH]; [done|]. cbn [map List.filter]. repeat case_bool_decide; cbn [length]; congruence. }
  assert (Hin : forall h, h ∈ live_groups t <->
    (0 < length (List.filter (fun x => bool_decide (x = h)) (live_groups t)))%nat).
  { intros h. generalize (live_groups t) as l. induction l as [|x l IH]; [by split; [intros ?%elem_of_nil|simpl; lia]|].
    rewrite elem_of_cons, IH. simpl. case_bool_decide; simpl; [split; [lia|by left]|].
    split; [intros [->|?]; done|by right]. }
  setoid_rewrite elem_of_remove_dups. split.
  - intros (h & [= <- ->] & Hh%Hin). rewrite Hc in *. lia.
  - intros [Hn ->]. exists g. rewrite Hin, Hc. split; [done|lia].
Qed.

Lemma depth_nodup t : NoDup (map fst (JobDepthByKindState t)).
Proof.
  unfold JobDepthByKindState. rewrite map_map. cbn [fst]. rewrite map_id. apply NoDup_remove_dups.
Qed.

Lemma age_rows now t k us :
  (k, us) ∈ OldestQueuedAgeByKind now t <-> exists m, oldest (queued_of k t) = Some m /\ us = now - m.
Proof.
  unfold OldestQueuedAgeByKind. rewrite list_elem_of_omap. split.
  - intros (q & _ & Hq). destruct (oldest (queued_of q t)) as [m|] eqn:Ho; [|done].
    injection Hq as -> <-. by exists m.
  - intros (m & Ho & ->). exists k. rewrite Ho. split; [|done]. apply elem_of_remove_dups.
    destruct (queued_of k t) as [|j js] eqn:Hq; [done|].
    assert (Hj : List.In j (queued_of k t)) by (rewrite Hq; by left).
    unfold queued_of in Hj. apply filter_In in Hj as [Hj [_ He]%andb_true_iff].
    apply String.eqb_eq in He as <-. apply (list_elem_of_fmap_2 kind). by apply list_elem_of_In.
Qed.

Lemma age_nodup now t : NoDup (map fst (OldestQueuedAgeByKind now t)).
Proof.
  unfold OldestQueuedAgeByKind. pose proof (NoDup_remove_dups (map kind t)) as Hnd.
  induction (remove_dups (map kind t)) as [|k ks IH]; [constructor|].
  apply NoDup_cons in Hnd as [Hn Hnd]. csimpl. destruct (oldest (queued_of k t)); [|by apply IH].
  csimpl. apply NoDup_cons. split; [|by apply IH]. intros Hin. apply Hn.
  apply list_elem_of_fmap in Hin as ([q us] & -> & Hq). apply list_elem_of_omap in Hq as (q' & Hq' & He).
  destruct (oldest (queued_of q' t)); [|done]. by injection He as -> _.
Qed.

(** The largest of some ages, 0 when none is positive. *)
Definition worst_age (rows : list (string * Z)) (w : Z) : Prop :=
  0 <= w /\ (forall k us, (k, us) ∈ rows -> age_duration us <= w)
  /\ (w = 0 \/ exists k us, (k, us) ∈ rows /\ age_duration us = w).

Lemma put_age_fold rows : forall m w,
  (fold_left put_age rows (m, w)).1 = fold_left (fun m r => <[r.1 := age_seconds r.2]> m) rows m
  /\ let z := (fold_left put_age rows (m, w)).2 in
     w <= z /\ (forall k us, (k, us) ∈ rows -> age_duration us <= z)
     /\ (z = w \/ exists k us, (k, us) ∈ rows /\ age_duration us = z).
Proof.
  induction rows as [|[k us] rows IH]; intros m w.
  { split; [done|]. cbn. split; [lia|]. split; [by intros ? ? ?%elem_of_nil|by left]. }
  cbn [fold_left]. set (w' := if w <? age_duration us then age_duration us else w).
  change (put_age (m, w) (k, us)) with (<[k := age_seconds us]> m, w'). cbn [fst snd].
  assert (Hw' : w <= w' /\ age_duration us <= w' /\ (w' = w \/ age_duration us = w'))
    by (subst w'; destruct (Z.ltb_spec w (age_duration us)); split_and!; try lia; auto).
  destruct (IH (<[k := age_seconds us]> m) w') as (H1 & H2 & H3 & H4). split; [done|]. cbv zeta.
  split; [lia|]. split.
  - intros q x [[= -> ->]|Hin]%elem_of_cons; [lia|by eapply H3].
  - destruct H4 as [->|(q & x & Hin & <-)].
    + destruct Hw' as (_ & _ & [->|Hx]); [by left|]. right. exists k, us. split; [by left|done].
    + right. exists q, x. split; [by right|done].
Qed.

Lemma put_ages_spec rows :
  (put_ages rows).1 = fold_left (fun m r => <[r.1 := age_seconds r.2]> m) rows ∅
  /\ worst_age rows (put_ages rows).2.
Proof. destruct (put_age_fold rows ∅ 0) as (H1 & H2 & H3 & H4). split; [exact H1|]. by split. Qed.

(** The rows of [t] in a group. *)
Definition in_group (k : string) (s : JobState) (t : Table) : Z :=
  Z.of_nat (length (List.filter (fun j => bool_decide ((kind j, state j) = (k, s))) (List.filter live t))).

(** A gauge that is shown only when there is something to show. *)
Definition shown {A} (n : Z) (v : A) : option A := if 0 <? n then Some v else None.

Lemma lookup_shown {A} (o : option A) n v : (forall x, o = Some x <-> 0 < n /\ x = v) -> o = shown n v.
Proof.
  intros H. unfold shown. destruct (Z.ltb_spec 0 n); [by apply H|]. destruct o as [x|]; [|done].
  destruct (proj1 (H x) eq_refl). lia.
Qed.

(** C29. The snapshot a probe reads and the gauges a dashboard shows are the same
    facts, whatever order the groups came in and whatever the gauges held before:
    after a collection a kind and live state is present exactly when the table
    has such a job, with their number; a kind's oldest age is present exactly
    when it has a queued job, counted from when that was created; the age of the
    snapshot is the largest of them, or 0; and the stale leases are counted. *)
Theorem collect_is_the_table t1 t2 now2 stale drows arows m :
  drows ≡ₚ JobDepthByKindState t1 -> arows ≡ₚ OldestQueuedAgeByKind now2 t2 ->
  exists snap m', Collect (E := unit) (Ok drows) (Ok arows) (Ok stale) (Some m) = (snap, None, Some m')
  /\ (forall k s, s_Depth snap !! depth_key (k, s) = shown (in_group k s t1) (in_group k s t1)
        /\ m_Depth m' !! (k, state_text s) = shown (in_group k s t1) (float64 (in_group k s t1)))
  /\ (forall k, m_OldestQueuedAge m' !! k
        = match oldest (queued_of k t2) with Some c => Some (age_seconds (now2 - c)) | None => None end)
  /\ 0 <= s_OldestQueuedAge snap
  /\ (forall k c, oldest (queued_of k t2) = Some c -> age_duration (now2 - c) <= s_OldestQueuedAge snap)
  /\ (s_OldestQueuedAge snap = 0
      \/ exists k c, oldest (queued_of k t2) = Some c /\ age_duration (now2 - c) = s_OldestQueuedAge snap)
  /\ s_StaleLeases snap = stale /\ m_StaleLeases m' = float64 stale.
Proof.
  intros Hd Ha. unfold Collect. rewrite put_depths_eq.
  destruct (put_ages_spec arows) as [Hg (H0 & Hmax & Hatt)]. destruct (put_ages arows) as [ag w]. cbn [fst snd] in *.
  do 2 eexists. split; [reflexivity|]. cbn [s_Depth s_OldestQueuedAge s_StaleLeases m_Depth m_OldestQueuedAge m_StaleLeases].
  assert (Hnd : NoDup (map fst drows)) by (rewrite Hd; apply depth_nodup).
  assert (Hrow : forall k s n, ((k, s), n) ∈ drows <-> 0 < in_group k s t1 /\ n = in_group k s t1).
  { intros. rewrite Hd, depth_rows. unfold in_group. split; [by intros [? ->]|by intros [? ->]]. }
  assert (Hnd' : forall {K} `{Countable K} (f : group -> K), (forall g h, f g = f h -> g = h) ->
            NoDup (map (fun r => f r.1) drows)).
  { intros K ? ? f Hf. rewrite <- (map_map fst f). assert (Inj eq eq f) by (intros ? ?; apply Hf). by apply (NoDup_fmap_2 f). }
  split_and!; [..|done|done].
  - intros k s. split; apply lookup_shown; intros x; rewrite fold_insert.
    + rewrite lookup_empty. split.
      * intros [(r & Hr & Hk & <-)|[? _]]; [|done]. destruct r as [g n]. cbn [fst snd] in *. apply depth_key_inj in Hk. subst g.
        by apply Hrow.
      * intros Hx. left. exists ((k, s), x). split; [by apply Hrow|done].
    + apply (Hnd' _ _ _ depth_key). apply depth_key_inj.
    + rewrite lookup_empty. split.
      * intros [(r & Hr & Hk & <-)|[? _]]; [|done]. destruct r as [[k' s'] n]. cbn [fst snd] in *.
        injection Hk as -> Hs%state_text_inj. subst s'. apply Hrow in Hr as [Hn ->]. done.
      * intros [Hn ->]. left. exists ((k, s), in_group k s t1). split; [by apply Hrow|done].
    + apply (Hnd' _ _ _ (fun g => (g.1, state_text g.2))). intros [] [] [= -> ->%state_text_inj]. done.
  - intros k. rewrite Hg. destruct (oldest (queued_of k t2)) as [c|] eqn:Ho.
    + apply fold_insert; [rewrite Ha; apply age_nodup|]. left. exists (k, now2 - c). rewrite Ha, age_rows. by eauto.
    + destruct (_ !! k) as [v|] eqn:Hv; [|done]. apply fold_insert in Hv; [|rewrite Ha; apply age_nodup].
      destruct Hv as [([q us] & Hr & <- & _)|[? _]]; [|done]. rewrite Ha, age_rows in Hr. cbn [fst] in *.
      destruct Hr as (? & ? & _). congruence.
  - done.
  - intros k c Hk. apply (Hmax k). rewrite Ha, age_rows. by eauto.
  - destruct Hatt as [?|(k & us & Hin & He)]; [by left|]. rewrite Ha, age_rows in Hin.
    destruct Hin as (c & Hc & ->). by eauto 6.
Qed.

(** ** Readiness reads the same age *)

(** The snapshot the api's readiness asks for: a collection, whose error makes
    the queue unreadable. *)
Definition api_snapshot {E} (depths : bool -> result E (list (group * Z)))
    (ages : bool -> result E (list (string * Z))) (stale : bool -> result E Z) (m : option Metrics)
    : bool -> option Z := fun ended =>
  match Collect (depths ended) (ages ended) (stale ended) m with
  | (snap, None, _) => Some (s_OldestQueuedAge snap)
  | (_, Some _, _) => None
  end.

Lemma api_snapshot_some {E} depths ages stale m ended w :
  api_snapshot (E := E) depths ages stale m ended = Some w ->
  exists arows, ages ended = Ok arows /\ worst_age arows w.
Proof.
  unfold api_snapshot, Collect. destruct (depths ended) as [drows|]; [|done].
  destruct (put_depths drows). destruct (ages ended) as [arows|]; [|done].
  destruct (put_ages_spec arows) as [_ Hw]. destruct (put_ages arows) as [ag w']. cbn [snd] in Hw.
  destruct (stale ended); [|done]. destruct m; intros [= <-]; by exists arows.
Qed.

(** Readiness calls the worker degraded exactly when the queue cannot be read or
    some kind's oldest queued job was created longer ago than the threshold;
    a job that is waiting for its retry or its scheduled time counts too. *)
Lemma queue_age_degrades {E} d c depths ages stale m ended t now :
  d_QueueSnapshot d = Some (api_snapshot (E := E) depths ages stale m) -> d_Config d = Some c ->
  0 <= cfg_QueueAgeThreshold c ->
  (forall rows, ages ended = Ok rows -> rows ≡ₚ OldestQueuedAgeByKind now t) ->
  map rc_Status (worker_components d ended) = [statusOK] <->
  is_ok (depths ended) = true /\ is_ok (ages ended) = true /\ is_ok (stale ended) = true
  /\ forall k cr, oldest (queued_of k t) = Some cr -> age_duration (now - cr) <= cfg_QueueAgeThreshold c.
Proof.
  intros Hs Hc Hth Hages. unfold worker_components. rewrite Hs, Hc.
  destruct (api_snapshot depths ages stale m ended) as [w|] eqn:Hw.
  - assert (Hok : is_ok (depths ended) = true /\ is_ok (stale ended) = true).
    { revert Hw. unfold api_snapshot, Collect. destruct (depths ended); [|done].
      destruct (put_depths _). destruct (ages ended); [|done]. destruct (put_ages _).
      by destruct (stale ended). }
    apply api_snapshot_some in Hw as (rows & Hr & H0 & Hmax & Hatt). specialize (Hages _ Hr). rewrite Hr.
    assert (Hin : forall k us, (k, us) ∈ rows <-> exists m, oldest (queued_of k t) = Some m /\ us = now - m)
      by (intros; by rewrite Hages, age_rows).
    destruct (Z.ltb_spec (cfg_QueueAgeThreshold c) w); cbn.
    + split; [done|]. intros (_ & _ & _ & Hall). exfalso.
      destruct Hatt as [->|(k & us & Hk%Hin & <-)]; [lia|]. destruct Hk as (cr & Ho & ->).
      specialize (Hall _ _ Ho). lia.
    + split; [|done]. intros _. destruct Hok as [-> ->]. split_and!; try done. intros k cr Ho.
      specialize (Hmax k (now - cr)). rewrite Hin in Hmax. specialize (Hmax ltac:(eauto)). lia.
  - split; [done|]. intros (Hd & Ha & Hst & _). exfalso. revert Hw. unfold api_snapshot, Collect.
    destruct (depths ended); [|done]. destruct (put_depths _). destruct (ages ended); [|done].
    destruct (put_ages _). destruct (stale ended); [|done]. by destruct m.
Qed.

(** ** The properties at work *)

Definition waiting (k : string) (created : timestamp) : Job :=
  mkJob k k "{}" None queued 0 0 3 created None None None "c" created created None.

Lemma collect_is_the_table_witness :
  exists snap m',
    Collect (E := unit) (Ok (JobDepthByKindState [waiting "a" 10; waiting "a" 5]))
      (Ok (OldestQueuedAgeByKind 2000005 [waiting "a" 10; waiting "a" 5])) (Ok 0) (Some NewMetrics)
      = (snap, None, Some m')
    /\ s_Depth snap !! "a/queued"%string = Some 2 /\ s_OldestQueuedAge snap = 2 * Second.
Proof.
  destruct (collect_is_the_table [waiting "a" 10; waiting "a" 5] [waiting "a" 10; waiting "a" 5] 2000005 0
              (JobDepthByKindState [waiting "a" 10; waiting "a" 5])
              (OldestQueuedAgeByKind 2000005 [waiting "a" 10; waiting "a" 5]) NewMetrics)
    as (snap & m' & Hc & Hd & _ & _ & Hmax & Hatt & _); [reflexivity|reflexivity|].
  exists snap, m'. split; [exact Hc|].
  destruct (Hd "a"%string queued) as [Hq _]. split; [exact Hq|].
  injection Hc as <- _. vm_compute. reflexivity.
Defined.
