(* ===== verification/Stores.v ===== *)
(** * Connections: database pools and the cache client
    (src/internal/db/db.go, src/internal/cache/cache.go)

    The pool of each site and who identified the cache server.  The drivers are
    parameters: how a DSN or URL is read, and what a pool or a server answers. *)

From S2P Require Import Prelude Utf8 Regex GoStrings GoTime GoFmt Origin.

(** ** Database pools *)

(** The driver: [ParseConfig] accepts the DSN or not, [NewWithConfig] gives a
    pool of the two idle and life times or fails with a text. *)
Class PgxPool (P : Type) := {
  ParseConfig : string -> bool;
  NewWithConfig : string -> Z -> Z -> result string P
}.

Record Pools (P : Type) := mkPools { pools : gmap string P; order : list string }.
Arguments mkPools {P} _ _.
Arguments pools {P} _.
Arguments order {P} _.

Section Pools.
Context {P : Type} `{HD : PgxPool P, HQ : Printable}.

(** The pools [Close] closes. *)
Definition Pools_Close (p : Pools P) : list P := map snd (map_to_list (pools p)).

(** The loop of [Open] from the pools opened so far; a failure comes with the
    pools it closed. *)
Fixpoint open_sites (ss : list Site) (p : Pools P) : result (string * list P) (Pools P) :=
  match ss with
  | [] => Ok p
  | s :: ss =>
      if negb (ParseConfig (DSN s))
      then Err ("db: DATABASE_URL for site " +:+ Quote (Handle s) +:+ " is not a valid DSN", Pools_Close p)
      else match NewWithConfig (DSN s) (5 * Minute) Hour with
      | Err text => Err ("db: opening pool for site " +:+ Quote (Handle s) +:+ ": " +:+ text, Pools_Close p)
      | Ok pool => open_sites ss (mkPools (<[Handle s := pool]> (pools p)) (order p ++ [Handle s]))
      end
  end%string.

Definition Open (r : Resolver) : result (string * list P) (Pools P) := open_sites (sites r) (mkPools ∅ []).

Definition For (p : Pools P) (s : Site) : option P := pools p !! Handle s.

(** The receiver may be nil. *)
Definition Default (p : option (Pools P)) : option P :=
  match p with
  | None => None
  | Some p => match order p with [] => None | h :: _ => pools p !! h end
  end.

(** [None] is a ping that was answered. *)
Definition Ping (ask : P -> option string) (pool : option P) : option string :=
  match pool with None => Some "db: no pool"%string | Some q => ask q end.

(** The pool of one site, if it can be had. *)
Definition pool_of (s : Site) : option P :=
  if ParseConfig (DSN s)
  then match NewWithConfig (DSN s) (5 * Minute) Hour with Ok q => Some q | Err _ => None end
  else None.

Lemma open_sites_cons s ss p :
  match pool_of s with
  | Some q => open_sites (s :: ss) p
              = open_sites ss (mkPools (<[Handle s := q]> (pools p)) (order p ++ [Handle s]))
  | None => exists text, open_sites (s :: ss) p = Err (text, Pools_Close p)
  end.
Proof.
  unfold pool_of. cbn [open_sites]. destruct (ParseConfig (DSN s)); [|by eexists].
  destruct (NewWithConfig _ _ _); [done|by eexists].
Qed.

Lemma open_sites_ok ss : forall p q,
  NoDup (map Handle ss) -> open_sites ss p = Ok q ->
  order q = order p ++ map Handle ss
  /\ (forall h, h ∉ map Handle ss -> pools q !! h = pools p !! h)
  /\ (forall s, s ∈ ss -> For q s = pool_of s /\ pool_of s <> None).
Proof.
  induction ss as [|s ss IH]; intros p q Hnd Ho.
  { injection Ho as <-. rewrite app_nil_r. split; [done|]. split; [done|]. by intros s Hs%elem_of_nil. }
  apply NoDup_cons in Hnd as [Hn Hnd]. pose proof (open_sites_cons s ss p) as Hc.
  destruct (pool_of s) as [x|] eqn:Hx; [|destruct Hc; congruence]. rewrite Hc in Ho.
  destruct (IH _ _ Hnd Ho) as (H1 & H2 & H3). cbn [order pools] in *. split; [by rewrite H1, <- app_assoc|]. split.
  - intros h [Hne Hh]%not_elem_of_cons. rewrite H2, lookup_insert_ne; done.
  - intros s' [->|Hs']%elem_of_cons; [|by apply H3]. unfold For. rewrite H2 by done.
    by rewrite lookup_insert_eq, Hx.
Qed.

Lemma open_sites_err ss : forall p text closed,
  NoDup (map Handle ss) -> (forall s, s ∈ ss -> pools p !! Handle s = None) ->
  open_sites ss p = Err (text, closed) ->
  exists before s rest, ss = before ++ s :: rest /\ pool_of s = None
    /\ closed ≡ₚ Pools_Close p ++ omap pool_of before.
Proof.
  induction ss as [|s ss IH]; intros p text closed Hnd Hp Ho; [done|].
  apply NoDup_cons in Hnd as [Hn Hnd]. pose proof (open_sites_cons s ss p) as Hc.
  destruct (pool_of s) as [x|] eqn:Hx.
  - rewrite Hc in Ho. apply IH in Ho as (before & s' & rest & -> & Hs' & Hcl); [|done|].
    + exists (s :: before), s', rest. split; [done|]. split; [done|].
      rewrite Hcl. unfold Pools_Close. cbn [pools]. rewrite map_to_list_insert by (apply Hp; by left).
      csimpl. rewrite Hx. by rewrite Permutation_middle.
    + intros s' Hs'. cbn [pools]. rewrite lookup_insert_ne; [apply Hp; by right|].
      intros Heq. apply Hn. rewrite Heq. by apply (list_elem_of_fmap_2 Handle).
  - destruct Hc as (t & Hc). rewrite Hc in Ho. injection Ho as _ <-.
    exists [], s, ss. split; [done|]. split; [done|]. by rewrite app_nil_r.
Qed.

(** Opening is all or nothing, for sites with distinct handles: either every
    site has the pool of its own DSN and the default one is the first site's, or
    one DSN was refused and exactly the pools opened before it were closed. *)
Lemma open_all_or_nothing r :
  NoDup (map Handle (sites r)) ->
  match Open r with
  | Ok p =>
      order p = map Handle (sites r)
      /\ (forall s, s ∈ sites r -> For p s = pool_of s /\ pool_of s <> None)
      /\ Default (Some p) = match sites r with [] => None | s :: _ => pool_of s end
  | Err (_, closed) =>
      exists before s rest, sites r = before ++ s :: rest /\ pool_of s = None
        /\ closed ≡ₚ omap pool_of before
  end.
Proof.
  intros Hnd. unfold Open. destruct (open_sites (sites r) (mkPools ∅ [])) as [p|[text closed]] eqn:Ho.
  - destruct (open_sites_ok _ _ _ Hnd Ho) as (H1 & _ & H3). split; [done|]. split; [done|].
    unfold Default. rewrite H1. destruct (sites r) as [|s ss]; [done|]. cbn.
    destruct (H3 s) as [H4 _]; [by left|]. exact H4.
  - apply open_sites_err in Ho; [|done|done]. unfold Pools_Close in Ho. cbn [pools] in Ho.
    by rewrite map_to_list_empty in Ho.
Qed.

(** With one site: its pool is the default one, or there is none. *)
Lemma open_single `{Unicode, NetUrl} s :
  match Open (NewResolver s) with
  | Ok p => exists q, pool_of s = Some q /\ For p s = Some q /\ Default (Some p) = Some q
  | Err _ => pool_of s = None
  end.
Proof.
  assert (Hnd : NoDup (map Handle (sites (NewResolver s)))).
  { cbn. apply NoDup_cons. split; [apply not_elem_of_nil|apply NoDup_nil_2]. }
  pose proof (open_all_or_nothing (NewResolver s) Hnd) as Ho. cbn [NewResolver sites] in Ho.
  destruct (Open _) as [p|[text closed]].
  - destruct Ho as (_ & Hf & Hd). destruct (Hf s) as [Hs Hne]; [by left|].
    destruct (pool_of s) as [q|]; [|done]. exists q. done.
  - destruct Ho as (before & s' & rest & Hs & Hn & _).
    destruct before as [|b before]; [|by destruct before]. by injection Hs as <- _.
Qed.

End Pools.

(** ** The cache client *)

(** The server's answer to INFO, and whether the URL is one. *)
Class Redis := ParseURL : string -> bool.

Record Client := mkClient { c_url : string; namespace : string }.

Definition cache_Open `{Redis} (url ns : string) : result string Client :=
  if ParseURL url then Ok (mkClient url ns)
  else Err "cache: VIZRA_CACHE_URL is not a valid redis:// or rediss:// URL"%string.

Definition Client_Key (c : Client) (parts : list string) : string :=
  namespace c +:+ ":" +:+ Join parts ":".

Definition FlavourValkey : string := "valkey".
Definition FlavourRedis : string := "redis".
Definition FlavourUnknown : string := "unknown".

Record ServerInfo := mkServerInfo { Flavour : string; Version : string }.

Definition ServerInfo_String (s : ServerInfo) : string :=
  if Version s =s "" then Flavour s else Flavour s +:+ " " +:+ Version s.

(** [strings.EqualFold(s, t)] for a [t] in lower-case ASCII. *)
Fixpoint EqualFold_lower (fuel : nat) (s t : string) : bool :=
  match t, fuel with
  | EmptyString, _ => s =s ""
  | String _ _, O => false
  | String b t, S fuel =>
      let n := Nat.max 1 (rune_size s) in
      match s, fold_ascii (stake n s) with
      | String _ _, Some a => Ascii.eqb a b && EqualFold_lower fuel (sdrop n s) t
      | _, _ => false
      end
  end.

Definition is_valkey (v : string) : bool := EqualFold_lower (String.length v) v "valkey".

(** One line of INFO. *)
Definition info_line (info : ServerInfo) (line : string) : ServerInfo :=
  match Cut ":" (TrimSpace line) with
  | None => info
  | Some (k, v) =>
      if k =s "valkey_version" then mkServerInfo FlavourValkey v
      else if k =s "redis_version" then
        if Flavour info =s FlavourUnknown then mkServerInfo FlavourRedis v else info
      else if k =s "server_name" then
        if is_valkey v then mkServerInfo FlavourValkey (Version info) else info
      else info
  end.

(** The answer to INFO, or its error; an error still comes with what is known. *)
Definition Identify (raw : result string string) : ServerInfo * option string :=
  match raw with
  | Err e => (mkServerInfo FlavourUnknown "", Some e)
  | Ok raw =>
      let info := fold_left info_line (Split (ascii_of_N 10) raw) (mkServerInfo FlavourUnknown "") in
      (info, if Version info =s "" then Some "cache: INFO server returned no version field"%string else None)
  end.

Example identify_valkey :
  Identify (Ok ("# Server" +:+ newline +:+ "redis_version:7.2.4" +:+ newline +:+ "server_name:Valkey"
                +:+ newline +:+ "valkey_version:8.0.1" +:+ newline))
  = (mkServerInfo FlavourValkey "8.0.1", None).
Proof. vm_compute. reflexivity. Qed.
