(* ===== verification/Healthcheck.v ===== *)
(** * The readiness probe (src/internal/healthcheck/healthcheck.go)

    [vizra healthcheck api|worker], as the container runtime runs it: which
    address it dials, the one request it makes, what it prints and its exit
    code.  The network is the parameter [Transport]: what one GET of a path at
    an address meets within a timeout.  Composed with the two readiness handlers
    it asks. *)

From S2P Require Import Prelude Utf8 Regex GoStrings GoTime GoFmt GoJson GoJsonParse Origin Search Config Probes JobHealth.

(** ** Exit codes and targets *)

Definition ExitReady : Z := 0.
Definition ExitNotReady : Z := 1.
Definition ExitUsage : Z := 64.

Definition DefaultTimeout : Z := 2 * Second.

Record Target := mkTarget {
  t_Name : string;
  t_AddrKey : string;
  t_Path : string;
  t_What : string
}.

Definition api_target : Target :=
  mkTarget "api" "VIZRA_LISTEN_ADDR" "/readyz" "the public API listener's readiness endpoint".

Definition worker_target : Target :=
  mkTarget "worker" "VIZRA_METRICS_ADDR" "/readyz" "the worker's readiness endpoint on its metrics listener".

Definition Targets : list Target := [api_target; worker_target].

Definition TargetByName (name : string) : option Target :=
  List.find (fun t => t_Name t =s name) Targets.

(** ** The address *)

(** A wildcard of a listener is no destination. *)
Definition dial_host (host : string) : string :=
  if one_of host [""; "0.0.0.0"; "::"; "[::]"]%string then "127.0.0.1" else host.

Definition DialAddr `{Printable} (bind : string) : result string string :=
  match SplitHostPort (TrimSpace bind) with
  | Err why =>
      Err (Quote bind +:+ " is not a host:port address: " +:+ AddrError_Error (TrimSpace bind) why)
  | Ok (host, port) =>
      if port =s "" then Err (Quote bind +:+ " has no port")
      else
        Ok (JoinHostPort (dial_host host) port)
  end.

(** ** Transport errors

    The errors the probe tells apart: a plain error with what [errors.Is] and
    its [Timeout] method say of it, one wrapped by [%w], a [url.Error] and a
    [net.OpError]. *)

Inductive goerr :=
| ELeaf (text : string) (timeout deadline canceled os_deadline : bool)
| EWrap (prefix : string) (e : goerr)
| EUrl (op url : string) (e : goerr)
| EOp (op text : string) (e : goerr).

(** What is at the end of the chain of [Unwrap]. *)
Fixpoint leaf_is (p : bool -> bool -> bool -> bool) (e : goerr) : bool :=
  match e with
  | ELeaf _ _ d c o => p d c o
  | EWrap _ e | EUrl _ _ e | EOp _ _ e => leaf_is p e
  end.

Definition is_deadline : goerr -> bool := leaf_is (fun d _ _ => d).
Definition is_canceled : goerr -> bool := leaf_is (fun _ c _ => c).
Definition is_os_deadline : goerr -> bool := leaf_is (fun _ _ o => o).

(** The method [Timeout], false for an error that has none. *)
Fixpoint Timeout (e : goerr) : bool :=
  match e with
  | ELeaf _ t _ _ _ => t
  | EWrap _ _ => false
  | EUrl _ _ e | EOp _ _ e => Timeout e
  end.

(** [errors.As] for the two structured errors. *)
Fixpoint as_url (e : goerr) : option goerr :=
  match e with
  | EUrl _ _ _ => Some e
  | EWrap _ e | EOp _ _ e => as_url e
  | ELeaf _ _ _ _ _ => None
  end.

Fixpoint as_op (e : goerr) : option (string * goerr) :=
  match e with
  | EOp op _ e => Some (op, e)
  | EWrap _ e | EUrl _ _ e => as_op e
  | ELeaf _ _ _ _ _ => None
  end.

Fixpoint Error `{Printable} (e : goerr) : string :=
  match e with
  | ELeaf text _ _ _ _ => text
  | EWrap prefix e => prefix +:+ Error e
  | EUrl op url e => op +:+ " " +:+ Quote url +:+ ": " +:+ Error e
  | EOp _ text _ => text
  end.

Inductive CtxErr := CtxLive | CtxDeadline | CtxCanceled.

Definition timed_out : string := "the probe timed out before the service answered".

Definition classify `{Printable} (ctx : CtxErr) (err : goerr) : string :=
  if match ctx with CtxDeadline => true | _ => is_deadline err end then timed_out
  else if match ctx with CtxCanceled => true | _ => is_canceled err end then "the probe was cancelled"
  else
    let describe (err : goerr) :=
      if is_os_deadline err then timed_out
      else match as_op err with
           | Some (op, inner) =>
               if is_deadline inner then timed_out else op +:+ ": " +:+ Error inner
           | None => Error err
           end in
    match as_url err with
    | Some (EUrl _ _ inner as u) => if Timeout u then timed_out else describe inner
    | _ => describe err
    end.

(** ** The request *)

(** What a GET meets: an error, or the status code and the bytes of the body
    that could be read; the state of the context afterwards; the time taken. *)
Record Answer := mkAnswer {
  a_result : result goerr (Z * string);
  a_ctx : CtxErr;
  a_elapsed : Z
}.

Definition Transport := Z -> string -> string -> Answer.

(** [json.Unmarshal] into a struct with the member [status]. *)
Definition status_type : JsonRead.GoType := JsonRead.TStruct [("status"%string, JsonRead.TString)].

Definition decode_status (body : string) : option string :=
  option_map (fun g => JsonRead.text_of (JsonRead.field 0 g)) (JsonRead.Unmarshal status_type body).

Definition maxBody : Z := 65536.

Definition status_rune (c : ascii) : bool :=
  range "a" "z" c || range "A" "Z" c || chr "_" c || chr "-" c.

(** [strings.Map] drops every rune that is not one of these ASCII ones, so every
    byte that is not. *)
Fixpoint keep_bytes (p : ascii -> bool) (s : string) : string :=
  match s with
  | EmptyString => ""
  | String c s => if p c then String c (keep_bytes p s) else keep_bytes p s
  end.

Definition sanitiseStatus (s : string) : string :=
  keep_bytes status_rune (if 32 <? len s then stake 32 s else s).

Definition status_word (body : string) : string :=
  let read := if len body <=? maxBody then body else stake (Z.to_nat maxBody) body in
  match decode_status read with Some s => sanitiseStatus s | None => ""%string end.

(** The status word, the code, the time taken; the context is the caller's. *)
Definition probe (net : Transport) (timeout : Z) (addr path : string)
    : result goerr (string * Z) * CtxErr * Z :=
  let a := net timeout addr path in
  (match a_result a with
   | Err e => Err e
   | Ok (code, body) => Ok (status_word body, code)
   end, a_ctx a, a_elapsed a).

Definition statusSuffix (status : string) : string :=
  if status =s "" then "" else " " +:+ status.

(** ** The command *)

Definition usage (apiWhat apiDefault workerWhat workerDefault timeout : string) : string :=
"vizra healthcheck — probe a local Vizra process for readiness

Usage:
  vizra healthcheck api     [--timeout D] [--addr HOST:PORT]
  vizra healthcheck worker  [--timeout D] [--addr HOST:PORT]

  api     " +:+ apiWhat +:+ "
          address from VIZRA_LISTEN_ADDR (default " +:+ apiDefault +:+ ")
  worker  " +:+ workerWhat +:+ "
          address from VIZRA_METRICS_ADDR (default " +:+ workerDefault +:+ ")

Flags:
  --timeout D     Deadline for the whole probe. Default " +:+ timeout +:+ ". Keep it well under
                  the container healthcheck timeout.
  --addr HOST:PORT
                  Override the address. Diagnostics only; the default comes
                  from the key the service itself binds.

The probe makes EXACTLY ONE request and never retries: a container runtime's
--interval and --retries already supply retries.

Exit codes:
  0   ready. A 2xx answer, including a `degraded` one — core's /readyz returns
      503 for an unreachable PostgreSQL only, and keeps serving reads while the
      cache or search backend is down (ADR-002). The reported status is printed.
  1   NOT ready: connection refused, timed out, or a non-2xx answer.
  64  usage error. Never a verdict about the service. (Docker reserves 2.)
".

Record Outcome := mkOutcome {
  exit : Z;
  stdout : string;
  stderr : string;
  requests : list (string * string)
}.

Section Probe.
Context `{HP : Printable}.

Definition writeUsage : string :=
  usage (t_What api_target) (Quote (DefaultFor (t_AddrKey api_target)))
    (t_What worker_target) (Quote (DefaultFor (t_AddrKey worker_target))) (DurationString DefaultTimeout).

Definition formals : list Formal :=
  [("timeout", FlagDuration DefaultTimeout); ("addr", FlagString "")]%string.

Definition flag_timeout (fs : list Formal) : Z :=
  match map_get "timeout" fs with Some (FlagDuration d) => d | _ => 0 end.

Definition flag_addr (fs : list Formal) : string :=
  match map_get "addr" fs with Some (FlagString s) => s | _ => ""%string end.

(** The address the service itself binds, or the override. *)
Definition bind_addr (lookup : Lookup) (t : Target) (override : string) : string :=
  if override =s "" then
    match lookup (t_AddrKey t) with
    | Some v => if TrimSpace v <>s "" then v else DefaultFor (t_AddrKey t)
    | None => DefaultFor (t_AddrKey t)
    end
  else override.

Definition refuse (line : string) : Outcome := mkOutcome ExitUsage "" (line +:+ newline) [].

Definition prefix (t : Target) : string := "vizra healthcheck " +:+ t_Name t +:+ ": ".

Definition where_when (addr : string) (t : Target) (elapsed : Z) : string :=
  " (" +:+ addr +:+ t_Path t +:+ ", " +:+ DurationString (Round elapsed Millisecond) +:+ ")" +:+ newline.

(** What the one request means. *)
Definition verdict (net : Transport) (t : Target) (timeout : Z) (addr : string) : Outcome :=
  let '(r, ctx, elapsed) := probe net timeout addr (t_Path t) in
  match r with
  | Err e =>
      mkOutcome ExitNotReady ""
        (prefix t +:+ "NOT READY — " +:+ classify ctx e +:+ where_when addr t elapsed)
        [(addr, t_Path t)]
  | Ok (status, code) =>
      if (code <? 200) || (299 <? code) then
        mkOutcome ExitNotReady ""
          (prefix t +:+ "NOT READY — HTTP " +:+ Itoa code +:+ statusSuffix status +:+ where_when addr t elapsed)
          [(addr, t_Path t)]
      else
        mkOutcome ExitReady
          (prefix t +:+ "ready — HTTP " +:+ Itoa code +:+ statusSuffix status +:+ where_when addr t elapsed) ""
          [(addr, t_Path t)]
  end.

Definition Run (args : list string) (lookup : Lookup) (net : Transport) : Outcome :=
  match args with
  | [] => mkOutcome ExitUsage "" ("vizra healthcheck: no target given" +:+ newline +:+ writeUsage) []
  | name :: rest =>
      if one_of name ["-h"; "--help"; "help"]%string then mkOutcome ExitReady writeUsage "" []
      else match TargetByName name with
      | None =>
          mkOutcome ExitUsage ""
            ("vizra healthcheck: unknown target " +:+ Quote name +:+ "; known targets are "
             +:+ Join (map t_Name Targets) " and " +:+ newline +:+ writeUsage) []
      | Some t =>
          match Parse_flags rest formals with
          | Err e => mkOutcome ExitUsage "" (FlagError_line e +:+ writeUsage) []
          | Ok (a :: _, _) =>
              refuse ("vizra healthcheck " +:+ t_Name t +:+ ": unexpected argument " +:+ Quote a)
          | Ok ([], fs) =>
              if flag_timeout fs <=? 0
              then refuse ("vizra healthcheck " +:+ t_Name t +:+ ": --timeout must be positive")
              else match DialAddr (bind_addr lookup t (flag_addr fs)) with
              | Err why =>
                  refuse (prefix t +:+ t_AddrKey t +:+ " is not usable: " +:+ why)
              | Ok addr => verdict net t (flag_timeout fs) addr
              end
          end
      end
  end.

End Probe.

(** ** Properties *)

Lemma keep_bytes_all p s : sall p (keep_bytes p s) = true.
Proof. induction s as [|c s IH]; [done|]. simpl. destruct (p c) eqn:Hc; [simpl; by rewrite Hc|done]. Qed.

Lemma keep_bytes_len p s : (String.length (keep_bytes p s) <= String.length s)%nat.
Proof. induction s as [|c s IH]; [done|]. simpl. destruct (p c); simpl; lia. Qed.

(** What of the answer reaches the health log. *)
Lemma status_word_safe body :
  len (status_word body) <= 32 /\ sall status_rune (status_word body) = true.
Proof.
  unfold status_word. cbv zeta. destruct (decode_status _) as [s|]; [|done].
  unfold sanitiseStatus. split; [|apply keep_bytes_all].
  set (u := if 32 <? len s then stake 32 s else s).
  assert (Hu : len u <= 32).
  { subst u. destruct (Z.ltb_spec 32 (len s)); [|done]. unfold len. rewrite length_stake. lia. }
  pose proof (keep_bytes_len status_rune u). unfold len in *. lia.
Qed.

(** The readiness response, read back as far as the probe reads it. *)
Lemma status_of_readiness `{TimeText} r w : ValidString (rr_Status r) = true -> sall JsonRead.is_ws w = true ->
  decode_status (compact (readiness_json r) +:+ w) = Some (rr_Status r).
Proof.
  intros Hv Hw. assert (Hn : JsonRead.nesting (readiness_json r) <= JsonRead.maxNestingDepth).
  { assert (Hc : JsonRead.nesting (JArray (map component_json (rr_Components r))) <= 2).
    { cbn [JsonRead.nesting]. induction (rr_Components r) as [|c l IH]; cbn -[Z.max Z.add Z.le] in *; [lia|].
      destruct (String.eqb (rc_Detail c) _); cbn -[Z.max Z.add Z.le]; lia. }
    unfold JsonRead.maxNestingDepth. cbn -[Z.max Z.add Z.le] in *. lia. }
  unfold decode_status, JsonRead.Unmarshal, JsonRead.Parse. rewrite JsonRead.first_compact; [|done|by apply JsonRead.ws_text_stops].
  rewrite <- (sapp_nil_r w), JsonRead.skip_ws by done. change (JsonRead.skip "" =s "") with true. cbv iota.
  cbn [readiness_json JsonRead.val_of map JsonRead.decode JsonRead.zero status_type fst snd JsonRead.decode_fields].
  change (JsonRead.field_index (JsonRead.repaired "status") ["status"%string]) with (Some 0%nat). cbv iota.
  cbn [lookup list_lookup snd JsonRead.decode insert list_insert].
  change (JsonRead.field_index (JsonRead.repaired "components") ["status"%string]) with (@None nat).
  change (JsonRead.field_index (JsonRead.repaired "checked_at") ["status"%string]) with (@None nat). cbv iota.
  cbn. by rewrite JsonRead.repaired_valid.
Qed.

(** The word the probe prints is the word the service answered with. *)
Lemma probe_word `{TimeText} net timeout addr path code r :
  a_result (net timeout addr path) = Ok (code, json_body (readiness_json r)) -> len (json_body (readiness_json r)) <= maxBody ->
  List.In (rr_Status r) [statusOK; statusDegraded; statusUnavailable] ->
  (probe net timeout addr path).1.1 = Ok (rr_Status r, code).
Proof.
  intros Ha Hl Hs. unfold probe. rewrite Ha. cbn [fst]. f_equal. f_equal. unfold status_word.
  rewrite (proj2 (Z.leb_le _ _)) by done. unfold json_body.
  rewrite status_of_readiness; [|by destruct Hs as [<-|[<-|[<-|[]]]]|done]. by destruct Hs as [<-|[<-|[<-|[]]]].
Qed.

Lemma TargetByName_name name t : TargetByName name = Some t -> List.In t Targets /\ t_Name t = name.
Proof. unfold TargetByName. intros H%find_some. destruct H as [? Hn%String.eqb_eq]. done. Qed.

(** Answered, and with a 2xx. *)
Definition answered_ready (a : Answer) : bool :=
  match a_result a with Ok (code, _) => (200 <=? code) && (code <=? 299) | Err _ => false end.

Section Exit.
Context `{HP : Printable}.

Lemma verdict_spec net t timeout addr :
  exit (verdict net t timeout addr)
    = (if answered_ready (net timeout addr (t_Path t)) then ExitReady else ExitNotReady)
  /\ requests (verdict net t timeout addr) = [(addr, t_Path t)].
Proof.
  unfold verdict, probe, answered_ready. cbv zeta.
  destruct (a_result _) as [[code body]|e]; [|done].
  destruct (Z.ltb_spec code 200), (Z.ltb_spec 299 code), (Z.leb_spec 200 code), (Z.leb_spec code 299);
    try lia; done.
Qed.

(** The address of a target as the service's own configuration has it, unless
    it is overridden: a loopback one in place of a wildcard. *)
Lemma dialled bind addr :
  DialAddr bind = Ok addr ->
  exists host port, SplitHostPort (TrimSpace bind) = Ok (host, port) /\ port <> ""%string
    /\ SplitHostPort addr = Ok (dial_host host, port).
Proof.
  unfold DialAddr. destruct (SplitHostPort (TrimSpace bind)) as [[host port]|] eqn:Hs; [|done].
  destruct (String.eqb_spec port ""); [done|]. intros Hj.
  assert (addr = JoinHostPort (dial_host host) port) as -> by congruence. clear Hj. exists host, port.
  split; [done|]. split; [done|]. apply SplitHostPort_parts in Hs as (Hh & Hp & Hc).
  apply Split_Join; try done. unfold dial_host. by destruct (one_of host _).
Qed.

(** The probe asks once and the answer alone decides: a run prints its help,
    or refuses its command line with code 64 and no request, or makes exactly
    one request, to the path of the target, at the address the service's own key
    names (or the override), a wildcard host replaced by the loopback one, and
    exits 0 exactly when that request was answered with a 2xx and 1 otherwise.
    Nothing of the answer's text but at most 32 letters, [_] and [-] is printed. *)
Theorem one_request_decides args lookup net :
  let o := Run args lookup net in
  (requests o = [] /\ (exit o = ExitUsage \/ exit o = ExitReady /\ stdout o = writeUsage
     /\ exists h rest, args = h :: rest /\ one_of h ["-h"; "--help"; "help"]%string = true))
  \/ exists t rest fs addr host port,
       args = t_Name t :: rest /\ List.In t Targets /\ Parse_flags rest formals = Ok ([], fs)
       /\ 0 < flag_timeout fs
       /\ SplitHostPort (TrimSpace (bind_addr lookup t (flag_addr fs))) = Ok (host, port) /\ port <> ""%string
       /\ SplitHostPort addr = Ok (dial_host host, port)
       /\ requests o = [(addr, t_Path t)]
       /\ exit o = (if answered_ready (net (flag_timeout fs) addr (t_Path t)) then ExitReady else ExitNotReady)
       /\ forall code body, a_result (net (flag_timeout fs) addr (t_Path t)) = Ok (code, body) ->
            exists word, len word <= 32 /\ sall status_rune word = true
              /\ (stdout o +:+ stderr o
                  = prefix t +:+ (if answered_ready (net (flag_timeout fs) addr (t_Path t)) then "" else "NOT ")
                    +:+ (if answered_ready (net (flag_timeout fs) addr (t_Path t)) then "ready" else "READY")
                    +:+ " — HTTP " +:+ Itoa code +:+ statusSuffix word
                    +:+ where_when addr t (a_elapsed (net (flag_timeout fs) addr (t_Path t))))%string.
Proof.
  cbv zeta. unfold Run. destruct args as [|name rest]; [left; split; [done|by left]|].
  destruct (one_of name _) eqn:Hh; [left; split; [done|right; eauto 6]|].
  destruct (TargetByName name) as [t|] eqn:Ht; [|left; split; [done|by left]].
  apply TargetByName_name in Ht as [Hin <-].
  destruct (Parse_flags rest formals) as [[[|a l] fs]|e] eqn:Hf; [|left; split; [done|by left]..].
  destruct (Z.leb_spec (flag_timeout fs) 0); [left; split; [done|by left]|].
  destruct (DialAddr _) as [addr|] eqn:Hd; [|left; split; [done|by left]].
  right. apply dialled in Hd as (host & port & Hs & Hp & Hr).
  destruct (verdict_spec net t (flag_timeout fs) addr) as [He Hq].
  exists t, rest, fs, addr, host, port. do 9 (split; [done|]).
  intros code body Hb. exists (status_word body). destruct (status_word_safe body) as [Hl Ha].
  split; [done|]. split; [done|]. unfold verdict, probe, answered_ready. rewrite Hb. cbv zeta.
  destruct (Z.ltb_spec code 200), (Z.ltb_spec 299 code), (Z.leb_spec 200 code), (Z.leb_spec code 299);
    try lia; cbn [stdout stderr andb orb]; autorewrite with str; rewrite ?sapp_assoc; try done.
  assert (Hn : forall s : string, s +:+ "" = s) by (induction s; autorewrite with str; [done|by f_equal]).
  by rewrite Hn.
Qed.

End Exit.

(** ** The services it asks *)

(** A key that is unset, or set to more than white space. *)
Definition not_blank (v : option string) : Prop :=
  match v with None => True | Some v => TrimSpace v <> ""%string end.

Section Services.
Context `{HP : Printable, HU : Unicode, HN : NetUrl, HW : UrlPrint, HR : NewRequest}.

Lemma bind_is_bound lookup t :
  not_blank (lookup (t_AddrKey t)) ->
  TrimSpace (bind_addr lookup t "") = TrimSpace (get lookup (t_AddrKey t)).
Proof.
  unfold bind_addr, get, not_blank. cbn [String.eqb]. destruct (lookup (t_AddrKey t)) as [v|]; [|done].
  intros Hv%String.eqb_neq. by rewrite Hv, TrimSpace_idem.
Qed.

Lemma DialAddr_trim a b addr : TrimSpace a = TrimSpace b -> DialAddr a = Ok addr -> DialAddr b = Ok addr.
Proof.
  unfold DialAddr. intros ->. destruct (SplitHostPort (TrimSpace b)) as [[host port]|]; [|done].
  by destruct (port =s "").
Qed.

Lemma plain_run t lookup net addr :
  List.In t Targets -> not_blank (lookup (t_AddrKey t)) -> DialAddr (get lookup (t_AddrKey t)) = Ok addr ->
  Run [t_Name t] lookup net = verdict net t DefaultTimeout addr.
Proof.
  intros Hin Hb Hd.
  assert (Hd' : DialAddr (bind_addr lookup t "") = Ok addr)
    by (eapply DialAddr_trim; [symmetry; by apply bind_is_bound|done]).
  transitivity (match DialAddr (bind_addr lookup t "") with
                | Err why => refuse (prefix t +:+ t_AddrKey t +:+ " is not usable: " +:+ why)
                | Ok addr => verdict net t DefaultTimeout addr
                end); [|by rewrite Hd'].
  by destruct Hin as [<-|[<-|[]]].
Qed.

Lemma LoadFrom_addrs lookup c :
  LoadFrom lookup = Ok c ->
  cfg_ListenAddr c = get lookup "VIZRA_LISTEN_ADDR" /\ cfg_MetricsAddr c = get lookup "VIZRA_METRICS_ADDR".
Proof. unfold LoadFrom. destruct (problems lookup); [|done]. by intros [= <-]. Qed.

Lemma readyz_code draining d env ended now computed r :
  (handleReadyz draining d env ended now computed r).1.1.1 = 200
   /\ draining = false
   /\ (if fresh now r then rr_Status (rvalue r) <> statusUnavailable else d_PingDatabase d ended = true)
  \/ (handleReadyz draining d env ended now computed r).1.1.1 = 503
   /\ (draining = true
       \/ if fresh now r then rr_Status (rvalue r) = statusUnavailable else d_PingDatabase d ended = false).
Proof.
  unfold handleReadyz, Get. destruct draining; [by right; split; [|left]|].
  pose proof (compute_unavailable d env ended now) as Hu. destruct (fresh now r).
  - cbn. destruct (String.eqb_spec (rr_Status (rvalue r)) statusUnavailable); [right|left]; by auto.
  - destruct (computeReadiness d env ended now) as [v s']. cbn in *.
    destruct (String.eqb_spec (rr_Status v) statusUnavailable) as [He|Hne]; [right; split; [done|]; right; by apply Hu|].
    left. do 2 (split; [done|]). destruct (d_PingDatabase d ended); [done|]. by destruct Hne; apply Hu.
Qed.

(** C13. The probe cannot pass while the service is broken.  For a configuration
    that boots and address keys that are not set to blanks, the probe of the api
    asks the very listener the api binds and, once that is answered, exits 0
    exactly when the process is not draining and either the readiness in its
    cache is fresh and not [unavailable] or the database answered a ping; the
    probe of the worker exits 0 exactly when the worker knows a site and each
    of them has a claim loop that moved within the bound and a database that
    answered; every other answer of theirs is exit 1. *)
Theorem probe_reads_the_service lookup c net :
  LoadFrom lookup = Ok c ->
  (forall addr draining d env ended now computed r body,
     not_blank (lookup "VIZRA_LISTEN_ADDR"%string) -> DialAddr (cfg_ListenAddr c) = Ok addr ->
     a_result (net DefaultTimeout addr "/readyz"%string)
       = Ok ((handleReadyz draining d env ended now computed r).1.1.1, body) ->
     let o := Run ["api"%string] lookup net in
     (exit o = ExitReady <->
        draining = false
        /\ if fresh now r then rr_Status (rvalue r) <> statusUnavailable else d_PingDatabase d ended = true)
     /\ (exit o = ExitReady \/ exit o = ExitNotReady))
  /\ (forall addr Redact h now pingers body,
     not_blank (lookup "VIZRA_METRICS_ADDR"%string) -> DialAddr (cfg_MetricsAddr c) = Ok addr ->
     a_result (net DefaultTimeout addr "/readyz"%string) = Ok (HealthHandler Redact h now pingers, body) ->
     let o := Run ["worker"%string] lookup net in
     (exit o = ExitReady <->
        h_order h <> []
        /\ forall s, List.In s (h_order h) ->
             exists p, h_sites h !! s = Some p /\ lastProgress p <> 0
               /\ now - lastProgress p <= h_staleAfter h /\ pingers !! s = Some None)
     /\ (exit o = ExitReady \/ exit o = ExitNotReady)).
Proof.
  intros Hc. apply LoadFrom_addrs in Hc as [Hl Hm]. rewrite Hl, Hm. split.
  - intros addr draining d env ended now computed r body Hb Hd Ha. cbv zeta.
    change ["api"%string] with [t_Name api_target].
    rewrite (plain_run api_target lookup net addr (or_introl eq_refl) Hb Hd).
    destruct (verdict_spec net api_target DefaultTimeout addr) as [-> _].
    unfold answered_ready. cbn [t_Path api_target]. rewrite Ha.
    destruct (readyz_code draining d env ended now computed r) as [(-> & Hdr & Hs)|(-> & Hs)]; cbn; [tauto|].
    split; [|tauto]. split; [done|]. intros [-> Hok]. exfalso.
    destruct Hs as [?|Hs]; [done|]. destruct (fresh now r); congruence.
  - intros addr Redact h now pingers body Hb Hd Ha. cbv zeta.
    change ["worker"%string] with [t_Name worker_target].
    rewrite (plain_run worker_target lookup net addr (or_intror (or_introl eq_refl)) Hb Hd).
    destruct (verdict_spec net worker_target DefaultTimeout addr) as [-> _].
    unfold answered_ready. cbn [t_Path worker_target]. rewrite Ha, <- (report_ready Redact).
    unfold HealthHandler. by destruct (Ready _); cbn; split; auto.
Qed.

End Services.

(** ** The properties at work *)

#[local] Instance all_printable : Printable := fun _ => true.
#[local] Instance any_request : NewRequest := fun _ => Ok "/internal/v1/search"%string.

(** Both listeners of a host, asked while the database is down for the api and
    the claim loop of the worker turns. *)
Definition down_deps : Deps := mkDeps None (fun _ => false) (fun _ => true) false None None None.
Definition turning : Health := LoopAlive "main" 5 (NewHealth ["main"%string] (15 * Second)).
Definition idle_env : CallEnv := mkCallEnv None 0 (fun _ => Err ""%string).
Definition empty_cache : readinessCache := newReadinessCache (2 * Second) (mkReadiness "" [] 0).

Definition host_net : Transport := fun _ addr _ =>
  mkAnswer (Ok (if addr =s "127.0.0.1:8080"
                then (handleReadyz false down_deps idle_env false 5 6 empty_cache).1.1.1
                else HealthHandler (fun m => m) turning 7 {["main"%string := None]}, ""%string)) CtxLive 1000000.

Lemma probe_reads_the_service_witness :
  exit (Run ["api"%string] sample_lookup host_net) = ExitNotReady
  /\ exit (Run ["worker"%string] sample_lookup host_net) = ExitReady.
Proof.
  destruct (LoadFrom (HU := ascii_only) (HN := schemes) (HP := no_users) sample_lookup) as [c|] eqn:Hc;
    [|vm_compute in Hc; discriminate Hc].
  destruct (LoadFrom_addrs _ _ Hc) as [Hl Hm].
  destruct (probe_reads_the_service sample_lookup c host_net Hc) as [Ha Hw]. split.
  - destruct (Ha "127.0.0.1:8080"%string false down_deps idle_env false 5 6 empty_cache ""%string) as [Hiff [He|He]].
    + vm_compute. exact I.
    + rewrite Hl. vm_compute. reflexivity.
    + vm_compute. reflexivity.
    + apply Hiff in He as [_ He]. vm_compute in He. discriminate He.
    + exact He.
  - destruct (Hw "127.0.0.1:9090"%string (fun m => m) turning 7 {["main"%string := None]} ""%string) as [Hiff _].
    + vm_compute. exact I.
    + rewrite Hm. vm_compute. reflexivity.
    + vm_compute. reflexivity.
    + apply Hiff. split; [vm_compute; discriminate|]. intros s [<-|[]]. eexists.
      split; [vm_compute; reflexivity|]. split; [discriminate|]. split; [vm_compute; discriminate|].
      vm_compute. reflexivity.
Defined.

(** The keys of the sample environment with a blank listen address. *)
Definition blank_listen : Lookup := fun k =>
  if k =s "VIZRA_LISTEN_ADDR" then Some " "%string else sample_lookup k.

(** A blank address key boots: the api then binds the empty address, and the
    probe asks the default one. *)
Example blank_address_diverges :
  match LoadFrom (HU := ascii_only) (HN := schemes) (HP := no_users) blank_listen with
  | Ok c => cfg_ListenAddr c = ""%string
  | Err _ => False
  end
  /\ requests (Run ["api"%string] blank_listen host_net) = [("127.0.0.1:8080", "/readyz")]%string.
Proof. vm_compute. split; reflexivity. Qed.
