(* ===== verification/Versions.v ===== *)
(** * Versions with a floor (src/internal/doctor/doctor.go)

    Reading a version and comparing it, against the expression the code names
    and the order of its three parts. *)

From S2P Require Import Prelude Utf8 Regex GoStrings Decimals GoFmt.

(** The longest run of digits at the head, and what follows. *)
Fixpoint take_digits (s : string) : string * string :=
  match s with
  | String c r => if digit c then let '(d, rest) := take_digits r in (String c d, rest) else (""%string, s)
  | EmptyString => (""%string, s)
  end.

Definition max_int : Z := 9223372036854775807.

(** [strconv.Atoi] of digits with its error dropped: the value, or the largest
    one. *)
Definition Atoi (s : string) : Z := Z.min (parse_digits 0 s) max_int.

Definition Version3 : Type := Z * Z * Z.

(** The expression [^v?(\d+)\.(\d+)(?:\.(\d+))?] at the start of the trimmed
    text; a class of digits and a point share no byte, so the longest runs are
    the ones the expression takes. *)
Definition ParseVersion (s : string) : option Version3 :=
  let '(maj, rest) := take_digits (TrimPrefix (TrimSpace s) "v") in
  let '(min, rest') := take_digits (TrimPrefix rest ".") in
  if (maj =s "") || negb (HasPrefix rest ".") || (min =s "") then None
  else
    let patch := if HasPrefix rest' "." then (take_digits (TrimPrefix rest' ".")).1 else ""%string in
    Some (Atoi maj, Atoi min, if patch <>s "" then Atoi patch else 0).

Definition CompareVersion (a b : Version3) : Z :=
  let '(a1, a2, a3) := a in
  let '(b1, b2, b3) := b in
  if negb (a1 =? b1) then if a1 <? b1 then -1 else 1
  else if negb (a2 =? b2) then if a2 <? b2 then -1 else 1
  else if negb (a3 =? b3) then if a3 <? b3 then -1 else 1
  else 0.

Definition CacheFloor : Version3 := (7, 2, 0).
Definition ComposeFloor : Version3 := (2, 24, 4).

(** The version in a text is at least the floor. *)
Definition at_least (s : string) (floor : Version3) : Prop :=
  exists v, ParseVersion s = Some v /\ 0 <= CompareVersion v floor.

(** ** Versions against their expression and their order *)

(** Everything the expression [^v?(\d+)\.(\d+)(?:\.(\d+))?] finds a match in. *)
Definition version_re : re :=
  Cat (opt (lit "v")) (Cat (plus (Cls digit)) (Cat (lit ".") (Cat (plus (Cls digit)) (Star (Cls (fun _ => true)))))).

Definition version_compare (a b : Version3) : comparison :=
  match a.1.1 ?= b.1.1 with
  | Eq => match a.1.2 ?= b.1.2 with Eq => a.2 ?= b.2 | c => c end
  | c => c
  end.

Definition starts_digit (s : string) : bool := match s with String c _ => digit c | EmptyString => false end.

Lemma take_digits_app d r : sall digit d = true -> starts_digit r = false -> take_digits (d +:+ r) = (d, r).
Proof.
  intros Hd Hr. induction d as [|c d IH]; autorewrite with str.
  - destruct r as [|x r]; [done|]. simpl in *. by rewrite Hr.
  - simpl in *. apply andb_true_iff in Hd as [-> Hd]. by rewrite IH.
Qed.

Lemma take_digits_inv s d r :
  take_digits s = (d, r) -> s = d +:+ r /\ sall digit d = true /\ starts_digit r = false.
Proof.
  revert d r; induction s as [|c s IH]; intros d r; simpl; [by intros [= <- <-]|].
  destruct (digit c) eqn:Hc; [|intros [= <- <-]; simpl; by rewrite Hc].
  destruct (take_digits s) as [d' r']. intros [= <- <-]. destruct (IH _ _ eq_refl) as (-> & Hd & Hr).
  autorewrite with str. simpl. by rewrite Hc.
Qed.

Lemma lang_lit1 c s : lang (lit (String c "")) s <-> s = String c "".
Proof.
  unfold lit. rewrite lang_Cat. setoid_rewrite lang_eps. setoid_rewrite lang_Cls. unfold chr. split.
  - intros (a & b & -> & (x & -> & Hx%Ascii.eqb_eq) & ->). by subst.
  - intros ->. exists (String c ""), ""%string. split; [done|]. split; [|done]. exists c.
    split; [done|]. apply Ascii.eqb_refl.
Qed.

Lemma sall_any s : sall (fun _ => true) s = true.
Proof. by induction s. Qed.

#[local] Opaque lit plus.

(** The texts of the expression: an optional v, digits, a point, digits, rest. *)
Lemma version_re_spec s :
  lang version_re s <->
  exists v d1 d2 rest, s = v +:+ d1 +:+ "." +:+ d2 +:+ rest /\ (v = "v" \/ v = "")%string
    /\ d1 <> ""%string /\ sall digit d1 = true /\ d2 <> ""%string /\ sall digit d2 = true.
Proof.
  unfold version_re, opt. repeat setoid_rewrite lang_Cat. setoid_rewrite lang_Alt. setoid_rewrite lang_lit1.
  setoid_rewrite lang_eps. setoid_rewrite lang_plus. setoid_rewrite lang_star. split.
  - intros (v & ? & -> & Hv & d1 & ? & -> & [] & p & ? & -> & -> & d2 & rest & -> & [] & _).
    by exists v, d1, d2, rest.
  - intros (v & d1 & d2 & rest & -> & Hv & ? & ? & ? & ?).
    exists v, (d1 +:+ "." +:+ d2 +:+ rest). do 2 (split; [done|]).
    exists d1, ("." +:+ d2 +:+ rest). do 2 (split; [done|]).
    exists "."%string, (d2 +:+ rest). do 2 (split; [done|]).
    exists d2, rest. do 2 (split; [done|]). apply sall_any.
Qed.

Lemma TrimPrefix_app p s : TrimPrefix (p +:+ s) p = s.
Proof.
  unfold TrimPrefix. assert (HasPrefix (p +:+ s) p = true) as ->.
  { induction p as [|c p IH]; autorewrite with str; simpl; [by destruct s|]. by rewrite Ascii.eqb_refl. }
  induction p as [|c p IH]; autorewrite with str; simpl; [by destruct s|]. exact IH.
Qed.

Lemma TrimPrefix_split p s : HasPrefix s p = true -> s = p +:+ TrimPrefix s p.
Proof.
  intros Hp. unfold TrimPrefix. rewrite Hp.
  revert s Hp; induction p as [|c p IH]; intros s Hp; autorewrite with str; simpl; [by destruct s|].
  destruct s as [|x s]; [done|]. cbn [HasPrefix] in Hp. apply andb_true_iff in Hp as [->%Ascii.eqb_eq Hp].
  simpl. f_equal. by apply IH.
Qed.

Lemma TrimPrefix_inv p s : s = TrimPrefix s p \/ s = p +:+ TrimPrefix s p.
Proof.
  destruct (HasPrefix s p) eqn:Hp; [right; by apply TrimPrefix_split|]. left. unfold TrimPrefix. by rewrite Hp.
Qed.

(** A digit text is left alone by the optional prefix. *)
Lemma TrimPrefix_v v d rest :
  (v = "v" \/ v = "")%string -> d <> ""%string -> sall digit d = true ->
  TrimPrefix (v +:+ d +:+ rest) "v" = d +:+ rest.
Proof.
  intros [-> | ->] Hd Ha; [apply TrimPrefix_app|]. destruct d as [|c d]; [done|].
  simpl in Ha. apply andb_true_iff in Ha as [Hc _]. autorewrite with str. unfold TrimPrefix.
  cbn [HasPrefix]. destruct (Ascii.eqb_spec "v" c) as [<-|]; [discriminate Hc|done].
Qed.

Lemma ParseVersion_some s :
  ParseVersion s <> None <-> lang version_re (TrimSpace s).
Proof.
  rewrite version_re_spec. unfold ParseVersion. generalize (TrimSpace s) as t. intros t.
  destruct (take_digits (TrimPrefix t "v")) as [maj rest] eqn:H1.
  destruct (take_digits (TrimPrefix rest ".")) as [min rest'] eqn:H2.
  apply take_digits_inv in H1 as H1'. apply take_digits_inv in H2 as H2'.
  destruct H1' as (He1 & Hd1 & Hr1), H2' as (He2 & Hd2 & Hr2). split.
  - destruct (String.eqb_spec maj ""); [done|]. destruct (HasPrefix rest ".") eqn:Hp; [|done].
    destruct (String.eqb_spec min ""); [done|]. intros _.
    assert (Hrest : rest = "." +:+ min +:+ rest').
    { rewrite <- He2. by apply TrimPrefix_split. }
    destruct (TrimPrefix_inv "v" t) as [Ht|Ht]; rewrite Ht, He1, Hrest.
    + exists ""%string, maj, min, rest'. split; [done|]. split; [by right|done].
    + exists "v"%string, maj, min, rest'. split; [done|]. split; [by left|done].
  - intros (v & d1 & d2 & r & -> & Hv & Hn1 & Ha1 & Hn2 & Ha2).
    rewrite TrimPrefix_v, take_digits_app in H1 by done. injection H1 as <- <-.
    rewrite TrimPrefix_app in H2.
    destruct (String.eqb_spec d1 ""); [done|]. cbn [HasPrefix orb negb]. autorewrite with str.
    cbn [HasPrefix Ascii.eqb]. destruct (String.eqb_spec min "") as [->|]; [|by destruct d2].
    exfalso. rewrite sapp_nil in He2. destruct d2 as [|c d2]; [done|]. simpl in Ha2.
    rewrite TrimPrefix_app, sapp_cons in He2. apply andb_true_iff in Ha2 as [Hc _].
    rewrite <- He2 in Hr2. simpl in Hr2. congruence.
Qed.

Lemma CompareVersion_lex a b :
  CompareVersion a b = match version_compare a b with Lt => -1 | Eq => 0 | Gt => 1 end.
Proof.
  destruct a as [[a1 a2] a3], b as [[b1 b2] b3]. unfold CompareVersion, version_compare. cbn [fst snd].
  destruct (Z.compare_spec a1 b1), (Z.compare_spec a2 b2), (Z.compare_spec a3 b3); subst;
    rewrite ?Z.eqb_refl; cbn [negb];
    repeat match goal with
    | |- context [?x =? ?y] => rewrite (proj2 (Z.eqb_neq x y)) by lia; cbn [negb]
    | |- context [?x <? ?y] => destruct (Z.ltb_spec x y); try lia
    end; done.
Qed.

Lemma digits_of_print n : 0 <= n -> prints (Itoa n) n /\ Itoa n <> ""%string.
Proof.
  intros Hn. destruct (Z.eq_dec n 0) as [->|Hne].
  - split; [|by vm_compute]. split; [by vm_compute|]. split; [by vm_compute|lia].
  - destruct (Itoa_pos n ltac:(lia)) as (H1 & H2 & H3). split; [done|].
    destruct (H3 ltac:(lia)) as (c & r & -> & _). done.
Qed.

Lemma Atoi_Itoa n : 0 <= n <= max_int -> Atoi (Itoa n) = n.
Proof.
  intros Hn. destruct (digits_of_print n ltac:(lia)) as [(Hv & _) _]. unfold Atoi. rewrite Hv. lia.
Qed.

Lemma digit_graphic c : digit c = true -> graphic c = true.
Proof.
  unfold digit, graphic, range, in_range. change (code "0") with 48. change (code "9") with 57. lia.
Qed.

Lemma last_of s : s <> ""%string -> exists r c, s = r +:+ String c "".
Proof.
  induction s as [|x s IH]; [done|]. intros _. destruct s as [|y s]; [by exists ""%string, x|].
  destruct IH as (r & c & He); [done|]. exists (String x r), c. by rewrite He.
Qed.

(** A version as the tools print it. *)
Definition print_version (v : string) (a b c : Z) : string :=
  v +:+ Itoa a +:+ "." +:+ Itoa b +:+ "." +:+ Itoa c.

Lemma print_version_trim v a b c :
  (v = "v" \/ v = "")%string -> 0 <= a -> 0 <= c -> TrimSpace (print_version v a b c) = print_version v a b c.
Proof.
  intros Hv Ha Hc. destruct (digits_of_print a Ha) as [(_ & Hda & _) Hna].
  destruct (digits_of_print c Hc) as [(_ & Hdc & _) Hnc]. unfold print_version.
  destruct (last_of (Itoa c) Hnc) as (r & x & Hx). rewrite Hx in Hdc |- *. rewrite sall_app in Hdc.
  apply andb_true_iff in Hdc as [_ Hdx]. cbn [sall] in Hdx. rewrite andb_true_r in Hdx.
  destruct (Itoa a) as [|y ya]; [done|]. cbn [sall] in Hda. apply andb_true_iff in Hda as [Hdy _].
  rewrite <- !sapp_assoc. destruct Hv as [-> | ->].
  - rewrite !(sapp_cons "v"). by apply TrimSpace_graphic; [|apply digit_graphic].
  - rewrite sapp_nil, !sapp_cons. by apply TrimSpace_graphic; apply digit_graphic.
Qed.

Lemma ParseVersion_print v a b c :
  (v = "v" \/ v = "")%string -> 0 <= a <= max_int -> 0 <= b <= max_int -> 0 <= c <= max_int ->
  ParseVersion (print_version v a b c) = Some (a, b, c).
Proof.
  intros Hv Ha Hb Hc. unfold ParseVersion. rewrite print_version_trim by (done || lia). unfold print_version.
  destruct (digits_of_print a ltac:(lia)) as [(_ & Hda & _) Hna].
  destruct (digits_of_print b ltac:(lia)) as [(_ & Hdb & _) Hnb].
  destruct (digits_of_print c ltac:(lia)) as [(_ & Hdc & _) Hnc].
  rewrite TrimPrefix_v, take_digits_app by done. rewrite TrimPrefix_app, take_digits_app by done.
  assert (Hp : forall s, HasPrefix ("." +:+ s) "." = true) by (intros []; by vm_compute).
  rewrite !Hp, TrimPrefix_app. cbn [negb]. rewrite !orb_false_r.
  assert (Hend : take_digits (Itoa c) = (Itoa c, ""%string)).
  { rewrite <- (take_digits_app (Itoa c) "") by done. f_equal.
    generalize (Itoa c) as s. induction s; autorewrite with str; [done|by f_equal]. }
  rewrite Hend. cbn [fst]. rewrite !(proj2 (String.eqb_neq _ _)) by done. cbn [orb negb].
  by rewrite !Atoi_Itoa.
Qed.
