(* ===== verification/EnvFile.v ===== *)
(** * Env files (src/cmd/vizra/doctor.go)

    What [vizra doctor --env F] reads a file as, and that quoted values are read
    back as they are. *)

From S2P Require Import Prelude Utf8 Regex GoStrings Decimals GoFmt Origin Config Versions.

Definition drop_cr (line : string) : string := TrimSuffix line (String (ascii_of_N 13) "").

(** bufio.ScanLines: what is between newlines; nothing after the last one. *)
Definition scan_lines (s : string) : list string :=
  let parts := Split (ascii_of_N 10) s in
  match List.last parts ""%string with
  | EmptyString => List.removelast parts
  | _ => parts
  end.

(** The buffer of a bufio.Scanner: a longer line ends the scan with an error. *)
Definition MaxScanTokenSize : Z := 65536.

(** Matching quotes around a value are dropped. *)
Definition unquote (v : string) : string :=
  let quoted (q : string) := HasPrefix v q && HasSuffix v q in
  if (2 <=? len v) && (quoted dquote || quoted "'") then stake (String.length v - 2) (sdrop 1 v) else v.

Definition env_line (line : string) : option (string * string) :=
  let line := TrimSpace line in
  if (line =s "") || HasPrefix line "#" then None
  else match Cut "=" line with
       | None => None
       | Some (k, v) => Some (TrimSpace k, unquote (TrimSpace v))
       end.

Fixpoint scan_env (lines : list string) (env : gmap string string) : result string (gmap string string) :=
  match lines with
  | [] => Ok env
  | line :: lines =>
      if MaxScanTokenSize <=? len line then Err "bufio.Scanner: token too long"%string
      else scan_env lines (match env_line (drop_cr line) with Some (k, v) => <[k := v]> env | None => env end)
  end.

(** The file's bytes, or why it could not be opened. *)
Definition readEnvFile (path : string) (file : result string string) : result string (gmap string string) :=
  match file with
  | Err e => Err ("could not read " +:+ path +:+ ": " +:+ e)%string
  | Ok bytes => scan_env (scan_lines bytes) ∅
  end.

(** The environment of the process, or the file named by [--env]. *)
Definition envSource (environ : Lookup) (files : string -> result string string) (envFile : string)
    : result string Lookup :=
  if envFile =s "" then Ok environ
  else match readEnvFile envFile (files envFile) with
       | Err e => Err e
       | Ok env => Ok (fun k => env !! k)
       end.

(** ** Env files read back what was quoted *)

Definition NL : ascii := ascii_of_N 10.

Lemma Split_line l s : has_byte NL l = false -> Split NL (l +:+ String NL s) = l :: Split NL s.
Proof.
  induction l as [|c l IH]; intros Hl; autorewrite with str; [by cbn [Split]; rewrite Ascii.eqb_refl|].
  rewrite has_byte_cons in Hl. apply orb_false_iff in Hl as [Hc Hl]. cbn [Split]. by rewrite Hc, IH.
Qed.

(** A file of whole lines. *)
Definition file_of (ls : list string) : string := String.concat "" (map (fun l => l +:+ newline) ls).

Lemma concat_cons (x : string) xs : String.concat "" (x :: xs) = x +:+ String.concat "" xs.
Proof.
  destruct xs; [|done]. cbn [String.concat]. induction x; autorewrite with str; [done|by f_equal].
Qed.

Lemma scan_lines_file ls : (forall l, List.In l ls -> has_byte NL l = false) -> scan_lines (file_of ls) = ls.
Proof.
  intros Hls.
  assert (Hs : Split NL (file_of ls) = ls ++ [""%string]).
  { induction ls as [|l ls IH]; [done|]. unfold file_of. cbn [map]. rewrite concat_cons, sapp_assoc.
    change (newline +:+ ?s) with (String NL s). rewrite Split_line by (apply Hls; by left).
    change (String.concat _ _) with (file_of ls). rewrite IH; [done|]. intros l' Hl'. apply Hls. by right. }
  unfold scan_lines. fold NL. rewrite Hs, List.last_last. by rewrite List.removelast_last.
Qed.

Lemma HasSuffix_last s c d : HasSuffix (s +:+ String c "") (String d "") = Ascii.eqb c d.
Proof.
  induction s as [|x s IH]; autorewrite with str; cbn [HasSuffix].
  - cbn. by destruct (Ascii.eqb c d).
  - rewrite IH. rewrite (proj2 (String.eqb_neq _ _)); [done|]. intros [= _ He]. by destruct s.
Qed.

Lemma stake_app (a b : string) : stake (String.length a) (a +:+ b) = a.
Proof. induction a as [|c a IH]; autorewrite with str; simpl; [by destruct b|by f_equal]. Qed.

Lemma unquote_quoted v : unquote (dquote +:+ v +:+ dquote) = v.
Proof.
  unfold unquote. rewrite !len_app. change (len dquote) with 1. pose proof (len_nonneg v).
  rewrite (proj2 (Z.leb_le _ _)) by lia.
  assert (HasPrefix (dquote +:+ v +:+ dquote) dquote = true) as -> by (by destruct v).
  assert (HasSuffix (dquote +:+ v +:+ dquote) dquote = true) as ->
    by (rewrite <- (sapp_assoc dquote v); unfold dquote at 2 3; by rewrite HasSuffix_last).
  cbn [andb orb]. rewrite !length_sapp. change (String.length dquote) with 1%nat.
  replace (1 + (String.length v + 1) - 2)%nat with (String.length v) by lia. apply stake_app.
Qed.

Definition name_byte (c : ascii) : bool := either (range "A" "Z") (either digit (chr "_")) c.

Lemma name_byte_spec c :
  name_byte c = true -> graphic c = true /\ Ascii.eqb c "=" = false /\ Ascii.eqb "#" c = false
    /\ Ascii.eqb c NL = false.
Proof. by destruct c as [[] [] [] [] [] [] [] []]; vm_compute. Qed.

Lemma TrimSpace_name s : sall name_byte s = true -> TrimSpace s = s.
Proof.
  destruct s as [|a s]; [done|]. cbn [sall]. intros [Ha Hs]%andb_true_iff. apply name_byte_spec in Ha as (Ha & _).
  destruct s as [|b s].
  - unfold TrimSpace. rewrite TrimLeft_id.
    + by apply (TrimRight_graphic "").
    + destruct (space_size (String a "")) eqn:He; [done|]. apply space_not_graphic in He.
      cbn [stake sall] in He. by rewrite Ha in He.
  - destruct (last_of (String b s) ltac:(done)) as (r & c & Hr). rewrite Hr in *. rewrite sall_app in Hs.
    apply andb_true_iff in Hs as [_ Hc]. cbn [sall] in Hc. rewrite andb_true_r in Hc.
    apply name_byte_spec in Hc as (Hc & _). rewrite <- sapp_cons. by apply TrimSpace_graphic.
Qed.

Lemma name_no_eq s : sall name_byte s = true -> has_byte "=" s = false /\ has_byte NL s = false.
Proof.
  induction s as [|c s IH]; [done|]. cbn [sall]. intros [Hc Hs]%andb_true_iff.
  apply name_byte_spec in Hc as (_ & Hc & _ & Hn). rewrite !has_byte_cons, Hc, Hn. by apply IH.
Qed.

(** A line of a file as an operator quotes it. *)
Definition quoted_line (kv : string * string) : string := kv.1 +:+ "=" +:+ dquote +:+ kv.2 +:+ dquote.

Definition quotable (kv : string * string) : Prop :=
  kv.1 <> ""%string /\ sall name_byte kv.1 = true /\ has_byte NL kv.2 = false
  /\ len kv.1 + len kv.2 + 3 < MaxScanTokenSize.

Lemma quoted_line_end kv : quoted_line kv = (kv.1 +:+ "=" +:+ dquote +:+ kv.2) +:+ dquote.
Proof. unfold quoted_line. by rewrite !sapp_assoc. Qed.

Lemma env_line_quoted kv : quotable kv -> env_line (drop_cr (quoted_line kv)) = Some kv.
Proof.
  destruct kv as [k v]. intros (Hk & Hn & _). cbn [fst snd] in *. unfold drop_cr, TrimSuffix.
  assert (HasSuffix (quoted_line (k, v)) (String (ascii_of_N 13) "") = false) as ->
    by (rewrite quoted_line_end; unfold dquote at 2; by rewrite HasSuffix_last).
  unfold env_line.
  destruct k as [|a k]; [done|]. cbn [sall] in Hn. apply andb_true_iff in Hn as Hn'. destruct Hn' as [Ha _].
  apply name_byte_spec in Ha as (Hg & Heq & Hh & _).
  assert (Ht : TrimSpace (quoted_line (String a k, v)) = quoted_line (String a k, v)).
  { rewrite quoted_line_end. cbn [fst snd]. rewrite !sapp_cons. by apply TrimSpace_graphic. }
  rewrite Ht. unfold quoted_line at 1 2. cbn [fst snd]. rewrite sapp_cons. cbn [String.eqb HasPrefix].
  rewrite Hh. cbn [andb orb]. unfold quoted_line. cbn [fst snd].
  change ("=" +:+ ?x) with (String "=" x). rewrite Cut_app by (by apply name_no_eq).
  rewrite TrimSpace_name by done.
  assert (Hv : TrimSpace (dquote +:+ v +:+ dquote) = dquote +:+ v +:+ dquote).
  { rewrite <- sapp_assoc. change (dquote +:+ v) with (String (ascii_of_N 34) v).
    by apply TrimSpace_graphic. }
  by rewrite Hv, unquote_quoted.
Qed.

Lemma quoted_line_plain kv : quotable kv -> has_byte NL (quoted_line kv) = false /\ len (quoted_line kv) < MaxScanTokenSize.
Proof.
  destruct kv as [k v]. intros (_ & Hn & Hv & Hl). cbn [fst snd] in *. unfold quoted_line. cbn [fst snd].
  rewrite !has_byte_app, Hv. apply name_no_eq in Hn as [_ ->]. split; [by vm_compute|].
  rewrite !len_app. change (len "=") with 1. change (len dquote) with 1. lia.
Qed.

(** What an operator quotes in an env file is what is validated: for lines
    [NAME="value"] the file reads back as exactly these values, spaces, quotes
    and signs included, the last line of a name deciding. *)
Theorem quoted_env_read_back path kvs :
  (forall kv, List.In kv kvs -> quotable kv) ->
  readEnvFile path (Ok (file_of (map quoted_line kvs)))
  = Ok (fold_left (fun env kv => <[kv.1 := kv.2]> env) kvs ∅).
Proof.
  intros Hq. unfold readEnvFile. rewrite scan_lines_file.
  - assert (Hgen : forall env : gmap string string, scan_env (map quoted_line kvs) env
                   = Ok (fold_left (fun env kv => <[kv.1 := kv.2]> env) kvs env)); [|apply Hgen].
    induction kvs as [|kv kvs IH]; intros env; [done|]. cbn [map scan_env fold_left].
    destruct (quoted_line_plain kv) as [_ Hl]; [apply Hq; by left|].
    rewrite (proj2 (Z.leb_gt _ _)) by lia. rewrite env_line_quoted by (apply Hq; by left).
    destruct kv as [k v]. apply IH. intros. apply Hq. by right.
  - intros l Hl. apply in_map_iff in Hl as (kv & <- & Hin). by apply quoted_line_plain, Hq.
Qed.

(** ** The properties at work *)

Lemma quoted_env_read_back_witness :
  readEnvFile "f" (Ok (file_of (map quoted_line [("A", " x=1 "); ("A", "#")]%string)))
  = Ok {["A"%string := "#"%string]}.
Proof.
  rewrite (quoted_env_read_back "f" [("A", " x=1 "); ("A", "#")]%string).
  - vm_compute. reflexivity.
  - intros kv [<-|[<-|[]]]; repeat split; (discriminate || reflexivity).
Defined.
