(* ===== verification/Doctor.v ===== *)
(** * The operator's checks (src/internal/doctor/doctor.go, src/cmd/vizra/doctor.go)

    [Verdicts] has the pure checks, one definition each; [Command] collects them
    over the probes, reads an env file, and wires the probes to the
    configuration loader, the migration probe, the owner-claim state and the
    search client. *)

From S2P Require Import Prelude Utf8 Regex GoStrings Decimals GoTime GoFmt Pg SearchHmac Origin Config Search Migrate OwnerStore OwnerClaim Stores Versions EnvFile.

(** ** Results *)

Definition StatusOK : string := "OK".
Definition StatusWarn : string := "WARN".
Definition StatusFail : string := "FAIL".
Definition StatusSkip : string := "SKIP".

Record Result := mkResult { Name : string; RStatus : string; Detail : string }.

(** ** Verdicts *)

(** What the loader says: problems, or another error. *)
Inductive ConfigError :=
| Validation (ps : list Problem)
| OtherError (text : string).

Definition CheckConfig (cfg : option Config) (err : option ConfigError) : list Result :=
  match err with
  | Some (Validation ps) => map (fun p => mkResult ("config: " +:+ p_Key p) StatusFail (p_Message p)) ps
  | Some (OtherError text) => [mkResult "configuration" StatusFail text]
  | None =>
      match cfg with
      | None => [mkResult "configuration" StatusSkip "the configuration was not loaded"]
      | Some c =>
          [mkResult "configuration" StatusOK
             (Itoa (Z.of_nat (length AllKeys)) +:+ " keys validated, mode=" +:+ cfg_Mode c)]
      end
  end.

Definition CheckDatabase (err : option string) : Result :=
  match err with
  | Some _ => mkResult "database" StatusFail "PostgreSQL is unreachable"
  | None => mkResult "database" StatusOK "reachable"
  end.

Definition CheckSchema (st : Status) : Result :=
  if st_State st =s StateCurrent then
    mkResult "schema" StatusOK ("version " +:+ Itoa (st_AppliedVersion st))
  else if st_State st =s StateBehind then
    mkResult "schema" StatusFail
      ("database at " +:+ Itoa (st_AppliedVersion st) +:+ ", this binary embeds " +:+ Itoa (st_EmbeddedVersion st)
       +:+ ": " +:+ st_Detail st)
  else if st_State st =s StateAhead then
    mkResult "schema" StatusFail
      ("database at " +:+ Itoa (st_AppliedVersion st) +:+ " is NEWER than this binary's "
       +:+ Itoa (st_EmbeddedVersion st) +:+ ": " +:+ st_Detail st)
  else if st_State st =s StateDirty then mkResult "schema" StatusFail (st_Detail st)
  else mkResult "schema" StatusSkip "the migration ledger could not be read".

Section Verdicts.
Context `{HQ : Printable}.

Definition floor2 : string := Itoa (CacheFloor.1.1) +:+ "." +:+ Itoa (CacheFloor.1.2).

Definition floor3 : string :=
  Itoa (ComposeFloor.1.1) +:+ "." +:+ Itoa (ComposeFloor.1.2) +:+ "." +:+ Itoa (ComposeFloor.2).

Definition CheckCacheFloor (info : ServerInfo) : Result :=
  match ParseVersion (Version info) with
  | None =>
      mkResult "cache version floor" StatusFail
        ("could not parse the server version " +:+ Quote (Version info)
         +:+ "; refusing to assume it meets the " +:+ floor2 +:+ " floor")
  | Some v =>
      if CompareVersion v CacheFloor <? 0 then
        mkResult "cache version floor" StatusFail
          (ServerInfo_String info +:+ " is below the " +:+ floor2 +:+ " command-set floor Vizra requires")
      else
        mkResult "cache version floor" StatusOK
          (ServerInfo_String info +:+ " meets the " +:+ floor2 +:+ " floor")
  end.

Definition CheckCache (info : ServerInfo) (pingErr identifyErr : option string) : list Result :=
  match pingErr, identifyErr with
  | Some _, _ =>
      [mkResult "cache" StatusFail
         "unreachable; rate limiting would run on the per-process fallback and readiness would report degraded"]
  | None, Some _ => [mkResult "cache" StatusWarn "reachable, but INFO server did not report a version"]
  | None, None => [mkResult "cache" StatusOK (ServerInfo_String info); CheckCacheFloor info]
  end.

Definition CheckCompose (raw : string) (lookErr runErr : bool) : Result :=
  if lookErr then
    mkResult "docker compose" StatusSkip "docker is not on PATH, so the Compose floor was not checked"
  else if runErr then
    mkResult "docker compose" StatusFail
      "`docker compose version` failed; the Compose plugin may not be installed"
  else
    let raw := TrimSpace raw in
    match ParseVersion raw with
    | None =>
        mkResult "docker compose" StatusFail
          ("could not parse the Compose version " +:+ Quote raw +:+ "; refusing to assume it meets the "
           +:+ floor3 +:+ " floor")
    | Some v =>
        if CompareVersion v ComposeFloor <? 0 then
          mkResult "docker compose" StatusFail
            (raw +:+ " is below the " +:+ floor3 +:+ " floor required for `!override`")
        else mkResult "docker compose" StatusOK raw
    end.

Definition CheckSearch (mode : string) (reachable : bool) : Result :=
  if mode =s SearchOff then mkResult "search" StatusOK "off (the M0 default)"
  else if negb reachable then
    mkResult "search" StatusFail
      ("VIZRA_SEARCH_MODE=" +:+ mode
       +:+ " but the service is unreachable or misconfigured; results would be served from SQL with readiness degraded")
  else mkResult "search" StatusOK (mode +:+ ", reachable").

Record OwnerClaimState := mkOwnerClaimState {
  LookupErr : bool;
  oc_Claimed : bool;
  TokenLive : bool;
  oc_Generation : Z
}.

Definition CheckOwnerClaim (st : OwnerClaimState) : Result :=
  if LookupErr st then
    mkResult "owner claim" StatusFail
      "could not read the owner-claim state; the database may be unreachable or the schema may be behind (`vizra migrate`)"
  else if oc_Claimed st then mkResult "owner claim" StatusOK "this instance has an owner"
  else if TokenLive st then
    mkResult "owner claim" StatusWarn
      ("unclaimed; a claim token is live (generation " +:+ Itoa (oc_Generation st)
       +:+ "). `vizra claim-token` mints a new one and invalidates it")
  else mkResult "owner claim" StatusWarn "unclaimed and no token is live; run `vizra claim-token` to mint one".

Definition CheckPublicOrigin (raw normalized : string) (production : bool) : Result :=
  if raw =s "" then mkResult "public origin" StatusSkip "no VIZRA_PUBLIC_ORIGIN is configured"
  else if normalized =s "" then
    mkResult "public origin" StatusFail
      "VIZRA_PUBLIC_ORIGIN cannot be compared with a browser Origin header; write an internationalised host in its A-label (punycode) form"
  else if raw <>s normalized then
    mkResult "public origin" StatusWarn
      ("configured as " +:+ Quote raw +:+ "; browsers send " +:+ Quote normalized
       +:+ ", which is what the claim page is checked against")
  else if HasPrefix normalized "http://" && production then
    mkResult "public origin" StatusWarn
      (normalized +:+ " is plain http in production; the claim token would cross the network in clear")
  else mkResult "public origin" StatusOK normalized.

End Verdicts.

(** ** Reporting *)

Record Counts := mkCounts { Total : Z; Failed : Z; Skipped : Z; Warned : Z }.

Definition count_result (c : Counts) (r : Result) : Counts :=
  if RStatus r =s StatusFail then mkCounts (Total c) (Failed c + 1) (Skipped c) (Warned c)
  else if RStatus r =s StatusSkip then mkCounts (Total c) (Failed c) (Skipped c + 1) (Warned c)
  else if RStatus r =s StatusWarn then mkCounts (Total c) (Failed c) (Skipped c) (Warned c + 1)
  else c.

Definition Summarise (rs : list Result) : Counts :=
  fold_left count_result rs (mkCounts (Z.of_nat (length rs)) 0 0 0).

Definition ExitCode (rs : list Result) : Z := if 0 <? Failed (Summarise rs) then 1 else 0.

Definition result_line (r : Result) : string :=
  pad_right 6 (RStatus r) +:+ " " +:+ pad_right 22 (Name r) +:+ " " +:+ Detail r +:+ newline.

(** What is written, and the error that makes the process exit with 1. *)
Definition Report (rs : list Result) : string * option string :=
  let c := Summarise rs in
  (String.concat "" (map result_line rs) +:+ newline +:+ Itoa (Total c) +:+ " check(s): "
   +:+ Itoa (Failed c) +:+ " failed, " +:+ Itoa (Skipped c) +:+ " not run." +:+ newline,
   if 0 <? Failed c then Some ("vizra doctor: " +:+ Itoa (Failed c) +:+ " check(s) failed")%string else None).

(** ** Collecting *)

Section Command.
Context `{HU : Unicode, HN : NetUrl, HW : UrlPrint, HQ : Printable}.

Definition core_site (c : Config) : Origin.Site :=
  Origin.mkSite (cfg_SiteHandle c) (cfg_PublicOrigin c) (cfg_DatabaseURL c) (cfg_CacheNamespace c) (cfg_StoragePrefix c).

(** The probes over pools [P] and cache handles [K]; a ping that is answered is
    [None].  The probe of the owner claim and the raw origin may be nil. *)
Record probes (P K : Type) := mkProbes {
  loadConfig : option Config * option ConfigError;
  compose : Result;
  openPools : Resolver -> result string P;
  pool_Ping : P -> option string;
  serverVersion : P -> result string string;
  schema : P -> result string Status;
  openCache : Config -> result string K;
  cache_Ping : K -> option string;
  cache_Identify : K -> ServerInfo * option string;
  searchReachable : Config -> bool;
  ownerClaim : option (P -> OwnerClaimState);
  rawPublicOrigin : option string
}.
Arguments loadConfig {P K} _.
Arguments compose {P K} _.
Arguments openPools {P K} _ _.
Arguments pool_Ping {P K} _ _.
Arguments serverVersion {P K} _ _.
Arguments schema {P K} _ _.
Arguments openCache {P K} _ _.
Arguments cache_Ping {P K} _ _.
Arguments cache_Identify {P K} _ _.
Arguments searchReachable {P K} _ _.
Arguments ownerClaim {P K} _.
Arguments rawPublicOrigin {P K} _.

Context {P K : Type}.

(** The checks of a pool that answered. *)
Definition database_checks (p : probes P K) (pool : P) : list Result :=
  (match serverVersion p pool with Ok v => [mkResult "database version" StatusOK v] | Err _ => [] end)
  ++ [match schema p pool with
      | Err e => mkResult "schema" StatusFail e
      | Ok st => CheckSchema st
      end]
  ++ [match ownerClaim p with
      | None => mkResult "owner claim" StatusSkip "no owner-claim probe was configured"
      | Some ask => CheckOwnerClaim (ask pool)
      end].

Definition collect_database (p : probes P K) (c : Config) : list Result :=
  match openPools p (NewResolver (core_site c)) with
  | Err e => [mkResult "database" StatusFail ("could not open a connection pool: " +:+ e)]
  | Ok pool =>
      CheckDatabase (pool_Ping p pool)
      :: match pool_Ping p pool with None => database_checks p pool | Some _ => [] end
  end.

Definition collect_cache (p : probes P K) (c : Config) : list Result :=
  match openCache p c with
  | Err e => [mkResult "cache" StatusFail e]
  | Ok k =>
      let '(info, idErr) := match cache_Ping p k with
                            | None => cache_Identify p k
                            | Some _ => (mkServerInfo "" "", None)
                            end in
      CheckCache info (cache_Ping p k) idErr
  end.

Definition collect (p : probes P K) : list Result :=
  let '(cfg, err) := loadConfig p in
  CheckConfig cfg err ++ [compose p]
  ++ match cfg with
     | None => []
     | Some c =>
         collect_database p c ++ collect_cache p c
         ++ [CheckPublicOrigin (match rawPublicOrigin p with Some raw => raw | None => cfg_PublicOrigin c end)
               (cfg_PublicOrigin c) (cfg_Mode c =s ModeProduction);
             CheckSearch (cfg_SearchMode c) (searchReachable p c)]
     end.

End Command.

Arguments loadConfig {P K} _.
Arguments compose {P K} _.
Arguments openPools {P K} _ _.
Arguments pool_Ping {P K} _ _.
Arguments serverVersion {P K} _ _.
Arguments schema {P K} _ _.
Arguments openCache {P K} _ _.
Arguments cache_Ping {P K} _ _.
Arguments cache_Identify {P K} _ _.
Arguments searchReachable {P K} _ _.
Arguments ownerClaim {P K} _.
Arguments rawPublicOrigin {P K} _.

(** ** The probes of the command *)

(** What the host, the database and the cache answer while the command runs.
    The two statements on the owner claim may meet different states. *)
Record World (P : Type) := mkWorld {
  w_environ : Lookup;
  w_files : string -> result string string;
  w_docker : bool;
  w_compose : option string;
  w_ping : P -> option string;
  w_version : P -> result string string;
  w_ledger : P -> result string (Z * bool);
  w_users : P -> result string Db;
  w_token : P -> result string Db;
  w_now : timestamp;
  w_cache_ping : option string;
  w_info : result string string;
  w_search : CallEnv
}.
Arguments w_environ {P} _.
Arguments w_files {P} _ _.
Arguments w_docker {P} _.
Arguments w_compose {P} _.
Arguments w_ping {P} _ _.
Arguments w_version {P} _ _.
Arguments w_ledger {P} _ _.
Arguments w_users {P} _ _.
Arguments w_token {P} _ _.
Arguments w_now {P} _.
Arguments w_cache_ping {P} _.
Arguments w_info {P} _.
Arguments w_search {P} _.

Section Real.
Context `{HU : Unicode, HN : NetUrl, HW : UrlPrint, HQ : Printable, HR : NewRequest, HC : Redis}.
Context {P : Type} `{HD : PgxPool P}.
Context (entries : list string).

(** The text of a migration error is not read by a check. *)
Context (migrate_text : MigrateError -> string).

Definition composeCheck (w : World P) : Result :=
  if negb (w_docker w) then CheckCompose "" true false
  else match w_compose w with
       | Some out => CheckCompose out false false
       | None => CheckCompose "" false true
       end.

Definition realOwnerClaim (w : World P) (pool : P) : OwnerClaimState :=
  match w_users w pool with
  | Err _ => mkOwnerClaimState true false false 0
  | Ok users_db =>
      match w_token w pool with
      | Err _ => mkOwnerClaimState true false false 0
      | Ok token_db =>
          let s := State (w_now w) token_db in
          mkOwnerClaimState false (AnyUserExists users_db) (Live s) (Generation s)
      end
  end.

(** [realProbes]: the pool is the default one of the opened pools. *)
Definition realProbes (w : World P) (envFile : string) : probes (option P) Client :=
  let source := envSource (w_environ w) (w_files w) envFile in
  {| loadConfig :=
       match source with
       | Err e => (None, Some (OtherError e))
       | Ok l => match LoadFrom l with
                 | Ok c => (Some c, None)
                 | Err ps => (None, Some (Validation ps))
                 end
       end;
     compose := composeCheck w;
     openPools := fun r => match Open r with
                           | Ok p => Ok (Default (Some p))
                           | Err (e, _) => Err e
                           end;
     pool_Ping := Ping (w_ping w);
     serverVersion := fun p => match p with Some q => w_version w q | None => Err ""%string end;
     schema := fun p =>
       match EmbeddedVersion entries with
       | Err e => Err (migrate_text e)
       | Ok embedded => Ok (Probe (match p with Some q => Some (w_ledger w q) | None => None end) embedded)
       end;
     openCache := fun c => cache_Open (cfg_CacheURL c) (cfg_CacheNamespace c);
     cache_Ping := fun _ => w_cache_ping w;
     cache_Identify := fun _ => Identify (w_info w);
     searchReachable := fun c =>
       if cfg_SearchMode c =s SearchOff then false
       else (Health (w_search w)
               (NewService SQLSearcher (Some (NewRemote (cfg_SearchURL c) (cfg_SearchHMACKey c))))).1 =s HealthOK;
     ownerClaim := Some (fun p => match p with
                                  | Some q => realOwnerClaim w q
                                  | None => mkOwnerClaimState true false false 0
                                  end);
     rawPublicOrigin := Some match source with
                             | Err _ => ""%string
                             | Ok l => match l "VIZRA_PUBLIC_ORIGIN"%string with Some v => v | None => ""%string end
                             end |}.

(** [runDoctor]: the flags, then the report; an error is exit code 1. *)
Definition runDoctor (w : World P) (args : list string) : result FlagError (string * option string) :=
  match Parse_flags args [("env", FlagString "")]%string with
  | Err e => Err e
  | Ok (_, fs) =>
      let envFile := match map_get "env" fs with Some (FlagString f) => f | _ => ""%string end in
      Ok (Report (collect (realProbes w envFile)))
  end.

End Real.

(** ** When the command passes *)

Definition passes (r : Result) : bool := RStatus r <>s StatusFail.

Lemma failed_count rs : forall c,
  Failed (fold_left count_result rs c) = Failed c + Z.of_nat (length (List.filter (fun r => negb (passes r)) rs)).
Proof.
  induction rs as [|r rs IH]; intros c; simpl; [lia|]. rewrite IH. unfold count_result, passes.
  rewrite negb_involutive. destruct (RStatus r =s StatusFail); simpl; [lia|].
  destruct (RStatus r =s StatusSkip); [simpl; lia|]. by destruct (RStatus r =s StatusWarn).
Qed.

Lemma report_passes rs : (Report rs).2 = None <-> forallb passes rs = true.
Proof.
  unfold Report. cbn [snd]. unfold Summarise. rewrite failed_count. cbn [Failed].
  assert (Hf : forallb passes rs = true <-> length (List.filter (fun r => negb (passes r)) rs) = 0%nat).
  { induction rs as [|r rs IH]; simpl; [done|]. destruct (passes r); simpl; [done|]. by split. }
  rewrite Hf. destruct (Z.ltb_spec 0 (0 + Z.of_nat (length (List.filter (fun r => negb (passes r)) rs))));
    split; try done; lia.
Qed.

Lemma check_config_passes cfg err :
  forallb passes (CheckConfig cfg err) = true <-> err = None \/ err = Some (Validation []).
Proof.
  unfold CheckConfig. destruct err as [[[|p ps]|e]|]; simpl; [split; by auto|split; [done|by intros []]..|].
  destruct cfg; split; by auto.
Qed.

Lemma check_schema_passes st :
  passes (CheckSchema st) = true <->
  st_State st <> StateBehind /\ st_State st <> StateAhead /\ st_State st <> StateDirty.
Proof.
  unfold CheckSchema. destruct (String.eqb_spec (st_State st) StateCurrent) as [->|]; [by vm_compute|].
  destruct (String.eqb_spec (st_State st) StateBehind); [split; [done|tauto]|].
  destruct (String.eqb_spec (st_State st) StateAhead); [split; [done|tauto]|].
  destruct (String.eqb_spec (st_State st) StateDirty); [split; [done|tauto]|]. by split.
Qed.

Lemma probe_passes ledger embedded :
  passes (CheckSchema (Probe (Some ledger) embedded)) = true <->
  match ledger with
  | Ok (v, dirty) => dirty = false /\ v = embedded
  | Err msg => Contains msg "no rows" = false
  end.
Proof.
  rewrite check_schema_passes. destruct ledger as [[v []]|msg]; simpl.
  - split; [tauto|by intros []].
  - destruct (Z.ltb_spec v embedded), (Z.ltb_spec embedded v); simpl; try lia; split;
      (intros (? & ? & ?) || intros [? ?]); try done; try lia; split; (done || lia).
  - destruct (Contains msg "no rows"); simpl; split; try done; tauto.
Qed.

Section Passes.
Context `{HU : Unicode, HN : NetUrl, HW : UrlPrint, HQ : Printable, HR : NewRequest, HC : Redis}.
Context {P : Type} `{HD : PgxPool P}.
Context (entries : list string) (migrate_text : MigrateError -> string).

Lemma check_floor_passes info : passes (CheckCacheFloor info) = true <-> at_least (Version info) CacheFloor.
Proof.
  unfold CheckCacheFloor, at_least. destruct (ParseVersion (Version info)) as [v|];
    [|split; [done|by intros (? & ? & _)]].
  destruct (Z.ltb_spec (CompareVersion v CacheFloor) 0).
  - split; [done|]. intros (? & [= <-] & ?). lia.
  - split; [by exists v|done].
Qed.

Lemma compose_passes (w : World P) :
  passes (composeCheck w) = true <->
  (w_docker w = true -> exists out, w_compose w = Some out /\ at_least (TrimSpace out) ComposeFloor).
Proof.
  unfold composeCheck, CheckCompose. destruct (w_docker w); simpl; [|by split].
  destruct (w_compose w) as [out|]; [|split; [done|]; intros H; by destruct (H eq_refl) as (? & ? & _)].
  unfold at_least. destruct (ParseVersion (TrimSpace out)) as [v|] eqn:Hv.
  - destruct (Z.ltb_spec (CompareVersion v ComposeFloor) 0).
    + split; [done|]. intros H'. destruct (H' eq_refl) as (? & [= <-] & v' & Hv' & ?).
      rewrite Hv in Hv'. injection Hv' as <-. lia.
    + split; [|done]. intros _ _. by exists out; split; [|exists v].
  - split; [done|]. intros H'. destruct (H' eq_refl) as (? & [= <-] & v' & Hv' & _). congruence.
Qed.

Lemma cache_passes (w : World P) f c :
  forallb passes (collect_cache (realProbes entries migrate_text w f) c) = true <->
  ParseURL (cfg_CacheURL c) = true /\ w_cache_ping w = None
  /\ ((Identify (w_info w)).2 = None -> at_least (Version (Identify (w_info w)).1) CacheFloor).
Proof.
  unfold collect_cache. cbn [openCache cache_Ping cache_Identify realProbes]. unfold cache_Open.
  destruct (ParseURL (cfg_CacheURL c)); [|split; [done|by intros []]].
  destruct (w_cache_ping w); [split; [done|by intros (_ & ? & _)]|].
  destruct (Identify (w_info w)) as [info [e|]]; cbn; [by split|].
  rewrite andb_true_r, check_floor_passes. split; [tauto|]. intros (_ & _ & H). by apply H.
Qed.

Lemma owner_passes (w : World P) q :
  passes (CheckOwnerClaim (realOwnerClaim w q)) = true <->
  is_ok (w_users w q) = true /\ is_ok (w_token w q) = true.
Proof.
  unfold realOwnerClaim, CheckOwnerClaim. destruct (w_users w q), (w_token w q); cbn;
    try (split; [done|by intros []]). split; [done|]. intros _. by repeat case_match.
Qed.

Lemma search_passes mode reachable :
  passes (CheckSearch mode reachable) = true <-> mode = SearchOff \/ reachable = true.
Proof.
  unfold CheckSearch. destruct (String.eqb_spec mode SearchOff); [by split; auto|].
  destruct reachable; simpl; split; auto; by intros [].
Qed.

Lemma origin_passes raw n prod : n <> ""%string -> passes (CheckPublicOrigin raw n prod) = true.
Proof.
  intros Hn%String.eqb_neq. unfold CheckPublicOrigin. rewrite Hn. by repeat case_match.
Qed.

(** The database is reachable, its schema is not known to differ from the
    binary's, and the state of the owner claim can be read. *)
Definition database_well (w : World P) (c : Config) : Prop :=
  exists pools q embedded,
    Open (NewResolver (core_site c)) = Ok pools /\ Default (Some pools) = Some q /\ w_ping w q = None
    /\ EmbeddedVersion entries = Ok embedded
    /\ match w_ledger w q with
       | Ok (v, dirty) => dirty = false /\ v = embedded
       | Err msg => Contains msg "no rows" = false
       end
    /\ is_ok (w_users w q) = true /\ is_ok (w_token w q) = true.

Lemma database_passes (w : World P) f c :
  forallb passes (collect_database (realProbes entries migrate_text w f) c) = true <-> database_well w c.
Proof.
  unfold collect_database, database_well, database_checks.
  cbn [openPools pool_Ping serverVersion schema ownerClaim realProbes].
  destruct (Open (NewResolver (core_site c))) as [ps|[e cl]];
    [|split; [done|]; intros (? & ? & ? & ? & _); congruence].
  destruct (Default (Some ps)) as [q|] eqn:Hq;
    [|split; [done|]; intros (? & ? & ? & [= <-] & ? & _); congruence].
  cbn [Ping]. destruct (w_ping w q) eqn:Hp;
    [split; [done|]; intros (? & ? & ? & [= <-] & ? & ? & _); congruence|].
  destruct (EmbeddedVersion entries) as [em|er] eqn:He.
  - cbn [forallb CheckDatabase passes]. rewrite !forallb_app. cbn [forallb].
    rewrite !andb_true_r, !andb_true_iff, probe_passes, owner_passes. split.
    + intros (_ & _ & Hl & Hu & Ht). by exists ps, q, em.
    + intros (? & ? & ? & [= <-] & Hq' & ? & [= <-] & Hl & Hu & Ht). rewrite Hq in Hq'. injection Hq' as <-.
      repeat (split; [done|]). split; [by destruct (w_version w q)|done].
  - split.
    + cbn [forallb]. rewrite !forallb_app. by rewrite !andb_true_iff; cbn; intros (_ & _ & ? & _).
    + intros (? & ? & ? & _ & _ & _ & ? & _). congruence.
Qed.

(** C28. [vizra doctor] passes exactly when nothing it can see is broken: the
    environment, or the file of [--env], loads with the loader boot uses; a
    Compose that is installed is at its floor; the pools open and the default
    one answers; the schema version is the embedded one and clean (a ledger that
    cannot be read is reported as not checked); the owner-claim state can be
    read; the cache answers, and if it tells its version that is at the floor;
    and search is off or reachable.  Nothing else passes, and an unset or
    unreadable fact never counts as a pass but in the two places named. *)
Theorem doctor_passes_iff (w : World P) f :
  (Report (collect (realProbes entries migrate_text w f))).2 = None <->
  exists lookup c,
    envSource (w_environ w) (w_files w) f = Ok lookup /\ LoadFrom lookup = Ok c
    /\ (w_docker w = true -> exists out, w_compose w = Some out /\ at_least (TrimSpace out) ComposeFloor)
    /\ database_well w c
    /\ ParseURL (cfg_CacheURL c) = true /\ w_cache_ping w = None
    /\ ((Identify (w_info w)).2 = None -> at_least (Version (Identify (w_info w)).1) CacheFloor)
    /\ (cfg_SearchMode c = SearchOff
        \/ (Health (w_search w)
              (NewService SQLSearcher (Some (NewRemote (cfg_SearchURL c) (cfg_SearchHMACKey c))))).1 = HealthOK).
Proof.
  rewrite report_passes. unfold collect.
  destruct (envSource (w_environ w) (w_files w) f) as [l|e] eqn:Hl; cbn [loadConfig realProbes]; rewrite Hl;
    [|split; [done|]; by intros (? & ? & ? & _)].
  destruct (LoadFrom l) as [c|ps] eqn:Hc.
  - rewrite !forallb_app, !andb_true_iff, database_passes, cache_passes, check_config_passes.
    cbn [forallb compose searchReachable rawPublicOrigin realProbes].
    rewrite !andb_true_r, !andb_true_iff, compose_passes, search_passes, Hl.
    assert (Hor : forall raw b, passes (CheckPublicOrigin raw (cfg_PublicOrigin c) b) = true).
    { intros. apply origin_passes. apply LoadFrom_ok in Hc as (-> & _ & (Ho & Hn & _)%check_origin_ok & _).
      cbn [config_read cfg_PublicOrigin]. by rewrite Ho. }
    rewrite Hor.
    assert (Hs : cfg_SearchMode c = SearchOff \/
      (if cfg_SearchMode c =s SearchOff then false
       else (Health (w_search w)
               (NewService SQLSearcher (Some (NewRemote (cfg_SearchURL c) (cfg_SearchHMACKey c))))).1 =s HealthOK) = true
      <-> cfg_SearchMode c = SearchOff
        \/ (Health (w_search w)
              (NewService SQLSearcher (Some (NewRemote (cfg_SearchURL c) (cfg_SearchHMACKey c))))).1 = HealthOK).
    { destruct (String.eqb_spec (cfg_SearchMode c) SearchOff); [tauto|]. by rewrite String.eqb_eq. }
    rewrite Hs. split.
    + intros (_ & Hcmp & Hdb & (Hu & Hp & Hi) & _ & Hse). by exists l, c.
    + intros (l' & c' & [= <-] & Hc' & ? & ? & ? & ? & ? & ?). rewrite Hc in Hc'. injection Hc' as <-.
      by auto 10.
  - rewrite !forallb_app, andb_true_iff, check_config_passes. split.
    + intros ([?|Hp] & _); [done|]. injection Hp as ->. exfalso. revert Hc. unfold LoadFrom.
      destruct (problems l) as [|p ps'] eqn:Hps; [done|]. intros [= Hn].
      pose proof (sort_perm (p :: ps')) as Hperm. cbn [sort_problems] in Hperm. rewrite Hn in Hperm.
      by apply Permutation_nil in Hperm.
    + intros (l' & c' & [= <-] & ? & _). congruence.
Qed.

End Passes.

(** A version floor is decided by the version's parts in order, however long
    they are: a text parses exactly when it starts, after white space, with what
    the expression describes, a printed version (with or without the v) parses to
    its three numbers, and the comparison is the lexicographic one; so a printed
    version passes the Compose floor exactly when it is not below it. *)
Theorem version_floor_is_lexicographic :
  (forall s, ParseVersion s <> None <-> lang version_re (TrimSpace s))
  /\ (forall v a b c, (v = "v" \/ v = "")%string ->
        0 <= a <= max_int -> 0 <= b <= max_int -> 0 <= c <= max_int ->
        ParseVersion (print_version v a b c) = Some (a, b, c)
        /\ forall `{Printable},
           RStatus (CheckCompose (print_version v a b c) false false)
           = if match version_compare (a, b, c) ComposeFloor with Lt => true | _ => false end
             then StatusFail else StatusOK)
  /\ (forall x y, CompareVersion x y = match version_compare x y with Lt => -1 | Eq => 0 | Gt => 1 end).
Proof.
  split; [apply ParseVersion_some|]. split; [|apply CompareVersion_lex].
  intros v a b c Hv Ha Hb Hc. split; [by apply ParseVersion_print|]. intros HQ. unfold CheckCompose.
  rewrite print_version_trim by (done || lia). rewrite ParseVersion_print by done.
  rewrite CompareVersion_lex. by destruct (version_compare (a, b, c) ComposeFloor).
Qed.

(** ** The properties at work *)

(** The sample environment with a value-bearing escape hatch set to one space,
    and the same as a file. *)
Definition hatch_env : list (string * string) :=
  List.removelast sample_env ++ [("VIZRA_DEV_AUTOLOGIN_USER", " ")]%string.

Definition hatch_file : string := file_of (map (fun kv => kv.1 +:+ "=" +:+ kv.2) hatch_env).

(** Boot refuses the blank value; the reader of env files trims it away, so the
    checks of the file pass it. *)
Example env_file_hides_blank_hatch :
  match LoadFrom (HU := ascii_only) (HN := schemes) (HP := no_users) (fun k => map_get k hatch_env) with
  | Ok _ => False
  | Err ps => map p_Key ps = ["VIZRA_DEV_AUTOLOGIN_USER"%string]
  end
  /\ match envSource (fun _ => None) (fun _ => Ok hatch_file) "f" with
     | Err _ => False
     | Ok l => is_ok (LoadFrom (HU := ascii_only) (HN := schemes) (HP := no_users) l) = true
     end.
Proof. vm_compute. split; reflexivity. Qed.
