(* ===== verification/HttpServer.v ===== *)
(** * The HTTP server (src/internal/httpapi/server.go, middleware.go, probes.go,
    src/internal/buildinfo/buildinfo.go)

    A request through the whole chain: the request id, the hardening headers,
    the site of the Host header, the guard of an unclaimed instance, the router
    and the six handlers, and the error handler that renders what any of them
    returns.  The router is a parameter: a handler of this server, or its own
    refusal. *)

From S2P Require Import Prelude Utf8 Regex GoStrings GoTime GoFmt Pg OwnerStore AuditLog OwnerClaim Limiter Origin Config Search Probes Migrate Stores ClaimHttp.

(** ** Build facts *)

Record BuildInfo := mkBuildInfo {
  Release : string;
  Commit : string;
  BuiltAt : string;
  ImageDigest : string;
  LibvipsVersion : string;
  libvipsLoaders : string;
  GoVersion : string;
  BuildDeps : list (string * string)
}.

Definition Loaders (b : BuildInfo) : list string :=
  if libvipsLoaders b =s "" then []
  else List.filter (fun p => p <>s "") (map TrimSpace (Split "," (libvipsLoaders b))).

Definition HasLibvips (b : BuildInfo) : bool := LibvipsVersion b <>s "".

(** ** Routes *)

Inductive Endpoint := Healthz | Readyz | VersionRoute | Schemaz | ClaimStatusRoute | ClaimOwnerRoute.

Definition apiV1Prefix : string := "/api/v1".

Definition Routes : list (string * string * Endpoint) :=
  [("GET", "/healthz", Healthz); ("GET", "/readyz", Readyz); ("GET", "/version", VersionRoute);
   ("GET", "/schemaz", Schemaz); ("GET", apiV1Prefix +:+ "/setup/claim-status", ClaimStatusRoute);
   ("POST", apiV1Prefix +:+ "/setup/claim-owner", ClaimOwnerRoute)]%string.

(** What the router answers for a method, a path and its raw form: one of the
    handlers, or its own error with a status. *)
Inductive RouteResult :=
| Matched (h : Endpoint)
| Refused (status : Z).

Class Router := find_route : string -> string -> string -> RouteResult.

(** The router serves what is registered. *)
Class RouterLaws `{Router} :=
  registered_found : forall m p h, List.In (m, p, h) Routes -> find_route m p "" = Matched h.

(** ** Errors *)

(** The errors of the chain: a coded one, [echo.NewHTTPError], an error that
    only answers its status, and any other. *)
Inductive ChainError :=
| CodedError (status : Z) (code message : string)
| HTTPError (status : Z) (message : string)
| StatusError (status : Z)
| PlainError.

Record errorDetail := mkErrorDetail { ed_Code : string; ed_Message : string; ed_RequestID : string }.

Definition StatusCode (e : ChainError) : Z :=
  match e with
  | CodedError s _ _ | HTTPError s _ | StatusError s => if s =? 0 then 500 else s
  | PlainError => 500
  end.

Definition internal_message : string := "an internal error occurred".

Definition render_error (reqID : string) (e : ChainError) : Z * errorDetail :=
  let status := StatusCode e in
  match e with
  | CodedError _ code message =>
      (status, mkErrorDetail code (if status <? 500 then message else internal_message) reqID)
  | _ =>
      let message :=
        if status <? 500 then
          match e with
          | HTTPError _ m => if m <>s "" then m else httpCodeName status
          | _ => httpCodeName status
          end
        else internal_message in
      (status, mkErrorDetail (httpCodeName status) message reqID)
  end.

(** ** Responses *)

Record versionResponse := mkVersion {
  vr_Release : string; vr_Commit : string; vr_BuiltAt : string; vr_GoVersion : string;
  vr_ImageDigest : option string; vr_Libvips : option (string * list string);
  vr_SchemaVersion : Z; vr_Modules : gmap string string
}.

Inductive Payload :=
| PHealth (status : string)
| PReadiness (r : readinessResponse)
| PVersion (v : versionResponse)
| PSchema (st : Status)
| PSetup (members : list (string * string))
| PError (d : errorDetail).

Definition Headers := gmap string string.

Record HttpResponse := mkHttpResponse { hr_Status : Z; hr_Headers : Headers; hr_Body : Payload }.

Definition headerRequestID : string := "X-Request-Id".

(** ** The server *)

Record HttpServer {Cache : Type} := mkHttpServer {
  hs_draining : bool;
  hs_deps : Deps;
  hs_readiness : readinessCache;
  hs_setup : Server Cache;
  hs_resolver : Resolver;
  hs_embedded : Z
}.
Arguments HttpServer : clear implicits.
Arguments mkHttpServer {Cache}.

Definition Drain {Cache} (s : HttpServer Cache) : HttpServer Cache :=
  mkHttpServer true (hs_deps s) (hs_readiness s) (hs_setup s) (hs_resolver s) (hs_embedded s).

Definition Draining {Cache} (s : HttpServer Cache) : bool := hs_draining s.

(** The seams [New] fills in: a ping of the default pool, or the error that
    there is none; the readiness cache lives two seconds. *)
Definition default_PingDatabase {P} (ask : P -> bool -> option string) (ps : option (Pools P)) : bool -> bool :=
  fun ended => match ps with
               | None => false
               | Some _ => match Ping (fun q => ask q ended) (Default ps) with None => true | Some _ => false end
               end.

Definition default_PingCache {K} (ask : K -> bool -> option string) (c : option K) : bool -> bool :=
  fun ended => match c with
               | None => false
               | Some k => match ask k ended with None => true | Some _ => false end
               end.

Definition or_default {A} (o : option A) (d : A) : A := match o with Some a => a | None => d end.

(** [New]: the given seams, or the default ones. *)
Definition New {P Cache} (ask : P -> bool -> option string) (ask_cache : bool -> option string)
    (ps : option (Pools P)) (pingDatabase pingCache : option (bool -> bool)) (has_cache : bool)
    (d : Deps) (zero : readinessResponse) (setup : Server Cache) (r : Resolver) (embedded : Z)
    : HttpServer Cache :=
  let d := mkDeps (d_Config d)
             (or_default pingDatabase (default_PingDatabase ask ps))
             (or_default pingCache (default_PingCache (fun _ => ask_cache) (if has_cache then Some tt else None)))
             (d_OwnerClaimDegraded d) (d_Limiter d) (d_Search d) (d_QueueSnapshot d) in
  mkHttpServer false d (newReadinessCache (2 * Second) zero) setup r embedded.

(** ** Requests *)

(** A request as it arrives: its Host, its raw path, the request-id header, and
    what the handlers read. *)
Record HttpRequest := mkHttpRequest {
  hq_Host : string;
  hq_RawPath : string;
  hq_RequestIDHeader : string;
  hq_request : Request
}.

(** What a request meets outside the server: a fresh identifier, the state of
    its context, the clocks of the readiness cache, the search call, the ledger,
    and what the setup handlers meet. *)
Record HttpEnv := mkHttpEnv {
  he_uuid : option string;
  he_ended : bool;
  he_now : Z;
  he_computed : Z;
  he_search : CallEnv;
  he_ledger : option (result string (Z * bool));
  he_build : BuildInfo;
  he_setup : Env
}.

(** [uuid.Parse] of the client's identifier. *)
Class UuidParse := uuid_accepted : string -> bool.

Definition requestID `{UuidParse} (env : HttpEnv) (header : string) : string :=
  if uuid_accepted header then header
  else match he_uuid env with Some v => v | None => ""%string end.

Definition securityHeaders (h : Headers) : Headers :=
  <["Cache-Control"%string := "no-store"%string]>
    (<["Cross-Origin-Resource-Policy"%string := "same-origin"%string]>
       (<["Referrer-Policy"%string := "no-referrer"%string]>
          (<["X-Content-Type-Options"%string := "nosniff"%string]> h))).

Definition with_request_id (id : string) (r : Request) : Request :=
  mkRequest (Method r) (Path r) (ContentType r) (MediaType r) (OriginHeader r) (SecFetchSite r)
    (XForwardedFor r) (Forwarded r) (RemoteAddr r) id (ReqBody r) (BodyFails r).

(** What readiness reads: the limiter is the one the setup handlers use. *)
Definition ready_deps {Cache} (s : HttpServer Cache) : Deps :=
  let d := hs_deps s in
  mkDeps (d_Config d) (d_PingDatabase d) (d_PingCache d) (d_OwnerClaimDegraded d) (limiter (hs_setup s))
    (d_Search d) (d_QueueSnapshot d).

Section Serve.
Context `{HU : Unicode, HN : NetUrl, HO : OwnerStore.Server, HR : NewRequest, HI : UuidParse, HT : Router}.
Context {Addr : Type} `{HA : Netip Addr} {Cache : Type} `{HC : WindowCounter Cache}.
Context (PublicOrigin : string).

Definition set_setup (st : Server Cache) (s : HttpServer Cache) : HttpServer Cache :=
  mkHttpServer (hs_draining s) (hs_deps s) (hs_readiness s) st (hs_resolver s) (hs_embedded s).

(** An answer of the setup handlers: their own errors are already rendered. *)
Definition setup_payload (reqID : string) (a : Answer) : Z * Payload :=
  match a with
  | Success status body => (status, PSetup body)
  | Failure status code message => (status, PError (mkErrorDetail code message reqID))
  end.

Definition handleVersion (b : BuildInfo) (embedded : Z) : versionResponse :=
  mkVersion (Release b) (Commit b) (BuiltAt b) (GoVersion b)
    (if ImageDigest b <>s "" then Some (ImageDigest b) else None)
    (if HasLibvips b then Some (LibvipsVersion b, Loaders b) else None)
    embedded (moduleVersions (BuildDeps b)).

Definition handleSchemaz (ledger : option (result string (Z * bool))) (embedded : Z) : Status :=
  Probe ledger embedded.

(** The handlers. *)
Definition handle (env : HttpEnv) (site : Origin.Site) (r : Request) (h : Endpoint) (s : HttpServer Cache)
    : Z * Payload * HttpServer Cache :=
  match h with
  | Healthz => let '(code, status) := handleHealthz (Draining s) in (code, PHealth status, s)
  | Readyz =>
      let '(code, resp, cache', deps') :=
        handleReadyz (Draining s) (ready_deps s) (he_search env) (he_ended env) (he_now env) (he_computed env)
          (hs_readiness s) in
      (code, PReadiness resp,
       mkHttpServer (hs_draining s) deps' cache' (hs_setup s) (hs_resolver s) (hs_embedded s))
  | VersionRoute => (200, PVersion (handleVersion (he_build env) (hs_embedded s)), s)
  | Schemaz => (200, PSchema (handleSchemaz (he_ledger env) (hs_embedded s)), s)
  | ClaimStatusRoute =>
      let '(a, st) := handleClaimStatus site (he_setup env) (hs_setup s) in
      (setup_payload (RequestID r) a, set_setup st s)
  | ClaimOwnerRoute =>
      let '(a, st) := handleClaimOwner site PublicOrigin (he_setup env) r (hs_setup s) in
      (setup_payload (RequestID r) a, set_setup st s)
  end.

Definition error_payload (reqID : string) (e : ChainError) : Z * Payload :=
  let '(status, d) := render_error reqID e in (status, PError d).

(** The router's choice, behind the guard. *)
Definition routed (env : HttpEnv) (site : Origin.Site) (q : HttpRequest) (r : Request) (s : HttpServer Cache)
    : Z * Payload * HttpServer Cache :=
  match find_route (Method r) (Path r) (hq_RawPath q) with
  | Matched h => handle env site r h s
  | Refused status => (error_payload (RequestID r) (StatusError status), s)
  end.

Definition guarded (env : HttpEnv) (site : Origin.Site) (q : HttpRequest) (r : Request) (s : HttpServer Cache)
    : Z * Payload * HttpServer Cache :=
  if one_of (Method r +:+ " " +:+ Path r) claimExemptRoutes then routed env site q r s
  else match instanceClaimed (he_setup env) (hs_setup s) with
       | (None, st) =>
           (error_payload (RequestID r) (CodedError 503 "unavailable" "the instance state could not be read"),
            set_setup st s)
       | (Some false, st) =>
           (error_payload (RequestID r)
              (CodedError 403 "instance_unclaimed"
                 "this instance has no owner yet; every other route is refused until it is claimed"),
            set_setup st s)
       | (Some true, st) => routed env site q r (set_setup st s)
       end.

(** One request. *)
Definition serve (env : HttpEnv) (q : HttpRequest) (s : HttpServer Cache) : HttpResponse * HttpServer Cache :=
  let reqID := requestID env (hq_RequestIDHeader q) in
  let headers := securityHeaders {[headerRequestID := reqID]} in
  let r := with_request_id reqID (hq_request q) in
  match ByHost (hs_resolver s) (hq_Host q) with
  | None =>
      let '(status, body) := error_payload reqID (HTTPError 404 "unknown site") in
      (mkHttpResponse status headers body, s)
  | Some site =>
      let '(status, body, s') := guarded env site q r s in
      (mkHttpResponse status headers body, s')
  end.

End Serve.

(** ** Properties *)

(** Rendered by the error handler, or a success. *)
Definition rendered (a : Answer) : Prop :=
  match a with
  | Success _ _ => True
  | Failure status _ message => 500 <= status -> message = internal_message
  end.

Lemma errorHandler_rendered e : rendered (errorHandler e).
Proof. destruct e as [status code message|]; simpl; [|done]. destruct (Z.ltb_spec status 500); [lia|done]. Qed.

Lemma render_error_internal reqID e :
  ed_RequestID (render_error reqID e).2 = reqID
  /\ (500 <= (render_error reqID e).1 -> ed_Message (render_error reqID e).2 = internal_message).
Proof.
  unfold render_error. cbv zeta. destruct e; cbn [fst snd ed_RequestID ed_Message]; (split; [done|]);
    intros H; by rewrite (proj2 (Z.ltb_ge _ _)) by lia.
Qed.

(** The routes the guard lets through are the registered ones. *)
Lemma exempt_iff key :
  one_of key claimExemptRoutes = true <-> exists m p h, List.In (m, p, h) Routes /\ key = m +:+ " " +:+ p.
Proof.
  rewrite one_of_spec. split.
  - intros Hin. assert (Hr : List.In key (map (fun r => r.1.1 +:+ " " +:+ r.1.2) Routes)) by exact Hin.
    apply in_map_iff in Hr as ([[m p] h] & <- & Hin'). by exists m, p, h.
  - intros (m & p & h & Hin & ->).
    change claimExemptRoutes with (map (fun r => r.1.1 +:+ " " +:+ r.1.2) Routes).
    by apply (in_map (fun r : string * string * Endpoint => r.1.1 +:+ " " +:+ r.1.2)) in Hin.
Qed.

(** A text with one space has one reading as two words. *)
Definition one_word (s : string) : bool := sall (fun c => negb (Ascii.eqb c " ")) s.

Lemma two_words a b m p :
  a +:+ " " +:+ b = m +:+ " " +:+ p -> one_word m = true -> one_word p = true -> a = m /\ b = p.
Proof.
  unfold one_word. revert m. induction a as [|x a IH]; intros [|y m] He Hm Hp; autorewrite with str in He; cbn in Hm.
  - by injection He.
  - injection He as <- _. discriminate Hm.
  - injection He as -> <-. rewrite !sall_app in Hp. by destruct (sall _ a).
  - injection He as -> He. apply andb_true_iff in Hm as [_ Hm]. by destruct (IH m He Hm Hp) as [-> ->].
Qed.

Lemma exempt_route m p : one_of (m +:+ " " +:+ p) claimExemptRoutes = true -> exists h, List.In (m, p, h) Routes.
Proof.
  intros (m' & p' & h & Hin & Hk)%exempt_iff. exists h.
  assert (Hw : forallb (fun r => one_word r.1.1 && one_word r.1.2) Routes = true) by (vm_compute; reflexivity).
  rewrite forallb_forall in Hw. pose proof (Hw _ Hin) as [Hm Hp]%andb_true_iff. cbn [fst snd] in Hm, Hp.
  by destruct (two_words _ _ _ _ Hk Hm Hp) as [-> ->].
Qed.

Section ServeProperties.
Context `{HU : Unicode, HN : NetUrl, HO : OwnerStore.Server, HR : NewRequest, HI : UuidParse, HT : Router}.
Context {Addr : Type} `{HA : Netip Addr} {Cache : Type} `{HC : WindowCounter Cache}.
Context (PublicOrigin : string).

Lemma claim_status_rendered site e (s : Server Cache) : rendered (handleClaimStatus site e s).1.
Proof. unfold handleClaimStatus. repeat case_match; (exact I || apply errorHandler_rendered). Qed.

Lemma claim_owner_rendered site e r (s : Server Cache) : rendered (handleClaimOwner site PublicOrigin e r s).1.
Proof. unfold handleClaimOwner. repeat case_match; (exact I || apply errorHandler_rendered). Qed.

(** What a payload may say: an error carries the request id and, from 500 on,
    nothing but the fixed message. *)
Definition discreet (reqID : string) (a : Z * Payload) : Prop :=
  forall d, a.2 = PError d -> ed_RequestID d = reqID /\ (500 <= a.1 -> ed_Message d = internal_message).

Lemma setup_discreet reqID a : rendered a -> discreet reqID (setup_payload reqID a).
Proof. intros Ha d. destruct a; cbn; [done|]. by intros [= <-]. Qed.

Lemma error_discreet reqID e : discreet reqID (error_payload reqID e).
Proof.
  intros d. unfold error_payload. pose proof (render_error_internal reqID e) as Hr.
  destruct (render_error reqID e) as [status x]. cbn in *. by intros [= <-].
Qed.

Lemma handle_discreet env site r h (s : HttpServer Cache) :
  discreet (RequestID r) (handle PublicOrigin env site r h s).1.
Proof.
  unfold handle. destruct h.
  - by destruct (handleHealthz _).
  - by destruct (handleReadyz _ _ _ _ _ _ _) as [[[code resp] c] d].
  - done.
  - done.
  - pose proof (claim_status_rendered site (he_setup env) (hs_setup s)) as Hr.
    destruct (handleClaimStatus _ _ _). by apply setup_discreet.
  - pose proof (claim_owner_rendered site (he_setup env) r (hs_setup s)) as Hr.
    destruct (handleClaimOwner _ _ _ _ _). by apply setup_discreet.
Qed.

Lemma guarded_discreet env site q r (s : HttpServer Cache) :
  discreet (RequestID r) (guarded PublicOrigin env site q r s).1.
Proof.
  assert (Hrt : forall s, discreet (RequestID r) (routed PublicOrigin env site q r s).1).
  { intros s'. unfold routed. destruct (find_route _ _ _); [apply handle_discreet|apply error_discreet]. }
  unfold guarded. destruct (one_of _ _); [apply Hrt|].
  destruct (instanceClaimed _ _) as [[[]|] st]; [apply Hrt|apply error_discreet..].
Qed.

(** C32. Every answer of the server is hardened, whichever part of the chain
    produced it: it carries nosniff, no-referrer, same-origin and no-store, and
    the request id, which is the client's own only if it parses as a UUID; an
    error names that id, and from 500 on says nothing but the fixed message. *)
Theorem every_answer_is_hardened env q (s : HttpServer Cache) :
  let resp := (serve PublicOrigin env q s).1 in
  let id := requestID env (hq_RequestIDHeader q) in
  (id = hq_RequestIDHeader q /\ uuid_accepted id = true \/ Some id = he_uuid env \/ id = ""%string)
  /\ hr_Headers resp !! headerRequestID = Some id
  /\ hr_Headers resp !! "X-Content-Type-Options"%string = Some "nosniff"%string
  /\ hr_Headers resp !! "Referrer-Policy"%string = Some "no-referrer"%string
  /\ hr_Headers resp !! "Cross-Origin-Resource-Policy"%string = Some "same-origin"%string
  /\ hr_Headers resp !! "Cache-Control"%string = Some "no-store"%string
  /\ (forall d, hr_Body resp = PError d ->
        ed_RequestID d = id /\ (500 <= hr_Status resp -> ed_Message d = internal_message)).
Proof.
  cbv zeta. split.
  { unfold requestID. destruct (uuid_accepted (hq_RequestIDHeader q)) eqn:Hu; [by left|].
    destruct (he_uuid env); auto. }
  unfold serve. cbv zeta. set (id := requestID env (hq_RequestIDHeader q)).
  destruct (ByHost (hs_resolver s) (hq_Host q)) as [site|].
  - pose proof (guarded_discreet env site q (with_request_id id (hq_request q)) s) as Hd.
    destruct (guarded _ _ _ _ _ _) as [[status body] s']. cbn [fst hr_Headers hr_Body hr_Status].
    unfold securityHeaders, headerRequestID. split_and!; [by simplify_map_eq..|]. exact Hd.
  - pose proof (error_discreet id (HTTPError 404 "unknown site")) as Hd.
    destruct (error_payload _ _) as [status body]. cbn [fst hr_Headers hr_Body hr_Status].
    unfold securityHeaders, headerRequestID. split_and!; [by simplify_map_eq..|]. exact Hd.
Qed.

(** C7. An unclaimed instance shows nothing but its probes and the two setup
    endpoints.  For a request of a known site: either its method and decoded path
    are those of a registered route, and then the registered handler answers it,
    except that a percent-encoded spelling of such a path, which has a raw form,
    is the router's to match, and gets a handler or the router's own error, which
    changes nothing; or the instance is known to have an owner, remembered or
    looked up now, and the router decides; or the answer is 403
    instance_unclaimed, 503 when the state could not be read, and neither the
    database nor readiness changed.  Every other not-found answer of the router is
    behind the guard. *)
Theorem unclaimed_surface `{HL : !RouterLaws} env q (s : HttpServer Cache) site :
  ByHost (hs_resolver s) (hq_Host q) = Some site ->
  let '(resp, s') := serve PublicOrigin env q s in
  let r := with_request_id (requestID env (hq_RequestIDHeader q)) (hq_request q) in
  (exists h, List.In (Method r, Path r, h) Routes
     /\ ((exists h', handle PublicOrigin env site r h' s = (hr_Status resp, hr_Body resp, s')
             /\ (hq_RawPath q = ""%string -> h' = h))
         \/ hq_RawPath q <> ""%string /\ s' = s
            /\ exists status, find_route (Method r) (Path r) (hq_RawPath q) = Refused status
                 /\ error_payload (RequestID r) (StatusError status) = (hr_Status resp, hr_Body resp)))
  \/ (cc_claimed (claimed (hs_setup s)) = true \/ e_lookup (he_setup env) = Some true)
     /\ (exists st, store st = store (hs_setup s) /\ cc_claimed (claimed st) = true
           /\ routed PublicOrigin env site q r (set_setup st s) = (hr_Status resp, hr_Body resp, s'))
  \/ cc_claimed (claimed (hs_setup s)) = false
     /\ store (hs_setup s') = store (hs_setup s) /\ hs_readiness s' = hs_readiness s /\ hs_deps s' = hs_deps s
     /\ (hr_Status resp = 403
         /\ hr_Body resp = PError (mkErrorDetail "instance_unclaimed"
              "this instance has no owner yet; every other route is refused until it is claimed" (RequestID r))
         \/ hr_Status resp = 503 /\ e_lookup (he_setup env) = None).
Proof.
  intros Hsite. unfold serve. cbv zeta. rewrite Hsite.
  set (r := with_request_id _ _). unfold guarded.
  destruct (one_of (Method r +:+ " " +:+ Path r) claimExemptRoutes) eqn:He.
  - destruct (routed PublicOrigin env site q r s) as [[status body] s'] eqn:Hr. left. cbn [hr_Status hr_Body].
    apply exempt_route in He as [h Hin]. exists h. split; [done|]. unfold routed in Hr.
    destruct (find_route _ _ _) as [h'|code] eqn:Hf.
    + left. exists h'. split; [done|]. intros Hraw. rewrite Hraw, (registered_found _ _ h Hin) in Hf. congruence.
    + right. destruct (String.eqb_spec (hq_RawPath q) "") as [Hraw|Hraw].
      { rewrite Hraw, (registered_found _ _ h Hin) in Hf. congruence. }
      split; [done|]. destruct (error_payload _ _) as [c d] eqn:Hp. injection Hr as <- <- <-. split; [done|]. by exists code.
  - pose proof (instanceClaimed_spec (he_setup env) (hs_setup s)) as (Hst & _ & Hc).
    destruct (instanceClaimed (he_setup env) (hs_setup s)) as [[[]|] st]; cbn [fst snd] in *.
    + destruct (routed PublicOrigin env site q r (set_setup st s)) as [[status body] s'] eqn:Hr.
      right. left. split; [tauto|]. exists st. split; [done|]. split; [tauto|done].
    + unfold error_payload, render_error. cbn -[Routes]. right. right.
      split; [tauto|]. split; [done|]. split; [done|]. split; [done|]. by left.
    + unfold error_payload, render_error. cbn -[Routes]. right. right. destruct Hc as [Hl Hf].
      split; [done|]. split; [done|]. split; [done|]. split; [done|]. by right.
Qed.

(** A draining server turns its probes red, whatever its dependencies say. *)
Lemma draining_probes_are_red `{HL : !RouterLaws} env q (s : HttpServer Cache) site p :
  ByHost (hs_resolver s) (hq_Host q) = Some site ->
  List.In p ["/healthz"; "/readyz"]%string -> Method (hq_request q) = "GET"%string ->
  Path (hq_request q) = p -> hq_RawPath q = ""%string ->
  hr_Status (serve PublicOrigin env q (Drain s)).1 = 503.
Proof.
  intros Hsite Hp Hm Hpath Hraw. unfold serve. cbv zeta. cbn [hs_resolver Drain]. rewrite Hsite.
  unfold guarded, routed. cbn [with_request_id Method Path]. rewrite Hm, Hpath, Hraw.
  destruct Hp as [<-|[<-|[]]].
  - assert (one_of ("GET" +:+ " " +:+ "/healthz") claimExemptRoutes = true) as -> by (by vm_compute).
    by rewrite (registered_found "GET" "/healthz" Healthz) by (left; done).
  - assert (one_of ("GET" +:+ " " +:+ "/readyz") claimExemptRoutes = true) as -> by (by vm_compute).
    by rewrite (registered_found "GET" "/readyz" Readyz) by (right; left; done).
Qed.

End ServeProperties.

(** ** The properties at work *)

(** A router that serves the registered routes and nothing else, matching on the
    raw path where there is one. *)
#[local] Instance table_router : Router := fun m p raw =>
  match List.find (fun r => (r.1.1 =s m) && (r.1.2 =s (if raw =s "" then p else raw))) Routes with
  | Some (_, h) => Matched h
  | None => Refused 404
  end.

#[local] Instance table_router_laws : RouterLaws.
Proof.
  intros m p h Hin. repeat (destruct Hin as [[= <- <- <-]|Hin]; [by vm_compute|]). destruct Hin.
Qed.

#[local] Existing Instance OwnerSystem.Samples.latin.
#[local] Existing Instance OwnerSystem.Samples.server.
#[local] Existing Instance HttpSamples.whole.
#[local] Existing Instance HttpSamples.no_addresses.
#[local] Instance any_search : NewRequest := fun _ => Ok "/"%string.
#[local] Instance no_ids : UuidParse := fun _ => false.

Definition sample_server : HttpServer MemoryLimiter :=
  mkHttpServer false (mkDeps None (fun _ => true) (fun _ => true) false None None None)
    (newReadinessCache (2 * Second) (mkReadiness "" [] 0))
    (HttpSamples.server cold empty_db) (NewResolver HttpSamples.site) 6.

Definition sample_env_http : HttpEnv :=
  mkHttpEnv (Some "id-1"%string) false 5 6 (mkCallEnv None 0 (fun _ => Err ""%string)) None
    (mkBuildInfo "dev" "unknown" "" "" "" "" "go1.25" []) (HttpSamples.env (Some false) (OwnerSystem.Samples.calm empty_db)).

Definition sample_http_request (m p : string) : HttpRequest :=
  mkHttpRequest "photos.example.org" "" "" (mkRequest m p "" None "" "" "" "" "" "" "" false).

Lemma unclaimed_surface_witness :
  hr_Status (serve "https://photos.example.org" sample_env_http
               (sample_http_request "GET" "/admin") sample_server).1 = 403.
Proof.
  pose proof (unclaimed_surface (HL := table_router_laws) "https://photos.example.org" sample_env_http
                (sample_http_request "GET" "/admin") sample_server HttpSamples.site) as H.
  assert (Hs : ByHost (hs_resolver sample_server) (hq_Host (sample_http_request "GET" "/admin"))
               = Some HttpSamples.site) by (vm_compute; reflexivity).
  specialize (H Hs).
  destruct (serve "https://photos.example.org" sample_env_http (sample_http_request "GET" "/admin") sample_server)
    as [resp s'] eqn:He.
  destruct H as [(h & Hin & _)|[[[Hc|Hc] _]|(_ & _ & _ & _ & [[H403 _]|[_ Hl]])]].
  - exfalso. repeat (destruct Hin as [Hin|Hin]; [discriminate Hin|]). destruct Hin.
  - vm_compute in Hc. discriminate Hc.
  - vm_compute in Hc. discriminate Hc.
  - exact H403.
  - vm_compute in Hl. discriminate Hl.
Defined.

(** GET /%68ealthz on an unclaimed instance: the guard looks at the decoded path,
    which is exempt, and the router at the raw one, which it does not know, so
    the answer is its 404; /admin next to it is refused with 403. *)
Example encoded_probe_passes_the_guard :
  let unclaimed q := (serve "https://photos.example.org" sample_env_http q sample_server).1 in
  let encoded := mkHttpRequest "photos.example.org" "/%68ealthz" "" (hq_request (sample_http_request "GET" "/healthz")) in
  hr_Status (unclaimed encoded) = 404
  /\ hr_Body (unclaimed encoded) = PError (mkErrorDetail "not_found" "not_found" "id-1")
  /\ hr_Status (unclaimed (sample_http_request "GET" "/healthz")) = 200
  /\ hr_Status (unclaimed (sample_http_request "GET" "/admin")) = 403.
Proof. vm_compute. repeat split. Qed.
