(* ===== verification/ClaimFlow.v ===== *)
(** * From the printed token to the owner, over HTTP

    The parts a new instance goes through, in one piece: the mint that prints a
    token (internal/ownerclaim), the JSON body of the request and its decoder,
    the chain of the server with its guard and router (internal/httpapi), the
    claim transaction, and the password verifier it stores
    (internal/credential). *)

From S2P Require Import Prelude Utf8 Regex GoStrings GoTime GoFmt GoJson GoJsonParse Sha256 Pg Credential OwnerStore AuditLog OwnerClaim ClaimBody OwnerSystem Limiter Origin Config Search Probes Stores ClaimHttp HttpServer.

Section Flow.
Context `{HU : Unicode, HN : NetUrl, HO : OwnerStore.Server, HR : NewRequest, HI : UuidParse, HT : Router, HTL : !RouterLaws}.
Context `{HAr : Argon2, HArL : !Argon2Laws}.
Context {Addr : Type} `{HA : Netip Addr} {Cache : Type} `{HC : WindowCounter Cache}.
Context (PublicOrigin : string).

(** A request that posts the input [i] as JSON from the instance's own pages or
    from no page at all. *)
Record posts (q : HttpRequest) (i : Input) : Prop := {
  po_method : Method (hq_request q) = "POST"%string;
  po_path : Path (hq_request q) = pathSetupClaimOwner;
  po_raw : hq_RawPath q = ""%string;
  po_type : requireJSONContentType (hq_request q) = None;
  po_origin : checkOrigin PublicOrigin (hq_request q) = None;
  po_body : exists w w', sall JsonRead.is_ws w = true /\ sall JsonRead.is_ws w' = true
              /\ ReqBody (hq_request q) = w +:+ compact (claim_json i) +:+ w' /\ len (ReqBody (hq_request q)) <= claimBodyLimitBytes;
  po_whole : BodyFails (hq_request q) = false
}.

Lemma posted_decoded q i id : posts q i -> valid_input i = true -> decoded (with_request_id id (hq_request q)) = Body i.
Proof.
  intros [_ _ _ _ _ (w & w' & Hw & Hw' & Hb & Hl) Hf] Hv. unfold decoded. cbn [with_request_id ReqBody BodyFails].
  rewrite Hf, Hb in *. by apply body_back.
Qed.

(** The chain up to the handler of the claim. *)
Lemma serve_claim env q (s : HttpServer Cache) site :
  Method (hq_request q) = "POST"%string -> Path (hq_request q) = pathSetupClaimOwner -> hq_RawPath q = ""%string ->
  ByHost (hs_resolver s) (hq_Host q) = Some site ->
  let r := with_request_id (requestID env (hq_RequestIDHeader q)) (hq_request q) in
  let '(a, st) := handleClaimOwner site PublicOrigin (he_setup env) r (hs_setup s) in
  hr_Status (serve PublicOrigin env q s).1 = (setup_payload (RequestID r) a).1
  /\ hr_Body (serve PublicOrigin env q s).1 = (setup_payload (RequestID r) a).2
  /\ hs_setup (serve PublicOrigin env q s).2 = st /\ hs_resolver (serve PublicOrigin env q s).2 = hs_resolver s.
Proof.
  intros Hm Hp Hraw Hh. unfold serve. cbv zeta. rewrite Hh. set (r := with_request_id _ (hq_request q)).
  assert (Hrm : Method r = "POST"%string) by done. assert (Hrp : Path r = pathSetupClaimOwner) by done. clearbody r.
  unfold guarded. rewrite Hrm, Hrp.
  change (one_of ("POST" +:+ " " +:+ pathSetupClaimOwner) claimExemptRoutes) with true. cbv iota.
  unfold routed. rewrite Hrm, Hrp, Hraw.
  rewrite (registered_found "POST" pathSetupClaimOwner ClaimOwnerRoute) by (do 5 right; by left). cbn [handle].
  destruct (handleClaimOwner _ _ _ r _) as [a st]. by destruct (setup_payload (RequestID r) a).
Qed.
(** The handler, when nothing before the claim refuses and the claim succeeds. *)
Lemma handler_claims site e r (s : ClaimHttp.Server Cache) i res db h :
  (allowSetupRequest site e "ceiling.claim" claimOwnerCeiling s).1 = true -> (instanceClaimed e s).1 = Some false ->
  requireJSONContentType r = None -> decoded r = Body i -> checkOrigin PublicOrigin r = None -> e_pool e = true ->
  Claim (e_claim e) i (RequestID r) (clientIPPrefix r) (e_db_now e) (store s) = (Ok res, db, h) ->
  exists st, handleClaimOwner site PublicOrigin e r s
             = (Success 201 [("username"%string, r_Username res); ("role"%string, r_Role res)], st)
    /\ store st = db /\ cc_claimed (claimed st) = true.
Proof.
  intros Hlim Hcl Hty Hd Ho Hp Hclaim. unfold handleClaimOwner. unfold allowSetupRequest in *.
  pose proof (spend_store e (setup_key site "ceiling.claim") claimOwnerCeiling s) as [Hs1 Hs2].
  destruct (spend e (setup_key site "ceiling.claim") claimOwnerCeiling s) as [ok s1]. cbn [fst snd] in *. subst ok. cbn [negb].
  assert (Hi : (instanceClaimed e s1).1 = Some false) by (unfold instanceClaimed in *; rewrite Hs2; revert Hcl; by repeat case_match).
  destruct (instanceClaimed_spec e s1) as (Hst & _). destruct (instanceClaimed e s1) as [c s2]. cbn [fst snd] in *. subst c.
  rewrite Hty, Hd, Ho, Hp. cbn [negb]. rewrite Hst, Hs1, Hclaim. eexists. split; [reflexivity|]. by split.
Qed.

(** C5. The way in works, end to end, and only once.  Let a mint on an instance with
    no user have printed a token.  A POST to the claim endpoint whose body is the
    JSON object of that token and of fields the validation accepts, in any white
    space and within the limit, from the instance's own origin or from no page,
    before the token expires and with nothing else going on, is answered 201
    with the user name and the role; then the store holds exactly that owner and
    one credential, which verifies the password that was posted; and any later
    POST to the endpoint, whatever it carries, is answered 409, or 429 above the
    ceiling, and leaves the store alone. *)
Theorem posted_token_claims (env : HttpEnv) q (s : HttpServer Cache) site i
    menv b uuids ttl r o now db raw g db1 salt h (uid cid aid : uuid) :
  let e := he_setup env in
  let corr := requestID env (hq_RequestIDHeader q) in
  String.length b = TokenBytes -> Mint menv (Some b) uuids ttl r o now db = (Ok (raw, g), db1) ->
  users db1 = [] -> credentials db1 = [] ->
  store (hs_setup s) = db1 -> ByHost (hs_resolver s) (hq_Host q) = Some site ->
  (allowSetupRequest site e "ceiling.claim" claimOwnerCeiling (hs_setup s)).1 = true ->
  (instanceClaimed e (hs_setup s)).1 = Some false -> e_pool e = true ->
  posts q i -> in_Token i = raw -> Validate i = None -> valid_input i = true ->
  pg_text (in_Email i) = true -> pg_email_shape (in_Email i) = true ->
  undisturbed (e_claim e) db1 uid cid aid -> e_db_now e < now + interval ttl -> c_read_at (e_claim e) < now + interval ttl ->
  (Hash true (Some salt) (in_Password i) h).1 = Some (c_hash (e_claim e) (in_Password i)) -> len salt = 16 -> params h = ADR003 ->
  pg_text_opt (nonEmpty corr) = true -> pg_text_opt (clientIPPrefix (hq_request q)) = true ->
  exists resp s' phc,
    serve PublicOrigin env q s = (resp, s') /\ hr_Status resp = 201
    /\ hr_Body resp = PSetup [("username", in_Username i); ("role", "owner")]%string
    /\ users (store (hs_setup s')) = [mkUser uid (in_Username i) (in_Email i) owner None]
    /\ credentials (store (hs_setup s')) = [mkCredential cid uid "password" phc]
    /\ Verify phc (in_Password i) = Some (Ok true)
    /\ forall env' q', Method (hq_request q') = "POST"%string -> Path (hq_request q') = pathSetupClaimOwner ->
         hq_RawPath q' = ""%string -> ByHost (hs_resolver s) (hq_Host q') = Some site ->
         (hr_Status (serve PublicOrigin env' q' s').1 = 409 \/ hr_Status (serve PublicOrigin env' q' s').1 = 429)
         /\ store (hs_setup (serve PublicOrigin env' q' s').2) = store (hs_setup s').
Proof.
  intros e corr Hb Hm Hu Hc Hst Hh Hlim Hcl Hp Hpo Htok Hval Hvi Hem Hes Hun Hat Hrat Hhash Hsalt Hpar Hco Hip.
  set (rq := with_request_id corr (hq_request q)).
  assert (Hip' : clientIPPrefix rq = clientIPPrefix (hq_request q)) by done.
  destruct (minted_token_claims menv b uuids ttl r o now db raw g db1 (e_claim e) i corr (clientIPPrefix rq) (e_db_now e) salt h uid cid aid)
    as (phc & db2 & Hclaim & Hus & Hcr & Hv); try done.
  destruct (handler_claims site e rq (hs_setup s) i (mkResult uid (in_Username i) "owner" g) db2 true) as (st & Hh1 & Hst1 & Hcc); try done.
  { by destruct Hpo. }
  { by apply posted_decoded. }
  { by destruct Hpo. }
  { by rewrite Hst. }
  destruct Hpo as [Hme Hpa Hra _ _ _ _]. pose proof (serve_claim env q s site Hme Hpa Hra Hh) as Hs. cbv zeta in Hs.
  fold corr e rq in Hs. rewrite Hh1 in Hs. destruct (serve PublicOrigin env q s) as [resp s'] eqn:Hsv. cbn [fst snd] in Hs.
  destruct Hs as (H1 & H2 & H3 & H4). exists resp, s', phc. rewrite H3, Hst1. do 6 (split; [done|]).
  intros env' q' Hme' Hpa' Hra' Hh'. rewrite <- H4 in Hh'. pose proof (serve_claim env' q' s' site Hme' Hpa' Hra' Hh') as Hs'. cbv zeta in Hs'.
  set (rq' := with_request_id _ (hq_request q')) in Hs'.
  destruct (claimed_instance_inert site PublicOrigin (he_setup env') rq' (hs_setup s')) as (Hans & Hsame & _); [left; by rewrite H3|].
  destruct (handleClaimOwner site PublicOrigin (he_setup env') rq' (hs_setup s')) as [a st']. cbn [fst snd] in *.
  destruct Hs' as (-> & _ & -> & _). rewrite Hsame, H3. split; [|done]. by destruct a.
Qed.

End Flow.

(** ** The sample instance *)

Import OwnerSystem.Samples.
#[local] Existing Instance latin.
#[local] Existing Instance OwnerSystem.Samples.server.
#[local] Existing Instance toy_argon2.
#[local] Existing Instance toy_laws.
#[local] Existing Instance HttpSamples.whole.
#[local] Existing Instance HttpSamples.no_addresses.
#[local] Existing Instance table_router.
#[local] Existing Instance table_router_laws.
#[local] Existing Instance any_search.
#[local] Existing Instance no_ids.

Definition new_instance : HttpServer MemoryLimiter :=
  mkHttpServer false (mkDeps None (fun _ => true) (fun _ => true) false None None None)
    (newReadinessCache (2 * Second) (mkReadiness "" [] 0)) (HttpSamples.server cold minted_db) (NewResolver HttpSamples.site) 6.

Definition quiet_env : HttpEnv :=
  mkHttpEnv (Some "id-1"%string) false 5 6 (mkCallEnv None 0 (fun _ => Err ""%string)) None
    (mkBuildInfo "dev" "unknown" "" "" "" "" "go1.27.1" []) (HttpSamples.env (Some false) (calm minted_db)).

Definition claim_post : HttpRequest :=
  mkHttpRequest "photos.example.org" "" "" (HttpSamples.request (OwnerSystem.Samples.request (hex entropy))).

Lemma posted_token_claims_witness :
  hr_Status (serve "https://photos.example.org" quiet_env claim_post new_instance).1 = 201
  /\ (hr_Status (serve "https://photos.example.org" quiet_env claim_post
                   (serve "https://photos.example.org" quiet_env claim_post new_instance).2).1 = 409
      \/ hr_Status (serve "https://photos.example.org" quiet_env claim_post
                      (serve "https://photos.example.org" quiet_env claim_post new_instance).2).1 = 429).
Proof.
  destruct (posted_token_claims "https://photos.example.org" quiet_env claim_post new_instance HttpSamples.site
              (OwnerSystem.Samples.request (hex entropy)) quiet entropy uuids ttl true false 1000 empty_db (hex entropy) 1 minted_db
              salt (Credential.New 8) "u" "c" "a3") as (resp & s' & p & Hs & H1 & _ & _ & _ & _ & H2);
    [by vm_compute|by vm_compute|by vm_compute|by vm_compute|done|by vm_compute|by vm_compute|by vm_compute|done| |done|by vm_compute
    |by vm_compute|by vm_compute|by vm_compute|by split|by vm_compute|by vm_compute|by vm_compute|done|done|by vm_compute|by vm_compute|].
  - constructor; try (vm_compute; reflexivity). exists ""%string, ""%string. vm_compute. repeat split; done || discriminate.
  - rewrite Hs. split; [exact H1|]. apply (H2 quiet_env claim_post); vm_compute; reflexivity.
Defined.
