(* ===== verification/RuneRegex.v ===== *)
(** * Regular expressions over runes: the leftmost match, backtracking

    The language's regular expressions as a backtracking search defines them,
    with their meaning, and what replacing every match by a fixed mark does to a
    text.  An expression runs over the runes of a text: a rune is the piece of
    the text it was decoded from, a byte that is no UTF-8 a piece of its own. *)

From S2P Require Import Prelude Utf8 Regex GoStrings GoFmt.

(** ** Runes of a text *)

Abbreviation rune := string (only parsing).

Fixpoint runes_fuel (fuel : nat) (s : string) : list rune :=
  match fuel, s with
  | O, _ | _, EmptyString => []
  | S fuel, _ => let n := Nat.max 1 (rune_size s) in stake n s :: runes_fuel fuel (sdrop n s)
  end.

Definition runes (s : string) : list rune := runes_fuel (String.length s) s.

Definition text (l : list rune) : string := foldr String.append ""%string l.

(** ** Expressions *)

(** A repetition is of one class, which is all these expressions have. *)
Inductive rx :=
| RCls (p : rune -> bool)
| REps
| RSeq (a b : rx)
| RAlt (a b : rx)
| RMany (p : rune -> bool)
| RCap (n : nat) (a : rx)
| RBound
| RBegin.

Record mstate := mkMState {
  ms_prev : option rune;
  ms_rest : list rune;
  ms_caps : list (nat * list rune)
}.

(** A rune of [0-9A-Za-z_]. *)
Definition word_rune (o : option rune) : bool :=
  match o with Some (String a EmptyString) => alnum a || chr "_" a | _ => false end.

Definition at_boundary (prev : option rune) (rest : list rune) : bool :=
  xorb (word_rune prev) (word_rune (head rest)).

(** The longest run first, then ever shorter ones. *)
Fixpoint many {A} (p : rune -> bool) (prev : option rune) (rest : list rune)
    (k : option rune -> list rune -> option A) : option A :=
  match rest with
  | c :: rest' =>
      if p c then match many p (Some c) rest' k with
                  | Some x => Some x
                  | None => k prev rest
                  end
      else k prev rest
  | [] => k prev rest
  end.

(** What was consumed between two states. *)
Definition consumed (from to : list rune) : list rune := take (length from - length to) from.

(** Backtracking with a continuation: the first alternative that lets the rest
    of the expression match. *)
Fixpoint search {A} (r : rx) (st : mstate) (k : mstate -> option A) : option A :=
  match r with
  | RCls p =>
      match ms_rest st with
      | c :: rest => if p c then k (mkMState (Some c) rest (ms_caps st)) else None
      | [] => None
      end
  | REps => k st
  | RSeq a b => search a st (fun st' => search b st' k)
  | RAlt a b => match search a st k with Some x => Some x | None => search b st k end
  | RMany p => many p (ms_prev st) (ms_rest st) (fun prev rest => k (mkMState prev rest (ms_caps st)))
  | RCap n a =>
      search a st (fun st' =>
        k (mkMState (ms_prev st') (ms_rest st') ((n, consumed (ms_rest st) (ms_rest st')) :: ms_caps st')))
  | RBound => if at_boundary (ms_prev st) (ms_rest st) then k st else None
  | RBegin => match ms_prev st with None => k st | Some _ => None end
  end.

(** The match at this place. *)
Definition match_at (r : rx) (prev : option rune) (l : list rune) : option mstate :=
  search r (mkMState prev l []) Some.

Fixpoint seq (l : list rx) : rx := match l with [] => REps | [r] => r | r :: l => RSeq r (seq l) end.
Fixpoint alts (l : list rx) : rx := match l with [] => REps | [r] => r | r :: l => RAlt r (alts l) end.
Definition maybe (r : rx) : rx := RAlt r REps.
Definition many1 (p : rune -> bool) : rx := RSeq (RCls p) (RMany p).
Fixpoint repeat_rx (n : nat) (r : rx) : rx := match n with O => REps | S n => RSeq r (repeat_rx n r) end.

Fixpoint word (f : (ascii -> bool) -> rune -> bool) (s : string) : rx :=
  match s with EmptyString => REps | String c s => RSeq (RCls (f (chr c))) (word f s) end.

(** ** ReplaceAllString *)

Fixpoint capture (n : nat) (caps : list (nat * list rune)) : string :=
  match caps with
  | [] => ""
  | (m, l) :: caps => if (m =? n)%nat then text l else capture n caps
  end.

(** The replacement of a match; no expression here matches the empty text, so
    every match moves on. *)
Fixpoint replace_fuel (fuel : nat) (r : rx) (repl : list (nat * list rune) -> string)
    (prev : option rune) (l : list rune) : string :=
  match fuel, l with
  | O, _ | _, [] => ""
  | S fuel, c :: l' =>
      match match_at r prev l with
      | Some st => repl (ms_caps st) +:+ replace_fuel fuel r repl (ms_prev st) (ms_rest st)
      | None => c +:+ replace_fuel fuel r repl (Some c) l'
      end
  end.

Record redaction := mkRedaction { rd_re : rx; rd_repl : list (nat * list rune) -> string }.

Definition ReplaceAllString (p : redaction) (s : string) : string :=
  replace_fuel (String.length s) (rd_re p) (rd_repl p) None (runes s).

(** ** What an expression means

    [sem r prev w rest]: after the rune [prev], the runes [w] before [rest] are a
    match of [r]. *)

Fixpoint after (prev : option rune) (w : list rune) : option rune :=
  match w with [] => prev | c :: w => after (Some c) w end.

Inductive sem : rx -> option rune -> list rune -> list rune -> Prop :=
| sem_cls p prev c rest : p c = true -> sem (RCls p) prev [c] rest
| sem_eps prev rest : sem REps prev [] rest
| sem_seq a b prev w1 w2 rest :
    sem a prev w1 (w2 ++ rest) -> sem b (after prev w1) w2 rest -> sem (RSeq a b) prev (w1 ++ w2) rest
| sem_alt_l a b prev w rest : sem a prev w rest -> sem (RAlt a b) prev w rest
| sem_alt_r a b prev w rest : sem b prev w rest -> sem (RAlt a b) prev w rest
| sem_many p prev w rest : forallb p w = true -> sem (RMany p) prev w rest
| sem_cap n a prev w rest : sem a prev w rest -> sem (RCap n a) prev w rest
| sem_bound prev rest : at_boundary prev rest = true -> sem RBound prev [] rest
| sem_begin rest : sem RBegin None [] rest.

Lemma after_app prev w1 w2 : after prev (w1 ++ w2) = after (after prev w1) w2.
Proof. revert prev; induction w1 as [|c w1 IH]; intros prev; [done|]. apply IH. Qed.

Lemma many_some {A} p (k : option rune -> list rune -> option A) x : forall rest prev,
  many p prev rest k = Some x ->
  exists w rest', rest = w ++ rest' /\ forallb p w = true /\ k (after prev w) rest' = Some x.
Proof.
  induction rest as [|c rest IH]; intros prev; cbn [many].
  - intros Hk. by exists [], [].
  - destruct (p c) eqn:Hc; [|intros Hk; by exists [], (c :: rest)].
    destruct (many p (Some c) rest k) as [y|] eqn:Hm; [|intros Hk; by exists [], (c :: rest)].
    intros [= <-]. destruct (IH _ Hm) as (w & rest' & -> & Hw & Hk). exists (c :: w), rest'.
    split; [done|]. split; [simpl; by rewrite Hc|done].
Qed.

Lemma many_none {A} p (k : option rune -> list rune -> option A) : forall w rest' prev,
  many p prev (w ++ rest') k = None -> forallb p w = true -> k (after prev w) rest' = None.
Proof.
  induction w as [|c w IH]; intros rest' prev; simpl.
  - destruct rest' as [|d rest']; simpl; [done|]. destruct (p d); [|done]. by destruct (many p (Some d) rest' k).
  - intros Hm [Hc Hw]%andb_true_iff. rewrite Hc in Hm.
    destruct (many p (Some c) (w ++ rest') k) eqn:Hk; [done|]. by apply IH.
Qed.

Lemma search_some {A} r : forall st (k : mstate -> option A) x,
  search r st k = Some x ->
  exists w rest caps, ms_rest st = w ++ rest /\ sem r (ms_prev st) w rest
    /\ k (mkMState (after (ms_prev st) w) rest caps) = Some x.
Proof.
  induction r as [p| |a IHa b IHb|a IHa b IHb|p|n a IHa| |]; intros [prev rest caps] k x; cbn [search ms_prev ms_rest ms_caps].
  - destruct rest as [|c rest]; [done|]. destruct (p c) eqn:Hc; [|done]. intros Hk.
    exists [c], rest, caps. split; [done|]. split; [by constructor|done].
  - intros Hk. exists [], rest, caps. split; [done|]. split; [constructor|done].
  - intros Hs. apply IHa in Hs as (w1 & rest1 & c1 & Hl & Ha & Hs). cbn [ms_prev ms_rest] in *.
    apply IHb in Hs as (w2 & rest2 & c2 & Hr & Hb & Hk). cbn [ms_prev ms_rest] in *. subst rest rest1.
    exists (w1 ++ w2), rest2, c2. rewrite <- app_assoc, after_app. split; [done|]. split; [by constructor|done].
  - destruct (search a _ k) as [y|] eqn:Ha.
    + intros [= <-]. apply IHa in Ha as (w & rest' & c & Hl & Hw & Hk). cbn [ms_prev ms_rest] in *. subst rest. exists w, rest', c.
      split; [done|]. split; [by constructor|done].
    + intros Hb. apply IHb in Hb as (w & rest' & c & Hl & Hw & Hk). cbn [ms_prev ms_rest] in *. subst rest. exists w, rest', c.
      split; [done|]. split; [by apply sem_alt_r|done].
  - intros Hm. apply many_some in Hm as (w & rest' & -> & Hw & Hk). exists w, rest', caps.
    split; [done|]. split; [by constructor|done].
  - intros Hs. apply IHa in Hs as (w & rest' & c & Hl & Hw & Hk). cbn [ms_prev ms_rest] in *. subst rest. do 3 eexists. split; [done|]. split; [by constructor|exact Hk].
  - destruct (at_boundary prev rest) eqn:Hb; [|done]. intros Hk. exists [], rest, caps. split; [done|]. split; [by constructor|done].
  - destruct prev; [done|]. intros Hk. exists [], rest, caps. split; [done|]. split; [constructor|done].
Qed.

Lemma search_none {A} r prev w rest (Hsem : sem r prev w rest) : forall caps (k : mstate -> option A),
  search r (mkMState prev (w ++ rest) caps) k = None ->
  exists caps', k (mkMState (after prev w) rest caps') = None.
Proof.
  induction Hsem as [p prev c rest Hp|prev rest|a b prev w1 w2 rest Ha IHa Hb IHb|a b prev w rest Ha IHa
    |a b prev w rest Hb IHb|p prev w rest Hw|n a prev w rest Ha IHa|prev rest Hb|rest]; intros caps k;
    cbn [search ms_prev ms_rest ms_caps app after].
  - rewrite Hp. by eauto.
  - by eauto.
  - rewrite <- app_assoc, after_app. intros Hs. apply IHa in Hs as (c1 & Hs). by apply IHb in Hs.
  - destruct (search a _ k) eqn:Hs; [done|]. intros _. by eapply IHa.
  - destruct (search a _ k) eqn:Hs; [done|]. apply IHb.
  - intros Hm. exists caps. by eapply (many_none p (fun prev rest => k (mkMState prev rest caps))).
  - intros Hs. apply IHa in Hs as (c & Hs). cbn [ms_prev ms_rest] in Hs. by eauto.
  - rewrite Hb. by eauto.
  - by eauto.
Qed.

Lemma match_at_some r prev l st :
  match_at r prev l = Some st ->
  exists w, l = w ++ ms_rest st /\ sem r prev w (ms_rest st) /\ ms_prev st = after prev w.
Proof.
  intros Hs. apply search_some in Hs as (w & rest & caps & Hl & Hw & [= <-]). by exists w.
Qed.

Lemma match_at_none r prev l :
  match_at r prev l = None <-> forall w rest, l = w ++ rest -> ~ sem r prev w rest.
Proof.
  split.
  - intros Hn w rest -> Hsem. by destruct (search_none r prev w rest Hsem [] Some Hn).
  - intros Hno. destruct (match_at r prev l) as [st|] eqn:Hs; [|done].
    apply match_at_some in Hs as (w & Hl & Hw & _). by destruct (Hno w (ms_rest st) Hl).
Qed.

(** ** Every match moves on *)

(** A lower bound of what a match consumes. *)
Fixpoint min_len (r : rx) : nat :=
  match r with
  | RCls _ => 1
  | RSeq a b => min_len a + min_len b
  | RAlt a b => Nat.min (min_len a) (min_len b)
  | RCap _ a => min_len a
  | REps | RMany _ | RBound | RBegin => 0
  end.

Lemma min_len_sound r prev w rest : sem r prev w rest -> (min_len r <= length w)%nat.
Proof. induction 1; cbn [min_len]; rewrite ?length_app; simpl; lia. Qed.

Lemma replace_enough r repl : (0 < min_len r)%nat -> forall f g prev l,
  (length l <= f)%nat -> (length l <= g)%nat -> replace_fuel f r repl prev l = replace_fuel g r repl prev l.
Proof.
  intros Hr. induction f as [|f IH]; intros g prev l Hf Hg.
  { destruct l; [|simpl in Hf; lia]. by destruct g. }
  destruct l as [|c l]; [by destruct g|]. destruct g as [|g]; [simpl in Hg; lia|]. cbn [replace_fuel].
  destruct (match_at r prev (c :: l)) as [st|] eqn:Hm.
  - apply match_at_some in Hm as (w & Hl & Hw%min_len_sound & _).
    assert (Hlen : length (c :: l) = (length w + length (ms_rest st))%nat) by (by rewrite Hl, length_app).
    f_equal. apply IH; lia.
  - f_equal. simpl in *. apply IH; lia.
Qed.

(** ** Runes and texts *)

Lemma rune_head_bounds s : s <> ""%string ->
  (1 <= Nat.max 1 (rune_size s) <= String.length s)%nat.
Proof. intros Hs. pose proof (rune_size_le s). destruct s; [done|]. simpl in *. lia. Qed.

Lemma runes_enough f : forall g s,
  (String.length s <= f)%nat -> (String.length s <= g)%nat -> runes_fuel f s = runes_fuel g s.
Proof.
  induction f as [|f IH]; intros g s Hf Hg.
  { destruct s; [|simpl in Hf; lia]. by destruct g. }
  destruct s as [|c s]; [by destruct g|]. destruct g as [|g]; [simpl in Hg; lia|].
  pose proof (rune_head_bounds (String c s) ltac:(done)) as Hb. cbn [runes_fuel].
  f_equal. apply IH; rewrite length_sdrop; lia.
Qed.

Lemma runes_cons s : s <> ""%string ->
  runes s = stake (Nat.max 1 (rune_size s)) s :: runes (sdrop (Nat.max 1 (rune_size s)) s).
Proof.
  intros Hs. pose proof (rune_head_bounds s Hs) as Hb. unfold runes.
  destruct (String.length s) as [|n] eqn:Hn; [lia|]. destruct s as [|c s]; [done|].
  change (runes_fuel (S n) (String c s)) with
    (stake (Nat.max 1 (rune_size (String c s))) (String c s)
     :: runes_fuel n (sdrop (Nat.max 1 (rune_size (String c s))) (String c s))).
  f_equal. apply runes_enough; rewrite length_sdrop; lia.
Qed.

Lemma text_app a b : text (a ++ b) = text a +:+ text b.
Proof. induction a as [|c a IH]; [done|]. simpl. by rewrite IH, sapp_assoc. Qed.

Lemma text_runes s : text (runes s) = s.
Proof.
  remember (String.length s) as n eqn:Hn. revert s Hn. induction (lt_wf n) as [n _ IH]. intros s ->.
  destruct s as [|c s]; [done|]. rewrite runes_cons by done. simpl text.
  pose proof (rune_head_bounds (String c s) ltac:(done)).
  rewrite (IH (String.length (sdrop (Nat.max 1 (rune_size (String c s))) (String c s)))); [|rewrite length_sdrop; lia|done].
  apply stake_sdrop.
Qed.

(** A byte that starts no longer rune and continues none. *)
Definition starts_ascii (s : string) : bool :=
  match s with EmptyString => true | String c _ => is_ascii c end.

Lemma runes_ascii c s : is_ascii c = true -> runes (String c s) = String c "" :: runes s.
Proof.
  intros Hc. rewrite runes_cons by done. unfold is_ascii in Hc.
  assert (Hz : rune_size (String c s) = 1%nat) by (cbn [rune_size]; by rewrite Hc). rewrite Hz. by destruct s.
Qed.

Lemma cont_ascii n a b : (String.length a < n)%nat -> starts_ascii b = true -> cont n (a +:+ b) = false.
Proof.
  revert n; induction a as [|c a IH]; intros n Hn Hb; autorewrite with str.
  - destruct n as [|n]; [simpl in Hn; lia|]. destruct b as [|x b]; [done|]. cbn [cont]. simpl in Hb.
    unfold is_ascii in Hb. unfold in_range. lia.
  - destruct n as [|n]; [simpl in Hn; lia|]. cbn [cont]. rewrite IH; [by rewrite andb_false_r| |done].
    simpl in Hn. lia.
Qed.

Lemma cont_prefix n a b : (n <= String.length a)%nat -> cont n (a +:+ b) = cont n a.
Proof.
  revert n; induction a as [|c a IH]; intros n Hn; autorewrite with str.
  - destruct n; [done|simpl in Hn; lia].
  - destruct n as [|n]; [done|]. cbn [cont]. rewrite IH; [done|]. simpl in Hn. lia.
Qed.

Lemma cont_long n a : (String.length a < n)%nat -> cont n a = false.
Proof.
  revert n; induction a as [|c a IH]; intros [|n] Hn; simpl in *; try lia; try done.
  rewrite IH by lia. apply andb_false_r.
Qed.

(** What follows does not change a text's runes, if it starts with ASCII. *)
Lemma rune_size_before a b : a <> ""%string -> starts_ascii b = true -> rune_size (a +:+ b) = rune_size a.
Proof.
  intros Ha Hb. destruct a as [|c a]; [done|]. autorewrite with str. cbn [rune_size].
  destruct (code c <? 128); [done|]. destruct (lead c) as [[[n lo] hi]|] eqn:Hl; [|done].
  assert (Hn : (2 <= n)%nat) by (unfold lead in Hl; repeat case_match; simplify_eq; lia).
  destruct a as [|x a]; autorewrite with str.
  - destruct b as [|y b]; [done|]. simpl in Hb. unfold is_ascii in Hb.
    assert (in_range lo hi y = false) as ->; [|done].
    unfold in_range. unfold lead in Hl. repeat case_match; simplify_eq; lia.
  - destruct (Nat.le_gt_cases (n - 2) (String.length a)) as [Hle|Hgt].
    + by rewrite cont_prefix.
    + by rewrite cont_ascii, (cont_long _ a).
Qed.

Lemma runes_app a b : starts_ascii b = true -> runes (a +:+ b) = runes a ++ runes b.
Proof.
  intros Hb. remember (String.length a) as n eqn:Hn. revert a Hn. induction (lt_wf n) as [n _ IH]. intros a ->.
  destruct (decide (a = ""%string)) as [->|Hu]; [done|]. rename a into u.
  assert (Hub : (u +:+ b)%string <> ""%string) by (destruct u; autorewrite with str; done).
  pose proof (rune_head_bounds u Hu) as Hbd. pose proof (rune_size_before u b Hu Hb) as Hz.
  rewrite (runes_cons (u +:+ b)) by done. rewrite (runes_cons u) by done. rewrite Hz.
  rewrite sdrop_app by lia. rewrite (IH (String.length (sdrop (Nat.max 1 (rune_size u)) u)));
    [|rewrite length_sdrop; lia|done].
  cbn [app]. f_equal. clear -Hbd. revert Hbd. generalize (Nat.max 1 (rune_size u)) as m. intros m [_ Hm].
  revert m Hm. induction u as [|x u IHu]; intros [|m] Hm; autorewrite with str; simpl in *; try done; try lia.
  f_equal. apply IHu. lia.
Qed.

(** A list of runes that is what its text decodes to. *)
Definition coherent (l : list rune) : Prop := runes (text l) = l.

Lemma coherent_runes s : coherent (runes s).
Proof. unfold coherent. by rewrite text_runes. Qed.

Lemma coherent_cons c l : coherent (c :: l) -> c <> ""%string /\ coherent l.
Proof.
  unfold coherent. remember (text (c :: l)) as t eqn:Ht. intros Hc.
  assert (Hne : t <> ""%string) by (by intros ->).
  rewrite runes_cons in Hc by done. pose proof (rune_head_bounds t Hne) as Hb.
  set (n := Nat.max 1 (rune_size t)) in *. injection Hc as H1 H2.
  assert (Hlen : String.length c = n).
  { apply (f_equal String.length) in H1. rewrite length_stake in H1. lia. }
  split; [intros ->; simpl in Hlen; lia|]. rewrite <- Hlen, Ht in H2.
  assert (Hd : sdrop (String.length c) (text (c :: l)) = text l).
  { simpl text. clear. induction c as [|x c IH]; autorewrite with str; simpl; [by destruct (text l)|done]. }
  by rewrite Hd in H2.
Qed.

Lemma coherent_suffix a b : coherent (a ++ b) -> coherent b.
Proof. induction a as [|c a IH]; [done|]. intros [_ H]%coherent_cons. by apply IH. Qed.

Lemma coherent_prefix a b : coherent (a ++ b) -> starts_ascii (text b) = true -> coherent a.
Proof.
  intros H Hb. pose proof (coherent_suffix a b H) as Hcb. unfold coherent in *.
  rewrite text_app, runes_app, Hcb in H by done. by apply app_inv_tail in H.
Qed.

Lemma coherent_join a b : coherent a -> coherent b -> starts_ascii (text b) = true -> coherent (a ++ b).
Proof. unfold coherent. intros Ha Hb Hs. by rewrite text_app, runes_app, Ha, Hb. Qed.

(** The runes of a text after a pass. *)
Lemma length_runes s : (length (runes s) <= String.length s)%nat.
Proof.
  remember (String.length s) as n eqn:Hn. revert s Hn. induction (lt_wf n) as [n _ IH]. intros s ->.
  destruct s as [|c s]; [done|]. rewrite runes_cons by done. cbn [length].
  pose proof (rune_head_bounds (String c s) ltac:(done)).
  pose proof (IH (String.length (sdrop (Nat.max 1 (rune_size (String c s))) (String c s)))
                ltac:(rewrite length_sdrop; lia) _ eq_refl) as H'. rewrite length_sdrop in H'. lia.
Qed.

(** The mark of a redaction (src/internal/obs/log.go). *)
Definition redacted : string := "[redacted]".

(** ** A pass with a constant replacement *)

Definition R : list rune := runes redacted.

Fixpoint replace_runes (fuel : nat) (r : rx) (prev : option rune) (l : list rune) : list rune :=
  match fuel, l with
  | O, _ | _, [] => []
  | S fuel, c :: l' =>
      match match_at r prev l with
      | Some st => R ++ replace_runes fuel r (ms_prev st) (ms_rest st)
      | None => c :: replace_runes fuel r (Some c) l'
      end
  end.

Lemma replace_runes_text r fuel : forall prev l,
  text (replace_runes fuel r prev l) = replace_fuel fuel r (fun _ => redacted) prev l.
Proof.
  induction fuel as [|fuel IH]; intros prev [|c l]; try done. cbn [replace_runes replace_fuel].
  destruct (match_at r prev (c :: l)) as [st|].
  - by rewrite text_app, IH.
  - simpl text. by rewrite IH.
Qed.

(** A bracket of the replacement. *)
Definition bracket (c : rune) : bool := (c =s "[") || (c =s "]").

(** No match of [q] anywhere in [l]. *)
Definition free (q : rx) (prev : option rune) (l : list rune) : Prop :=
  forall a w rest, l = a ++ w ++ rest -> ~ sem q (after prev a) w rest.

(** An expression whose matches are long, hold no bracket, do not look at what
    follows them, and begin with a rune of [T]. *)
Record solid (T : rune -> bool) (q : rx) : Prop := mkSolid {
  solid_long : forall prev w rest, sem q prev w rest -> (12 <= length w)%nat;
  solid_plain : forall prev w rest, sem q prev w rest -> forallb (fun c => negb (bracket c)) w = true;
  solid_head : forall prev w rest, sem q prev w rest -> exists c w', w = c :: w' /\ T c = true;
  solid_local : forall prev w rest rest', sem q prev w rest -> sem q prev w rest'
}.

Section Pass.
Context (p : rx) (T : rune -> bool).
Context (Hsolid : solid T p).
Context (Hgreedy : forall prev l st, match_at p prev l = Some st ->
           match ms_rest st with c :: _ => T c = false | [] => True end).
Context (Hascii : forall prev w rest, sem p prev w rest -> starts_ascii (text w) = true).

Lemma pass_rest prev l st : match_at p prev l = Some st -> (length (ms_rest st) < length l)%nat.
Proof.
  intros Hm. apply match_at_some in Hm as (w & -> & Hw%(solid_long _ _ Hsolid) & _). rewrite length_app. lia.
Qed.

(** Runes before the first bracket were there before. *)
Lemma prefix_kept fuel : forall prev l w out,
  (length l <= fuel)%nat -> replace_runes fuel p prev l = w ++ out ->
  forallb (fun c => negb (bracket c)) w = true -> exists l', l = w ++ l'.
Proof.
  induction fuel as [|fuel IH]; intros prev l w out Hf He Hw.
  { destruct l; [|simpl in Hf; lia]. simpl in He. symmetry in He. apply app_eq_nil in He as [-> _]. by exists []. }
  destruct l as [|c l]. { simpl in He. symmetry in He. apply app_eq_nil in He as [-> _]. by exists []. }
  destruct w as [|d w]; [by exists (c :: l)|]. cbn [forallb] in Hw. apply andb_true_iff in Hw as [Hd Hw].
  cbn [replace_runes] in He. destruct (match_at p prev (c :: l)) as [st|].
  - exfalso. cbn in He. injection He as <- _. done.
  - cbn [app] in He. injection He as -> He. apply IH in He as [l' ->]; [by exists l'|simpl in Hf; lia|done].
Qed.

(** A pass leaves no match of an expression that had none, and none of its own. *)
Lemma pass_free q (Hq : solid T q) fuel : forall prevo prev l,
  (length l <= fuel)%nat ->
  (q = p \/ free q prev l) ->
  (prevo = prev \/ match l with c :: _ => T c = false | [] => True end) ->
  free q prevo (replace_runes fuel p prev l).
Proof.
  assert (Hnil : forall prevo, free q prevo []).
  { intros prevo a w rest He Hs. symmetry in He. apply app_eq_nil in He as [-> He]. apply app_eq_nil in He as [-> ->].
    apply (solid_long _ _ Hq) in Hs. simpl in Hs. lia. }
  induction fuel as [|fuel IH]; intros prevo prev l Hf Hfree Hctx.
  { destruct l; [apply Hnil|simpl in Hf; lia]. }
  destruct l as [|c l]; [apply Hnil|]. cbn [replace_runes].
  destruct (match_at p prev (c :: l)) as [st|] eqn:Hm.
  - pose proof (pass_rest _ _ _ Hm) as Hr. pose proof (Hgreedy _ _ _ Hm) as Hg.
    apply match_at_some in Hm as (m & Hl & Hs & Hp). intros a w rest He Hw.
    destruct (decide (length R <= length a)%nat) as [Hlong|Hshort].
    + assert (Ha : exists a', a = R ++ a').
      { apply app_eq_inv in He as [(k & HR & _)|(k & -> & _)]; [|by exists k].
        exists []. rewrite app_nil_r. rewrite HR, length_app in Hlong. destruct k; [by rewrite app_nil_r in HR|].
        simpl in Hlong. lia. }
      destruct Ha as (a' & ->). rewrite <- app_assoc in He. apply app_inv_head in He.
      rewrite after_app in Hw. revert He Hw. apply (IH _ (ms_prev st)); [lia| |by right].
      destruct Hfree as [?|Hfree]; [by left|]. right. intros b x y Hb Hx.
      apply (Hfree (m ++ b) x y); [by rewrite Hl, Hb, app_assoc|]. by rewrite after_app, <- Hp.
    + pose proof (solid_long _ _ Hq _ _ _ Hw) as Hlw. apply (solid_plain _ _ Hq) in Hw.
      assert (Hin : List.In "]"%string w).
      { assert (Hlast : (a ++ w ++ rest) !! 9%nat = Some "]"%string) by (rewrite <- He; done).
        change (length R) with 10%nat in Hshort. rewrite lookup_app_r in Hlast by lia.
        rewrite lookup_app_l in Hlast by lia. apply list_elem_of_lookup_2 in Hlast. by apply list_elem_of_In. }
      by apply (proj1 (forallb_forall _ _) Hw) in Hin.
  - intros a w rest He Hw. destruct a as [|d a].
    + cbn [app after] in *. destruct (solid_head _ _ Hq _ _ _ Hw) as (x & w' & -> & Hx).
      pose proof (solid_plain _ _ Hq _ _ _ Hw) as Hpl. cbn [forallb] in Hpl. apply andb_true_iff in Hpl as [_ Hpl].
      cbn [app] in He. injection He as <- He. apply prefix_kept in He as (l' & ->); [|simpl in Hf; lia|done].
      destruct Hctx as [->|Hctx]; [|congruence].
      apply (solid_local _ _ Hq _ _ _ l') in Hw. destruct Hfree as [->|Hfree].
      * by apply (proj1 (match_at_none _ _ _) Hm (c :: w') l').
      * by apply (Hfree [] (c :: w') l').
    + cbn [app] in He. injection He as <- He. cbn [after] in Hw. revert He Hw.
      apply IH; [simpl in Hf; lia| |by left]. destruct Hfree as [?|Hfree]; [by left|]. right.
      intros b x y Hb Hx. apply (Hfree (c :: b) x y); [by rewrite Hb|done].
Qed.

Lemma coherent_R l : coherent l -> coherent (R ++ l).
Proof.
  assert (H : forall s l, sall is_ascii s = true -> coherent l -> coherent (map (fun c => String c "") (list_ascii_of_string s) ++ l)).
  { induction s as [|c s IH]; intros l0 Hs Hl; [done|]. cbn [sall] in Hs. apply andb_true_iff in Hs as [Hc Hs].
    specialize (IH l0 Hs Hl). unfold coherent in *. cbn [list_ascii_of_string map app].
    change (text (String c "" :: ?x)) with (String c "" +:+ text x). autorewrite with str.
    by rewrite runes_ascii, IH. }
  intros Hl. change R with (map (fun c => String c "") (list_ascii_of_string redacted)). by apply H.
Qed.

Lemma pass_split fuel : forall prev l,
  (length l <= fuel)%nat ->
  replace_runes fuel p prev l = l
  \/ exists a m rest f prev', l = a ++ m ++ rest /\ sem p (after prev a) m rest /\ (length rest <= f < fuel)%nat
       /\ replace_runes fuel p prev l = a ++ R ++ replace_runes f p prev' rest.
Proof.
  induction fuel as [|fuel IH]; intros prev l Hf. { destruct l; [by left|simpl in Hf; lia]. }
  destruct l as [|c l]; [by left|]. cbn [replace_runes].
  destruct (match_at p prev (c :: l)) as [st|] eqn:Hm.
  - right. pose proof (pass_rest _ _ _ Hm) as Hr. apply match_at_some in Hm as (m & Hl & Hs & _).
    exists [], m, (ms_rest st), fuel, (ms_prev st). cbn [app after]. split_and!; try done; simpl in *; lia.
  - simpl in Hf. destruct (IH (Some c) l ltac:(lia)) as [->|(a & m & rest & f & prev' & -> & Hs & Hlen & ->)]; [by left|].
    right. exists (c :: a), m, rest, f, prev'. split_and!; try done; lia.
Qed.

Lemma pass_coherent fuel : forall prev l,
  (length l <= fuel)%nat -> coherent l -> coherent (replace_runes fuel p prev l).
Proof.
  induction (lt_wf fuel) as [fuel _ IH]. intros prev l Hf Hl.
  destruct (pass_split fuel prev l Hf) as [->|(a & m & rest & f & prev' & -> & Hs & Hlen & ->)]; [done|].
  pose proof (Hascii _ _ _ Hs) as Ham. destruct (solid_head _ _ Hsolid _ _ _ Hs) as (x & m' & -> & _).
  apply coherent_join.
  - apply (coherent_prefix a ((x :: m') ++ rest)); [done|]. rewrite text_app.
    pose proof (coherent_suffix _ _ Hl) as Hx. apply coherent_cons in Hx as [Hx _]. simpl in *.
    destruct x; [done|]. by autorewrite with str in *.
  - apply coherent_R. apply IH; [lia|lia|]. apply (coherent_suffix (a ++ x :: m')). by rewrite <- app_assoc.
  - done.
Qed.

End Pass.

(** ** Shapes of expressions *)

Fixpoint classes_in (A : rune -> bool) (r : rx) : Prop :=
  match r with
  | RCls p | RMany p => forall c, p c = true -> A c = true
  | RSeq a b | RAlt a b => classes_in A a /\ classes_in A b
  | RCap _ a => classes_in A a
  | REps | RBound | RBegin => True
  end.

Lemma classes_sound A r prev w rest : sem r prev w rest -> classes_in A r -> forallb A w = true.
Proof.
  induction 1 as [p prev c rest Hp| |a b prev w1 w2 rest _ IHa _ IHb|a b prev w rest _ IHa|a b prev w rest _ IHb
    |p prev w rest Hw|n a prev w rest _ IHa| |]; cbn [classes_in]; intros Hc; try done.
  - cbn. by rewrite (Hc c Hp).
  - rewrite forallb_app, (IHa (proj1 Hc)), (IHb (proj2 Hc)). done.
  - by apply IHa, Hc.
  - by apply IHb, Hc.
  - revert Hw. rewrite !forallb_forall. intros Hw x Hx. by apply Hc, Hw.
  - by apply IHa.
Qed.

(** Without assertions an expression looks at nothing but its match. *)
Fixpoint no_assertion (r : rx) : bool :=
  match r with
  | RCls _ | REps | RMany _ => true
  | RSeq a b | RAlt a b => no_assertion a && no_assertion b
  | RCap _ a => no_assertion a
  | RBound | RBegin => false
  end.

Lemma sem_anywhere r prev w rest : sem r prev w rest -> no_assertion r = true ->
  forall prev' rest', sem r prev' w rest'.
Proof.
  induction 1; cbn [no_assertion]; intros Hn prev' rest'; try done;
    try (apply andb_true_iff in Hn as [? ?]); try (by constructor); eauto using sem.
Qed.

Lemma bound_seq r prev w rest :
  sem (RSeq RBound r) prev w rest -> at_boundary prev (w ++ rest) = true /\ sem r prev w rest.
Proof. inversion 1 as [| |? ? ? w1 w2 ? H1 H2| | | | | |]; subst. inversion H1; subst. done. Qed.

Lemma bound_local r prev w rest rest' :
  no_assertion r = true -> (0 < min_len r)%nat ->
  sem (RSeq RBound r) prev w rest -> sem (RSeq RBound r) prev w rest'.
Proof.
  intros Hn Hm Hs. apply bound_seq in Hs as [Hb Hs]. pose proof (min_len_sound _ _ _ _ Hs) as Hl.
  apply (sem_seq RBound r prev [] w rest').
  - constructor. destruct w as [|c w]; [simpl in Hl; lia|]. exact Hb.
  - by eapply sem_anywhere.
Qed.

Lemma bound_head f a s r prev w rest :
  sem (RSeq RBound (RSeq (word f (String a s)) r)) prev w rest ->
  exists c w', w = c :: w' /\ f (chr a) c = true.
Proof.
  intros Hs. apply bound_seq in Hs as [_ Hs].
  inversion Hs as [| |? ? ? w1 w2 ? H1 H2| | | | | |]; subst.
  inversion H1 as [| |? ? ? w3 w4 ? H3 H4| | | | | |]; subst.
  inversion H3; subst. by do 2 eexists.
Qed.

Fixpoint last_many (r : rx) : option (rune -> bool) :=
  match r with RSeq _ b => last_many b | RMany p => Some p | _ => None end.

Lemma greedy_end r T : last_many r = Some T -> forall st st',
  search r st Some = Some st' -> match ms_rest st' with c :: _ => T c = false | [] => True end.
Proof.
  induction r as [| |a _ b IHb| |p| | |]; cbn [last_many]; try done.
  - intros Hl st st' Hs. cbn [search] in Hs. apply search_some in Hs as (w & rest & caps & _ & _ & Hs).
    by eapply IHb.
  - intros [= ->] [prev rest caps] st'. cbn [search ms_prev ms_rest ms_caps].
    revert prev. induction rest as [|c rest IH]; intros prev; cbn [many]; [by intros [= <-]|].
    destruct (T c) eqn:Hc; [|intros [= <-]; done].
    destruct (many T (Some c) rest _) as [x|] eqn:Hm.
    + intros [= <-]. by apply (IH (Some c)).
    + intros [= <-]. exfalso.
      by pose proof (many_none T (fun prev rest => Some (mkMState prev rest caps)) [] rest (Some c) Hm eq_refl).
Qed.
