(* ===== verification/Redact.v ===== *)
(** * Log redaction (src/internal/obs/log.go)

    The expressions of [valuePatterns], [Redact], and what the logging handler
    does with a record. *)

From S2P Require Import Prelude Utf8 Regex GoStrings GoFmt RuneRegex.

(** ** The expressions of the program *)

Definition cls (p : ascii -> bool) (c : rune) : bool :=
  match c with String a EmptyString => is_ascii a && p a | _ => false end.

(** A class of an expression under (?i), given in lower case. *)
Definition icls (p : ascii -> bool) (c : rune) : bool :=
  match fold_ascii c with Some a => is_ascii a && p a | None => false end.

Definition no (p : rune -> bool) (c : rune) : bool := negb (p c).

Definition any_of (s : string) (c : ascii) : bool := existsb (Ascii.eqb c) (list_ascii_of_string s).

Definition lower_alnum : ascii -> bool := either (range "a" "z") digit.

Definition CR : ascii := ascii_of_N 13.
Definition LF : ascii := ascii_of_N 10.
Definition TAB : ascii := ascii_of_N 9.
Definition DQ : ascii := ascii_of_N 34.

Definition userinfo : redaction :=
  mkRedaction
    (seq [RCap 1 (seq [RCls (cls (either (range "a" "z") (range "A" "Z"))); RMany (cls (either alnum (any_of "+.-")));
                       word cls "://"]);
          RMany (no (cls (either go_space (any_of "/:@")))); RCls (cls (chr ":"));
          many1 (no (cls (either go_space (any_of "/@")))); RCls (cls (chr "@"))])
    (fun caps => capture 1 caps +:+ redacted +:+ "@").

Definition cookie_header : redaction :=
  mkRedaction
    (seq [RBound; RCap 1 (RSeq (maybe (word icls "set-")) (word icls "cookie")); RCls (cls (chr ":"));
          RMany (cls (either (chr " ") (chr TAB)));
          many1 (no (cls (either (chr CR) (either (chr LF) (chr DQ)))))])
    (fun caps => capture 1 caps +:+ ": " +:+ redacted).

(** A byte of a key's name. *)
Definition key_rune : rune -> bool := icls (either lower_alnum (any_of "_-")).

Definition key_name : rx :=
  alts [seq [RMany key_rune;
             alts [word icls "password"; word icls "passwd"; word icls "secret"; word icls "token";
                   word icls "session"; word icls "credential";
                   seq [word icls "api"; maybe (RCls (icls (any_of "_-"))); word icls "key"]];
             RMany key_rune];
        word icls "key"; word icls "sig"; word icls "signature"; word icls "awsaccesskeyid";
        seq [word icls "x-"; RAlt (word icls "amz") (word icls "goog"); word icls "-signature"]].

Definition key_value : redaction :=
  mkRedaction
    (seq [RCap 1 (RAlt RBegin (RCls (no key_rune)));
          RCap 2 (RSeq key_name (RCls (cls (chr "="))));
          RCap 3 (alts [seq [RCls (cls (chr "'")); RMany (no (cls (chr "'"))); RCls (cls (chr "'"))];
                        seq [RCls (cls (chr DQ)); RMany (no (cls (chr DQ))); RCls (cls (chr DQ))];
                        many1 (no (cls (either go_space (either (chr DQ) (any_of "&'<>")))))])])
    (fun caps => capture 1 caps +:+ capture 2 caps +:+ redacted).

(** A byte of a token. *)
Definition token_byte : ascii -> bool := either alnum (any_of "._~+/=-").
Definition token_byte_lower : ascii -> bool := either lower_alnum (any_of "._~+/=-").

Definition bearer : redaction :=
  mkRedaction
    (seq [RBound; word icls "bearer"; many1 (cls go_space); repeat_rx 8 (RCls (icls token_byte_lower));
          RMany (icls token_byte_lower)])
    (fun _ => redacted).

Definition api_key : redaction :=
  mkRedaction
    (seq [RBound; word cls "vzk_"; repeat_rx 8 (RCls (cls token_byte)); RMany (cls token_byte)])
    (fun _ => redacted).

Definition valuePatterns : list redaction := [userinfo; cookie_header; key_value; bearer; api_key].

Definition Redact (s : string) : string := fold_left (fun s p => ReplaceAllString p s) valuePatterns s.

Example redact_samples :
  map Redact
    ["dial postgres://vizra:aaaa@db:5432/vizra failed"; "cache redis://:bbbb@cache:6379/0 refused";
     "connect host=db password='d with space' dbname=vizra"; "GET https://b.s3.example/o?X-Amz-Signature=ff&X-Amz-Expires=900";
     "request carried Cookie: sid=v; lang=en"; "Authorization: Bearer abcdefgh12"; "key vzk_abcdefgh";
     "monkey=1 hotkey=2 xvzk_abcdefgh"]%string
  = ["dial postgres://[redacted]@db:5432/vizra failed"; "cache redis://[redacted]@cache:6379/0 refused";
     "connect host=db password=[redacted] dbname=vizra"; "GET https://b.s3.example/o?X-Amz-Signature=[redacted]&X-Amz-Expires=900";
     "request carried Cookie: [redacted]"; "Authorization: [redacted]"; "key [redacted]";
     "monkey=1 hotkey=2 xvzk_abcdefgh"]%string.
Proof. vm_compute. reflexivity. Qed.

(** The value of a cookie that is quoted stays, and so does a bearer token after
    a key whose name is one of a credential. *)
Example redact_leaves_quoted_cookie :
  Redact ("Cookie: sid=" +:+ dquote +:+ "s3cr3t" +:+ dquote) = "Cookie: [redacted]" +:+ dquote +:+ "s3cr3t" +:+ dquote.
Proof. vm_compute. reflexivity. Qed.

Example redact_leaves_token_after_key :
  Redact "access_token=Bearer s3cr3t-value" = "access_token=[redacted] s3cr3t-value"%string.
Proof. vm_compute. reflexivity. Qed.

Lemma patterns_move p : List.In p valuePatterns -> (0 < min_len (rd_re p))%nat.
Proof. intros Hp. repeat (destruct Hp as [<-|Hp]; [by apply Nat.ltb_lt; vm_compute|]). destruct Hp. Qed.

(** ** The two token expressions *)

Definition bearer_class : rune -> bool := icls token_byte_lower.
Definition key_class : rune -> bool := cls token_byte.

Lemma not_bracket (p : rune -> bool) : p "["%string = false -> p "]"%string = false ->
  forall c, p c = true -> negb (bracket c) = true.
Proof.
  intros H1 H2 c Hc. unfold bracket. destruct (String.eqb_spec c "["); [congruence|].
  destruct (String.eqb_spec c "]"); [congruence|done].
Qed.

Ltac no_brackets := cbn -[cls icls bracket chr token_byte token_byte_lower go_space either any_of];
  repeat match goal with |- _ /\ _ => split | |- True => exact I end; apply not_bracket; reflexivity.

Lemma lower_b_head c : icls (chr "b") c = true -> c = "b"%string \/ c = "B"%string.
Proof.
  unfold icls, fold_ascii. destruct c as [|a [|b [|d [|? ?]]]]; try done.
  - intros [_ Ha]%andb_true_iff. destruct a as [[] [] [] [] [] [] [] []]; vm_compute in Ha; try discriminate; auto.
  - by destruct (_ && _).
  - by destruct (_ && _ && _).
Qed.

Lemma key_v_head c : cls (chr "v") c = true -> c = "v"%string.
Proof.
  unfold cls. destruct c as [|a [|? ?]]; try done. intros [_ Ha%Ascii.eqb_eq]%andb_true_iff. by subst.
Qed.

Lemma solid_bearer T : T "b"%string = true -> T "B"%string = true -> solid T (rd_re bearer).
Proof.
  intros Hb HB. split.
  - intros prev w rest Hs%min_len_sound. etransitivity; [|exact Hs]. apply Nat.leb_le. by vm_compute.
  - intros prev w rest Hs. eapply classes_sound; [exact Hs|]. no_brackets.
  - intros prev w rest Hs. apply bound_head in Hs as (c & w' & -> & Hc). exists c, w'. split; [done|].
    by apply lower_b_head in Hc as [-> | ->].
  - intros prev w rest rest'. apply bound_local; [done|]. apply Nat.ltb_lt. by vm_compute.
Qed.

Lemma solid_key T : T "v"%string = true -> solid T (rd_re api_key).
Proof.
  intros Hv. split.
  - intros prev w rest Hs%min_len_sound. etransitivity; [|exact Hs]. apply Nat.leb_le. by vm_compute.
  - intros prev w rest Hs. eapply classes_sound; [exact Hs|]. no_brackets.
  - intros prev w rest Hs. apply bound_head in Hs as (c & w' & -> & Hc). exists c, w'. split; [done|].
    by apply key_v_head in Hc as ->.
  - intros prev w rest rest'. apply bound_local; [done|]. apply Nat.ltb_lt. by vm_compute.
Qed.

Lemma bearer_ascii prev w rest : sem (rd_re bearer) prev w rest -> starts_ascii (text w) = true.
Proof. intros Hs. apply bound_head in Hs as (c & w' & -> & [-> | ->]%lower_b_head); done. Qed.

Lemma key_ascii prev w rest : sem (rd_re api_key) prev w rest -> starts_ascii (text w) = true.
Proof. intros Hs. by apply bound_head in Hs as (c & w' & -> & ->%key_v_head). Qed.

Lemma bearer_greedy prev l st : match_at (rd_re bearer) prev l = Some st ->
  match ms_rest st with c :: _ => bearer_class c = false | [] => True end.
Proof. apply (greedy_end (rd_re bearer) bearer_class eq_refl). Qed.

Lemma key_greedy prev l st : match_at (rd_re api_key) prev l = Some st ->
  match ms_rest st with c :: _ => key_class c = false | [] => True end.
Proof. apply (greedy_end (rd_re api_key) key_class eq_refl). Qed.

(** ** What redaction guarantees *)

Lemma pass_runes p T s :
  rd_repl p = (fun _ => redacted) -> solid T (rd_re p) ->
  (forall prev w rest, sem (rd_re p) prev w rest -> starts_ascii (text w) = true) ->
  runes (ReplaceAllString p s) = replace_runes (String.length s) (rd_re p) None (runes s).
Proof.
  intros Hrepl Hsol Hasc. unfold ReplaceAllString. rewrite Hrepl, <- replace_runes_text.
  by apply (pass_coherent (rd_re p) T Hsol Hasc); [apply length_runes|apply coherent_runes].
Qed.

(** The search for a match is exact: it finds one at a place exactly when
    some run of runes there is a match of the expression, and what it returns is
    such a run; so the backtracking search and the meaning of the expressions
    agree. *)
Theorem match_search_is_exact r prev l :
  (match_at r prev l = None <-> forall w rest, l = w ++ rest -> ~ sem r prev w rest)
  /\ (forall st, match_at r prev l = Some st ->
        exists w, l = w ++ ms_rest st /\ sem r prev w (ms_rest st) /\ ms_prev st = after prev w).
Proof. split; [apply match_at_none|intros st; apply match_at_some]. Qed.

(** Redaction ends on every text: each expression of the program consumes a
    rune with every match, so one round per rune is enough and more change
    nothing; the result is the same however many rounds are allowed. *)
Theorem redaction_terminates p s fuel :
  List.In p valuePatterns -> (length (runes s) <= fuel)%nat ->
  (forall prev l st, match_at (rd_re p) prev l = Some st -> (length (ms_rest st) < length l)%nat)
  /\ replace_fuel fuel (rd_re p) (rd_repl p) None (runes s) = ReplaceAllString p s.
Proof.
  intros Hp Hf. apply patterns_move in Hp as Hm. split.
  - intros prev l st (w & -> & Hw%min_len_sound & _)%match_at_some. rewrite length_app. lia.
  - apply replace_enough; [done|done|apply length_runes].
Qed.

(** No run of a redacted text is a match of either token expression. *)
Lemma tokens_gone s :
  free (rd_re bearer) None (runes (Redact s)) /\ free (rd_re api_key) None (runes (Redact s)).
Proof.
  change (Redact s) with
    (ReplaceAllString api_key (ReplaceAllString bearer
       (ReplaceAllString key_value (ReplaceAllString cookie_header (ReplaceAllString userinfo s))))).
  generalize (ReplaceAllString key_value (ReplaceAllString cookie_header (ReplaceAllString userinfo s))). clear s. intros s.
  pose proof (solid_bearer bearer_class eq_refl eq_refl) as Sb.
  pose proof (solid_bearer key_class eq_refl eq_refl) as Sbk.
  pose proof (solid_key key_class eq_refl) as Sk.
  assert (Hb : free (rd_re bearer) None (runes (ReplaceAllString bearer s))).
  { rewrite (pass_runes bearer bearer_class) by (done || apply bearer_ascii).
    apply (pass_free (rd_re bearer) bearer_class Sb bearer_greedy _ Sb); [apply length_runes|by left|by left]. }
  rewrite (pass_runes api_key key_class) by (done || apply key_ascii). split.
  - apply (pass_free (rd_re api_key) key_class Sk key_greedy _ Sbk); [apply length_runes|by right|by left].
  - apply (pass_free (rd_re api_key) key_class Sk key_greedy _ Sk); [apply length_runes|by left|by left].
Qed.

(** C8. No bearer token and no API key survives redaction: in the runes of a
    redacted text no run, at any place, is a match of either expression, whatever
    the text was and whatever the earlier replacements did to it. *)
Theorem no_token_survives s a w rest :
  runes (Redact s) = a ++ w ++ rest ->
  ~ sem (rd_re bearer) (after None a) w rest /\ ~ sem (rd_re api_key) (after None a) w rest.
Proof. intros Hr. destruct (tokens_gone s) as [Hb Hk]. split; [by apply Hb|by apply Hk]. Qed.

(** ** The logging handler *)

Definition secretKeys : list string :=
  ["password"; "passwd"; "secret"; "token"; "authorization"; "cookie"; "set-cookie"; "api_key"; "apikey";
   "session"; "session_id"; "dsn"; "database_url"; "cache_url"; "hmac_key"; "kek"; "mfa_key_kek"; "signature";
   "private_key"]%string.

(** The value of an attribute.  Of a [*url.URL] the model keeps whether it has
    user information, its printed form, and its printed form with the user
    [[redacted]]; of any other value of kind any, its text; the remaining kinds
    (numbers, times, values that resolve themselves later) are kept by the text
    they are logged as. *)
Inductive Value :=
| VString (s : string)
| VGroup (attrs : list (string * Value))
| VURL (user : bool) (plain masked : string)
| VAny (s : string)
| VOther (s : string).

Section Attributes.
Context `{Unicode}.

Definition secret_key (k : string) : bool := one_of (ToLower k) secretKeys.

Fixpoint redact_value (v : Value) : Value :=
  match v with
  | VString s => VString (Redact s)
  | VGroup attrs =>
      VGroup ((fix go (l : list (string * Value)) : list (string * Value) :=
                 match l with
                 | [] => []
                 | (k, w) :: l => (k, if secret_key k then VString redacted else redact_value w) :: go l
                 end) attrs)
  | VURL user plain masked => VString (if user then masked else plain)
  | VAny s => VString (Redact s)
  | VOther s => VOther s
  end.

Definition redactAttr (a : string * Value) : string * Value :=
  (a.1, if secret_key a.1 then VString redacted else redact_value a.2).

Record LogRecord := mkLogRecord { Message : string; Attrs : list (string * Value) }.

(** [redactingHandler.Handle]: what reaches the inner handler. *)
Definition Handle (r : LogRecord) : LogRecord := mkLogRecord (Redact (Message r)) (map redactAttr (Attrs r)).

(** The handler that is wrapped: its encoding, and the groups and attributes it
    was derived with, last first. *)
Inductive Derived :=
| InGroup (name : string)
| WithThese (attrs : list (string * Value)).

Record innerHandler := mkInner { ih_json : bool; ih_derived : list Derived }.

Definition WithAttrs (attrs : list (string * Value)) (h : innerHandler) : innerHandler :=
  mkInner (ih_json h) (WithThese (map redactAttr attrs) :: ih_derived h).

Definition WithGroup (name : string) (h : innerHandler) : innerHandler :=
  mkInner (ih_json h) (InGroup name :: ih_derived h).

(** Production logs JSON, development text; both from [slog.LevelInfo] on. *)
Definition NewLogger (production : bool) : innerHandler := mkInner production [].

Definition LevelInfo : Z := 0.

Definition Enabled (level : Z) : bool := LevelInfo <=? level.

(** A logger derived with [Logger.With] and [Logger.WithGroup], which do
    nothing for no attributes and for the empty name. *)
Definition derive (h : innerHandler) (d : Derived) : innerHandler :=
  match d with
  | InGroup name => if name =s "" then h else WithGroup name h
  | WithThese [] => h
  | WithThese attrs => WithAttrs attrs h
  end.

(** What a call on the logger gives the inner handler, if anything. *)
Definition logged (h : innerHandler) (level : Z) (r : LogRecord) : option (innerHandler * LogRecord) :=
  if Enabled level then Some (h, Handle r) else None.

(** Two attributes that differ at most in the values under secret names. *)
Inductive alike : string * Value -> string * Value -> Prop :=
| alike_same a : alike a a
| alike_secret k v w : secret_key k = true -> alike (k, v) (k, w)
| alike_group k l l' : alikes l l' -> alike (k, VGroup l) (k, VGroup l')
with alikes : list (string * Value) -> list (string * Value) -> Prop :=
| alikes_nil : alikes [] []
| alikes_cons a b l l' : alike a b -> alikes l l' -> alikes (a :: l) (b :: l').

Scheme alike_mind := Induction for alike Sort Prop
  with alikes_mind := Induction for alikes Sort Prop.

Lemma redact_group l : redact_value (VGroup l) = VGroup (map redactAttr l).
Proof. cbn [redact_value]. f_equal. induction l as [|[k v] l IH]; [done|]. cbn [map redactAttr fst snd]. by rewrite <- IH. Qed.

Lemma alike_redacted a b : alike a b -> redactAttr a = redactAttr b.
Proof.
  intros Hab.
  apply (alike_mind (fun a b _ => redactAttr a = redactAttr b)
           (fun l l' _ => map redactAttr l = map redactAttr l')); try done.
  - intros k v w Hk. unfold redactAttr. cbn [fst snd]. by rewrite Hk.
  - intros k l l' _ He. unfold redactAttr. cbn [fst snd]. destruct (secret_key k); [done|].
    by rewrite !redact_group, He.
  - intros x y l l' _ Hx _ Hl. cbn [map]. by rewrite Hx, Hl.
Qed.

Lemma alikes_redacted l l' : alikes l l' -> map redactAttr l = map redactAttr l'.
Proof. induction 1 as [|a b l l' Hab _ IH]; [done|]. cbn [map]. by rewrite (alike_redacted a b Hab), IH. Qed.

Inductive alike_derived : Derived -> Derived -> Prop :=
| alike_in_group name : alike_derived (InGroup name) (InGroup name)
| alike_with l l' : alikes l l' -> alike_derived (WithThese l) (WithThese l').

Lemma derive_alike h d d' : alike_derived d d' -> derive h d = derive h d'.
Proof.
  intros [name|l l' Hl]; [done|]. pose proof (alikes_redacted _ _ Hl) as Hr. unfold derive, WithAttrs.
  destruct Hl; [done|]. by rewrite Hr.
Qed.

(** C31. What is logged under a secret name does not reach the log: take a logger of
    either mode, derived with any groups and attributes, and a record at any
    level; if all that differs is values under secret names, at any depth of
    groups, in what the logger was derived with or in the record, then the
    inner handler gets the same. *)
Theorem secret_values_never_logged production ds ds' level r r' :
  Forall2 alike_derived ds ds' -> Message r = Message r' -> alikes (Attrs r) (Attrs r') ->
  logged (fold_left derive ds (NewLogger production)) level r
  = logged (fold_left derive ds' (NewLogger production)) level r'.
Proof.
  intros Hd Hm Ha. assert (He : forall h, fold_left derive ds h = fold_left derive ds' h).
  { induction Hd as [|d d' ds ds' Hx _ IH]; intros h; cbn [fold_left]; [done|]. rewrite (derive_alike h d d' Hx). apply IH. }
  unfold logged, Handle. by rewrite He, Hm, (alikes_redacted _ _ Ha).
Qed.

End Attributes.

(** ** The properties at work *)

#[local] Instance plain_names : Unicode := fun s => s.

Lemma redaction_terminates_witness :
  replace_fuel 100 (rd_re api_key) (rd_repl api_key) None (runes "key vzk_abcdefgh") = "key [redacted]"%string.
Proof.
  destruct (redaction_terminates api_key "key vzk_abcdefgh" 100) as [_ ->];
    [by right; right; right; right; left|apply Nat.leb_le; reflexivity|vm_compute; reflexivity].
Defined.

Lemma no_token_survives_witness :
  ~ sem (rd_re bearer) (after None ["a"%string]) [] (runes "ab" ++ []).
Proof.
  destruct (no_token_survives "aab" ["a"%string] [] (runes "ab" ++ [])) as [Hb _]; [vm_compute; reflexivity|exact Hb].
Defined.

Lemma secret_values_never_logged_witness :
  logged (fold_left derive [InGroup "http"; WithThese [("Cookie", VString "a=b")]]%string (NewLogger true)) 4
    (mkLogRecord "boot" [("req", VGroup [("Token", VString "s3cr3t")])]%string)
  = logged (fold_left derive [InGroup "http"; WithThese [("Cookie", VString "c")]]%string (NewLogger true)) 4
      (mkLogRecord "boot" [("req", VGroup [("Token", VAny "other")])]%string).
Proof.
  apply secret_values_never_logged; [|reflexivity|].
  - constructor; [constructor|]. constructor; [|constructor]. constructor. apply alikes_cons; [|apply alikes_nil].
    apply alike_secret. vm_compute. reflexivity.
  - apply alikes_cons; [|apply alikes_nil]. apply alike_group. apply alikes_cons; [|apply alikes_nil].
    apply alike_secret. vm_compute. reflexivity.
Defined.

(** A signed URL logged as a [*url.URL] keeps its signature: only its user is
    hidden. *)
Example url_value_keeps_signature :
  redactAttr ("target"%string, VURL false "https://b.example/o?X-Amz-Signature=abcdef" "https://b.example/o?X-Amz-Signature=abcdef")
  = ("target"%string, VString "https://b.example/o?X-Amz-Signature=abcdef").
Proof. vm_compute. reflexivity. Qed.
