(* ===== verification/StoredError.v ===== *)
(** * What reaches jobs.last_error, with the redaction of the program

    [safeError] of src/internal/jobs/worker.go with [Redact] of
    src/internal/obs/log.go: the cut is made after the redaction, so no token is
    cut in half and kept. *)

From S2P Require Import Prelude Utf8 Regex GoStrings RuneRegex SafeError Redact.

Definition stored_error (s : string) : string := safeError Redact s.

(** A valid text ends on a rune boundary, so what follows it is read apart. *)
Lemma runes_Utf8_app a b : Utf8 a -> runes (a +:+ b) = runes a ++ runes b.
Proof.
  induction 1 as [|a n Hn Ha IH]; [done|].
  assert (Hne : a <> ""%string) by (by intros ->). pose proof (rune_size_le a) as Hle.
  assert (Hne' : a +:+ b <> ""%string) by (by destruct a).
  rewrite (runes_cons a Hne), (runes_cons (a +:+ b) Hne'), (rune_size_app a b n Hn), Hn. cbn [Nat.max app].
  rewrite sdrop_app, stake_prefix by lia. by rewrite IH.
Qed.

(** The marker of a cut text: its first rune is in no token, and no token begins
    in the rest. *)
Definition marker : list rune := runes truncated_suffix.

Section Cut.
Context (T : rune -> bool) (q : rx) (Hq : solid T q).
Context (Hdots : forall prev w rest, sem q prev w rest -> "…"%string ∉ w).
Context (Hmark : forallb (fun c => negb (T c)) marker = true).

(** A text free of matches stays so when its end is replaced by the marker. *)
Lemma free_cut a b : free q None (a ++ b) -> free q None (a ++ marker).
Proof.
  intros Hf x w rest E Hs. destruct (solid_head T q Hq _ _ _ Hs) as (c & w' & Hw & Hc).
  apply app_eq_app in E as [l [[Ea Er]|[Ex Em]]].
  - destruct (app_eq_app _ _ _ _ Er) as [m [[Ew Em]|[El Em]]].
    + destruct m as [|d m].
      * apply (Hf x w b); [by rewrite Ea, Ew, app_nil_r, <- app_assoc|]. by eapply (solid_local T q Hq).
      * assert (d = "…"%string) as -> by (vm_compute in Em; by injection Em).
        apply (Hdots _ _ _ Hs). rewrite Ew. apply elem_of_app. right. by left.
    + apply (Hf x w (m ++ b)); [by rewrite Ea, El, <- !app_assoc|]. by eapply (solid_local T q Hq).
  - assert (Hin : c ∈ marker) by (rewrite Em, Hw; apply elem_of_app; right; by left).
    apply list_elem_of_In in Hin. pose proof (proj1 (forallb_forall _ _) Hmark c Hin) as Hn. cbv beta in Hn. by rewrite Hc in Hn.
Qed.
End Cut.

Lemma no_dots p : p "…"%string = false -> forall c, p c = true -> negb (c =s "…") = true.
Proof. intros H c Hc. destruct (String.eqb_spec c "…"); [congruence|done]. Qed.

Ltac no_dots := cbn -[cls icls chr token_byte token_byte_lower go_space either any_of String.eqb];
  repeat match goal with |- _ /\ _ => split | |- True => exact I end; apply no_dots; reflexivity.

Lemma dots_outside q prev w rest :
  classes_in (fun c => negb (c =s "…")) q -> sem q prev w rest -> "…"%string ∉ w.
Proof.
  intros Hc Hs Hin. pose proof (classes_sound _ _ _ _ _ Hs Hc) as Hf.
  apply list_elem_of_In in Hin. by pose proof (proj1 (forallb_forall _ _) Hf _ Hin).
Qed.

(** Which runes a token begins with. *)
Definition b_head (c : rune) : bool := (c =s "b") || (c =s "B").
Definition v_head (c : rune) : bool := c =s "v".

(** C9. What is stored holds no bearer token and no API key: in the runes of the
    stored text no run is a match of either expression, as long as the redacted
    text fits or is valid UTF-8. *)
Theorem stored_error_has_no_token s a w rest :
  len (Redact s) <= 2000 \/ ValidString (Redact s) = true ->
  runes (stored_error s) = a ++ w ++ rest ->
  ~ sem (rd_re bearer) (after None a) w rest /\ ~ sem (rd_re api_key) (after None a) w rest.
Proof.
  intros Hv Hr. destruct (tokens_gone s) as [Hb Hk]. unfold stored_error, safeError in Hr. set (t := Redact s) in *.
  destruct (Z.leb_spec (len t) 2000) as [Hl|Hl].
  { rewrite truncate_short in Hr by done. split; [by apply Hb|by apply Hk]. }
  destruct Hv as [Hv|Hv]; [lia|]. destruct (truncate_keeps_prefix t Hv) as [_ Hcut]. destruct (Hcut Hl) as (cut & _ & Ht).
  assert (Hp : Utf8 (stake cut t)).
  { destruct (truncate_long t (len_long t Hl)) as (out & Ho & Hu & _). rewrite Ht in Ho.
    by apply sapp_inj_r in Ho as ->. }
  rewrite Ht, runes_Utf8_app in Hr by done. rewrite <- (stake_sdrop cut t), runes_Utf8_app in Hb, Hk by done.
  split; revert Hr.
  - apply (free_cut b_head _ (solid_bearer b_head eq_refl eq_refl)) with (b := runes (sdrop cut t)); [|reflexivity|exact Hb].
    intros. eapply dots_outside; [|eassumption]. no_dots.
  - apply (free_cut v_head _ (solid_key v_head eq_refl)) with (b := runes (sdrop cut t)); [|reflexivity|exact Hk].
    intros. eapply dots_outside; [|eassumption]. no_dots.
Qed.

Lemma stored_error_has_no_token_witness :
  ~ sem (rd_re api_key) (after None ["a"%string]) [] (runes " [redacted]" ++ []).
Proof.
  destruct (stored_error_has_no_token "a vzk_0123456789" ["a"%string] [] (runes " [redacted]" ++ [])) as [_ Hk];
    [left; vm_compute; discriminate|vm_compute; reflexivity|exact Hk].
Defined.

(** Beyond 2000 bytes the invalid bytes are dropped after the redaction, and two
    halves of a token meet: the redaction finds no token in the text, and the
    stored text has one. *)
Definition split_token : string := "vzk_0123" +:+ String (ascii_of_N 255) "4567 ".

Definition long_tail : string := String.concat "" (List.repeat "aaaaaaaaaaaaaaaaaaa " 100).

Example dropped_byte_joins_a_token :
  Redact (split_token +:+ long_tail) = split_token +:+ long_tail
  /\ stake 13 (stored_error (split_token +:+ long_tail)) = "vzk_01234567 "%string
  /\ Redact "vzk_01234567 " = "[redacted] "%string.
Proof. vm_compute. repeat split. Qed.
