(* ===== verification/Commands.v ===== *)
(** * The operator's command (src/cmd/vizra)

    The dispatch of [main] with its exit codes, and the subcommands: [version],
    [migrate], [claim-token], and the ones whose bodies are [Doctor] and
    [Healthcheck].  A command maps the databases to what it wrote to its two
    outputs, its error, and the databases after it. *)

From S2P Require Import Prelude Utf8 Regex GoStrings Decimals GoTime GoFmt GoJson Sha256 Pg SearchHmac Origin Config Search Migrate OwnerStore AuditLog OwnerClaim OwnerSystem Stores Healthcheck Doctor HttpServer.

(** ** Running *)

(** What a run of the command meets besides the databases: the doctor's world
    (the environment is its [w_environ]), the network, the build, and what the
    statements of a mint meet. *)
Record Machine (P : Type) := mkMachine {
  mc_world : World P;
  mc_net : Transport;
  mc_build : BuildInfo;
  mc_mint : MintEnv;
  mc_entropy : option string;
  mc_uuids : option uuid * option uuid;
  mc_now : timestamp
}.
Arguments mc_world {P} _.
Arguments mc_net {P} _.
Arguments mc_build {P} _.
Arguments mc_mint {P} _.
Arguments mc_entropy {P} _.
Arguments mc_uuids {P} _.
Arguments mc_now {P} _.

(** The databases: their schemas, and the identity tables of the default one. *)
Record Databases (W : Type) := mkDatabases { schemas : W; identity : Db }.
Arguments mkDatabases {W} _ _.
Arguments schemas {W} _.
Arguments identity {W} _.

(** A command: standard output, standard error, its error, the databases. *)
Record Ran (W : Type) := mkRan { r_out : string; r_err : string; r_error : option string; r_state : Databases W }.
Arguments mkRan {W} _ _ _ _.
Arguments r_out {W} _.
Arguments r_err {W} _.
Arguments r_error {W} _.
Arguments r_state {W} _.

(** The process: its exit code, its outputs, the databases. *)
Record Exited (W : Type) := mkExited { x_code : Z; x_out : string; x_err : string; x_state : Databases W }.
Arguments mkExited {W} _ _ _ _.
Arguments x_code {W} _.
Arguments x_out {W} _.
Arguments x_err {W} _.
Arguments x_state {W} _.

Definition lines (l : list string) : string := String.concat "" (map (fun s => s +:+ newline) l).

Definition cli_usage : string := lines [
  "vizra — the Vizra operator CLI";
  "";
  "Usage:";
  "  vizra version            Print build identity, including the libvips loader list.";
  "  vizra doctor [--env F]   Check configuration, database, cache and search. Exit 1 on any FAIL.";
  "  vizra migrate [--dry-run]";
  "                           Apply embedded migrations to every configured site.";
  "  vizra healthcheck TARGET Probe a local process for READINESS. TARGET is api or";
  "                           worker. Exit 0 only on a ready answer; this is the";
  "                           container healthcheck, and it cannot pass while the";
  "                           service it probes is broken. See --help for exit codes.";
  "  vizra claim-token        Mint a one-time owner-claim token and print it to";
  "                           stdout. Refuses once the instance has accounts.";
  "";
  "Commands arriving with later slices: setup, backup, restore, update, jobs."]%string.

Definition orNone (s : string) : string := if s =s "" then "(not recorded)" else s.

(** The text of an error of the flag package. *)
Definition FlagError_Error `{Printable} (e : FlagError) : string :=
  match e with
  | ErrHelp => "flag: help requested"
  | _ => TrimSuffix (FlagError_line e) newline
  end.

(** [flag.PrintDefaults] for a flag whose default is the zero value; a tab
    separates the description. *)
Definition flag_default (head what : string) : string :=
  "  -" +:+ head +:+ newline +:+ "    " +:+ String (ascii_of_N 9) what +:+ newline.

Section Commands.
Context `{HU : Unicode, HN : NetUrl, HW : UrlPrint, HQ : Printable, HR : NewRequest, HC : Redis}.
Context `{HSrv : OwnerStore.Server}.
Context {P W : Type} `{HD : PgxPool P, HL : Ledger W}.

(** The names of the embedded migrations. *)
Context (entries : list string).

(** The texts of the owner claim's errors carry the driver's. *)
Context (owner_text : OwnerError -> string).

(** A flag set of one command that fails: what it printed, and its error. *)
Definition flags_failed (name defaults : string) (e : FlagError) (s : Databases W) : Ran W :=
  mkRan "" (FlagError_line e +:+ "Usage of " +:+ name +:+ ":" +:+ newline +:+ defaults)
    (Some (FlagError_Error e)) s.

Definition flag_bool (name : string) (fs : list Formal) : bool :=
  match map_get name fs with Some (FlagBool b) => b | _ => false end.

Definition failed_with (out text : string) (s : Databases W) : Ran W := mkRan out "" (Some text) s.

Definition member (k : string) (j : Json) : string * Json := (k, j).

Definition version_info (b : BuildInfo) (embedded : Z) : Json :=
  JObject ([member "built_at" (JString (BuiltAt b)); member "commit" (JString (Commit b));
            member "go_version" (JString (GoVersion b))]
    ++ (if ImageDigest b <>s "" then [member "image_digest" (JString (ImageDigest b))] else [])
    ++ (if HasLibvips b
        then [member "libvips" (JObject
               [member "loaders" (if libvipsLoaders b =s "" then JNull else JArray (map JString (Loaders b)));
                member "version" (JString (LibvipsVersion b))])]
        else [])
    ++ [member "release" (JString (Release b)); member "schema_version" (JInt embedded)]).

Definition version_text (b : BuildInfo) (embedded : Z) : string :=
  lines ["vizra " +:+ Release b +:+ " (" +:+ Commit b +:+ ")";
         "  built     " +:+ orNone (BuiltAt b);
         "  go        " +:+ GoVersion b;
         "  schema    " +:+ Itoa embedded +:+ " (embedded)";
         "  image     " +:+ orNone (ImageDigest b)]
  +:+ lines (if HasLibvips b
             then ["  libvips   " +:+ LibvipsVersion b; "  loaders   [" +:+ Join (Loaders b) " " +:+ "]"]
             else ["  libvips   not recorded (this binary was not built into the release image)"])%string.

Definition runVersion (m : Machine P) (args : list string) (s : Databases W) : Ran W :=
  match Parse_flags args [("json", FlagBool false)]%string with
  | Err e => flags_failed "version" (flag_default "json" "print as JSON") e s
  | Ok (_, fs) =>
      match EmbeddedVersion entries with
      | Err e => failed_with "" (MigrateError_Error e) s
      | Ok embedded =>
          mkRan (if flag_bool "json" fs then indented 0 (version_info (mc_build m) embedded) +:+ newline
                 else version_text (mc_build m) embedded) "" None s
      end
  end.

Definition site_line (r : SiteResult) : string :=
  "  " +:+ pad_right 20 (sr_Handle r) +:+
  match sr_Err r with
  | Some e => " FAIL   " +:+ ApplyError_Error e
  | None => (if sr_Applied r then " APPLIED to version " else " current at version ") +:+ Itoa (sr_Version r)
  end.

Definition runMigrate (m : Machine P) (args : list string) (s : Databases W) : Ran W :=
  match Parse_flags args [("dry-run", FlagBool false)]%string with
  | Err e => flags_failed "migrate" (flag_default "dry-run" "report what would be applied, change nothing") e s
  | Ok (_, fs) =>
  match LoadFrom (w_environ (mc_world m)) with
  | Err ps => failed_with "" ("vizra migrate refused to run." +:+ newline +:+ ValidationError_Error ps) s
  | Ok cfg =>
  let resolver := NewResolver (core_site cfg) in
  match EmbeddedVersion entries with
  | Err e => failed_with "" (MigrateError_Error e) s
  | Ok embedded =>
  let head := "embedded schema version: " +:+ Itoa embedded in
  if flag_bool "dry-run" fs then
    mkRan (lines (head :: ("dry run: " +:+ Itoa (Z.of_nat (length (sites resolver)))
                           +:+ " site database(s) would be migrated to version " +:+ Itoa embedded)
                       :: map (fun st => "  - " +:+ Origin.Handle st) (sites resolver))) "" None s
  else
    let '(results, runErr, w) := ApplyAll resolver (schemas s) in
    mkRan (lines (head :: map site_line results)) ""
      match runErr with
      | None => None
      | Some (n, total) =>
          Some ("migrate: " +:+ Itoa n +:+ " of " +:+ Itoa total +:+ " site database(s) failed to migrate")
      end (mkDatabases w (identity s))
  end end end%string.

Definition already_claimed : string :=
  Join ["vizra claim-token: this instance already has accounts, so it is already claimed.";
        "No token was minted. Owner claim runs exactly once in the life of an instance;";
        "if you have lost access to the owner account, that is an account-recovery";
        "problem, not a re-claim."]%string newline.

Definition claim_notice (cfg : Config) (generation : Z) : string :=
  lines ["Owner claim token (generation " +:+ Itoa generation +:+ "), valid for "
         +:+ DurationString (cfg_OwnerClaimTTL cfg) +:+ ".";
         "It works once. Paste it into the claim page at " +:+ cfg_PublicOrigin cfg +:+ "/setup/claim";
         "Running this command again mints a new token and invalidates this one."; ""]%string.

Definition runClaimToken (m : Machine P) (args : list string) (s : Databases W) : Ran W :=
  match Parse_flags args [] with
  | Err e => flags_failed "claim-token" "" e s
  | Ok _ =>
  match LoadFrom (w_environ (mc_world m)) with
  | Err ps => failed_with "" ("vizra claim-token refused to run." +:+ newline +:+ ValidationError_Error ps) s
  | Ok cfg =>
  match Open (NewResolver (core_site cfg)) with
  | Err (text, _) => failed_with "" ("vizra claim-token could not reach the database: " +:+ text) s
  | Ok _ =>
  match Mint (mc_mint m) (mc_entropy m) (mc_uuids m) (cfg_OwnerClaimTTL cfg) true false (mc_now m) (identity s) with
  | (Err ErrHasUsers, db) => failed_with "" already_claimed (mkDatabases (schemas s) db)
  | (Err e, db) =>
      failed_with "" ("vizra claim-token could not mint a token: " +:+ owner_text e) (mkDatabases (schemas s) db)
  | (Ok (raw, generation), db) =>
      mkRan (raw +:+ newline) (claim_notice cfg generation) None (mkDatabases (schemas s) db)
  end end end end%string.

(** [runDoctor] as a command: it only reads. *)
Definition doctor_command (m : Machine P) (args : list string) (s : Databases W) : Ran W :=
  match runDoctor entries MigrateError_Error (mc_world m) args with
  | Err e => flags_failed "doctor"
               (flag_default "env string" "validate this env file instead of the process environment") e s
  | Ok (out, err) => mkRan out "" err s
  end.

Definition runHealthcheck (m : Machine P) (args : list string) : Outcome :=
  Run args (w_environ (mc_world m)) (mc_net m).

(** The end of [main]: an error is printed and exits 1. *)
Definition finish (r : Ran W) : Exited W :=
  match r_error r with
  | None => mkExited 0 (r_out r) (r_err r) (r_state r)
  | Some text => mkExited 1 (r_out r) (r_err r +:+ text +:+ newline) (r_state r)
  end.

(** [args] are the arguments after the program's name. *)
Definition main (m : Machine P) (args : list string) (s : Databases W) : Exited W :=
  match args with
  | [] => mkExited 2 "" cli_usage s
  | command :: rest =>
      if command =s "version" then finish (runVersion m rest s)
      else if command =s "doctor" then finish (doctor_command m rest s)
      else if command =s "migrate" then finish (runMigrate m rest s)
      else if command =s "healthcheck" then
        let o := runHealthcheck m rest in mkExited (exit o) (stdout o) (stderr o) s
      else if command =s "claim-token" then finish (runClaimToken m rest s)
      else if one_of command ["help"; "-h"; "--help"]%string then mkExited 0 cli_usage "" s
      else mkExited 2 "" ("vizra: unknown command " +:+ Quote command +:+ newline +:+ newline +:+ cli_usage) s
  end.

End Commands.

(** ** What a run may change, and what it prints *)

Definition commands : list string :=
  ["version"; "doctor"; "migrate"; "healthcheck"; "claim-token"; "help"; "-h"; "--help"]%string.

Lemma TrimRight_newline s : sall lower_hex s = true -> TrimRightSpace (s +:+ newline) = s.
Proof.
  induction s as [|c s IH]; [by vm_compute|]. cbn [sall]. intros [Hc Hs]%andb_true_iff.
  rewrite sapp_cons. cbn [TrimRightSpace].
  assert (TrimLeftSpace (String c (s +:+ newline)) = String c (s +:+ newline)) as ->
    by (apply TrimLeft_id; by apply hex_no_space).
  cbn [String.eqb]. f_equal. by apply IH.
Qed.

(** A token pasted with the end of its line. *)
Lemma Normalize_line `{Unicode} s : sall lower_hex s = true -> Normalize (s +:+ newline) = s.
Proof.
  intros Hs. unfold Normalize. assert (TrimSpace (s +:+ newline) = s) as ->.
  { unfold TrimSpace. destruct s as [|c s]; [by vm_compute|].
    rewrite sapp_cons, TrimLeft_id, <- sapp_cons; [by apply TrimRight_newline|].
    simpl in Hs. apply andb_true_iff in Hs as [? ?]. by apply hex_no_space. }
  rewrite <- (trim_hex s) at 1 by done. by apply Normalize_hex.
Qed.

Section Contract.
Context `{HU : Unicode, HN : NetUrl, HW : UrlPrint, HQ : Printable, HR : NewRequest, HC : Redis}.
Context `{HSrv : OwnerStore.Server}.
Context {P W : Type} `{HD : PgxPool P, HL : Ledger W}.
Context (entries : list string) (owner_text : OwnerError -> string).

Lemma finish_code (r : Ran W) : x_code (finish r) = 0 \/ x_code (finish r) = 1.
Proof. unfold finish. destruct (r_error r); auto. Qed.

Lemma finish_state (r : Ran W) : x_state (finish r) = r_state r.
Proof. unfold finish. by destruct (r_error r). Qed.

Lemma healthcheck_code (m : Machine P) args :
  exit (runHealthcheck m args) = 0 \/ exit (runHealthcheck m args) = 1 \/ exit (runHealthcheck m args) = 64.
Proof.
  unfold runHealthcheck, Run, verdict, refuse. repeat case_match; simpl; auto.
Qed.

(** A run of the claim-token command that mints nothing prints nothing and
    changes nothing; one that mints prints the token. *)
Lemma claim_token_cases (m : Machine P) args (s : Databases W) :
  let r := runClaimToken owner_text m args s in
  (r_error r <> None /\ r_out r = ""%string /\ r_state r = s)
  \/ exists cfg b g db,
       LoadFrom (w_environ (mc_world m)) = Ok cfg
       /\ Mint (mc_mint m) (mc_entropy m) (mc_uuids m) (cfg_OwnerClaimTTL cfg) true false (mc_now m) (identity s)
          = (Ok (hex b, g), db)
       /\ AnyUserExists (m_users (mc_mint m)) = false
       /\ mc_entropy m = Some b
       /\ token db = Some (minted (Sum256 (hex b)) (interval (cfg_OwnerClaimTTL cfg)) (mc_now m) (token (identity s)))
       /\ Pg.refuse "23514" (token_checks (minted (Sum256 (hex b)) (interval (cfg_OwnerClaimTTL cfg)) (mc_now m)
                                         (token (identity s)))) = None
       /\ g = generation (minted (Sum256 (hex b)) (interval (cfg_OwnerClaimTTL cfg)) (mc_now m) (token (identity s)))
       /\ users db = users (identity s)
       /\ r = mkRan (hex b +:+ newline) (claim_notice cfg g) None (mkDatabases (schemas s) db).
Proof.
  cbv zeta. unfold runClaimToken. destruct (Parse_flags args []) as [?|e]; [|by left].
  destruct (LoadFrom _) as [cfg|ps] eqn:Hc; [|by left]. destruct (Open _) as [?|[t cl]]; [|by left].
  destruct s as [w db0]. cbn [schemas identity].
  destruct (Mint_cases (mc_mint m) (mc_entropy m) (mc_uuids m) (cfg_OwnerClaimTTL cfg) true false (mc_now m) db0)
    as [[e ->]|(Hm & Hu & _)]; [left; by destruct e|].
  destruct (mint_write_cases (mc_mint m) (State (mc_now m) (m_state (mc_mint m))) (mc_entropy m) (mc_uuids m)
    (cfg_OwnerClaimTTL cfg) (mc_now m) db0) as [[e He]|(b & pre & ev & Hb & _ & _ & _ & _ & Hchk & He)];
    rewrite He in Hm; rewrite Hm; [left; by destruct e|].
  right. exists cfg, b. eexists _, _. repeat (split; [by auto|]). done.
Qed.

Lemma version_state (m : Machine P) args (s : Databases W) : r_state (runVersion entries m args s) = s.
Proof. unfold runVersion. by repeat case_match. Qed.

Lemma doctor_state (m : Machine P) args (s : Databases W) : r_state (doctor_command entries m args s) = s.
Proof. unfold doctor_command. by repeat case_match. Qed.

(** The run over every site, and when it happens. *)
Definition migrated (m : Machine P) (args : list string) (s : Databases W) (w : W) : Prop :=
  exists rest fs left_over cfg embedded, args = "migrate"%string :: rest
    /\ Parse_flags rest [("dry-run"%string, FlagBool false)] = Ok (left_over, fs) /\ flag_bool "dry-run" fs = false
    /\ LoadFrom (w_environ (mc_world m)) = Ok cfg /\ EmbeddedVersion entries = Ok embedded
    /\ w = (ApplyAll (NewResolver (core_site cfg)) (schemas s)).2.

Lemma migrate_state (m : Machine P) rest (s : Databases W) :
  identity (r_state (runMigrate entries m rest s)) = identity s
  /\ (r_state (runMigrate entries m rest s) = s
      \/ migrated m ("migrate"%string :: rest) s (schemas (r_state (runMigrate entries m rest s)))).
Proof.
  unfold runMigrate. destruct (Parse_flags rest _) as [[lo fs]|e] eqn:Hf; [|by auto].
  destruct (LoadFrom _) as [cfg|ps] eqn:Hc; [|by auto]. cbv zeta.
  destruct (EmbeddedVersion entries) as [em|e] eqn:He; [|by auto].
  destruct (flag_bool _ fs) eqn:Hd; [by auto|].
  destruct (ApplyAll _ (schemas s)) as [[rs err] w] eqn:Ha. split; [done|]. right.
  exists rest, fs, lo, cfg, em. repeat (split; [done|]). by rewrite Ha.
Qed.

(** A command that is known exits with another code than 2. *)
Lemma known_command c rest m (s : Databases W) (x : Exited W) :
  List.In c commands -> x_code x = 0 \/ x_code x = 1 \/ x_code x = 64 ->
  (x_state x = s
   \/ c = "claim-token"%string /\ x_code x = 0 /\ schemas (x_state x) = schemas s
   \/ identity (x_state x) = identity s /\ migrated m (c :: rest) s (schemas (x_state x))) ->
  List.In (x_code x) [0; 1; 2; 64]
  /\ (x_code x = 2 <-> forall c' rest', c :: rest = c' :: rest' -> ~ List.In c' commands)
  /\ (identity (x_state x) <> identity s -> x_code x = 0 /\ exists rest', c :: rest = "claim-token"%string :: rest')
  /\ (schemas (x_state x) <> schemas s -> migrated m (c :: rest) s (schemas (x_state x))).
Proof.
  intros Hc Hx Hs. split; [simpl; lia|]. split.
  - split; [lia|]. intros Hno. by destruct (Hno c rest).
  - destruct Hs as [->|[(-> & -> & ->)|[-> ?]]]; split; try done. by eauto.
Qed.

(** C10. Only two commands write.  Whatever the arguments, the process exits 0,
    1, 2 or 64, and 2 exactly when the command is missing or unknown; the
    identity tables change only under [claim-token], on exit 0; the schemas
    change only under [migrate], with flags that parse and do not ask for a dry
    run, a valid configuration and a well-formed embedded set of migrations, and
    then by the run over every site and nothing else. *)
Theorem only_migrate_and_claim_write (m : Machine P) args (s : Databases W) :
  let x := main entries owner_text m args s in
  List.In (x_code x) [0; 1; 2; 64]
  /\ (x_code x = 2 <-> forall c rest, args = c :: rest -> ~ List.In c commands)
  /\ (identity (x_state x) <> identity s -> x_code x = 0 /\ exists rest, args = "claim-token"%string :: rest)
  /\ (schemas (x_state x) <> schemas s -> migrated m args s (schemas (x_state x))).
Proof.
  cbv zeta. destruct args as [|c rest]; [simpl; repeat split; auto; done|]. cbn [main].
  destruct (String.eqb_spec c "version") as [->|H1].
  { apply known_command; [simpl; auto|destruct (finish_code (runVersion entries m rest s)); auto|].
    left. by rewrite finish_state, version_state. }
  destruct (String.eqb_spec c "doctor") as [->|H2].
  { apply known_command; [simpl; auto|destruct (finish_code (doctor_command entries m rest s)); auto|].
    left. by rewrite finish_state, doctor_state. }
  destruct (String.eqb_spec c "migrate") as [->|H3].
  { apply known_command; [simpl; auto|destruct (finish_code (runMigrate entries m rest s)); auto|].
    rewrite finish_state. destruct (migrate_state m rest s) as [? [?|?]]; auto. }
  destruct (String.eqb_spec c "healthcheck") as [->|H4].
  { apply known_command; [simpl; auto 6|apply healthcheck_code|by left]. }
  destruct (String.eqb_spec c "claim-token") as [->|H5].
  { apply known_command; [simpl; auto 6|destruct (finish_code (runClaimToken owner_text m rest s)); auto|].
    rewrite finish_state. destruct (claim_token_cases m rest s) as [(_ & _ & ?)|H]; [by left|].
    destruct H as (? & ? & ? & ? & _ & _ & _ & _ & _ & _ & _ & _ & ->). by auto. }
  destruct (one_of c _) eqn:Ho; [apply known_command; [|by auto|by left]|].
  - unfold one_of in Ho. apply existsb_exists in Ho as (y & Hy & ->%String.eqb_eq). simpl in *. tauto.
  - split; [simpl; auto|]. repeat split; try done. intros _ c' rest' [= <- <-] Hin. simpl in Hin.
    unfold one_of in Ho. repeat (destruct Hin as [<-|Hin]; [done|]). done.
Qed.

(** C27. [claim-token] prints the secret to standard output and nowhere else.
    Unless it mints, it prints nothing there and changes nothing, and it exits
    with 1.  When it mints, the instance had no account at its check; standard
    output is the token alone, and pasted with the end of its line it is the
    token whose digest the database now holds, live, with the next generation;
    what goes to standard error is a function of the configuration and of the
    generation, so not of the token. *)
Theorem claim_token_prints_once (m : Machine P) rest (s : Databases W) :
  let x := main entries owner_text m ("claim-token"%string :: rest) s in
  (x_code x = 1 /\ x_out x = ""%string /\ x_state x = s)
  \/ x_code x = 0 /\ AnyUserExists (m_users (mc_mint m)) = false
     /\ exists cfg b t,
          LoadFrom (w_environ (mc_world m)) = Ok cfg /\ mc_entropy m = Some b
          /\ x_out x = hex b +:+ newline
          /\ token (identity (x_state x)) = Some t /\ live (mc_now m) t = true
          /\ token_sha256 t = Digest (Normalize (x_out x))
          /\ generation t = match token (identity s) with None => 1 | Some o => generation o + 1 end
          /\ x_err x = claim_notice cfg (generation t)
          /\ users (identity (x_state x)) = users (identity s) /\ schemas (x_state x) = schemas s.
Proof.
  cbv zeta. change (main _ _ _ _ _) with (finish (runClaimToken owner_text m rest s)).
  destruct (claim_token_cases m rest s) as [(He & Ho & Hs)|(cfg & b & g & db & Hc & _ & Hu & Hb & Ht & Hk & Hg & Hus & ->)].
  - left. unfold finish. by destruct (r_error _).
  - right. cbn [finish r_error r_out r_err r_state x_code x_out x_err x_state identity schemas].
    split; [done|]. split; [done|]. exists cfg, b. eexists. repeat (split; [done|]).
    subst g. rewrite Normalize_line by apply hex_lower. repeat split; try done.
    unfold live. cbn. apply refuse_none in Hk. unfold token_checks in Hk. simpl in Hk.
    rewrite !andb_true_iff in Hk. tauto.
Qed.

End Contract.

(** ** A session *)

#[local] Existing Instance ascii_only.
#[local] Existing Instance schemes.
#[local] Existing Instance no_users.
#[local] Existing Instance all_printable.
#[local] Existing Instance any_request.
#[local] Existing Instance OwnerSystem.Samples.server.
#[local] Instance any_pool : PgxPool unit := {| ParseConfig := fun _ => true; NewWithConfig := fun _ _ _ => Ok tt |}.
#[local] Instance any_cache : Redis := fun _ => true.

(** One database, whose version the migrations raise to 2. *)
#[local] Instance one_schema : Ledger Z := {|
  l_open := fun _ v => (None, v);
  l_version := fun _ v => Ok (v, false);
  l_up := fun _ v => if v =? 2 then (UpNoChange, v) else (UpDone, 2)
|}.

Definition session_world : World unit :=
  mkWorld unit sample_lookup (fun _ => Err ""%string) false None (fun _ => None) (fun _ => Ok "18.0"%string)
    (fun _ => Ok (2, false)) (fun _ => Ok empty_db) (fun _ => Ok empty_db) 1000 None (Err ""%string) idle_env.

Definition session : Machine unit :=
  mkMachine unit session_world host_net (mkBuildInfo "1.0" "abc" "" "" "8.17" "jpeg, ,png" "go1.26" [])
    OwnerSystem.Samples.quiet (Some OwnerSystem.Samples.entropy) OwnerSystem.Samples.uuids 1000.

Definition run_session (args : list string) : Exited Z :=
  main ["0001_a.up.sql"; "0002_b.up.sql"]%string (fun _ => ""%string) session args (mkDatabases 1 empty_db).

Example session_runs :
  (x_out (run_session ["claim-token"%string]) = hex OwnerSystem.Samples.entropy +:+ newline)%string
  /\ map (fun a => let x := run_session a in (x_code x, schemas (x_state x), x_out x))
       [["migrate"]; ["migrate"; "--dry-run"]; ["migrate"; "-dry-run=maybe"]; ["migration"]]%string
     = [(0, 2, lines ["embedded schema version: 2"; "  default              APPLIED to version 2"]);
        (0, 1, lines ["embedded schema version: 2"; "dry run: 1 site database(s) would be migrated to version 2"; "  - default"]);
        (1, 1, ""); (2, 1, "")]%string
  /\ ReplaceAll (x_out (run_session ["version"; "-json"]%string)) dquote "'"
     = lines ["{"; "  'built_at': '',"; "  'commit': 'abc',"; "  'go_version': 'go1.26',"; "  'libvips': {";
              "    'loaders': ["; "      'jpeg',"; "      'png'"; "    ],"; "    'version': '8.17'"; "  },";
              "  'release': '1.0',"; "  'schema_version': 2"; "}"]%string.
Proof. vm_compute. repeat split; reflexivity. Qed.
