(* ===== verification/Leader.v ===== *)
(** * Which worker sweeps (sweepOnce and sweepLoop of src/internal/jobs/worker.go,
    the lock statements of src/internal/store/sqlcgen/jobs.sql.go)

    Every worker process sweeps elapsed leases on a timer, behind an advisory
    lock of the database session it borrows for the sweep.  The system here is
    the sweeps of all of them: sessions that end at any time, statements that
    fail, and other users of advisory locks. *)

From stdpp Require Import relations.
From S2P Require Import Prelude Utf8 GoTime SafeError Pg JobTable Jobs Gauges.

(** ** Advisory locks *)

(** Locks of one big integer and of two integers are different spaces. *)
Inductive LockKey := Big (n : Z) | Pair (class_ object_ : Z).

#[global] Instance LockKey_dec : EqDecision LockKey.
Proof. solve_decision. Defined.
#[global] Instance LockKey_countable : Countable LockKey.
Proof.
  refine (inj_countable' (fun k => match k with Big n => inl n | Pair a b => inr (a, b) end)
            (fun s => match s with inl n => Big n | inr (a, b) => Pair a b end) _); by intros [].
Defined.

Abbreviation session := string.

(** Who holds a lock, and how often: the same session may take it again. *)
Abbreviation Locks := (gmap LockKey (session * nat)).

Definition TryAdvisoryLock (c : session) (k : LockKey) (l : Locks) : bool * Locks :=
  match l !! k with
  | None => (true, <[k := (c, 1%nat)]> l)
  | Some (h, n) => if bool_decide (h = c) then (true, <[k := (c, S n)]> l) else (false, l)
  end.

Definition AdvisoryUnlock (c : session) (k : LockKey) (l : Locks) : bool * Locks :=
  match l !! k with
  | Some (h, n) =>
      if bool_decide (h = c)
      then (true, match n with S (S m) => <[k := (c, S m)]> l | _ => delete k l end)
      else (false, l)
  | None => (false, l)
  end.

(** The end of a session gives back everything it holds. *)
Definition end_session (c : session) (l : Locks) : Locks := filter (fun kv => kv.2.1 <> c) l.

(** The lock of the sweep: leaderLockClassID and leaderLockObjectID. *)
Definition leaderLock : LockKey := Pair 22106 1.

(** ** Sweeps in progress *)

(** How far [sweepOnce] is on its session: it has one, it has the lock, its
    statement is done. *)
Inductive Sweep := Acquired (c : session) | Leading (c : session) | Unlocking (c : session).

Definition session_of (p : Sweep) : session :=
  match p with Acquired c | Leading c | Unlocking c => c end.

Definition leads (p : Sweep) : bool := match p with Acquired _ => false | _ => true end.

(** The processes that sweep, the locks, and the queue.  [leaked] counts, for
    the proofs only, the unlocks a living session was refused. *)
Record Lead := mkLead {
  doing : gmap string Sweep;
  locks : Locks;
  leaked : gmap session nat;
  queue : Table;
  at_ : timestamp
}.

Definition leaks (s : Lead) (c : session) : nat := default 0%nat (leaked s !! c).

Definition with_doing (d : gmap string Sweep) (s : Lead) : Lead := mkLead d (locks s) (leaked s) (queue s) (at_ s).

Section Sweeps.
Context `{Jsonb}.

(** What the sweeps and the sessions do. *)
Inductive sweep_act : Lead -> Lead -> Prop :=
| L_acquire s r c :
    doing s !! r = None -> (forall r' p, doing s !! r' = Some p -> session_of p <> c) ->
    sweep_act s (with_doing (<[r := Acquired c]> (doing s)) s)
| L_lock s r c got l' :
    doing s !! r = Some (Acquired c) -> TryAdvisoryLock c leaderLock (locks s) = (got, l') ->
    sweep_act s (mkLead (if got then <[r := Leading c]> (doing s) else delete r (doing s))
                    l' (leaked s) (queue s) (at_ s))
| L_lock_failed s r c :
    doing s !! r = Some (Acquired c) -> sweep_act s (with_doing (delete r (doing s)) s)
| L_sweep s r c t' n :
    doing s !! r = Some (Leading c) -> sweepOnce true (at_ s) (queue s) = Ok (t', n) ->
    sweep_act s (mkLead (<[r := Unlocking c]> (doing s)) (locks s) (leaked s) t' (at_ s))
| L_sweep_failed s r c :
    doing s !! r = Some (Leading c) -> sweep_act s (with_doing (<[r := Unlocking c]> (doing s)) s)
| L_unlock s r c :
    doing s !! r = Some (Unlocking c) ->
    sweep_act s (mkLead (delete r (doing s)) (AdvisoryUnlock c leaderLock (locks s)).2
                    (leaked s) (queue s) (at_ s))
| L_unlock_refused s r c :
    doing s !! r = Some (Unlocking c) ->
    sweep_act s (mkLead (delete r (doing s)) (locks s) (<[c := S (leaks s c)]> (leaked s)) (queue s) (at_ s))
| L_session_end s c :
    sweep_act s (mkLead (filter (fun rp => session_of rp.2 <> c) (doing s)) (end_session c (locks s))
                    (delete c (leaked s)) (queue s) (at_ s))
| L_other s c k l' :
    k <> leaderLock ->
    l' = (TryAdvisoryLock c k (locks s)).2 \/ l' = (AdvisoryUnlock c k (locks s)).2 ->
    sweep_act s (mkLead (doing s) l' (leaked s) (queue s) (at_ s)).

(** Beside them, the other statements change the queue and time passes. *)
Inductive sweep_step : Lead -> Lead -> Prop :=
| L_act s s' : sweep_act s s' -> sweep_step s s'
| L_queue s t' d :
    0 <= d -> sweep_step s (mkLead (doing s) (locks s) (leaked s) t' (at_ s + d)).

Definition first_boot (t : Table) (now : timestamp) : Lead := mkLead ∅ ∅ ∅ t now.

Definition elected (s : Lead) : Prop := exists t now, rtc sweep_step (first_boot t now) s.

End Sweeps.

(** One tick of [sweepLoop]: the sweep, whose error is logged, then the gauges. *)
Definition sweep_tick `{Jsonb} (leader : bool) (now : timestamp) (t t1 t2 t3 : Table) (now2 now3 : timestamp)
    (m : option Metrics) : Table * option Metrics :=
  (match sweepOnce leader now t with Ok (t', _) => t' | Err _ => t end,
   match m with Some _ => (collect_queue t1 t2 t3 now2 now3 m).2 | None => None end).

(** ** At most one sweeps *)

Record elected_inv (s : Lead) : Prop := {
  ei_apart : forall r r' p p', doing s !! r = Some p -> doing s !! r' = Some p' ->
    session_of p = session_of p' -> r = r';
  ei_held : forall r p, doing s !! r = Some p -> leads p = true ->
    locks s !! leaderLock = Some (session_of p, S (leaks s (session_of p)));
  ei_free : forall c n, locks s !! leaderLock = Some (c, n) ->
    (exists r p, doing s !! r = Some p /\ session_of p = c /\ leads p = true)
    \/ n = leaks s c /\ (0 < n)%nat;
  ei_leaked : forall c, (0 < leaks s c)%nat -> exists n, locks s !! leaderLock = Some (c, n)
}.

Lemma other_lock c k l l' :
  k <> leaderLock -> l' = (TryAdvisoryLock c k l).2 \/ l' = (AdvisoryUnlock c k l).2 ->
  l' !! leaderLock = l !! leaderLock.
Proof.
  unfold TryAdvisoryLock, AdvisoryUnlock.
  intros Hk [-> | ->]; repeat case_match; simpl; by rewrite ?lookup_insert_ne, ?lookup_delete_ne by done.
Qed.

Section Elections.
Context `{Jsonb}.

(** The steps that change neither the locks nor a phase that leads. *)
Lemma inv_doing s d :
  elected_inv s ->
  (forall r p, d !! r = Some p -> exists q, doing s !! r = Some q /\ session_of q = session_of p
                                 /\ (leads p = true -> leads q = true)) ->
  (forall r q, doing s !! r = Some q -> leads q = true ->
     exists p, d !! r = Some p /\ session_of p = session_of q /\ leads p = true) ->
  forall t now, elected_inv (mkLead d (locks s) (leaked s) t now).
Proof.
  intros [Ha Hh Hf Hl] Hd Hq t now. constructor; cbn [doing locks leaked] in *.
  - intros r r' p p' (q & Hq1 & He & _)%Hd (q' & Hq1' & He' & _)%Hd Hs. apply (Ha r r' q q'); congruence.
  - intros r p (q & Hq1 & He & Hlq)%Hd Hp. specialize (Hh r q Hq1 (Hlq Hp)). by rewrite He in Hh.
  - intros c n Hn. destruct (Hf c n Hn) as [(r & q & Hr & Hs & Hx)|?]; [|by right]. left.
    destruct (Hq r q Hr Hx) as (p & ? & ? & ?). exists r, p. split; [done|]. split; [congruence|done].
  - intros c Hc. by apply Hl.
Qed.

(** What a session that gets the lock then holds. *)
Lemma lock_taken s r c l' :
  elected_inv s -> doing s !! r = Some (Acquired c) ->
  TryAdvisoryLock c leaderLock (locks s) = (true, l') ->
  l' !! leaderLock = Some (c, S (leaks s c))
  /\ (forall r' p, doing s !! r' = Some p -> leads p = true -> False).
Proof.
  intros [Ha Hh Hf Hl] Hr. unfold TryAdvisoryLock. destruct (locks s !! leaderLock) as [[h n]|] eqn:Hk.
  - case_bool_decide as Hc; [subst h|done]. intros [= <-]. rewrite lookup_insert_eq.
    destruct (Hf c n eq_refl) as [(r' & p & Hp & Hs & Hx)|[-> _]].
    { rewrite <- (Ha r r' _ _ Hr Hp) in Hp by done. rewrite Hr in Hp. by injection Hp as <-. }
    split; [done|]. intros r' p Hp Hx. specialize (Hh r' p Hp Hx). injection Hh as Hs _.
    assert (r = r') as <- by (eapply Ha; done). rewrite Hr in Hp. by injection Hp as <-.
  - intros [= <-]. rewrite lookup_insert_eq. split.
    + destruct (leaks s c) as [|m] eqn:Hn; [done|]. destruct (Hl c) as [n Hx]; [lia|done].
    + intros r' p Hp Hx. specialize (Hh r' p Hp Hx). congruence.
Qed.

Lemma inv_drop s r c t now :
  elected_inv s -> doing s !! r = Some (Acquired c) ->
  elected_inv (mkLead (delete r (doing s)) (locks s) (leaked s) t now).
Proof.
  intros Hi Hr. apply inv_doing; [done|..].
  - intros r' p [_ Hp]%lookup_delete_Some. by exists p.
  - intros r' q Hq Hx. exists q. rewrite lookup_delete_ne; [done|]. intros <-. rewrite Hr in Hq. by injection Hq as <-.
Qed.

Lemma inv_swept s r c t now :
  elected_inv s -> doing s !! r = Some (Leading c) ->
  elected_inv (mkLead (<[r := Unlocking c]> (doing s)) (locks s) (leaked s) t now).
Proof.
  intros Hi Hr. apply inv_doing; [done|..].
  - intros r' p [[<- <-]|[Hne Hp]]%lookup_insert_Some; [by exists (Leading c)|by exists p].
  - intros r' q Hq Hx. destruct (decide (r = r')) as [<-|Hne].
    + exists (Unlocking c). rewrite lookup_insert_eq. rewrite Hr in Hq. by injection Hq as <-.
    + exists q. by rewrite lookup_insert_ne.
Qed.

Lemma inv_acquired s r c :
  elected_inv s -> doing s !! r = None -> (forall r' p, doing s !! r' = Some p -> session_of p <> c) ->
  elected_inv (with_doing (<[r := Acquired c]> (doing s)) s).
Proof.
  intros [Ha Hh Hf Hl] Hr Hc. constructor; cbn [with_doing doing locks leaked] in *.
  - intros r1 r2 p1 p2 [[<- <-]|[_ H1]]%lookup_insert_Some [[<- <-]|[_ H2]]%lookup_insert_Some Hs; [done|..].
    + by destruct (Hc _ _ H2).
    + by destruct (Hc _ _ H1).
    + by eapply Ha.
  - intros r' p [[<- <-]|[_ Hp]]%lookup_insert_Some Hx; [done|]. by apply (Hh r').
  - intros c' n Hn. destruct (Hf c' n Hn) as [(r' & p & Hp & Hx)|?]; [|by right].
    left. exists r', p. rewrite lookup_insert_ne; [done|congruence].
  - done.
Qed.

Lemma inv_leading s r c l' t now :
  elected_inv s -> doing s !! r = Some (Acquired c) -> TryAdvisoryLock c leaderLock (locks s) = (true, l') ->
  elected_inv (mkLead (<[r := Leading c]> (doing s)) l' (leaked s) t now).
Proof.
  intros Hi Hr Ht. destruct (lock_taken _ _ _ _ Hi Hr Ht) as [Hk Hno]. destruct Hi as [Ha Hh Hf Hl].
  constructor; cbn [doing locks leaked] in *.
  - intros r1 r2 p1 p2 [[<- <-]|[_ H1]]%lookup_insert_Some [[<- <-]|[_ H2]]%lookup_insert_Some Hs; [done|..];
      eapply Ha; done.
  - intros r' p [[<- <-]|[_ Hp]]%lookup_insert_Some Hx; [done|]. by destruct (Hno r' p).
  - intros c' n Hn. rewrite Hk in Hn. injection Hn as <- <-. left. exists r, (Leading c).
    by rewrite lookup_insert_eq.
  - intros c' Hc. destruct (Hl c' Hc) as [n Hn]. revert Ht. unfold TryAdvisoryLock. rewrite Hn.
    case_bool_decide as He; [subst c'|done]. intros [= <-]. rewrite lookup_insert_eq. eauto.
Qed.

Lemma inv_ended s r c l' lk t now :
  elected_inv s -> doing s !! r = Some (Unlocking c) ->
  (forall c', c' <> c -> default 0%nat (lk !! c') = leaks s c') ->
  l' !! leaderLock = (let n := default 0%nat (lk !! c) in if bool_decide (n = 0%nat) then None else Some (c, n)) ->
  elected_inv (mkLead (delete r (doing s)) l' lk t now).
Proof.
  intros [Ha Hh Hf Hl] Hr Hlk Hl'. pose proof (Hh r _ Hr eq_refl) as Hk. cbn [session_of] in Hk.
  assert (Hone : forall r' p, doing s !! r' = Some p -> leads p = true -> r' = r).
  { intros r' p Hp Hx. specialize (Hh r' p Hp Hx). rewrite Hk in Hh. injection Hh as Hs _. by eapply Ha. }
  constructor; cbn [doing locks leaked] in *; unfold leaks in *; cbn [leaked] in *.
  - intros r1 r2 p1 p2 [_ H1]%lookup_delete_Some [_ H2]%lookup_delete_Some. by apply Ha.
  - intros r' p [Hne Hp]%lookup_delete_Some Hx. by destruct Hne; rewrite (Hone r' p).
  - intros c' n Hn. right. rewrite Hl' in Hn. cbv zeta in Hn. case_bool_decide; [done|]. injection Hn as <- <-.
    split; [done|lia].
  - intros c' Hc. rewrite Hl'. cbv zeta. destruct (decide (c' = c)) as [->|Hne].
    + rewrite bool_decide_eq_false_2 by lia. by eauto.
    + rewrite Hlk in Hc by done. destruct (Hl c' Hc) as [n Hn]. congruence.
Qed.

Lemma inv_session_end s c t now :
  elected_inv s ->
  elected_inv (mkLead (filter (fun rp => session_of rp.2 <> c) (doing s)) (end_session c (locks s))
                 (delete c (leaked s)) t now).
Proof.
  intros [Ha Hh Hf Hl]. unfold end_session. constructor; cbn [doing locks leaked] in *.
  - intros r1 r2 p1 p2 [H1 _]%map_lookup_filter_Some [H2 _]%map_lookup_filter_Some. by apply Ha.
  - intros r p [Hp Hne]%map_lookup_filter_Some Hx. cbn in Hne. apply map_lookup_filter_Some. cbn. split; [|done].
    unfold leaks. cbn [leaked]. rewrite lookup_delete_ne by done. by apply (Hh r).
  - intros c' n [Hn Hne]%map_lookup_filter_Some. cbn in Hne. unfold leaks. cbn [leaked].
    rewrite lookup_delete_ne by done. destruct (Hf c' n Hn) as [(r & p & Hp & <- & Hx)|?]; [|by right].
    left. exists r, p. split; [|done]. by apply map_lookup_filter_Some.
  - intros c'. unfold leaks. cbn [leaked]. destruct (decide (c = c')) as [<-|Hne].
    + rewrite lookup_delete_eq. simpl. lia.
    + rewrite lookup_delete_ne by done. intros Hc. destruct (Hl c' Hc) as [n Hn]. exists n.
      apply map_lookup_filter_Some. cbn. split; [done|congruence].
Qed.

Lemma sweep_act_inv s s' : elected_inv s -> sweep_act s s' -> elected_inv s'.
Proof.
  intros Hi Hs. destruct Hs as [s r c Hr Hc|s r c got l' Hr Hl|s r c Hr|s r c t' n Hr Ht|s r c Hr|s r c Hr
                               |s r c Hr|s c|s c k l' Hk Hl].
  - by apply inv_acquired.
  - destruct got; [by apply inv_leading|].
    assert (l' = locks s) as -> by (revert Hl; unfold TryAdvisoryLock; by repeat case_match; intros [= <-]).
    by apply (inv_drop s r c).
  - by apply (inv_drop s r c).
  - by apply inv_swept.
  - by apply inv_swept.
  - pose proof (ei_held _ Hi r _ Hr eq_refl) as Hk. cbn [session_of] in Hk.
    apply (inv_ended s r c); [done..|]. fold (leaks s c). unfold AdvisoryUnlock. rewrite Hk.
    rewrite bool_decide_eq_true_2 by done. cbn [snd]. cbv zeta. destruct (leaks s c) as [|m].
    + by rewrite lookup_delete_eq.
    + by rewrite lookup_insert_eq.
  - pose proof (ei_held _ Hi r _ Hr eq_refl) as Hk. cbn [session_of] in Hk.
    apply (inv_ended s r c); [done..| |].
    + intros c' Hne. by rewrite lookup_insert_ne.
    + by rewrite lookup_insert_eq.
  - by apply inv_session_end.
  - destruct Hi as [Ha Hh Hf Hlk]. pose proof (other_lock _ _ _ _ Hk Hl) as He.
    constructor; cbn [doing locks leaked]; rewrite ?He; done.
Qed.

Lemma election_step_inv s s' : elected_inv s -> sweep_step s s' -> elected_inv s'.
Proof. intros Hi Hs. destruct Hs as [s s' Ha|s t' d Hd]; [by eapply sweep_act_inv|by destruct Hi]. Qed.

Lemma elected_ok s : elected s -> elected_inv s.
Proof.
  intros (t & now & Hs). remember (first_boot t now) as s0 eqn:H0.
  assert (Hi : elected_inv s0) by (subst; constructor; unfold leaks; cbn [first_boot doing locks leaked]; intros *; rewrite !lookup_empty; simpl; done || lia).
  clear H0. induction Hs as [s|s1 s2 s3 H1 Hs IH]; [done|]. apply IH. by eapply election_step_inv.
Qed.

Lemma one_leads s : elected s ->
  forall r r' p p', doing s !! r = Some p -> doing s !! r' = Some p' -> leads p = true -> leads p' = true -> r = r'.
Proof.
  intros [Ha Hh Hf Hl]%elected_ok r r' p p' Hp Hp' Hx Hx'.
  pose proof (Hh r p Hp Hx) as H1. pose proof (Hh r' p' Hp' Hx') as H2. rewrite H1 in H2. injection H2 as Hs _. by eapply Ha.
Qed.

(** C11. At most one worker sweeps at a time, and the role is not lost: in every
    execution of any number of workers, with sessions ending, statements failing
    and other users of advisory locks (a migration's single-integer lock among
    them), no two processes lead; and as long as no living session was refused
    its unlock, the lock is free exactly when no process leads, so that the next
    one to ask gets it. *)
Theorem one_sweeper s :
  elected s ->
  (forall r r' p p', doing s !! r = Some p -> doing s !! r' = Some p' ->
     leads p = true -> leads p' = true -> r = r')
  /\ ((forall c, leaks s c = 0%nat) ->
      (locks s !! leaderLock = None <-> forall r p, doing s !! r = Some p -> leads p = false)
      /\ forall r c, doing s !! r = Some (Acquired c) ->
          (TryAdvisoryLock c leaderLock (locks s)).1 = true
          <-> forall r' p, doing s !! r' = Some p -> leads p = false).
Proof.
  intros Hs. pose proof (one_leads s Hs) as Hone. apply elected_ok in Hs as [Ha Hh Hf Hl].
  split; [done|]. intros Hno.
  assert (Hfree : locks s !! leaderLock = None <-> forall r p, doing s !! r = Some p -> leads p = false).
  { split.
    - intros Hk r p Hp. destruct (leads p) eqn:Hx; [|done]. by rewrite (Hh r p Hp Hx) in Hk.
    - intros Hn. destruct (locks s !! leaderLock) as [[c n]|] eqn:Hk; [|done].
      destruct (Hf c n eq_refl) as [(r & p & Hp & _ & Hx)|[Hz Hlt]]; [by rewrite (Hn r p Hp) in Hx|].
      rewrite Hno in Hz. lia. }
  split; [done|]. intros r c Hr. rewrite <- Hfree. unfold TryAdvisoryLock.
  destruct (locks s !! leaderLock) as [[h n]|] eqn:Hk; [|done]. case_bool_decide as Hc; [subst h|done].
  split; [intros _|done]. exfalso. destruct (Hf c n eq_refl) as [(r' & p & Hp & Hs & Hx)|[Hz Hlt]].
  - assert (r = r') as <- by (eapply Ha; done). rewrite Hr in Hp. by injection Hp as <-.
  - rewrite Hno in Hz. lia.
Qed.

End Elections.

(** ** Two workers *)

#[local] Existing Instance Samples.octets.

Definition two_workers : Lead :=
  mkLead (<["b" := Acquired "s2"]> (<["a" := Leading "s1"]> (<["a" := Acquired "s1"]> ∅)))%string
    (<[leaderLock := ("s1"%string, 1%nat)]> (<[Big 7 := ("m"%string, 1%nat)]> ∅)) ∅ [] 0.

Lemma two_workers_elected : elected two_workers.
Proof.
  exists [], 0. unfold first_boot.
  eapply rtc_l; [apply L_act; eapply (L_other _ "m" (Big 7)); [done|by left]|].
  eapply rtc_l; [apply L_act; by eapply (L_acquire _ "a" "s1")|].
  eapply rtc_l; [apply L_act; by eapply (L_lock _ "a" "s1" true)|].
  eapply rtc_l; [apply L_act; eapply (L_acquire _ "b" "s2"); [done|]|apply rtc_refl].
  cbn [doing with_doing]. intros r p Hp.
  rewrite !lookup_insert_Some, lookup_empty in Hp. by destruct Hp as [[_ <-]|[_ [[_ <-]|[_ ?]]]].
Qed.

(** With two workers up, the second is refused while the first leads. *)
Lemma one_sweeper_witness :
  (TryAdvisoryLock "s2" leaderLock (locks two_workers)).1 = false
  /\ ((TryAdvisoryLock "s2" leaderLock (locks two_workers)).1 = true
      <-> forall r p, doing two_workers !! r = Some p -> leads p = false).
Proof.
  split; [by vm_compute|].
  apply (proj2 (proj2 (one_sweeper two_workers two_workers_elected) (fun c => eq_refl)) "b"%string). by vm_compute.
Defined.
