(* ===== verification/WorkerLoop.v ===== *)
(** * The life of a worker (NewWorker, Run, claimLoop and its drain of
    src/internal/jobs/worker.go; src/cmd/worker/main.go)

    [Loop] is one site's claim loop from start to return: the select that waits
    for a slot, the end of the context, or the poll timer; the jobs it started;
    and the bounded drain.  [boot_worker] is the start of the process. *)

From stdpp Require Import relations.
From S2P Require Import Prelude Utf8 Regex GoStrings GoTime GoFmt GoJson SafeError Pg JobTable Jobs JobHealth Origin Config Stores Doctor Redact.

(** ** The worker *)

Record Worker (P : Type) := mkWorker {
  wk_sites : list Origin.Site;
  wk_pools : gmap string P;
  wk_handlers : Handlers;
  wk_opts : WorkerOptions;
  wk_health : JobHealth.Health
}.
Arguments mkWorker {P} _ _ _ _ _.
Arguments wk_sites {P} _.
Arguments wk_pools {P} _.
Arguments wk_handlers {P} _.
Arguments wk_opts {P} _.
Arguments wk_health {P} _.

(** The handler every worker has. *)
Definition noop : Handler := fun _ => None.

Definition NewWorker {P} (hostname pid suffix : string) (r : Resolver) (pools : gmap string P)
    (opts : WorkerOptions) : Worker P :=
  let opts := applyDefaults hostname pid suffix opts in
  mkWorker (sites r) pools
    match Register KindNoop noop [] with Some hs => hs | None => [] end
    opts (NewHealth (map Origin.Handle (sites r)) (HealthStaleAfter opts)).

(** [Run]: the sites whose two loops were started, and the error of the first
    site without a pool. *)
Fixpoint start_loops {P} `{Printable} (pools : gmap string P) (ss : list Origin.Site) : list string * option string :=
  match ss with
  | [] => ([], None)
  | s :: ss =>
      match pools !! Origin.Handle s with
      | None => ([], Some ("jobs: no pool for site " +:+ Quote (Origin.Handle s)))
      | Some _ => let '(l, e) := start_loops pools ss in (Origin.Handle s :: l, e)
      end
  end.

(** ** One site's loop *)

(** What the select of an iteration takes. *)
Inductive Pick := PickSlot | PickDone | PickTimer.

(** What is offered to it; the timer may have fired in every case. *)
Definition offered (o : WorkerOptions) (ctx_done : bool) (s : LoopState) (p : Pick) : bool :=
  match p with
  | PickSlot => l_busy s <? Concurrency o
  | PickDone => ctx_done
  | PickTimer => true
  end.

(** The iteration: the state after it, the table, the job it started, and
    whether it left the loop.  A claim under an ended context fails before it
    reaches the server. *)
Definition turn `{Jsonb} (o : WorkerOptions) (hs : Handlers) (site : string) (locked : list uuid)
    (now : Z) (db_now : timestamp) (ctx_done : bool) (p : Pick) (t : Table) (s : LoopState)
    : LoopState * Table * option Claimed * bool :=
  match p with
  | PickDone => (s, t, None, true)
  | PickTimer => (mkLoopState (l_busy s) (Saturate site now (l_health s)), t, None, false)
  | PickSlot =>
      let h := LoopAlive site now (l_health s) in
      match (if ctx_done then Err (mkPgError "" "") else claim o hs locked db_now t) with
      | Err _ => (mkLoopState (l_busy s) (ClaimFailed site now h), t, None, false)
      | Ok (t', None) => (mkLoopState (l_busy s) (ClaimOK site now h), t', None, false)
      | Ok (t', Some j) => (mkLoopState (l_busy s + 1) (ClaimOK site now h), t', Some j, false)
      end
  end.

(** The loop with its jobs; [lp_left] is when it left the loop to drain,
    [lp_returned] when it returned. *)
Record Loop := mkLoop {
  lp_state : LoopState;
  lp_jobs : list Claimed;
  lp_done : bool;
  lp_left : option Z;
  lp_returned : option Z;
  lp_now : Z
}.

Definition start_loop (h : JobHealth.Health) (now : Z) : Loop := mkLoop (mkLoopState 0 h) [] false None None now.

Section Loops.
Context `{Jsonb}.
Context (o : WorkerOptions) (hs : Handlers) (site : string).

(** Time passes, but the timer of the drain is not passed over while it waits. *)
Inductive loop_step : Loop -> Loop -> Prop :=
| Lp_turn l p locked db_now t t' s' j left_ :
    lp_left l = None -> offered o (lp_done l) (lp_state l) p = true ->
    turn o hs site locked (lp_now l) db_now (lp_done l) p t (lp_state l) = (s', t', j, left_) ->
    loop_step l (mkLoop s' (match j with Some j => j :: lp_jobs l | None => lp_jobs l end) (lp_done l)
                   (if left_ then Some (lp_now l) else None) None (lp_now l))
| Lp_job_ends l pre j post :
    lp_jobs l = pre ++ j :: post ->
    loop_step l (mkLoop (release (lp_state l)) (pre ++ post) (lp_done l) (lp_left l) (lp_returned l) (lp_now l))
| Lp_cancel l :
    loop_step l (mkLoop (lp_state l) (lp_jobs l) true (lp_left l) (lp_returned l) (lp_now l))
| Lp_drained l d :
    lp_left l = Some d -> lp_returned l = None -> lp_jobs l = [] ->
    loop_step l (mkLoop (lp_state l) [] (lp_done l) (lp_left l) (Some (lp_now l)) (lp_now l))
| Lp_grace l d :
    lp_left l = Some d -> lp_returned l = None -> lp_now l = d + DrainGrace o ->
    loop_step l (mkLoop (lp_state l) (lp_jobs l) (lp_done l) (lp_left l) (Some (lp_now l)) (lp_now l))
| Lp_tick l dt :
    0 <= dt ->
    (forall d, lp_left l = Some d -> lp_returned l = None -> lp_now l + dt <= d + DrainGrace o) ->
    loop_step l (mkLoop (lp_state l) (lp_jobs l) (lp_done l) (lp_left l) (lp_returned l) (lp_now l + dt)).

(** The job of a step starts only before the context ended. *)
Lemma turn_after_cancel locked now db_now p t s s' t' j left_ :
  turn o hs site locked now db_now true p t s = (s', t', j, left_) -> t' = t /\ j = None /\ l_busy s' = l_busy s.
Proof. unfold turn. destruct p; by intros [= <- <- <- <-]. Qed.

Lemma turn_busy locked now db_now dn p t s s' t' j left_ :
  turn o hs site locked now db_now dn p t s = (s', t', j, left_) ->
  l_busy s' = l_busy s + (match j with Some _ => 1 | None => 0 end)
  /\ (j <> None -> p = PickSlot /\ dn = false) /\ (left_ = true -> p = PickDone).
Proof.
  unfold turn. destruct p; [|by intros [= <- _ <- <-]; cbn; repeat split; (done || lia)..].
  destruct dn; [intros [= <- _ <- <-]; cbn; repeat split; (done || lia)|].
  destruct (claim _ _ _ _ _) as [[t1 [c|]]|e]; intros [= <- _ <- <-]; cbn; repeat split; (done || lia).
Qed.

Record loop_inv (l : Loop) : Prop := {
  li_busy : l_busy (lp_state l) = Z.of_nat (length (lp_jobs l));
  li_conc : l_busy (lp_state l) <= Concurrency o;
  li_left : forall d, lp_left l = Some d -> lp_done l = true /\ d <= lp_now l;
  li_wait : forall d, lp_left l = Some d -> lp_returned l = None -> lp_now l <= d + DrainGrace o;
  li_ret : forall r, lp_returned l = Some r -> exists d, lp_left l = Some d /\ d <= r <= d + DrainGrace o
             /\ r <= lp_now l /\ (r = d + DrainGrace o \/ lp_jobs l = [])
}.

Lemma loop_step_inv l l' : 0 <= DrainGrace o -> loop_inv l -> loop_step l l' -> loop_inv l'.
Proof.
  intros Hg [Hb Hc Hl Hw Hr] Hs.
  destruct Hs as [l p locked db_now t t' s' j left_ Hleft Ho Ht|l pre j post Hj|l|l d Hd Hn Hj|l d Hd Hn Hnow|l dt Hdt Hwait];
    constructor; cbn [lp_state lp_jobs lp_done lp_left lp_returned lp_now release l_busy].
  - apply turn_busy in Ht as (-> & _). rewrite Hb. destruct j; cbn [length]; lia.
  - pose proof (turn_busy _ _ _ _ _ _ _ _ _ _ _ Ht) as (-> & Hj & _). destruct j as [j|]; [|lia].
    destruct Hj as [-> _]; [done|]. simpl in Ho. lia.
  - intros d Hd. destruct left_; [|done]. injection Hd as <-.
    apply turn_busy in Ht as (_ & _ & Hp). rewrite (Hp eq_refl) in Ho. simpl in Ho. split; [done|lia].
  - intros d Hd _. destruct left_; [|done]. injection Hd as <-. lia.
  - done.
  - rewrite Hb, Hj, !length_app. cbn [length]. lia.
  - lia.
  - done.
  - done.
  - intros r Hret. destruct (Hr r Hret) as (d & Hd & H1 & H2 & [H3|H3]); exists d; [by auto 6|].
    rewrite H3 in Hj. by destruct pre.
  - done.
  - done.
  - intros d Hd. destruct (Hl d Hd). split; [done|lia].
  - done.
  - done.
  - by rewrite Hb, Hj.
  - done.
  - done.
  - done.
  - intros r [= <-]. exists d. destruct (Hl d Hd). specialize (Hw d Hd Hn). repeat split; (done || lia || by right).
  - done.
  - done.
  - done.
  - done.
  - intros r [= <-]. exists d. destruct (Hl d Hd). repeat split; done || lia || by left.
  - done.
  - done.
  - intros d Hd. destruct (Hl d Hd). split; [done|lia].
  - intros d Hd Hn. by apply Hwait.
  - intros r Hret. destruct (Hr r Hret) as (d & Hd & H1 & H2 & H3). exists d. repeat split; try (done || lia).
Qed.

Definition loop_reachable (l : Loop) : Prop := exists h now, rtc loop_step (start_loop h now) l.

Lemma loop_ok l : 0 <= DrainGrace o -> 0 <= Concurrency o -> loop_reachable l -> loop_inv l.
Proof.
  intros Hg Hc (h & now & Hs). remember (start_loop h now) as l0 eqn:H0.
  assert (Hi : loop_inv l0) by (subst; constructor; cbn; done || lia).
  clear H0. induction Hs as [l|l1 l2 l3 H1 Hs IH]; [done|]. apply IH. by eapply loop_step_inv.
Qed.

End Loops.

Lemma defaults_positive host pid suffix o :
  let o' := applyDefaults host pid suffix o in
  0 < Lease o' /\ 0 < Timeout o' /\ 0 < Concurrency o' /\ 0 < PollInterval o' /\ 0 < SweepInterval o'
  /\ 0 < DrainGrace o'.
Proof. unfold applyDefaults. cbn. repeat case_match; repeat split; lia. Qed.

(** C25. Shutdown is bounded and loses no claim: for a worker with any options,
    in every state a site's loop can reach, the slots taken are the jobs it runs
    and never more than the concurrency; once the context has ended no iteration
    starts a job or touches the queue; the loop leaves only then, and it returns
    no later than the drain grace after that, before it only if no job is left
    running. *)
Theorem drain_is_bounded `{Jsonb} host pid suffix opts hs site l :
  let o := applyDefaults host pid suffix opts in
  loop_reachable o hs site l ->
  l_busy (lp_state l) = Z.of_nat (length (lp_jobs l)) /\ l_busy (lp_state l) <= Concurrency o
  /\ (lp_done l = true -> forall locked db_now p t s' t' j left_,
        turn o hs site locked (lp_now l) db_now (lp_done l) p t (lp_state l) = (s', t', j, left_) ->
        t' = t /\ j = None)
  /\ (forall d, lp_left l = Some d -> lp_done l = true
        /\ (lp_returned l = None -> lp_now l <= d + DrainGrace o)
        /\ forall r, lp_returned l = Some r -> d <= r <= d + DrainGrace o
             /\ (r < d + DrainGrace o -> lp_jobs l = [])).
Proof.
  intros o Hl. pose proof (defaults_positive host pid suffix opts) as (_ & _ & Hc & _ & _ & Hg). fold o in Hc, Hg.
  apply loop_ok in Hl as [Hb Hcc Hleft Hw Hr]; [|lia..]. split; [done|]. split; [done|]. split.
  - intros Hd *. rewrite Hd. intros (? & ? & _)%turn_after_cancel. done.
  - intros d Hd. destruct (Hleft d Hd) as [Hdone _]. split; [done|]. split; [by apply Hw|].
    intros r Hret. destruct (Hr r Hret) as (d' & Hd' & Hle & _ & Hj). rewrite Hd in Hd'. injection Hd' as <-.
    split; [done|]. intros Hlt. destruct Hj; [lia|done].
Qed.

(** ** The process (src/cmd/worker/main.go) *)

Section Boot.
Context `{HU : Unicode, HN : NetUrl, HW : UrlPrint, HQ : Printable}.
Context {P : Type} `{HD : PgxPool P}.

(** The pool of every site, by its handle. *)
Fixpoint pools_by_handle (p : Pools P) (ss : list Origin.Site) : result string (gmap string P) :=
  match ss with
  | [] => Ok ∅
  | s :: ss =>
      match For p s with
      | None => Err ("vizra-worker: no pool for site " +:+ Quote (Origin.Handle s))%string
      | Some q => let? m := pools_by_handle p ss in Ok (<[Origin.Handle s := q]> m)
      end
  end.

Definition worker_options (c : Config) : WorkerOptions :=
  mkWorkerOptions (cfg_JobLease c) (cfg_JobTimeout c) (cfg_WorkerConcurrency c) 0 0 (cfg_ShutdownGrace c) "" 0.

(** [run] up to the loops: the worker and the address of its listener, or the
    error the process exits 1 with. *)
Definition boot_worker (hostname pid suffix : string) (lookup : Lookup) : result string (Worker P * string) :=
  match LoadFrom lookup with
  | Err ps => Err ("vizra-worker refused to start." +:+ newline +:+ ValidationError_Error ps)%string
  | Ok cfg =>
      let resolver := NewResolver (core_site cfg) in
      match Open resolver with
      | Err (text, _) => Err text
      | Ok pools =>
          let? byHandle := pools_by_handle pools (sites resolver) in
          Ok (NewWorker hostname pid suffix resolver byHandle (worker_options cfg), cfg_MetricsAddr cfg)
      end
  end.

(** The status and the body of the liveness answer. *)
Definition LivenessHandler : Z * string := (200, compact (JObject [("status"%string, JString "ok")]) +:+ newline).

(** The listener of the worker: readiness, liveness, and the gauges on every
    other path ([None]). *)
Definition worker_mux (w : Worker P) (ping : P -> option string) (now : Z) (path : string) : option Z :=
  if path =s "/readyz" then Some (JobHealth.HealthHandler Redact (wk_health w) now (ping <$> wk_pools w))
  else if path =s "/healthz" then Some LivenessHandler.1
  else None.

Lemma boot_worker_cases hostname pid suffix lookup :
  match boot_worker hostname pid suffix lookup with
  | Err _ => match LoadFrom lookup with Ok c => pool_of (core_site c) = None | Err _ => True end
  | Ok (w, addr) =>
      exists c q, LoadFrom lookup = Ok c /\ pool_of (core_site c) = Some q /\ addr = cfg_MetricsAddr c
        /\ w = NewWorker hostname pid suffix (NewResolver (core_site c)) {[cfg_SiteHandle c := q]} (worker_options c)
  end.
Proof.
  unfold boot_worker. destruct (LoadFrom lookup) as [c|ps]; [|done]. cbv zeta.
  pose proof (open_single (core_site c)) as Ho. destruct (Open _) as [p|[text closed]]; [|done].
  destruct Ho as (q & Hq & Hf & _). cbn [NewResolver sites pools_by_handle]. rewrite Hf. cbn. by exists c, q.
Qed.

(** The durations of an accepted configuration are positive. *)
Lemma loaded_duration lookup c k :
  LoadFrom lookup = Ok c -> List.In k duration_keys -> 0 < (mustDuration lookup k).1.
Proof.
  intros (_ & Hv & _)%LoadFrom_ok Hk. unfold check_values in Hv.
  repeat match goal with H : _ ++ _ = [] |- _ => apply app_eq_nil in H as [? H] end.
  apply duration_positive. by eapply (flat_map_nil (fun k => (mustDuration lookup k).2)).
Qed.

Lemma loaded_options lookup c hostname pid suffix :
  LoadFrom lookup = Ok c ->
  let o := applyDefaults hostname pid suffix (worker_options c) in
  Concurrency o = cfg_WorkerConcurrency c /\ Lease o = cfg_JobLease c /\ Timeout o = cfg_JobTimeout c
  /\ DrainGrace o = cfg_ShutdownGrace c.
Proof.
  intros Hc. assert (Hg : 0 < cfg_ShutdownGrace c).
  { pose proof (loaded_duration _ _ "VIZRA_SHUTDOWN_GRACE" Hc ltac:(simpl; auto 9)).
    by apply LoadFrom_ok in Hc as [-> _]. }
  assert (Hs : sound c) by (apply LoadFrom_ok in Hc as (-> & ? & _ & _ & ? & _); by apply check_values_ok).
  destruct Hs as (_ & _ & Hn & Hl & _). unfold applyDefaults, worker_options. cbn.
  repeat split; case_match; done || lia.
Qed.

(** Readiness of a worker with one site, whose claim loop last turned at
    [turned], if it did. *)
Lemma one_site_ready h (q : P) stale ping now turned :
  0 <= turned ->
  JobHealth.HealthHandler Redact (mkHealth {[h := mkSiteProgress turned 0 false]} [h] stale) now (ping <$> {[h := q]})
  = if (0 <? turned) && (now - turned <=? stale) && (match ping q with None => true | Some _ => false end)
    then 200 else 503.
Proof.
  intros Ht. unfold JobHealth.HealthHandler.
  assert (Hr : Ready (JobHealth.Report Redact (mkHealth {[h := mkSiteProgress turned 0 false]} [h] stale) now
                        (ping <$> {[h := q]})) = true
    <-> (0 <? turned) && (now - turned <=? stale) && (match ping q with None => true | Some _ => false end) = true).
  { rewrite report_ready, !andb_true_iff, Z.ltb_lt, Z.leb_le. cbn [h_order h_sites h_staleAfter]. split.
    - intros [_ Ha]. destruct (Ha h) as (p & Hp & Hz & Hle & Hpi); [by left|].
      rewrite lookup_singleton_eq in Hp. injection Hp as <-. cbn in *.
      rewrite lookup_fmap, lookup_singleton_eq in Hpi. injection Hpi as ->. repeat split; lia.
    - intros [[Hz Hle] Hp]. split; [done|]. intros s [<-|[]]. eexists. rewrite lookup_singleton_eq.
      split; [done|]. cbn. rewrite lookup_fmap, lookup_singleton_eq. cbn. repeat split; [lia|done|].
      by destruct (ping q). }
  by rewrite (eq_true_iff_eq _ _ Hr).
Qed.

(** A worker that boots can do its work and says so truthfully: the process
    starts exactly when the configuration loads and the site's database opens;
    both loops of the site are then started, so the error of a missing pool
    cannot happen; it runs at most as many jobs at once as configured, each on
    a lease longer than nothing; and its readiness answer is 503 until the
    site's claim loop has turned, and after that is 200 exactly while the loop's
    last turn is within the bound and the database answers. *)
Theorem worker_boot_contract hostname pid suffix lookup :
  (is_ok (boot_worker hostname pid suffix lookup) = true
   <-> exists c, LoadFrom lookup = Ok c /\ pool_of (core_site c) <> None)
  /\ forall w addr, boot_worker hostname pid suffix lookup = Ok (w, addr) ->
     exists c q, LoadFrom lookup = Ok c
       /\ start_loops (wk_pools w) (wk_sites w) = ([cfg_SiteHandle c], None)
       /\ Kinds (wk_handlers w) = [KindNoop]
       /\ Concurrency (wk_opts w) = cfg_WorkerConcurrency c /\ Lease (wk_opts w) = cfg_JobLease c
       /\ DrainGrace (wk_opts w) = cfg_ShutdownGrace c
       /\ (forall ping now, worker_mux w ping now "/readyz" = Some 503)
       /\ forall ping turned now, 0 < turned <= now ->
            worker_mux (mkWorker (wk_sites w) (wk_pools w) (wk_handlers w) (wk_opts w)
                          (LoopAlive (cfg_SiteHandle c) turned (wk_health w))) ping now "/readyz"
            = Some (if (now - turned <=? HealthStaleAfter (wk_opts w)) && (match ping q with None => true | Some _ => false end)
                    then 200 else 503).
Proof.
  pose proof (boot_worker_cases hostname pid suffix lookup) as Hb.
  destruct (boot_worker hostname pid suffix lookup) as [[w addr]|e].
  - destruct Hb as (c & q & Hc & Hq & -> & ->). split; [split; [intros _; exists c; by rewrite Hq|done]|].
    intros w addr [= <- <-]. exists c, q. split; [done|]. unfold NewWorker. cbn [wk_pools wk_sites wk_opts wk_handlers wk_health].
    split; [cbn; by rewrite lookup_singleton_eq|]. split; [done|].
    destruct (loaded_options lookup c hostname pid suffix Hc) as (H1 & H2 & _ & H3).
    repeat (split; [done|]). unfold worker_mux. cbn [wk_health wk_pools String.eqb].
    change (NewHealth (map Origin.Handle (sites (NewResolver (core_site c)))) ?st)
      with (mkHealth (<[cfg_SiteHandle c := no_progress]> ∅) [cfg_SiteHandle c] st).
    rewrite insert_empty. split.
    + intros ping now. unfold no_progress. by rewrite one_site_ready.
    + intros ping turned now Ht. unfold LoopAlive, touch. cbn [h_sites h_order h_staleAfter].
      rewrite lookup_singleton_eq, insert_singleton_eq. cbn [lastProgress lastClaimOK no_progress].
      rewrite one_site_ready by lia. by rewrite (proj2 (Z.ltb_lt 0 turned)) by lia.
  - split; [|done]. split; [done|]. intros (c & Hc & Hp). by rewrite Hc in Hb.
Qed.

End Boot.

(** ** A worker stopped while its job runs *)

#[local] Existing Instance Samples.octets.

Definition fast : WorkerOptions := Samples.wide.
Definition calm_health : JobHealth.Health := NewHealth ["main"%string] (HealthStaleAfter fast).

Definition first_turn :=
  turn fast (Samples.handlers noop) "main" [] 0 200 false PickSlot Samples.waiting (mkLoopState 0 calm_health).

(** The job outlives the grace of twenty seconds. *)
Definition stopped : Loop :=
  mkLoop first_turn.1.1.1 (match first_turn.1.2 with Some j => [j] | None => [] end) true (Some 0)
    (Some (20 * Second)) (20 * Second).

Lemma stopped_path : rtc (loop_step fast (Samples.handlers noop) "main") (start_loop calm_health 0) stopped.
Proof.
  eapply rtc_l; [by eapply (Lp_turn _ _ _ _ PickSlot [] 200 Samples.waiting)|].
  eapply rtc_l; [apply Lp_cancel|].
  eapply rtc_l; [by eapply (Lp_turn _ _ _ _ PickDone [] 200 [])|].
  eapply rtc_l; [apply (Lp_tick _ _ _ _ (20 * Second)); [done|by intros d [= <-]]|].
  eapply rtc_l; [by apply (Lp_grace _ _ _ _ 0)|]. apply rtc_refl.
Qed.

Lemma stopped_reachable : loop_reachable fast (Samples.handlers noop) "main" stopped.
Proof. exists calm_health, 0. exact stopped_path. Qed.

Lemma drain_is_bounded_witness :
  length (lp_jobs stopped) = 1%nat
  /\ l_busy (lp_state stopped) = 1
  /\ forall r, lp_returned stopped = Some r -> 0 <= r <= 0 + DrainGrace fast.
Proof.
  split; [by vm_compute|].
  destruct (drain_is_bounded "host" "7" "ab" (mkWorkerOptions 0 0 0 0 0 0 "" 0) (Samples.handlers noop) "main"
    stopped stopped_reachable) as (Hb & _ & _ & Hl).
  split; [by rewrite Hb; vm_compute|]. intros r Hr. by apply (Hl 0 eq_refl).
Defined.
