(* ===== verification/WorkerServe.v ===== *)
(** * Stopping a worker (src/cmd/worker/main.go after the start)

    The process while its loops run and while it stops: the claim loop of
    [WorkerLoop] and the sweep loop, both awaited by [Run]; then, in the order
    the deferred calls are made, the shutdown of the metrics listener under its
    own deadline and the closing of the pool, which waits for every connection
    that is in use (as pgxpool documents).  The clock of the process is the one
    of its claim loop. *)

From stdpp Require Import relations.
From S2P Require Import Prelude GoTime GoFmt Pg JobTable Jobs JobHealth WorkerLoop.

Inductive WPhase :=
| WRunning
| WClosingMetrics (deadline : Z)
| WClosingPools
| WExited (code : Z) (stderr : string).

Record WProc := mkWProc {
  wp_loop : Loop;
  wp_sweeping : bool;            (* the sweep loop has not returned *)
  wp_phase : WPhase;
  wp_accepts : bool;             (* the metrics listener accepts *)
  wp_scrapes : nat;              (* requests it has open *)
  wp_held : nat;                 (* connections the goroutines of jobs hold *)
  wp_log : list string
}.

Definition metricsShutdownTimeout : Z := 5 * Second.

(** [main]: an error of [run] is printed and exits with 1. *)
Definition worker_main (err : option string) : WPhase :=
  match err with None => WExited 0 "" | Some e => WExited 1 (e +:+ newline) end.

(** The error of [Run] as [run] returns it: a cancelled context is none. *)
Definition run_error (err : option string) : option string :=
  match err with Some e => if e =s "context canceled" then None else Some e | None => None end.

Section Serve.
Context `{Jsonb}.
Context (o : WorkerOptions) (hs : Handlers) (site : string).

Definition wp_now (p : WProc) : Z := lp_now (wp_loop p).

Definition with_loop (l : Loop) (p : WProc) : WProc :=
  mkWProc l (wp_sweeping p) (wp_phase p) (wp_accepts p) (wp_scrapes p) (wp_held p) (wp_log p).
Definition with_phase (ph : WPhase) (accepts : bool) (lines : list string) (p : WProc) : WProc :=
  mkWProc (wp_loop p) (wp_sweeping p) ph accepts (wp_scrapes p) (wp_held p) (wp_log p ++ lines).
Definition with_scrapes (n : nat) (p : WProc) : WProc :=
  mkWProc (wp_loop p) (wp_sweeping p) (wp_phase p) (wp_accepts p) n (wp_held p) (wp_log p).
Definition with_held (n : nat) (p : WProc) : WProc :=
  mkWProc (wp_loop p) (wp_sweeping p) (wp_phase p) (wp_accepts p) (wp_scrapes p) n (wp_log p).
Definition swept (p : WProc) : WProc :=
  mkWProc (wp_loop p) false (wp_phase p) (wp_accepts p) (wp_scrapes p) (wp_held p) (wp_log p).

(** The process when both loops and the listener were started. *)
Definition start_worker (h : JobHealth.Health) (now : Z) : WProc :=
  mkWProc (start_loop h now) true WRunning true 0 0 ["vizra-worker running"%string].

Definition alive (ph : WPhase) : bool := match ph with WExited _ _ => false | _ => true end.

(** The shutdown of the listener sees the end of its context. *)
Definition in_time (ph : WPhase) (now : Z) : Prop := match ph with WClosingMetrics d => now <= d | _ => True end.

(** [Run] returns the error of the context when both loops have returned; then
    the listener closes and its shutdown is awaited, then the pool closes.  The
    loop steps after that are jobs that end and time that passes. *)
Inductive worker_step : WProc -> WProc -> Prop :=
| W_loop p l : alive (wp_phase p) = true -> loop_step o hs site (wp_loop p) l -> in_time (wp_phase p) (lp_now l) ->
    worker_step p (with_loop l p)
| W_sweep_returns p : wp_phase p = WRunning -> lp_done (wp_loop p) = true -> worker_step p (swept p)
| W_acquire p : alive (wp_phase p) = true -> wp_phase p <> WClosingPools -> lp_jobs (wp_loop p) <> [] ->
    worker_step p (with_held (S (wp_held p)) p)
| W_release p n : alive (wp_phase p) = true -> wp_held p = S n -> worker_step p (with_held n p)
| W_scrape p : alive (wp_phase p) = true -> wp_accepts p = true -> worker_step p (with_scrapes (S (wp_scrapes p)) p)
| W_scraped p n : alive (wp_phase p) = true -> wp_scrapes p = S n -> worker_step p (with_scrapes n p)
| W_listener_failed p e : alive (wp_phase p) = true ->
    worker_step p (with_phase (wp_phase p) false [("metrics listener stopped: " +:+ e)%string] p)
| W_run_returns p r : wp_phase p = WRunning -> wp_sweeping p = false -> lp_returned (wp_loop p) = Some r ->
    worker_step p (with_phase (WClosingMetrics (wp_now p + metricsShutdownTimeout)) false ["vizra-worker stopped"%string] p)
| W_metrics_closed p d : wp_phase p = WClosingMetrics d -> wp_scrapes p = 0%nat \/ d <= wp_now p ->
    worker_step p (with_phase WClosingPools (wp_accepts p) [] p)
| W_pools_closed p : wp_phase p = WClosingPools -> wp_held p = 0%nat ->
    worker_step p (with_phase (worker_main (run_error (Some "context canceled"%string))) (wp_accepts p) [] p).

Definition worker_reachable (p : WProc) : Prop := exists h now, rtc worker_step (start_worker h now) p.

(** ** What holds in every state *)

Record worker_inv (p : WProc) : Prop := {
  wi_loop : loop_reachable o hs site (wp_loop p);
  wi_stopping : wp_phase p <> WRunning -> wp_sweeping p = false /\ wp_accepts p = false
                  /\ exists r, lp_returned (wp_loop p) = Some r;
  wi_metrics : forall d, wp_phase p = WClosingMetrics d -> wp_now p <= d <= wp_now p + metricsShutdownTimeout;
  wi_exit : forall code err, wp_phase p = WExited code err -> code = 0 /\ err = ""%string /\ wp_held p = 0%nat
}.

(** A loop that has returned stays so. *)
Lemma returned_stays l l' r : lp_returned l = Some r -> loop_inv o l -> loop_step o hs site l l' -> lp_returned l' = Some r /\ lp_now l <= lp_now l'.
Proof.
  intros Hr Hi Hs. destruct (li_ret _ _ Hi r Hr) as (d & Hd & _).
  destruct Hs; cbn [lp_returned lp_now]; try done; try congruence; split; try done; lia.
Qed.

Context (Hgrace : 0 <= DrainGrace o) (Hconc : 0 <= Concurrency o).

Lemma worker_step_inv p q : worker_step p q -> worker_inv p -> worker_inv q.
Proof.
  intros Hs [Hl Hst Hm He].
  destruct Hs as [p l Ha Hl' Ht|p Hp Hd|p Ha Hp Hj|p n Ha Hn|p Ha Hacc|p n Ha Hn|p e Ha|p r Hp Hsw Hr|p d Hp Hc|p Hp Hh];
    constructor; cbn [with_loop with_phase with_scrapes with_held swept wp_loop wp_phase wp_sweeping wp_accepts wp_held wp_scrapes] in *;
    try done; try (rewrite Hp in *; cbn in Ha; done); try (intros d' Hd'; by apply Hm).
  - destruct Hl as (h & now & Hl). exists h, now. by eapply rtc_r.
  - intros Hne. destruct (Hst Hne) as (H1 & H2 & r & Hr). split; [done|]. split; [done|]. exists r.
    by apply (returned_stays _ _ _ Hr (loop_ok _ _ _ _ Hgrace Hconc Hl) Hl').
  - intros d Hd. destruct (Hst ltac:(congruence)) as (_ & _ & r & Hr). specialize (Hm d Hd). rewrite Hd in Ht. cbn in Ht.
    destruct (returned_stays _ _ _ Hr (loop_ok _ _ _ _ Hgrace Hconc Hl) Hl') as [_ Hle]. unfold wp_now in *. cbn [with_loop wp_loop]. lia.
  - intros code err Hx. rewrite Hx in Ha. done.
  - intros code err Hx. rewrite Hx in Ha. done.
  - intros Hne. destruct (Hst Hne) as (H1 & _ & H3). done.
  - intros _. eauto.
  - intros d [= <-]. assert (0 <= metricsShutdownTimeout) by done. unfold wp_now. cbn [with_phase wp_loop]. lia.
  - intros _. apply Hst. congruence.
  - intros _. apply Hst. congruence.
  - intros code err [= <- <-]. done.
Qed.

Lemma worker_inv_reachable p : worker_reachable p -> worker_inv p.
Proof.
  intros (h & now & Hs). revert Hs. apply rtc_ind_r; [|intros q r _ Hst Hi; by eapply worker_step_inv].
  constructor; try done. exists h, now. apply rtc_refl.
Qed.

(** ** The process can always exit *)

Definition exits (p : WProc) : Prop := exists q, rtc worker_step p q /\ alive (wp_phase q) = false.

Lemma exits_after p q : rtc worker_step p q -> exits q -> exits p.
Proof. intros Hs (r & Hr & Ha). exists r. split; [by etrans|done]. Qed.

Lemma exits_pools n : forall p, wp_phase p = WClosingPools -> wp_held p = n -> exits p.
Proof.
  induction n as [|n IH]; intros p Hp Hn.
  - eexists. split; [apply rtc_once; by apply W_pools_closed|done].
  - apply (exits_after _ (with_held n p)); [apply rtc_once, W_release; [by rewrite Hp|done]|]. by apply IH.
Qed.

Definition ticked (dt : Z) (l : Loop) : Loop :=
  mkLoop (lp_state l) (lp_jobs l) (lp_done l) (lp_left l) (lp_returned l) (lp_now l + dt).

Lemma exits_metrics d p : worker_inv p -> wp_phase p = WClosingMetrics d -> exits p.
Proof.
  intros Hi Hp. pose proof (wi_metrics _ Hi d Hp) as Hd. destruct (wi_stopping _ Hi ltac:(congruence)) as (_ & _ & r & Hr).
  set (p1 := with_loop (ticked (d - wp_now p) (wp_loop p)) p). apply (exits_after _ p1).
  { apply rtc_once, W_loop; [by rewrite Hp| |rewrite Hp; unfold wp_now in *; cbn; lia].
    apply Lp_tick; [unfold wp_now in *; lia|]. intros ? _. congruence. }
  apply (exits_after _ (with_phase WClosingPools (wp_accepts p1) [] p1)); [|by eapply exits_pools].
  apply rtc_once, (W_metrics_closed _ d); [done|right]. unfold wp_now in *. cbn. lia.
Qed.

(** Both loops have returned, or the sweep loop still may. *)
Lemma exits_returned p r : worker_inv p -> wp_phase p = WRunning -> lp_done (wp_loop p) = true ->
  lp_returned (wp_loop p) = Some r -> exits p.
Proof.
  intros Hi Hp Hd Hr. pose proof (W_sweep_returns p Hp Hd) as H1. pose proof (worker_step_inv _ _ H1 Hi) as Hi1.
  pose proof (W_run_returns (swept p) r Hp eq_refl Hr) as H2. pose proof (worker_step_inv _ _ H2 Hi1) as Hi2.
  eapply exits_after; [eapply rtc_l; [exact H1|by apply rtc_once]|]. by eapply exits_metrics.
Qed.

Lemma loop_moves p l : worker_inv p -> wp_phase p = WRunning -> loop_step o hs site (wp_loop p) l ->
  worker_step p (with_loop l p) /\ worker_inv (with_loop l p).
Proof.
  intros Hi Hp Hl. assert (Hw : worker_step p (with_loop l p)) by (apply W_loop; [by rewrite Hp|done|by rewrite Hp]).
  split; [done|by eapply worker_step_inv].
Qed.

Lemma exits_left p d : worker_inv p -> wp_phase p = WRunning -> lp_done (wp_loop p) = true ->
  lp_left (wp_loop p) = Some d -> lp_returned (wp_loop p) = None -> exits p.
Proof.
  intros Hi Hp Hd Hl Hr. pose proof (loop_ok _ _ _ _ Hgrace Hconc (wi_loop _ Hi)) as Hli.
  pose proof (li_wait _ _ Hli d Hl Hr) as Hw. set (dt := d + DrainGrace o - lp_now (wp_loop p)).
  destruct (loop_moves p (ticked dt (wp_loop p)) Hi Hp) as [H1 Hi1].
  { apply Lp_tick; [lia|]. intros d' Hd' _. assert (d' = d) by congruence. lia. }
  assert (Hg : loop_step o hs site (ticked dt (wp_loop p))
                 (mkLoop (lp_state (wp_loop p)) (lp_jobs (wp_loop p)) (lp_done (wp_loop p)) (lp_left (wp_loop p))
                    (Some (lp_now (wp_loop p) + dt)) (lp_now (wp_loop p) + dt)))
    by (apply (Lp_grace _ _ _ (ticked dt (wp_loop p)) d); [done|done|cbn; lia]).
  destruct (loop_moves _ _ Hi1 Hp Hg) as [H2 Hi2].
  eapply exits_after; [eapply rtc_l; [exact H1|by apply rtc_once]|]. by eapply exits_returned.
Qed.

Lemma stopping_worker_exits p : worker_inv p -> lp_done (wp_loop p) = true -> exits p.
Proof.
  intros Hi Hd. destruct (wp_phase p) as [|d| |code err] eqn:Hp.
  - destruct (lp_returned (wp_loop p)) as [r|] eqn:Hr; [by eapply exits_returned|].
    destruct (lp_left (wp_loop p)) as [d|] eqn:Hl; [by eapply exits_left|].
    assert (Hs : loop_step o hs site (wp_loop p)
                   (mkLoop (lp_state (wp_loop p)) (lp_jobs (wp_loop p)) (lp_done (wp_loop p)) (Some (lp_now (wp_loop p)))
                      None (lp_now (wp_loop p)))).
    { apply (Lp_turn _ _ _ (wp_loop p) PickDone [] 0 [] [] (lp_state (wp_loop p)) None true); [done|by cbn|done]. }
    destruct (loop_moves p _ Hi Hp Hs) as [H1 Hi1]. eapply exits_after; [by apply rtc_once|].
    by eapply exits_left.
  - by eapply exits_metrics.
  - by eapply exits_pools.
  - exists p. split; [apply rtc_refl|by rewrite Hp].
Qed.

End Serve.

(** C16. A worker stops in order and in time.  In every state its process can reach:
    it has left its loops only after the signal, with the sweep loop ended, no
    scrape accepted, and the claim loop returned within the drain grace of
    leaving, before it only with no job running; the shutdown of the metrics
    listener takes at most five seconds after that; an exit is clean, and with
    every connection given back; and from the signal on an exit can always be
    reached. *)
Theorem worker_stops_in_order `{Jsonb} host pid suffix opts hs site p :
  let o := applyDefaults host pid suffix opts in
  worker_reachable o hs site p ->
  (wp_phase p <> WRunning ->
     wp_sweeping p = false /\ wp_accepts p = false /\ lp_done (wp_loop p) = true
     /\ exists d r, lp_left (wp_loop p) = Some d /\ lp_returned (wp_loop p) = Some r /\ d <= r <= d + DrainGrace o
          /\ (r < d + DrainGrace o -> lp_jobs (wp_loop p) = []))
  /\ (forall d, wp_phase p = WClosingMetrics d -> wp_now p <= d <= wp_now p + metricsShutdownTimeout)
  /\ (forall code err, wp_phase p = WExited code err -> code = 0 /\ err = ""%string /\ wp_held p = 0%nat)
  /\ (lp_done (wp_loop p) = true -> exits o hs site p).
Proof.
  intros o Hp. pose proof (defaults_positive host pid suffix opts) as (_ & _ & Hc & _ & _ & Hg). fold o in Hc, Hg.
  assert (Hi : worker_inv o hs site p) by (apply worker_inv_reachable; [lia|lia|done]).
  split; [|split; [|split]].
  - intros Hne. destruct (wi_stopping _ _ _ _ Hi Hne) as (H1 & H2 & r & Hr).
    pose proof (loop_ok o hs site (wp_loop p) ltac:(lia) ltac:(lia) (wi_loop _ _ _ _ Hi)) as Hl.
    destruct (li_ret _ _ Hl r Hr) as (d & Hd & Hle & _ & Hj). destruct (li_left _ _ Hl d Hd) as [Hdone _].
    do 3 (split; [done|]). exists d, r. repeat split; try done; try lia. intros Hlt. destruct Hj; [lia|done].
  - by apply (wi_metrics _ _ _ _ Hi).
  - by apply (wi_exit _ _ _ _ Hi).
  - apply stopping_worker_exits; [lia|lia|done].
Qed.

(** ** A worker whose job outlives the grace *)

#[local] Existing Instance Samples.octets.

Lemma loops_lift `{Jsonb} o hs site p l : wp_phase p = WRunning -> rtc (loop_step o hs site) (wp_loop p) l ->
  rtc (worker_step o hs site) p (with_loop l p).
Proof.
  intros Hp Hl. remember (wp_loop p) as l0 eqn:E. revert p Hp E. induction Hl as [l|l1 l2 l3 H1 _ IH]; intros p Hp ->.
  - destruct p. apply rtc_refl.
  - eapply rtc_l; [apply (W_loop _ _ _ p l2); [by rewrite Hp|done|by rewrite Hp]|]. by apply (IH (with_loop l2 p)).
Qed.

Definition busy_worker : WProc := with_held 1 (with_loop stopped (start_worker calm_health 0)).
Definition closing_worker : WProc :=
  with_phase WClosingPools false [] (with_phase (WClosingMetrics (25 * Second)) false ["vizra-worker stopped"%string] (swept busy_worker)).

Lemma closing_reachable : worker_reachable fast (Samples.handlers noop) "main" closing_worker.
Proof.
  exists calm_health, 0. etrans; [apply (loops_lift fast (Samples.handlers noop) "main" _ stopped); [done|exact stopped_path]|].
  eapply rtc_l; [by apply W_acquire|]. eapply rtc_l; [by apply W_sweep_returns|].
  eapply rtc_l; [by eapply (W_run_returns _ _ _ (swept busy_worker) (20 * Second))|].
  apply rtc_once. apply (W_metrics_closed _ _ _ (with_phase (WClosingMetrics (25 * Second)) false ["vizra-worker stopped"%string] (swept busy_worker)) (25 * Second)); [done|by left].
Qed.

Lemma worker_stops_in_order_witness :
  length (lp_jobs (wp_loop closing_worker)) = 1%nat
  /\ exits fast (Samples.handlers noop) "main" closing_worker
  /\ exists d r, lp_left (wp_loop closing_worker) = Some d /\ lp_returned (wp_loop closing_worker) = Some r
       /\ d <= r <= d + DrainGrace fast.
Proof.
  split; [vm_compute; reflexivity|].
  destruct (worker_stops_in_order "host" "7" "ab" (mkWorkerOptions 0 0 0 0 0 0 "" 0) (Samples.handlers noop) "main"
    closing_worker closing_reachable) as (Hs & _ & _ & He).
  split; [apply He; reflexivity|]. destruct (Hs ltac:(discriminate)) as (_ & _ & _ & d & r & Hd & Hr & Hle & _). by exists d, r.
Defined.

(** The wait for the pool has no deadline: while the job holds a connection the
    process stays, here an hour after the drain gave the job up. *)
Example pool_waits_for_the_job :
  let p := with_loop (ticked (3600 * Second) (wp_loop closing_worker)) closing_worker in
  worker_reachable fast (Samples.handlers noop) "main" p
  /\ alive (wp_phase p) = true /\ wp_now p = 0 + DrainGrace fast + 3600 * Second
  /\ forall q, worker_step fast (Samples.handlers noop) "main" p q -> alive (wp_phase q) = true.
Proof.
  cbv zeta. split; [|split; [done|split; [vm_compute; reflexivity|]]].
  - destruct closing_reachable as (h & now & Hs). exists h, now. eapply rtc_r; [exact Hs|].
    apply W_loop; [done| |done]. apply Lp_tick; [done|]. intros d _ Hn. vm_compute in Hn. discriminate Hn.
  - intros q Hq. inversion Hq; subst; cbn in *; try done.
Qed.
