(* ===== verification/Fleet.v ===== *)
(** * A fleet of worker processes (src/internal/jobs/worker.go, whole)

    The parts of the worker are modelled apart: the statements on the table in
    [JobSystem], the election of the process that sweeps in [Leader], the claim
    loop with its slots and its drain in [WorkerLoop].  Here they run together:
    any number of processes on one table and one set of locks, each with its
    claim loop, the runs and heartbeats of its jobs and its sweeps, starting and
    disappearing at any time.  [fleet_refines] shows that every execution is one
    of each part, so that what is proved of the parts holds of the whole;
    [stale_runs_are_fenced] is about the whole only. *)

From stdpp Require Import relations.
From S2P Require Import Prelude Utf8 GoTime SafeError Pg JobTable Jobs JobSystem JobHealth Gauges Leader WorkerLoop.

(** The sweeps with the locks, the table and its clock; the claim loop of each
    living process; and, for the proofs only, every claim that was handed out
    with the worker that got it, last first. *)
Record Fleet := mkFleet {
  fl_lead : Lead;
  fl_loops : gmap string Loop;
  fl_log : list (string * Claimed)
}.

Definition fl_queue (f : Fleet) : Table := queue (fl_lead f).
Definition fl_clock (f : Fleet) : timestamp := at_ (fl_lead f).

Definition with_queue (t : Table) (s : Lead) : Lead := mkLead (doing s) (locks s) (leaked s) t (at_ s).

(** The loop after an iteration, and after a job of it has ended. *)
Definition turned (l : Loop) (s' : LoopState) (j : option Claimed) (left_ : bool) : Loop :=
  mkLoop s' (match j with Some j => j :: lp_jobs l | None => lp_jobs l end) (lp_done l)
    (if left_ then Some (lp_now l) else None) None (lp_now l).

Definition job_ended (l : Loop) (rest : list Claimed) : Loop :=
  mkLoop (release (lp_state l)) rest (lp_done l) (lp_left l) (lp_returned l) (lp_now l).

Section Fleet.
Context `{Jsonb} {V : Type} (Marshal : V -> option string) (Redact : string -> string).
(** The site, and the options and handlers each process is started with. *)
Context (site : string) (fleet : gmap string (WorkerOptions * Handlers)).

(** [F_wait] is a step of a loop that touches neither its jobs nor the table:
    its context ends, it leaves, it drains, time passes.  A process may be gone
    at any time ([F_gone]); if it was sweeping, its session ended first or its
    sweep failed, which are steps of [sweep_act].  Only living processes
    sweep. *)
Inductive fleet_step : Fleet -> Fleet -> Prop :=
| F_enqueue f fresh j e t' :
    Enqueue Marshal fresh (fl_clock f) j (fl_queue f) = (e, t') ->
    fleet_step f (mkFleet (with_queue t' (fl_lead f)) (fl_loops f) (fl_log f))
| F_start f r o hs h now :
    fleet !! r = Some (o, hs) -> fl_loops f !! r = None ->
    fleet_step f (mkFleet (fl_lead f) (<[r := start_loop h now]> (fl_loops f)) (fl_log f))
| F_turn f r o hs l p locked s' t' j left_ :
    fleet !! r = Some (o, hs) -> fl_loops f !! r = Some l ->
    lp_left l = None -> offered o (lp_done l) (lp_state l) p = true ->
    turn o hs site locked (lp_now l) (fl_clock f) (lp_done l) p (fl_queue f) (lp_state l) = (s', t', j, left_) ->
    fleet_step f (mkFleet (with_queue t' (fl_lead f)) (<[r := turned l s' j left_]> (fl_loops f))
                    (match j with Some j => (WorkerID o, j) :: fl_log f | None => fl_log f end))
| F_heartbeat f r o hs l j t' alive :
    fleet !! r = Some (o, hs) -> fl_loops f !! r = Some l -> List.In j (lp_jobs l) ->
    heartbeat o j (fl_clock f) (fl_queue f) = (t', alive) ->
    fleet_step f (mkFleet (with_queue t' (fl_lead f)) (fl_loops f) (fl_log f))
| F_finish f r o hs l pre j post rnd started finished t' n :
    fleet !! r = Some (o, hs) -> fl_loops f !! r = Some l -> lp_jobs l = pre ++ j :: post ->
    run Redact o hs rnd j started finished (fl_clock f) (fl_queue f) = Some (t', n) ->
    fleet_step f (mkFleet (with_queue t' (fl_lead f)) (<[r := job_ended l (pre ++ post)]> (fl_loops f)) (fl_log f))
| F_wait f r o hs l l' :
    fleet !! r = Some (o, hs) -> fl_loops f !! r = Some l -> loop_step o hs site l l' -> lp_jobs l' = lp_jobs l ->
    fleet_step f (mkFleet (fl_lead f) (<[r := l']> (fl_loops f)) (fl_log f))
| F_gone f r :
    doing (fl_lead f) !! r = None ->
    fleet_step f (mkFleet (fl_lead f) (delete r (fl_loops f)) (fl_log f))
| F_sweep f s' :
    sweep_act (fl_lead f) s' -> (forall r p, doing s' !! r = Some p -> is_Some (fl_loops f !! r)) ->
    fleet_step f (mkFleet s' (fl_loops f) (fl_log f))
| F_time f d :
    0 <= d ->
    fleet_step f (mkFleet (mkLead (doing (fl_lead f)) (locks (fl_lead f)) (leaked (fl_lead f)) (fl_queue f) (fl_clock f + d))
                    (fl_loops f) (fl_log f)).

Definition no_fleet (now : timestamp) : Fleet := mkFleet (first_boot [] now) ∅ [].

Definition fleet_reachable (f : Fleet) : Prop := exists now, rtc fleet_step (no_fleet now) f.

(** ** The fleet as the system of statements *)

Definition workers_of : list (WorkerOptions * list Kind) :=
  map (fun rw => (rw.2.1, Kinds rw.2.2)) (map_to_list fleet).

Definition jobs_of (rl : string * Loop) : list (WorkerOptions * Claimed) :=
  match fleet !! rl.1 with Some (o, _) => map (pair o) (lp_jobs rl.2) | None => [] end.

(** The jobs that run, each with the options of its worker. *)
Definition running (m : gmap string Loop) : list (WorkerOptions * Claimed) := map_to_list m ≫= jobs_of.

Definition refines (f : Fleet) (s : Sys) : Prop :=
  table s = fl_queue f /\ clock s = fl_clock f
  /\ deliveries s = map (fun wj => c_ID wj.2) (fl_log f)
  /\ inflight s ≡ₚ running (fl_loops f).

Lemma running_split m r l : m !! r = Some l -> running m ≡ₚ jobs_of (r, l) ++ running (delete r m).
Proof. intros Hr. unfold running. rewrite <- (map_to_list_delete m r l Hr). by rewrite bind_cons. Qed.

Lemma running_insert m r l : running (<[r := l]> m) ≡ₚ jobs_of (r, l) ++ running (delete r m).
Proof.
  rewrite <- insert_delete_eq. unfold running. rewrite map_to_list_insert by apply lookup_delete_eq.
  by rewrite bind_cons.
Qed.

Lemma running_same m r l l' : m !! r = Some l -> lp_jobs l' = lp_jobs l -> running (<[r := l']> m) ≡ₚ running m.
Proof. intros Hr Hj. rewrite running_insert, (running_split m r l Hr). unfold jobs_of. cbn [fst snd]. by rewrite Hj. Qed.

Lemma running_jobs m r l o hs j :
  fleet !! r = Some (o, hs) -> m !! r = Some l -> List.In j (lp_jobs l) -> (o, j) ∈ running m.
Proof.
  intros Hw Hr Hj. rewrite (running_split m r l Hr). apply elem_of_app. left. unfold jobs_of. cbn [fst snd]. rewrite Hw.
  apply list_elem_of_In. by apply in_map.
Qed.

(** A job that is in flight can be picked out of the system's list. *)
Lemma inflight_pick s m o j : inflight s ≡ₚ running m -> (o, j) ∈ running m ->
  exists pre post, inflight s = pre ++ (o, j) :: post.
Proof. intros Hp Hin. rewrite <- Hp in Hin. by apply list_elem_of_split in Hin. Qed.

(** A process that is gone takes its jobs along. *)
Lemma stop_all s l rest : inflight s ≡ₚ l ++ rest ->
  exists s', steps Marshal Redact workers_of s s' /\ table s' = table s /\ clock s' = clock s
    /\ deliveries s' = deliveries s /\ inflight s' ≡ₚ rest.
Proof.
  revert s. induction l as [|[o j] l IH]; intros s Hp; [exists s; split; [apply rtc_refl|done]|].
  assert ((o, j) ∈ inflight s) as (pre & post & Hi)%list_elem_of_split by (rewrite Hp; apply elem_of_app; left; by left).
  destruct (IH (mkSys (table s) (clock s) (pre ++ post) (deliveries s))) as (s' & Hs & H1 & H2 & H3 & H4).
  { cbn [inflight]. apply (Permutation_cons_inv (a := (o, j))). rewrite <- Hp, Hi. by rewrite Permutation_middle. }
  exists s'. split; [|done]. eapply rtc_l; [by apply (Sys_stop _ _ _ s pre o j post)|exact Hs].
Qed.

(** *** Each statement of a step is one of the system *)

Lemma claim_none o hs locked now t t' : claim o hs locked now t = Ok (t', None) -> table_ok t -> t' = t.
Proof.
  unfold claim, ClaimJob, with_text. destruct (forallb _ _); [|done].
  pose proof (first_by_order_spec (List.filter (fun j => eligible (Kinds hs) now j && negb (one_of (id j) locked)) t)) as Hf.
  destruct (first_by_order _) as [c|]; [|by intros [= <-]]. destruct Hf as [[Hin _]%filter_In _].
  destruct (update _ _ t) as [[t1 rows]|e] eqn:Hu; [|done]. intros Hc Hok.
  pose proof (update_inv _ _ _ _ _ Hu) as [-> ->]. rewrite (filter_by_id t c (ok_ids _ Hok) Hin) in Hc. done.
Qed.

(** What an iteration of a loop did to the table. *)
Lemma turn_claims o hs locked now db_now dn p t st s' t' j left_ :
  turn o hs site locked now db_now dn p t st = (s', t', j, left_) -> table_ok t ->
  match j with None => t' = t | Some j => claim o hs locked db_now t = Ok (t', Some j) end.
Proof.
  unfold turn. intros Ht Hok. destruct p; try (by injection Ht as _ <- <- _). destruct dn; [by injection Ht as _ <- <- _|].
  destruct (claim o hs locked db_now t) as [[t1 [c|]]|e] eqn:Hc; injection Ht as _ <- <- _; [done| |done].
  by eapply claim_none.
Qed.

Lemma in_workers r o hs : fleet !! r = Some (o, hs) -> List.In (o, Kinds hs) workers_of.
Proof.
  intros Hw. unfold workers_of. apply in_map_iff. exists (r, (o, hs)). split; [done|].
  by apply list_elem_of_In, elem_of_map_to_list.
Qed.

Lemma sweep_act_queue s s' : sweep_act s s' -> at_ s' = at_ s
  /\ (queue s' = queue s \/ exists n, sweepOnce true (at_ s) (queue s) = Ok (queue s', n)).
Proof. intros Hs. destruct Hs as [| | |s r c t' n Hr Ht| | | | |]; cbn [with_doing queue at_]; eauto. Qed.

(** One step of the fleet is a few steps of the system. *)
Lemma fleet_simulates f f' s :
  fleet_step f f' -> table_ok (fl_queue f) -> refines f s ->
  exists s', steps Marshal Redact workers_of s s' /\ refines f' s'.
Proof.
  intros Hs Hok (Ht & Hc & Hd & Hi).
  destruct Hs as [f fresh j e t' He|f r o hs h now Hw Hr|f r o hs l p locked s' t' j left_ Hw Hr Hl Ho Hturn
    |f r o hs l j t' alive Hw Hr Hj Hh|f r o hs l pre j post rnd st fi t' n Hw Hr Hj Hrun|f r o hs l l' Hw Hr Hs Hj
    |f r Hr|f sl' Ha Hliv|f d Hd0].
  - exists (with_table t' s). split; [|by repeat split].
    apply rtc_once, (Sys_enqueue _ _ _ _ fresh j e). by rewrite Ht, Hc.
  - exists s. split; [apply rtc_refl|]. repeat split; try done. cbn [fl_loops]. rewrite running_insert, Hi.
    unfold jobs_of. cbn [fst snd]. rewrite Hw. cbn. by rewrite delete_id.
  - pose proof (turn_claims _ _ _ _ _ _ _ _ _ _ _ _ _ Hturn Hok) as Hcl. destruct j as [j|].
    + exists (mkSys t' (clock s) ((o, j) :: inflight s) (c_ID j :: deliveries s)). split.
      * apply rtc_once, (Sys_claim _ _ _ _ o hs locked); [by eapply in_workers|]. by rewrite Ht, Hc.
      * repeat split; [done|by cbn; rewrite Hd|]. cbn [inflight fl_loops]. rewrite Hi, running_insert, (running_split _ r l Hr).
        unfold jobs_of, turned. cbn [fst snd lp_jobs]. by rewrite Hw.
    + subst t'. exists s. split; [apply rtc_refl|]. repeat split; try done. cbn [fl_loops].
      by rewrite (running_same _ r l) by done.
  - destruct (inflight_pick s _ o j Hi) as (pre & post & Hin); [by eapply running_jobs|].
    exists (with_table t' s). split; [|by repeat split]. apply rtc_once, (Sys_heartbeat _ _ _ _ o j t' alive).
    + rewrite Hin. apply in_or_app. right. by left.
    + by rewrite Ht, Hc.
  - destruct (inflight_pick s _ o j Hi) as (pre' & post' & Hin).
    { eapply running_jobs; [done..|]. rewrite Hj. apply in_or_app. right. by left. }
    exists (mkSys t' (clock s) (pre' ++ post') (deliveries s)). split.
    + apply rtc_once, (Sys_finish _ _ _ _ pre' o hs rnd j post' st fi t' n); [done|]. by rewrite Ht, Hc.
    + repeat split; [done..|]. cbn [inflight fl_loops]. apply (Permutation_cons_inv (a := (o, j))).
      rewrite Permutation_middle, <- Hin, Hi, running_insert, (running_split _ r l Hr).
      unfold jobs_of, job_ended. cbn [fst snd lp_jobs]. rewrite Hw, Hj, !map_app. cbn [map].
      by rewrite <- Permutation_middle.
  - exists s. split; [apply rtc_refl|]. repeat split; try done. cbn [fl_loops]. by rewrite (running_same _ r l) by done.
  - destruct (fl_loops f !! r) as [l|] eqn:Hl.
    + destruct (stop_all s (jobs_of (r, l)) (running (delete r (fl_loops f)))) as (s' & Hs & H1 & H2 & H3 & H4).
      { by rewrite Hi, (running_split _ r l). }
      exists s'. split; [done|]. unfold refines. rewrite H1, H2, H3. by repeat split.
    + exists s. split; [apply rtc_refl|]. unfold refines. cbn [fl_loops]. rewrite delete_id by done. by repeat split.
  - destruct (sweep_act_queue _ _ Ha) as [Hat [Hq|[n Hsw]]].
    + exists s. split; [apply rtc_refl|]. unfold refines, fl_queue, fl_clock in *. cbn [fl_lead]. by rewrite Hat, Hq.
    + exists (with_table (queue sl') s). split;
        [|unfold refines, fl_queue, fl_clock in *; cbn [fl_lead with_table table clock deliveries inflight]; by rewrite Hat].
      apply rtc_once, (Sys_sweep _ _ _ _ true _ n). by rewrite Ht, Hc.
  - exists (mkSys (table s) (clock s + d) (inflight s) (deliveries s)). split; [by apply rtc_once, Sys_tick|].
    repeat split; try done. cbn. by rewrite Hc.
Qed.

(** *** The sweeps and the loops of a step *)

Lemma fleet_sweeps f f' : fleet_step f f' -> rtc sweep_step (fl_lead f) (fl_lead f').
Proof.
  assert (Hq : forall s t', rtc sweep_step s (with_queue t' s)).
  { intros s t'. apply rtc_once. pose proof (L_queue s t' 0 ltac:(lia)) as Hs. by rewrite Z.add_0_r in Hs. }
  intros Hs. destruct Hs; cbn [fl_lead]; try (apply Hq); try apply rtc_refl.
  - apply rtc_once. by apply L_act.
  - by apply rtc_once, L_queue.
Qed.

Definition loops_ok (m : gmap string Loop) : Prop :=
  forall r l, m !! r = Some l -> exists o hs, fleet !! r = Some (o, hs) /\ loop_reachable o hs site l.

Lemma loop_further o hs l l' : loop_reachable o hs site l -> loop_step o hs site l l' -> loop_reachable o hs site l'.
Proof. intros (h & now & Hs) Hl. exists h, now. by eapply rtc_r. Qed.

Lemma loops_insert m r l o hs : loops_ok m -> fleet !! r = Some (o, hs) -> loop_reachable o hs site l -> loops_ok (<[r := l]> m).
Proof. intros Hm Hw Hl r' l' [[<- <-]|[_ Hr]]%lookup_insert_Some; [by exists o, hs|by apply Hm]. Qed.

Lemma loops_at m r l o hs : loops_ok m -> m !! r = Some l -> fleet !! r = Some (o, hs) -> loop_reachable o hs site l.
Proof. intros Hm Hr Hw. destruct (Hm r l Hr) as (o' & hs' & Hw' & Hl). rewrite Hw in Hw'. by injection Hw' as <- <-. Qed.

Lemma fleet_loops f f' : fleet_step f f' -> loops_ok (fl_loops f) -> loops_ok (fl_loops f').
Proof.
  intros Hs Hm.
  destruct Hs as [f fresh j e t' He|f r o hs h now Hw Hr|f r o hs l p locked s' t' j left_ Hw Hr Hl Ho Hturn
    |f r o hs l j t' alive Hw Hr Hj Hh|f r o hs l pre j post rnd st fi t' n Hw Hr Hj Hrun|f r o hs l l' Hw Hr Hs Hj
    |f r Hr|f sl' Ha Hliv|f d Hd0]; cbn [fl_loops]; try done.
  - eapply loops_insert; [done..|]. exists h, now. apply rtc_refl.
  - eapply loops_insert; [done..|]. eapply loop_further; [by eapply loops_at|]. by eapply Lp_turn.
  - eapply loops_insert; [done..|]. eapply loop_further; [by eapply loops_at|]. by eapply Lp_job_ends.
  - eapply loops_insert; [done..|]. eapply loop_further; [by eapply loops_at|done].
  - intros r' l [_ Hl]%lookup_delete_Some. by apply Hm.
Qed.

Lemma fleet_parts f :
  fleet_reachable f ->
  (exists s, reachable Marshal Redact workers_of s /\ refines f s) /\ elected (fl_lead f) /\ loops_ok (fl_loops f).
Proof.
  intros [now Hs]. remember (no_fleet now) as f0 eqn:H0.
  assert (Hi : (exists s, reachable Marshal Redact workers_of s /\ refines f0 s) /\ elected (fl_lead f0) /\ loops_ok (fl_loops f0)).
  { subst. split; [|split].
    - exists (fresh_sys now). split; [exists now; apply rtc_refl|by repeat split].
    - exists [], now. apply rtc_refl.
    - intros r l Hr. cbn in Hr. by rewrite lookup_empty in Hr. }
  clear H0. induction Hs as [f|f1 f2 f3 H1 _ IH]; [done|]. apply IH. destruct Hi as ((s & Hr & Hsim) & He & Hl).
  split; [|split; [|by eapply fleet_loops]].
  - destruct (fleet_simulates f1 f2 s H1) as (s' & Hs' & Hsim'); [|done|].
    { destruct Hsim as [<- _]. by destruct (reachable_inv _ _ _ s Hr). }
    exists s'. split; [|done]. destruct Hr as [n Hr]. exists n. unfold steps in *. by etrans.
  - destruct He as (t & n & He). exists t, n. etrans; [exact He|by apply fleet_sweeps].
Qed.

(** ** Who holds a lease *)

(** The last claim of a job that was handed out, with the worker that got it. *)
Definition latest (i : uuid) (log : list (string * Claimed)) : option (string * Claimed) :=
  List.find (fun wj => c_ID wj.2 =s i) log.

(** How often a job was handed out. *)
Definition handed (i : uuid) (log : list (string * Claimed)) : Z :=
  Z.of_nat (length (List.filter (fun wj => c_ID wj.2 =s i) log)).

(** A leased row names the worker of the last claim, and its attempt. *)
Definition leases_ok (log : list (string * Claimed)) (t : Table) : Prop :=
  forall j, List.In j t -> state j = leased ->
  exists w c, latest (id j) log = Some (w, c) /\ leased_by j = strPtr w /\ c_Attempts c = attempts j.

Definition kept (j j' : Job) : Prop :=
  state j = leased /\ id j' = id j /\ leased_by j' = leased_by j /\ attempts j' = attempts j.

Lemma update_leases log where_ set_ t t' rows :
  update where_ set_ t = Ok (t', rows) ->
  (forall j, where_ j = true -> state (set_ j) = leased -> kept j (set_ j)) -> leases_ok log t -> leases_ok log t'.
Proof.
  intros [-> _]%update_inv Hk Hl j' Hj' Hs. unfold updated in Hj'. apply in_map_iff in Hj' as (j & <- & Hj).
  destruct (where_ j) eqn:Hw; [|by apply Hl]. destruct (Hk j Hw Hs) as (H1 & -> & -> & ->). by apply Hl.
Qed.

Lemma run_leases log o hs rnd c st fi now t t' n :
  run Redact o hs rnd c st fi now t = Some (t', n) -> leases_ok log t -> leases_ok log t'.
Proof.
  intros [-> |(where_ & set_ & rows & Hu & _ & _ & Hs)]%run_update; [done|].
  apply (update_leases _ _ _ _ _ _ Hu). intros j _ Hj. by destruct (Hs j).
Qed.

Lemma heartbeat_leases log o j now t t' alive :
  heartbeat o j now t = (t', alive) -> leases_ok log t -> leases_ok log t'.
Proof.
  unfold heartbeat, HeartbeatJob, with_text. destruct (forallb _ _); [|by intros [= <- _]].
  destruct (update _ _ t) as [[t1 rows]|e] eqn:Hu; [|by intros [= <- _]].
  intros Hb. assert (t1 = t') as <- by (by destruct (head rows); injection Hb).
  apply (update_leases _ _ _ _ _ _ Hu). intros k [Hk _]%held_leased _. by repeat split.
Qed.

Lemma sweep_leases log now t t' n : sweepOnce true now t = Ok (t', n) -> leases_ok log t -> leases_ok log t'.
Proof.
  unfold sweepOnce. cbn [negb]. destruct (SweepExpiredLeases now t) as [[t1 rows]|e] eqn:Hu; [|done]. intros [= <- _].
  apply (update_leases _ _ _ _ _ _ Hu). intros j _. unfold set_swept. by case_match.
Qed.

Lemma enqueue_leases log fresh now j e t t' : Enqueue Marshal fresh now j t = (e, t') -> leases_ok log t -> leases_ok log t'.
Proof.
  destruct (Enqueue_cases Marshal fresh now j t) as [[er ->]|(i & raw & -> & Hg)]; [by intros [= _ <-]|].
  rewrite (Enqueue_guarded Marshal i now j raw _ Hg).
  destruct (EnqueueJob_cases (enqueue_params j raw i) now t) as [[er ->]|(_ & _ & [-> |(-> & _)])]; [by intros [= _ <-]| |].
  - intros He. assert (t' = t) as ->; [|done].
    destruct (strPtr _); [|congruence]. destruct (GetLiveJobByIdempotencyKey _ _ _) as [[l|]|]; congruence.
  - intros [= _ <-] Hl k [Hk|[<-|[]]]%in_app_or; [by apply Hl|done].
Qed.

Lemma claim_leases log o hs locked now t t' j :
  table_ok t -> claim o hs locked now t = Ok (t', Some j) -> leases_ok log t -> leases_ok ((WorkerID o, j) :: log) t'.
Proof.
  intros Hok (c & Hin & _ & -> & Hid & Hat & _)%claim_inversion Hl k Hk Hs; [|done].
  unfold updated in Hk. apply in_map_iff in Hk as (r & <- & Hr). unfold latest. cbn [List.find snd].
  destruct (String.eqb_spec (id r) (id c)) as [He|He].
  - exists (WorkerID o), j. rewrite (same_id t c r (ok_ids _ Hok) Hin Hr He) in *. cbn [set_leased id leased_by attempts].
    by rewrite Hid, String.eqb_refl.
  - rewrite Hid. destruct (String.eqb_spec (id c) (id r)) as [|_]; [congruence|]. by apply Hl.
Qed.

(** The claims of a job are numbered in the order they were handed out. *)
Fixpoint numbered (log : list (string * Claimed)) : Prop :=
  match log with
  | [] => True
  | wj :: log => c_Attempts wj.2 = handed (c_ID wj.2) log + 1 /\ numbered log
  end.

Lemma handed_deliveries i log : handed i log = Z.of_nat (length (List.filter (String.eqb i) (map (fun wj => c_ID wj.2) log))).
Proof.
  unfold handed. f_equal. induction log as [|[w j] log IH]; [done|]. cbn [List.filter map snd].
  rewrite (String.eqb_sym i). destruct (c_ID j =s i); cbn [length]; by rewrite IH.
Qed.

(** What ties the loops, the log and the table together. *)
Record log_inv (f : Fleet) : Prop := {
  lg_leases : leases_ok (fl_log f) (fl_queue f);
  lg_numbered : numbered (fl_log f);
  lg_running : forall r l o hs j, fl_loops f !! r = Some l -> fleet !! r = Some (o, hs) -> List.In j (lp_jobs l) ->
    List.In (WorkerID o, j) (fl_log f)
}.

Lemma log_inv_loops f m : log_inv f ->
  (forall r l o hs j, m !! r = Some l -> fleet !! r = Some (o, hs) -> List.In j (lp_jobs l) ->
     exists l', fl_loops f !! r = Some l' /\ List.In j (lp_jobs l')) ->
  forall lead, leases_ok (fl_log f) (queue lead) -> log_inv (mkFleet lead m (fl_log f)).
Proof.
  intros [_ Hn Hr] Hm lead Hq. constructor; [done..|]. cbn [fl_loops fl_log]. intros r l o hs j Hl Hw Hj.
  destruct (Hm r l o hs j Hl Hw Hj) as (l' & Hl' & Hj'). by eapply Hr.
Qed.

Lemma log_inv_insert f r l l' : log_inv f -> fl_loops f !! r = Some l -> (forall j, List.In j (lp_jobs l') -> List.In j (lp_jobs l)) ->
  forall lead, leases_ok (fl_log f) (queue lead) -> log_inv (mkFleet lead (<[r := l']> (fl_loops f)) (fl_log f)).
Proof.
  intros Hi Hr Hj. apply log_inv_loops; [done|]. intros r' k o hs j [[<- <-]|[_ Hk]]%lookup_insert_Some Hw Hin;
    [exists l; auto|by exists k].
Qed.

Lemma fleet_log f f' :
  fleet_step f f' -> table_ok (fl_queue f) -> (forall j, List.In j (fl_queue f) -> attempts j = handed (id j) (fl_log f)) ->
  log_inv f -> log_inv f'.
Proof.
  intros Hs Hok Hcount Hi. pose proof Hi as [Hq Hn Hr'].
  destruct Hs as [f fresh j e t' He|f r o hs h now Hw Hr|f r o hs l p locked s' t' j left_ Hw Hr Hl Ho Hturn
    |f r o hs l j t' alive Hw Hr Hj Hh|f r o hs l pre j post rnd st fi t' n Hw Hr Hj Hrun|f r o hs l l' Hw Hr Hs Hj
    |f r Hr|f sl' Ha Hliv|f d Hd0].
  - apply log_inv_loops; [done|eauto|by eapply enqueue_leases].
  - apply log_inv_loops; [done| |done]. intros r' l o' hs' j [[<- <-]|[_ Hk]]%lookup_insert_Some Hw' Hin; [done|by exists l].
  - pose proof (turn_claims _ _ _ _ _ _ _ _ _ _ _ _ _ Hturn Hok) as Hcl. destruct j as [j|].
    2: { subst t'. by eapply log_inv_insert. }
    destruct (claim_inversion _ _ _ _ _ _ _ Hok Hcl) as (c & Hin & _ & _ & Hid & Hat & _).
    constructor; cbn [fl_log fl_loops fl_queue fl_lead with_queue queue].
    + by eapply claim_leases.
    + split; [|done]. cbn [snd]. by rewrite Hid, Hat, (Hcount c Hin).
    + intros r' k o' hs' i [[<- <-]|[_ Hk]]%lookup_insert_Some Hw' Hi'; [|right; by eapply Hr'].
      rewrite Hw in Hw'. injection Hw' as <- <-. destruct Hi' as [<-|Hi']; [by left|right; by eapply Hr'].
  - apply log_inv_loops; [done|eauto|by eapply heartbeat_leases].
  - eapply log_inv_insert; [done..| |by eapply run_leases]. cbn [job_ended lp_jobs]. intros i Hin. rewrite Hj.
    apply in_or_app. apply in_app_or in Hin as [?|?]; [by left|right; by right].
  - eapply log_inv_insert; [done..| |done]. intros i. by rewrite Hj.
  - apply log_inv_loops; [done| |done]. intros r' l o hs j [_ Hk]%lookup_delete_Some Hw Hin. by exists l.
  - apply log_inv_loops; [done|eauto|]. destruct (sweep_act_queue _ _ Ha) as [_ [-> |[n Hsw]]]; [done|by eapply sweep_leases].
  - by apply log_inv_loops; [done|eauto|].
Qed.

Lemma refined_count f s : reachable Marshal Redact workers_of s -> refines f s ->
  table_ok (fl_queue f) /\ forall j, List.In j (fl_queue f) -> attempts j = handed (id j) (fl_log f) /\ attempts j <= max_attempts j.
Proof.
  intros Hs (Ht & _ & Hd & _). destruct (reachable_inv _ _ _ s Hs) as [Hok _ Hc _]. rewrite Ht in Hok, Hc. split; [done|].
  intros j Hj. rewrite (Hc j Hj), handed_deliveries, <- Hd. split; [done|]. fold (delivered (id j) s). rewrite <- (Hc j Hj).
  pose proof (rv_attempts _ (table_row _ _ Hok Hj)). lia.
Qed.

Lemma fleet_log_inv f : fleet_reachable f -> log_inv f.
Proof.
  intros [now Hs]. revert Hs. apply rtc_ind_r; [|intros f1 f2 Hs Hst Hi].
  - constructor; [by intros j []|done|]. intros r l o hs j Hr. cbn in Hr. by rewrite lookup_empty in Hr.
  - destruct (fleet_parts f1) as ((s & Hr & Hsim) & _); [by exists now|]. destruct (refined_count _ _ Hr Hsim) as [Hok Hc].
    eapply fleet_log; [done..| |done]. intros j Hj. by apply Hc.
Qed.

(** C2. Any execution of a fleet, with processes that start, stop or die at any
    time, is an execution of the parts: of the system of statements, with the
    same table, clock and deliveries and the same jobs in flight; of the
    election; and, in each process, of the claim loop.  So the table keeps its
    constraints, a job is handed out as often as its attempts say and no more
    than its budget allows, and at most one process sweeps. *)
Theorem fleet_refines f :
  fleet_reachable f ->
  (exists s, reachable Marshal Redact workers_of s /\ refines f s)
  /\ elected (fl_lead f)
  /\ (forall r l, fl_loops f !! r = Some l -> exists o hs, fleet !! r = Some (o, hs) /\ loop_reachable o hs site l)
  /\ table_ok (fl_queue f)
  /\ (forall j, List.In j (fl_queue f) -> attempts j = handed (id j) (fl_log f) /\ attempts j <= max_attempts j)
  /\ (forall r r' p p', doing (fl_lead f) !! r = Some p -> doing (fl_lead f) !! r' = Some p' ->
        leads p = true -> leads p' = true -> r = r').
Proof.
  intros Hf. destruct (fleet_parts f Hf) as ((s & Hr & Hs) & He & Hl). split; [by exists s|]. split; [done|]. split; [done|].
  destruct (refined_count f s Hr Hs) as [Hok Hc]. split; [done|]. split; [done|]. by apply one_leads.
Qed.

Lemma held_by f i w c o r : log_inv f -> latest i (fl_log f) = Some (w, c) -> List.In r (fl_queue f) ->
  held i (strPtr (WorkerID o)) r = true -> w = WorkerID o.
Proof.
  intros [Hl _ _] Hlast Hr (Hs & Hi & Hb)%held_leased. destruct (Hl r Hr Hs) as (w' & c' & Hlast' & Hby & _).
  rewrite Hi, Hlast in Hlast'. injection Hlast' as <- <-. rewrite Hby in Hb. unfold strPtr, sql_eq in Hb.
  destruct (String.eqb_spec w ""), (String.eqb_spec (WorkerID o) ""); try done. by apply String.eqb_eq in Hb.
Qed.

(** C4. Of the runs of one job, only those of the worker that was handed it last can
    renew the lease or record an outcome: any other run, however late it ends,
    leaves the table as it is, and its heartbeat tells it that the lease is
    lost.  Claims are numbered in the order they are handed out, and each
    running job is one of them. *)
Theorem stale_runs_are_fenced f r o hs l j w c :
  fleet_reachable f -> fleet !! r = Some (o, hs) -> fl_loops f !! r = Some l -> List.In j (lp_jobs l) ->
  latest (c_ID j) (fl_log f) = Some (w, c) -> w <> WorkerID o ->
  (forall rnd started finished,
     exists n, run Redact o hs rnd j started finished (fl_clock f) (fl_queue f) = Some (fl_queue f, n))
  /\ (heartbeat o j (fl_clock f) (fl_queue f)).1 = fl_queue f
  /\ (pg_text_opt (strPtr (WorkerID o)) = true -> (heartbeat o j (fl_clock f) (fl_queue f)).2 = false)
  /\ numbered (fl_log f) /\ List.In (WorkerID o, j) (fl_log f).
Proof.
  intros Hf Hw Hr Hj Hlast Hne. pose proof (fleet_log_inv f Hf) as Hi.
  assert (Hn : forall k, List.In k (fl_queue f) -> held (c_ID j) (strPtr (WorkerID o)) k = false).
  { intros k Hk. destruct (held _ _ k) eqn:Hh; [|done]. by destruct Hne; eapply held_by. }
  destruct (fleet_parts f Hf) as ((s & Hrs & Hs) & _). destruct (refined_count f s Hrs Hs) as [Hok _].
  split; [|split; [|split]].
  - intros rnd st fi. apply (lost_lease_writes_nothing Redact o hs rnd j st fi (fl_clock f) _ Hn).
  - apply (lost_lease_writes_nothing Redact o hs 0 j 0 0 (fl_clock f) _ Hn).
  - apply (proj2 (proj2 (lost_lease_writes_nothing Redact o hs 0 j 0 0 (fl_clock f) _ Hn)) Hok).
  - split; [by destruct Hi|]. by eapply (lg_running _ Hi).
Qed.
End Fleet.

(** ** A job handed from one worker to another *)

Import Samples.
#[local] Existing Instance octets.

Definition worker (suffix : string) : WorkerOptions := applyDefaults "host" "7" suffix (mkWorkerOptions 0 0 0 0 0 0 "" 0).
Definition pair_of_workers : gmap string (WorkerOptions * Handlers) :=
  {["a"%string := (worker "a", handlers busy); "b"%string := (worker "b", handlers busy)]}.

Abbreviation pair_step := (fleet_step (fun s : string => Some s) (fun m => m) "main" pair_of_workers).

Definition put_job (f : Fleet) : Fleet :=
  mkFleet (with_queue (Enqueue (fun s => Some s) (Some "x"%string) (fl_clock f) request (fl_queue f)).2 (fl_lead f))
    (fl_loops f) (fl_log f).

Definition start_worker (r : string) (f : Fleet) : Fleet :=
  mkFleet (fl_lead f) (<[r := start_loop calm_health 0]> (fl_loops f)) (fl_log f).

(** An iteration of the loop of [r] that finds a slot. *)
Definition take_job (r : string) (f : Fleet) : Fleet :=
  match fl_loops f !! r with
  | None => f
  | Some l =>
      let '(s', t', j, left_) := turn (worker r) (handlers busy) "main" [] (lp_now l) (fl_clock f) (lp_done l) PickSlot
                                   (fl_queue f) (lp_state l) in
      mkFleet (with_queue t' (fl_lead f)) (<[r := turned l s' j left_]> (fl_loops f))
        (match j with Some j => (WorkerID (worker r), j) :: fl_log f | None => fl_log f end)
  end.

(** A minute and more passes. *)
Definition lease_elapses (f : Fleet) : Fleet :=
  mkFleet (mkLead (doing (fl_lead f)) (locks (fl_lead f)) (leaked (fl_lead f)) (fl_queue f) (fl_clock f + 70000000))
    (fl_loops f) (fl_log f).

(** The sweep of a process, on a session of its own. *)
Definition sweeping (d : gmap string Sweep) (l : Locks) (t : Table) (f : Fleet) : Fleet :=
  mkFleet (mkLead d l (leaked (fl_lead f)) t (fl_clock f)) (fl_loops f) (fl_log f).

Definition sweep_by (r c : string) (f : Fleet) : Fleet :=
  let d := <[r := Unlocking c]> (<[r := Leading c]> (<[r := Acquired c]> (doing (fl_lead f)))) in
  let l := (TryAdvisoryLock c leaderLock (locks (fl_lead f))).2 in
  let t := match sweepOnce true (fl_clock f) (fl_queue f) with Ok (t, _) => t | Err _ => fl_queue f end in
  sweeping (delete r d) (AdvisoryUnlock c leaderLock l).2 t f.

Lemma put_job_step f : pair_step f (put_job f).
Proof. unfold put_job. destruct (Enqueue _ _ _ request _) as [e t'] eqn:He. cbn [snd]. by eapply F_enqueue. Qed.

Lemma start_worker_step r f : (r = "a" \/ r = "b")%string -> fl_loops f !! r = None -> pair_step f (start_worker r f).
Proof. intros [-> | ->] Hr; by eapply F_start. Qed.

Lemma take_job_step r f l : (r = "a" \/ r = "b")%string -> fl_loops f !! r = Some l -> lp_left l = None ->
  offered (worker r) (lp_done l) (lp_state l) PickSlot = true -> pair_step f (take_job r f).
Proof.
  intros Hw Hr Hl Ho. unfold take_job. rewrite Hr. destruct (turn _ _ _ _ _ _ _ _ _ _) as [[[s' t'] j] left_] eqn:Ht.
  destruct Hw as [-> | ->]; by eapply F_turn.
Qed.

Lemma lease_elapses_step f : pair_step f (lease_elapses f).
Proof. by apply F_time. Qed.

Lemma act_step r f s' : sweep_act (fl_lead f) s' -> is_Some (fl_loops f !! r) ->
  (forall r', r' <> r -> doing s' !! r' = None) -> pair_step f (mkFleet s' (fl_loops f) (fl_log f)).
Proof.
  intros Ha Hl Hd. apply F_sweep; [done|]. intros r' p Hp. destruct (decide (r' = r)) as [-> |Hne]; [done|].
  by rewrite Hd in Hp.
Qed.

Lemma sweep_by_steps r c f :
  is_Some (fl_loops f !! r) -> doing (fl_lead f) = ∅ -> locks (fl_lead f) !! leaderLock = None ->
  is_ok (sweepOnce true (fl_clock f) (fl_queue f)) = true -> rtc pair_step f (sweep_by r c f).
Proof.
  intros Hl Hd Hk Ho. unfold sweep_by. destruct (sweepOnce _ _ _) as [[t n]|e] eqn:Hs; [|done]. cbv zeta.
  assert (Ht : TryAdvisoryLock c leaderLock (locks (fl_lead f)) = (true, <[leaderLock := (c, 1%nat)]> (locks (fl_lead f))))
    by (unfold TryAdvisoryLock; by rewrite Hk).
  assert (Hne : forall r' (p q u : Sweep), r' <> r ->
    (<[r := p]> (<[r := q]> (<[r := u]> (doing (fl_lead f))))) !! r' = None /\ doing (fl_lead f) !! r' = None).
  { intros r' p q u Hr. rewrite !lookup_insert_ne by done. by rewrite Hd, lookup_empty. }
  eapply rtc_l; [apply (act_step r f (with_doing (<[r := Acquired c]> (doing (fl_lead f))) (fl_lead f))); [|done|]|].
  { apply L_acquire; rewrite Hd; [apply lookup_empty|]. intros r' p Hp. by rewrite lookup_empty in Hp. }
  { intros r' Hr. cbn [with_doing doing]. rewrite lookup_insert_ne by done. by rewrite Hd, lookup_empty. }
  eapply rtc_l; [eapply (act_step r); [eapply L_lock; [apply lookup_insert_eq|exact Ht]|done|]|].
  { intros r' Hr. cbn [with_doing doing fl_lead]. rewrite !lookup_insert_ne by done. by rewrite Hd, lookup_empty. }
  eapply rtc_l; [eapply (act_step r); [eapply L_sweep; [apply lookup_insert_eq|exact Hs]|done|]|].
  { intros r' Hr. by apply Hne. }
  eapply rtc_l; [eapply (act_step r); [eapply L_unlock; apply lookup_insert_eq|done|]|].
  { intros r' Hr. cbn [doing fl_lead with_doing]. rewrite lookup_delete_ne by done. by apply Hne. }
  rewrite Ht. apply rtc_refl.
Qed.

(** [a] claims the job and does not renew its lease; [b] sweeps it and claims
    it. *)
Definition handed_over : Fleet :=
  take_job "b" (sweep_by "b" "s" (start_worker "b" (lease_elapses (take_job "a" (start_worker "a" (put_job (no_fleet 0))))))).

Ltac at_sample := vm_compute; reflexivity.

Lemma handed_over_reachable : fleet_reachable (fun s : string => Some s) (fun m => m) "main" pair_of_workers handed_over.
Proof.
  exists 0. eapply rtc_l; [apply put_job_step|].
  eapply rtc_l; [apply (start_worker_step "a"); [by left|at_sample]|].
  eapply rtc_l; [eapply (take_job_step "a"); [by left|at_sample|at_sample|at_sample]|].
  eapply rtc_l; [apply lease_elapses_step|].
  eapply rtc_l; [apply (start_worker_step "b"); [by right|at_sample]|].
  etrans; [apply (sweep_by_steps "b" "s"); [eexists; at_sample|at_sample|at_sample|at_sample]|].
  apply rtc_once. eapply (take_job_step "b"); [by right|at_sample|at_sample|at_sample].
Qed.

Definition loop_at (f : Fleet) (r : string) : Loop := default (start_loop calm_health 0) (fl_loops f !! r).

(** The [n]-th claim of the job, whose lease ends at [until]. *)
Definition nth_claim (n until : Z) : Claimed := mkClaimed "x" KindNoop "{}" n 5 "c" until.

Lemma fleet_refines_witness :
  List.In (worker "a", nth_claim 1 60000000) (Fleet.running pair_of_workers (fl_loops handed_over))
  /\ table_ok (fl_queue handed_over)
  /\ exists s, reachable (fun s : string => Some s) (fun m => m) (workers_of pair_of_workers) s
       /\ refines pair_of_workers handed_over s.
Proof.
  split; [vm_compute; auto|].
  destruct (fleet_refines _ _ _ _ handed_over handed_over_reachable) as (Hs & _ & _ & Hok & _). by split.
Defined.

Lemma stale_runs_are_fenced_witness :
  (exists n, run (fun m => m) (worker "a") (handlers busy) 0 (nth_claim 1 60000000) 0 1 (fl_clock handed_over) (fl_queue handed_over)
             = Some (fl_queue handed_over, n))
  /\ (heartbeat (worker "a") (nth_claim 1 60000000) (fl_clock handed_over) (fl_queue handed_over)).2 = false.
Proof.
  destruct (stale_runs_are_fenced (fun s : string => Some s) (fun m => m) "main" pair_of_workers handed_over "a" (worker "a")
    (handlers busy) (loop_at handed_over "a") (nth_claim 1 60000000) "host-7-b" (nth_claim 2 130000000))
    as (Hrun & _ & Hbeat & _); [exact handed_over_reachable|at_sample|at_sample|vm_compute; auto|at_sample|done|].
  split; [apply (Hrun 0 0 1)|by apply Hbeat].
Defined.

(** ** The fence is the worker's name, not the claim

    A worker that was cut off from the database for longer than its lease, and
    whose job was swept, may be handed the same job again while its first run
    still goes on. *)
Definition reclaimed : Fleet :=
  take_job "a" (sweep_by "a" "s" (lease_elapses (take_job "a" (start_worker "a" (put_job (no_fleet 0)))))).

Lemma reclaimed_reachable : fleet_reachable (fun s : string => Some s) (fun m => m) "main" pair_of_workers reclaimed.
Proof.
  exists 0. eapply rtc_l; [apply put_job_step|].
  eapply rtc_l; [apply (start_worker_step "a"); [by left|at_sample]|].
  eapply rtc_l; [eapply (take_job_step "a"); [by left|at_sample|at_sample|at_sample]|].
  eapply rtc_l; [apply lease_elapses_step|].
  etrans; [apply (sweep_by_steps "a" "s"); [eexists; at_sample|at_sample|at_sample|at_sample]|].
  apply rtc_once. eapply (take_job_step "a"); [by left|at_sample|at_sample|at_sample].
Qed.

(** Then both runs go on at once, the heartbeat of the first says that it holds
    the lease, the outcome of the first is recorded as the job's, and the
    outcome of the second, which has the lease, is dropped as that of a lost
    one. *)
Example own_reclaim_is_not_fenced :
  fleet_reachable (fun s : string => Some s) (fun m => m) "main" pair_of_workers reclaimed
  /\ let first := nth_claim 1 60000000 in
     let second := nth_claim 2 130000000 in
     let now := fl_clock reclaimed in
     lp_jobs (loop_at reclaimed "a") = [second; first]
     /\ (heartbeat (worker "a") first now (fl_queue reclaimed)).2 = true
     /\ exists t, run (fun m => m) (worker "a") (handlers busy) 0 first 0 1 now (fl_queue reclaimed) = Some (t, Some 1)
          /\ map state t = [succeeded]
          /\ run (fun m => m) (worker "a") (handlers busy) 0 second 0 1 now t = Some (t, Some 0).
Proof.
  split; [exact reclaimed_reachable|]. split; [at_sample|]. split; [at_sample|].
  eexists. split; [at_sample|]. split; at_sample.
Qed.
