(* ===== verification/ApiProcess.v ===== *)
(** * The start of the api (src/cmd/api/main.go)

    [boot_api] is [run] up to its two listeners: the configuration, the pools,
    the cache client and its limiter, the search service, the embedded version,
    the owner-claim bootstrap, and the server built from them. *)

From S2P Require Import Prelude Utf8 Regex GoStrings Decimals GoTime GoFmt Pg Limiter SearchHmac Origin OwnerStore AuditLog OwnerClaim OwnerSystem ClaimHttp Config Search Probes Migrate Gauges Stores Doctor HttpServer.

(** ** Listeners *)

Record Listener := mkListener {
  ln_Addr : string;
  ReadHeaderTimeout : Z;
  ReadTimeout : Z;
  WriteTimeout : Z;
  IdleTimeout : Z
}.

Definition newAPIServer (cfg : Config) : Listener :=
  mkListener (cfg_ListenAddr cfg) (10 * Second) (30 * Second) (30 * Second) (120 * Second).

(** The timeouts that are not set are zero. *)
Definition metrics_listener (cfg : Config) : Listener := mkListener (cfg_MetricsAddr cfg) (5 * Second) 0 0 0.

(** ** Booting *)

(** What the statements of the owner-claim bootstrap meet. *)
Record ClaimBoot := mkClaimBoot {
  cb_users : option Fault;
  cb_state : option Fault;
  cb_db_users : Db;
  cb_db_state : Db;
  cb_sup : SupersedePoint -> option Fault;
  cb_mint : MintEnv;
  cb_entropy : option string;
  cb_uuids : option uuid * option uuid;
  cb_now : timestamp
}.

Definition boot_claim (b : ClaimBoot) (cfg : Config) (db : Db) : BootOutcome * option OwnerError * string * Db :=
  Boot (cb_users b) (cb_state b) (cb_db_users b) (cb_db_state b) (cb_sup b) (cb_mint b) (cb_entropy b)
    (cb_uuids b) (cfg_OwnerClaimAnnounce cfg) (cfg_OwnerClaimTTL cfg) (cb_now b) db.

(** The process when its listeners start: the server, the listeners, what was
    written to standard error, and the error that was logged. *)
Record Api {Cache : Type} := mkApi {
  api_server : HttpServer Cache;
  api_listeners : Listener * Listener;
  api_announced : string;
  api_claim_error : option OwnerError
}.
Arguments Api : clear implicits.
Arguments mkApi {Cache}.

Section Api.
Context `{HU : Unicode, HN : NetUrl, HW : UrlPrint, HQ : Printable, HR : NewRequest, HC : Redis}.
Context {P : Type} `{HD : PgxPool P} {Cache : Type}.
Context (entries : list string).

(** What a pool and the cache answer to a ping, the queue's snapshot, and the
    cache server behind the limiter. *)
Context (ask : P -> bool -> option string) (ask_cache : bool -> option string).
Context (snapshot : bool -> option Z) (server_cache : Cache).

Definition remote_of (cfg : Config) : option RemoteClient :=
  if cfg_SearchMode cfg <>s SearchOff then Some (NewRemote (cfg_SearchURL cfg) (cfg_SearchHMACKey cfg)) else None.

Definition api_deps (cfg : Config) (degraded_claim : bool) (l : FallbackLimiter) : Deps :=
  mkDeps (Some cfg) (fun _ => false) (fun _ => false) degraded_claim (Some l)
    (Some (NewService SQLSearcher (remote_of cfg))) (Some snapshot).

Definition boot_api (lookup : Lookup) (b : ClaimBoot) (db : Db) : result string (Api Cache) * Db :=
  match LoadFrom lookup with
  | Err ps => (Err ("vizra-api refused to start." +:+ GoFmt.newline +:+ ValidationError_Error ps)%string, db)
  | Ok cfg =>
  let resolver := NewResolver (core_site cfg) in
  match Open resolver with
  | Err (text, _) => (Err text, db)
  | Ok pools =>
  match cache_Open (cfg_CacheURL cfg) (cfg_CacheNamespace cfg) with
  | Err e => (Err e, db)
  | Ok client =>
  let limiter := NewFallbackLimiter (Some (Stores.namespace client)) in
  match EmbeddedVersion entries with
  | Err e => (Err (MigrateError_Error e), db)
  | Ok embedded =>
      let '(outcome, claimErr, announced, db') := boot_claim b cfg db in
      let failed_claim := match claimErr with Some _ => true | None => false end in
      let srv := New ask ask_cache (Some pools) None None true
                   (api_deps cfg (b_Degraded outcome || failed_claim) limiter)
                   (mkReadiness "" [] 0)
                   (mkServer (mkClaimedCache false 0) (Some limiter) server_cache db') resolver embedded in
      (Ok (mkApi srv (newAPIServer cfg, metrics_listener cfg) announced claimErr), db')
  end end end end.

(** ** What a booted api promises *)

Lemma boot_errors b cfg db :
  let '(outcome, err, text, db') := boot_claim b cfg db in
  (err <> None -> b_Degraded outcome = true /\ text = ""%string)
  /\ (err = None -> b_Degraded outcome = false).
Proof.
  unfold boot_claim, Boot. repeat (case_match; simplify_eq; try done).
Qed.

Lemma first_readiness d env ended now computed t zero :
  let '(code, resp, _, _) := handleReadyz false d env ended now computed (newReadinessCache t zero) in
  (code = 503 <-> d_PingDatabase d ended = false) /\ (rr_Status resp = statusOK <-> all_well d env ended = true).
Proof.
  unfold handleReadyz, Get. change (fresh now (newReadinessCache t zero)) with false.
  pose proof (compute_unavailable d env ended now) as Hu. pose proof (compute_ok d env ended now) as Hk.
  destruct (computeReadiness d env ended now) as [v s']. cbn [fst] in *. split; [|done].
  rewrite <- Hu. destruct (String.eqb_spec (rr_Status v) statusUnavailable); by split.
Qed.


End Api.

(** ** The sample configuration, with a database that refuses the bootstrap *)

#[local] Existing Instance ascii_only.
#[local] Existing Instance schemes.
#[local] Existing Instance no_users.
#[local] Instance plain_print : Printable := fun _ => true.
#[local] Instance unit_pool : PgxPool unit := {| ParseConfig := fun _ => true; NewWithConfig := fun _ _ _ => Ok tt |}.
#[local] Instance no_url : Redis := fun _ => true.

Definition refused_boot : ClaimBoot :=
  mkClaimBoot (Some Lost) None empty_db empty_db (fun _ => None) OwnerSystem.Samples.quiet
    (Some OwnerSystem.Samples.entropy) OwnerSystem.Samples.uuids 1000.

Example boots_degraded :
  match boot_api ["0001_a.up.sql"%string] (fun _ _ => None) (fun _ => None) (fun _ => Some 0) tt
          sample_lookup refused_boot empty_db with
  | (Ok api, db) => d_OwnerClaimDegraded (ready_deps (api_server api)) = true
                    /\ api_announced api = ""%string /\ db = empty_db
                    /\ ln_Addr (api_listeners api).1 = ":8080"%string
  | (Err _, _) => False
  end.
Proof. vm_compute. repeat split. Qed.
