(* ===== verification/ApiServe.v ===== *)
(** * Serving and stopping (src/cmd/api/main.go)

    The api after its start: two listeners, the wait for a listener's failure or
    a signal, the drain, the two shutdowns of net/http under one deadline, and
    then what the deferred calls of [run] do before the process exits.  Requests
    arrive, hold connections of the pool and end, time passes, and the process
    moves; one rule of [step] is one of these.  [http.Server.Shutdown] closes the
    listener and waits, polling, until no request is open or its context ends;
    between two polls the end of the context may be seen first.  It does not end
    the open requests.  The closing of a pool refuses further connections and
    waits, without a deadline, for every connection in use (as pgxpool
    documents). *)

From S2P Require Import Prelude GoTime GoFmt SearchHmac Origin OwnerStore Config Search Probes Stores HttpServer ApiProcess.

(** [ClosingPools]: [run] has its result, and the deferred calls are made. *)
Inductive Phase :=
| Serving
| ClosingMetrics (deadline : Z)
| ClosingApi (deadline : Z)
| ClosingPools (err : option string)
| Exited (code : Z) (stderr : string).

Record Proc {Cache : Type} := mkProc {
  pr_now : Z;
  pr_phase : Phase;
  pr_server : HttpServer Cache;
  api_accepts : bool;
  api_open : nat;
  pr_held : nat;                 (* connections the open requests hold *)
  cache_open : bool;
  metrics_accepts : bool;
  metrics_open : nat;
  pr_log : list string
}.
Arguments Proc : clear implicits.
Arguments mkProc {Cache}.

Section Serve.
Context {Cache : Type} (cfg : Config).

(** The process when its listeners start. *)
Definition serving (now : Z) (srv : HttpServer Cache) : Proc Cache :=
  mkProc now Serving srv true 0 0 true true 0 ["vizra-api listening"%string].

Definition deadline_text : string := "context deadline exceeded".

Definition overrun_text : string := "vizra-api: shutdown did not finish within the grace period: " +:+ deadline_text.

(** [main] prints the error of [run] and exits with 1. *)
Definition main_exit (err : option string) : Phase :=
  match err with None => Exited 0 "" | Some e => Exited 1 (e +:+ newline) end.

(** The select took the signal: the server drains, the deadline of both
    shutdowns starts, and the metrics listener closes. *)
Definition drained (p : Proc Cache) : Proc Cache :=
  mkProc (pr_now p) (ClosingMetrics (pr_now p + cfg_ShutdownGrace cfg)) (Drain (pr_server p)) (api_accepts p) (api_open p)
    (pr_held p) (cache_open p) false (metrics_open p) (pr_log p ++ ["vizra-api draining"%string]).

(** The error of the metrics shutdown is dropped; the public listener closes. *)
Definition closing_api (d : Z) (p : Proc Cache) : Proc Cache :=
  mkProc (pr_now p) (ClosingApi d) (pr_server p) false (api_open p) (pr_held p) (cache_open p)
    (metrics_accepts p) (metrics_open p) (pr_log p).

(** [run] returns: the cache client is closed, which waits for nothing, then the
    pools. *)
Definition returned (err : option string) (lines : list string) (p : Proc Cache) : Proc Cache :=
  mkProc (pr_now p) (ClosingPools err) (pr_server p) (api_accepts p) (api_open p) (pr_held p) false
    (metrics_accepts p) (metrics_open p) (pr_log p ++ lines).

Definition exited (err : option string) (p : Proc Cache) : Proc Cache :=
  mkProc (pr_now p) (main_exit err) (pr_server p) (api_accepts p) (api_open p) (pr_held p) (cache_open p)
    (metrics_accepts p) (metrics_open p) (pr_log p).

Definition logs (line : string) (p : Proc Cache) : Proc Cache :=
  mkProc (pr_now p) (pr_phase p) (pr_server p) (api_accepts p) (api_open p) (pr_held p) (cache_open p)
    (metrics_accepts p) (metrics_open p) (pr_log p ++ [line]).

Definition with_requests (api held metrics : nat) (p : Proc Cache) : Proc Cache :=
  mkProc (pr_now p) (pr_phase p) (pr_server p) (api_accepts p) api held (cache_open p) (metrics_accepts p) metrics (pr_log p).

Definition later (t : Z) (p : Proc Cache) : Proc Cache :=
  mkProc t (pr_phase p) (pr_server p) (api_accepts p) (api_open p) (pr_held p) (cache_open p)
    (metrics_accepts p) (metrics_open p) (pr_log p).

(** What the requests do: a handler may move the server, but does not undrain
    it. *)
Definition handled (srv : HttpServer Cache) (p : Proc Cache) : Proc Cache :=
  mkProc (pr_now p) (pr_phase p) srv (api_accepts p) (api_open p) (pr_held p) (cache_open p)
    (metrics_accepts p) (metrics_open p) (pr_log p).

(** How far time may pass without the process moving: a wait sees the end of
    its context, and the closing of the pools waits only while a connection is in
    use. *)
Definition waits_until (p : Proc Cache) (t : Z) : Prop :=
  match pr_phase p with
  | ClosingMetrics d | ClosingApi d => t <= d
  | ClosingPools _ => pr_held p = 0%nat -> t = pr_now p
  | _ => True
  end.

Definition running (ph : Phase) : bool := match ph with Exited _ _ => false | _ => true end.

(** The pool gives out connections until it is closed. *)
Definition pool_open (ph : Phase) : bool := match ph with ClosingPools _ | Exited _ _ => false | _ => true end.

(** A request that ends has given its connections back.  After a listener has
    failed, requests may still come over connections that are kept alive. *)
Inductive step : Proc Cache -> Proc Cache -> Prop :=
| step_time p t : running (pr_phase p) = true -> pr_now p <= t -> waits_until p t -> step p (later t p)
| step_request p : running (pr_phase p) = true -> api_accepts p = true ->
    step p (with_requests (S (api_open p)) (pr_held p) (metrics_open p) p)
| step_answer p n : running (pr_phase p) = true -> api_open p = S n -> (n = 0%nat -> pr_held p = 0%nat) ->
    step p (with_requests n (pr_held p) (metrics_open p) p)
| step_acquire p : pool_open (pr_phase p) = true -> (0 < api_open p)%nat ->
    step p (with_requests (api_open p) (S (pr_held p)) (metrics_open p) p)
| step_release p n : running (pr_phase p) = true -> pr_held p = S n ->
    step p (with_requests (api_open p) n (metrics_open p) p)
| step_handler p srv : running (pr_phase p) = true -> (0 < api_open p)%nat -> Draining srv = Draining (pr_server p) -> step p (handled srv p)
| step_scrape p : running (pr_phase p) = true -> metrics_accepts p = true ->
    step p (with_requests (api_open p) (pr_held p) (S (metrics_open p)) p)
| step_scraped p n : running (pr_phase p) = true -> metrics_open p = S n ->
    step p (with_requests (api_open p) (pr_held p) n p)
| step_listener_failed p e : pr_phase p = Serving -> step p (returned (Some e) [] p)
| step_metrics_listener_failed p e : running (pr_phase p) = true ->
    step p (logs ("metrics listener stopped: " +:+ e) p)
| step_signal p : pr_phase p = Serving -> step p (drained p)
| step_metrics_closed p d : pr_phase p = ClosingMetrics d -> metrics_open p = 0%nat \/ d <= pr_now p -> step p (closing_api d p)
| step_stopped p d : pr_phase p = ClosingApi d -> api_open p = 0%nat -> step p (returned None ["vizra-api stopped"%string] p)
| step_overrun p d : pr_phase p = ClosingApi d -> d <= pr_now p -> step p (returned (Some overrun_text) [] p)
| step_pools_closed p err : pr_phase p = ClosingPools err -> pr_held p = 0%nat -> step p (exited err p).

Inductive steps : Proc Cache -> Proc Cache -> Prop :=
| steps_refl p : steps p p
| steps_snoc p q r : steps p q -> step q r -> steps p r.

(** The life of a process that was signalled at [t0]: what holds until it
    exits. *)
Definition stopping (t0 : Z) (p : Proc Cache) : Prop :=
  let limit := t0 + cfg_ShutdownGrace cfg in
  match pr_phase p with
  | Serving => False
  | ClosingMetrics d => d = limit /\ pr_now p <= d
  | ClosingApi d => d = limit /\ pr_now p <= d /\ api_accepts p = false
  | ClosingPools None => pr_now p <= limit /\ api_accepts p = false /\ api_open p = 0%nat
  | ClosingPools (Some e) => limit <= pr_now p /\ api_accepts p = false /\ e = overrun_text
  | Exited code err => api_accepts p = false /\ pr_held p = 0%nat
      /\ (code = 0 /\ err = ""%string /\ pr_now p <= limit /\ api_open p = 0%nat
          \/ code = 1 /\ err = overrun_text +:+ newline /\ limit <= pr_now p)
  end /\ t0 <= pr_now p /\ Draining (pr_server p) = true /\ metrics_accepts p = false
  /\ (api_open p = 0%nat -> pr_held p = 0%nat).

Lemma drained_stopping p : 0 <= cfg_ShutdownGrace cfg -> (api_open p = 0%nat -> pr_held p = 0%nat) -> stopping (pr_now p) (drained p).
Proof.
  intros Hg Hh. unfold stopping. cbn [drained pr_phase pr_now pr_server metrics_accepts api_open pr_held].
  repeat split; try done; lia.
Qed.

(** In each phase the process may be in. *)
#[local] Ltac by_phase p :=
  destruct (pr_phase p) as [|?|?|[?|]|? ?]; cbn [running pool_open] in *; intuition (congruence || lia).

Lemma stopping_step t0 p q : stopping t0 p -> step p q -> stopping t0 q.
Proof.
  intros (Hp & Ht0 & Hd & Hm & Hh) Hs.
  destruct Hs as [p t Hr Ht Hw|p Hr Ha|p n Hr Hn Hz|p Hr Ho|p n Hr Hn|p srv Hr Hn Hsrv|p Hr Ha|p n Hr Hn|p e Hph|p e Hr|p Hph
    |p d Hph Hc|p d Hph Hz|p d Hph Hc|p err Hph Hz];
    unfold stopping, waits_until in *;
    cbn [later with_requests handled returned exited logs drained closing_api pr_phase pr_now pr_server api_accepts api_open pr_held metrics_accepts] in *;
    try (rewrite Hph in Hp).
  - split; [|split; [lia|done]]. by_phase p.
  - split; [|repeat split; done]. by_phase p.
  - split; [|repeat split; try done; naive_solver]. by_phase p.
  - split; [|repeat split; try done; lia]. by_phase p.
  - split; [|repeat split; try done; naive_solver lia]. by_phase p.
  - split; [|repeat split; try done; by rewrite Hsrv]. by_phase p.
  - congruence.
  - split; [|repeat split; done]. by_phase p.
  - done.
  - split; [|repeat split; done]. by_phase p.
  - done.
  - naive_solver.
  - naive_solver lia.
  - naive_solver lia.
  - split; [|repeat split; done]. unfold main_exit. destruct err; naive_solver.
Qed.

Lemma stopping_steps t0 p q : stopping t0 p -> steps p q -> stopping t0 q.
Proof. intros Hp Hs. induction Hs as [|? ? ? _ IH Hst]; [done|]. exact (stopping_step _ _ _ (IH Hp) Hst). Qed.

Lemma steps_one p q : step p q -> steps p q.
Proof. intros. eapply steps_snoc; [apply steps_refl|done]. Qed.

Lemma steps_trans p q r : steps p q -> steps q r -> steps p r.
Proof. intros Hp Hs. induction Hs as [|? ? ? _ IH Hst]; [done|]. exact (steps_snoc _ _ _ (IH Hp) Hst). Qed.

(** ** The process can exit *)

(** An exit is reached at [t] or before, while as many requests stay open. *)
Definition exits_by (t : Z) (p : Proc Cache) : Prop :=
  exists r, steps p r /\ running (pr_phase r) = false /\ api_open r = api_open p /\ pr_now r <= t.

Lemma exits_by_after t p q : steps p q -> api_open q = api_open p -> exits_by t q -> exits_by t p.
Proof. intros Hs Ho (r & Hr & Hx & Ho' & Ht). exists r. split; [by eapply steps_trans|]. split; [done|]. split; [congruence|done]. Qed.

Lemma exits_by_pools t p err : pr_phase p = ClosingPools err -> pr_held p = 0%nat -> pr_now p <= t -> exits_by t p.
Proof.
  intros Hph Hz Ht. exists (exited err p). split; [by apply steps_one, step_pools_closed|].
  split; [by destruct err|]. by split.
Qed.

Lemma exits_by_closing d p : pr_phase p = ClosingApi d -> pr_now p <= d -> pr_held p = 0%nat -> exits_by d p.
Proof.
  intros Hph Hn Hz. set (p1 := later d p). apply (exits_by_after _ _ (returned (Some overrun_text) [] p1)); [|done|].
  - eapply steps_trans; [apply steps_one, (step_time p d); unfold waits_until; rewrite ?Hph; cbn; done || lia|].
    apply steps_one, (step_overrun p1 d); [by cbn|cbn; lia].
  - by apply (exits_by_pools _ _ (Some overrun_text)).
Qed.

(** With no connection in use, none of the open requests has to end, and the end
    of the grace is awaited at most. *)
Lemma stopping_exits t0 p : stopping t0 p -> pr_held p = 0%nat -> exits_by (Z.max (pr_now p) (t0 + cfg_ShutdownGrace cfg)) p.
Proof.
  intros (Hp & _) Hz.
  assert (Hle : forall d, exits_by d p -> d <= t0 + cfg_ShutdownGrace cfg -> exits_by (Z.max (pr_now p) (t0 + cfg_ShutdownGrace cfg)) p).
  { intros d (r & ? & ? & ? & ?) ?. exists r. repeat split; try done. lia. }
  destruct (pr_phase p) as [|d|d|err|code err] eqn:Hph; [done| | | |].
  - destruct Hp as [Hd Hn]. apply (Hle d); [|lia].
    set (p1 := later d p). apply (exits_by_after _ _ (closing_api d p1)); [|done|].
    + eapply steps_trans; [apply steps_one, (step_time p d); unfold waits_until; rewrite ?Hph; cbn; done || lia|].
      apply steps_one, (step_metrics_closed p1 d); [by cbn|right; cbn; lia].
    + apply exits_by_closing; cbn; try done; lia.
  - destruct Hp as (Hd & Hn & _). apply (Hle d); [by apply exits_by_closing|lia].
  - apply (exits_by_pools _ _ err); [done|done|lia].
  - exists p. split; [apply steps_refl|]. split; [by rewrite Hph|]. split; [done|lia].
Qed.

(** A request gives its connection back. *)
Lemma released n : forall p, running (pr_phase p) = true -> pr_held p = n ->
  exists q, steps p q /\ pr_held q = 0%nat.
Proof.
  induction n as [|n IH]; intros p Hr Hn; [exists p; split; [apply steps_refl|done]|].
  destruct (IH (with_requests (api_open p) n (metrics_open p) p) Hr eq_refl) as (q & Hq & Hz). exists q. split; [|done].
  eapply steps_trans; [by apply steps_one, (step_release p n)|done].
Qed.

(** C15. How the api stops.  From the signal on the readiness probe answers 503
    and no scrape is accepted.  [run] has its result within the grace period,
    whatever the open requests do: what lives past it is a process whose shutdown
    overran, which accepts no request any more and waits for its pools to close.
    An exit with 0 is within the grace, with no request open; the only other exit
    is the overrun, with its message; and every exit has the connections given
    back.  While no connection is in use the process can exit by the end of the
    grace, or now if that is over, without any request ending; and it can exit
    from every state, once the requests have given their connections back. *)
Theorem api_stops_in_order p q :
  0 <= cfg_ShutdownGrace cfg -> (api_open p = 0%nat -> pr_held p = 0%nat) -> steps (drained p) q ->
  let limit := pr_now p + cfg_ShutdownGrace cfg in
  (forall `{NewRequest} env ended now computed r,
     (handleReadyz (Draining (pr_server q)) (ready_deps (pr_server q)) env ended now computed r).1.1.1 = 503)
  /\ metrics_accepts q = false
  /\ (limit < pr_now q -> api_accepts q = false
        /\ (pr_phase q = ClosingPools (Some overrun_text) \/ pr_phase q = Exited 1 (overrun_text +:+ newline)))
  /\ (forall code err, pr_phase q = Exited code err ->
        api_accepts q = false /\ pr_held q = 0%nat
        /\ (code = 0 /\ err = ""%string /\ pr_now q <= limit /\ api_open q = 0%nat
            \/ code = 1 /\ err = overrun_text +:+ newline /\ limit <= pr_now q))
  /\ (pr_held q = 0%nat -> exits_by (Z.max (pr_now q) limit) q)
  /\ exists r, steps q r /\ running (pr_phase r) = false.
Proof.
  intros Hg Hh Hs limit. pose proof (stopping_steps _ _ _ (drained_stopping p Hg Hh) Hs) as Hq.
  pose proof (stopping_exits _ _ Hq) as Hx.
  assert (He : exists r, steps q r /\ running (pr_phase r) = false).
  { destruct (running (pr_phase q)) eqn:Hr; [|exists q; split; [apply steps_refl|done]].
    destruct (released _ q Hr eq_refl) as (q1 & Hq1 & Hz).
    destruct (stopping_exits _ _ (stopping_steps _ _ _ Hq Hq1) Hz) as (r & Hs1 & Hx1 & _). exists r.
    split; [by eapply steps_trans|done]. }
  destruct Hq as (Hph & _ & Hd & Hm & _).
  split; [intros; by rewrite Hd|]. split; [done|]. split; [|split; [|by split]].
  - intros Hlt. unfold limit in Hlt. by_phase q.
  - intros code err E. rewrite E in Hph. naive_solver.
Qed.
End Serve.

(** ** The sample configuration, signalled while a request is open *)

#[local] Existing Instance ascii_only.
#[local] Existing Instance schemes.
#[local] Existing Instance no_users.
#[local] Existing Instance plain_print.
#[local] Existing Instance unit_pool.
#[local] Existing Instance no_url.

Definition sample_api : option (HttpServer unit) :=
  match boot_api ["0001_a.up.sql"%string] (fun _ _ => None) (fun _ => None) (fun _ => Some 0) tt
          sample_lookup refused_boot empty_db with
  | (Ok api, _) => Some (api_server api)
  | (Err _, _) => None
  end.

Lemma api_stops_in_order_witness :
  exists cfg srv (q : Proc unit), sample_api = Some srv /\ LoadFrom sample_lookup = Ok cfg
    /\ steps cfg (drained cfg (with_requests 1 1 0 (serving 0 srv))) q
    /\ pr_phase q = Exited 0 "" /\ api_open q = 0%nat /\ pr_now q <= cfg_ShutdownGrace cfg.
Proof.
  assert (Hg : match LoadFrom sample_lookup with Ok c => 0 <=? cfg_ShutdownGrace c | Err _ => false end = true) by (vm_compute; reflexivity).
  assert (Hs : match sample_api with Some _ => true | None => false end = true) by (vm_compute; reflexivity).
  destruct (LoadFrom sample_lookup) as [cfg|] eqn:Hc; [|discriminate Hg]. destruct sample_api as [srv|] eqn:Ha; [|discriminate Hs].
  apply Z.leb_le in Hg. set (p0 := with_requests 1 1 0 (serving 0 srv)). set (p1 := closing_api (0 + cfg_ShutdownGrace cfg) (drained cfg p0)).
  set (p2 := with_requests 1 0 0 p1). set (p3 := with_requests 0 0 0 p2).
  set (p4 := returned None ["vizra-api stopped"%string] p3). set (q := exited None p4).
  assert (Hsteps : steps cfg (drained cfg p0) q).
  { apply (steps_snoc _ _ p4); [apply (steps_snoc _ _ p3); [apply (steps_snoc _ _ p2); [apply (steps_snoc _ _ p1); [apply steps_one|]|]|]|].
    - apply (step_metrics_closed cfg (drained cfg p0) (0 + cfg_ShutdownGrace cfg)); [reflexivity|by left].
    - by apply (step_release cfg p1 0).
    - by apply (step_answer cfg p2 0).
    - by apply (step_stopped cfg p3 (0 + cfg_ShutdownGrace cfg)).
    - by apply (step_pools_closed cfg p4 None). }
  exists cfg, srv, q. destruct (api_stops_in_order cfg p0 q Hg ltac:(discriminate) Hsteps) as (_ & _ & _ & He & _).
  destruct (He 0 ""%string eq_refl) as (_ & _ & [(_ & _ & Hn & Ho)|(Hx & _)]); [|discriminate Hx].
  split; [done|]. split; [done|]. split; [done|]. split; [done|]. by split.
Defined.

(** While a scrape is open the public listener still accepts after the drain. *)
Example accepts_while_metrics_close {Cache} cfg (srv : HttpServer Cache) :
  let p := drained cfg (with_requests 0 0 1 (serving 0 srv)) in
  api_accepts p = true /\ Draining (pr_server p) = true /\ step cfg p (with_requests 1 0 1 p).
Proof. split; [done|]. split; [done|]. by apply step_request. Qed.

(** The closing of the pools has no deadline: a request that outlives the grace
    and holds a connection keeps the process, here for an hour after the grace,
    and nothing but that request ends the wait. *)
Example pool_waits_for_the_request {Cache} cfg (srv : HttpServer Cache) :
  0 <= cfg_ShutdownGrace cfg ->
  let late := later (cfg_ShutdownGrace cfg + 3600 * Second)
                (returned (Some overrun_text) [] (closing_api (cfg_ShutdownGrace cfg)
                   (later (cfg_ShutdownGrace cfg) (drained cfg (with_requests 1 1 0 (serving 0 srv)))))) in
  steps cfg (drained cfg (with_requests 1 1 0 (serving 0 srv))) late
  /\ pr_now late = cfg_ShutdownGrace cfg + 3600 * Second
  /\ forall q, step cfg late q -> running (pr_phase q) = true.
Proof.
  intros Hg late. set (p0 := drained cfg (with_requests 1 1 0 (serving 0 srv))). set (d := cfg_ShutdownGrace cfg) in *.
  split; [|split; [done|]].
  - apply (steps_snoc _ _ (returned (Some overrun_text) [] (closing_api d (later d p0))));
      [apply (steps_snoc _ _ (closing_api d (later d p0))); [apply (steps_snoc _ _ (later d p0)); [apply steps_one|]|]|].
    + apply (step_time cfg p0 d); [done|done|]. by change (d <= d).
    + apply (step_metrics_closed cfg (later d p0) d); [reflexivity|by left].
    + apply (step_overrun cfg (closing_api d (later d p0)) d); [done|cbn; lia].
    + apply step_time; [done|change (d <= d + 3600 * Second); unfold Second, Millisecond, Microsecond; lia|done].
  - intros q Hq. inversion Hq; subst; cbn in *; done.
Qed.
