(* ===== verification/RequestSite.v ===== *)
(** * From a request to the database of its site

    src/internal/site/site.go (the request context), src/internal/httpapi/setup.go
    ([lookupClaimed], [poolFor]) and the nullable values of the driver
    (src/internal/store/sqlcgen/models.go, src/internal/jobs/convert.go). *)

From S2P Require Import Prelude Utf8 GoStrings GoFmt Pg Origin OwnerStore OwnerClaim Stores.

(** ** The site on the request context *)

(** What a request carries under the package's key. *)
Record Ctx := mkCtx { ctx_site : option Site }.

Definition NewContext (c : Ctx) (s : Site) : Ctx := mkCtx (Some s).
Definition FromContext (c : Ctx) : option Site := ctx_site c.

Definition Sites (r : Resolver) : list Site := sites r.

(** The resolver is never empty; [None] is the panic it would be. *)
Definition DefaultSite (r : Resolver) : option Site := head (sites r).

(** [siteMiddleware]: the request goes on with its site, or 404. *)
Definition siteMiddleware `{Unicode, NetUrl} {A} (r : Resolver) (host : string) (unknown : A) (next : Ctx -> A) (c : Ctx) : A :=
  match ByHost r host with
  | None => unknown
  | Some s => next (NewContext c s)
  end.

(** ** Its pool, and whether the instance is claimed *)

Section Lookup.
Context {P : Type}.

Definition poolFor (ps : option (Pools P)) (c : Ctx) : result string P :=
  match FromContext c with
  | None => Err "httpapi: no site on the request context"%string
  | Some st =>
      match ps with
      | None => Err "httpapi: no database pools configured"%string
      | Some ps => match For ps st with
                   | None => Err "httpapi: no pool for this site"%string
                   | Some pool => Ok pool
                   end
      end
  end.

Inductive LookupError := NoPool (text : string) | QueryFailed (e : DbErr).

(** [read] is the statement of [ownerclaim.Claimed] on a pool; [seam] the
    dependency a test may set. *)
Definition lookupClaimed (seam : option (Ctx -> result LookupError bool)) (ps : option (Pools P))
    (read : P -> result DbErr bool) (c : Ctx) : result LookupError bool :=
  match seam with
  | Some f => f c
  | None =>
      match poolFor ps c with
      | Err t => Err (NoPool t)
      | Ok pool => match read pool with Ok b => Ok b | Err e => Err (QueryFailed e) end
      end
  end.

Context `{HU : Unicode, HN : NetUrl, HD : PgxPool P, HQ : Printable}.

Lemma ByHost_in r host s : (forall h s, List.In (h, s) (byHost r) -> s ∈ sites r) -> ByHost r host = Some s -> s ∈ sites r.
Proof.
  intros Hb. unfold ByHost. destruct (map_get (host_key host) (byHost r)) as [s'|] eqn:Hg.
  - intros [= ->]. apply map_get_some_in in Hg. by eapply Hb.
  - destruct (sites r) as [|x [|? ?]]; [done| |done]. intros [= ->]. by left.
Qed.

(** With pools opened for every site of the resolver, a request the site
    middleware lets through finds the pool of its own site: the three errors of
    [poolFor] cannot occur, so the guard answers 503 only when the database does
    not answer. *)
Lemma routed_request_has_pool r ps host c :
  NoDup (map Handle (sites r)) -> (forall h s, List.In (h, s) (byHost r) -> s ∈ sites r) ->
  Open r = Ok ps -> ByHost r host <> None ->
  siteMiddleware r host False
    (fun c => exists s q, FromContext c = Some s /\ pool_of s = Some q /\ poolFor (Some ps) c = Ok q
       /\ forall read, lookupClaimed None (Some ps) read c
                       = match read q with Ok b => Ok b | Err e => Err (QueryFailed e) end) c.
Proof.
  intros Hn Hb Ho Hs. unfold siteMiddleware. destruct (ByHost r host) as [s|] eqn:Hh; [|done].
  pose proof (open_all_or_nothing r Hn) as Ha. rewrite Ho in Ha. destruct Ha as (_ & Hf & _).
  destruct (Hf s (ByHost_in _ _ _ Hb Hh)) as [Hfor Hp]. destruct (pool_of s) as [q|] eqn:Hq; [|done].
  exists s, q. split; [done|]. split; [done|]. unfold lookupClaimed, poolFor. cbn [FromContext NewContext ctx_site].
  rewrite Hfor. by split.
Qed.
End Lookup.

(** ** Nullable values *)

(** What the driver hands to [Scan]. *)
Inductive DriverValue :=
| DNull
| DBytes (b : string)
| DString (s : string)
| DOther (goType : string).

(** [UserRole.Scan]: any text is accepted, the type is not checked against the
    five roles. *)
Definition scan_UserRole (v : DriverValue) : result string string :=
  match v with
  | DBytes s | DString s => Ok s
  | DNull => Err "unsupported scan type for UserRole: <nil>"%string
  | DOther t => Err ("unsupported scan type for UserRole: " +:+ t)
  end.

Record NullUserRole := mkNullUserRole { nr_role : string; nr_valid : bool }.

(** On an error the receiver is already marked valid. *)
Definition scan_NullUserRole (v : DriverValue) (ns : NullUserRole) : NullUserRole * option string :=
  match v with
  | DNull => (mkNullUserRole "" false, None)
  | v => match scan_UserRole v with
         | Ok s => (mkNullUserRole s true, None)
         | Err t => (mkNullUserRole (nr_role ns) true, Some t)
         end
  end.

Definition value_NullUserRole (ns : NullUserRole) : DriverValue :=
  if nr_valid ns then DString (nr_role ns) else DNull.

(** A value that is sent and scanned comes back, except that the role of an
    invalid one is forgotten. *)
Lemma NullUserRole_roundtrip ns old :
  scan_NullUserRole (value_NullUserRole ns) old
  = (mkNullUserRole (if nr_valid ns then nr_role ns else "") (nr_valid ns), None).
Proof. by destruct ns as [r []]. Qed.

(** [toTimestamptz] and [fromTimestamptz]: the zero time is NULL. *)
Definition toTimestamptz (zero t : Z) : option Z := if t =? zero then None else Some t.
Definition fromTimestamptz (zero : Z) (t : option Z) : Z := default zero t.

Lemma timestamptz_roundtrip zero t : fromTimestamptz zero (toTimestamptz zero t) = t.
Proof. unfold toTimestamptz. by destruct (Z.eqb_spec t zero). Qed.
