(* ===== verification/SiteTable.v ===== *)
(** * The site and storage registries (src/internal/store/sqlcgen/sites.sql.go,
    storage.sql.go, and the tables of src/migrations/0001 and 0004)

    The rows, the constraints an insert or update must meet, and the five
    statements.  A statement of one row reads the first row the server sends and
    ignores the others; only its absence is an error. *)

From Stdlib Require Import Permutation Sorted.
From S2P Require Import Prelude Utf8 Regex GoStrings Pg.

Record SiteRow := mkSiteRow {
  s_ID : uuid;
  s_Handle : string;
  s_BaseUrl : string;
  s_PrivacyMode : string;
  s_CreatedAt : timestamp;
  s_UpdatedAt : timestamp
}.

Record StorageLocation := mkStorageLocation {
  sl_ID : uuid;
  sl_Handle : string;
  sl_Kind : string;
  sl_IsDefault : bool;
  sl_ReadOnly : bool;
  sl_Config : string;
  sl_CreatedAt : timestamp;
  sl_UpdatedAt : timestamp
}.

(** ** Constraints *)

Definition handle_byte (c : ascii) : bool := in_range 97 122 c || in_range 48 57 c.

(** The expression of both tables: at most 63 bytes, the first not a hyphen. *)
Definition handle_format (h : string) : bool :=
  match h with
  | EmptyString => false
  | String c r => handle_byte c && sall (fun c => handle_byte c || chr "-" c) r && (len r <=? 62)
  end.

Definition site_checks (s : SiteRow) : list (string * bool) :=
  [("sites_handle_format", handle_format (s_Handle s));
   ("sites_privacy_mode", one_of (s_PrivacyMode s) ["public"; "private"]);
   ("sites_base_url_shape", HasPrefix (s_BaseUrl s) "http://" || HasPrefix (s_BaseUrl s) "https://")]%string.

Definition location_checks (l : StorageLocation) : list (string * bool) :=
  [("storage_locations_kind", one_of (sl_Kind l) ["local"; "s3"]);
   ("storage_locations_handle_fmt", handle_format (sl_Handle l));
   ("storage_locations_default_writable", negb (sl_IsDefault l && sl_ReadOnly l))]%string.

(** The table meets its constraints; sites_singleton is the unique index on a
    constant. *)
Definition sites_ok (t : list SiteRow) : Prop :=
  Forall (fun s => forallb snd (site_checks s) = true) t /\ NoDup (map s_ID t) /\ NoDup (map s_Handle t)
  /\ NoDup (map (fun _ => true) t).

(** storage_locations_one_default is the unique index on the default rows. *)
Definition locations_ok (t : list StorageLocation) : Prop :=
  Forall (fun l => forallb snd (location_checks l) = true) t /\ NoDup (map sl_ID t) /\ NoDup (map sl_Handle t)
  /\ NoDup (map sl_IsDefault (List.filter sl_IsDefault t)).

(** What the migrations insert. *)
Definition seed_sites (now : timestamp) : list SiteRow :=
  [mkSiteRow "01920000-0000-7000-8000-000000000001" "default" "http://localhost:8080" "public" now now].

Definition seed_locations (now : timestamp) : list StorageLocation :=
  [mkStorageLocation "01920000-0000-7000-8000-000000000002" "local" "local" true false "{}" now now].

(** ** Statements *)

(** [QueryRow] and [Scan] over the rows in the order the server sends them. *)
Definition first_row {A} (rows : list A) : result DbErr A :=
  match rows with [] => Err NoRows | r :: _ => Ok r end.

Definition CountSites (t : list SiteRow) : Z := Z.of_nat (length t).

Definition GetDefaultSite (t : list SiteRow) : result DbErr SiteRow := first_row t.

Definition GetSiteByHandle (h : string) (t : list SiteRow) : result DbErr SiteRow :=
  first_row (List.filter (fun s => s_Handle s =s h) t).

Definition GetDefaultStorageLocation (t : list StorageLocation) : result DbErr StorageLocation :=
  first_row (List.filter sl_IsDefault t).

(** The order of texts in the database's collation. *)
Class Collation := collates : string -> string -> bool.

Section Listing.
Context `{HC : Collation}.

Fixpoint by_handle (l : StorageLocation) (ls : list StorageLocation) : list StorageLocation :=
  match ls with
  | [] => [l]
  | k :: ls => if collates (sl_Handle l) (sl_Handle k) then l :: k :: ls else k :: by_handle l ls
  end.

(** ORDER BY handle. *)
Definition ListStorageLocations (t : list StorageLocation) : list StorageLocation := foldr by_handle [] t.

Lemma by_handle_perm l ls : by_handle l ls ≡ₚ l :: ls.
Proof. induction ls as [|k ls IH]; [done|]. simpl. case_match; [done|]. rewrite IH. apply perm_swap. Qed.

Lemma listing_perm t : ListStorageLocations t ≡ₚ t.
Proof. induction t as [|l t IH]; [done|]. simpl. by rewrite by_handle_perm, IH. Qed.

End Listing.

(** ** What the constraints buy the readers *)

Lemma constant_index {A} (t : list A) : NoDup (map (fun _ => true) t) -> (length t <= 1)%nat.
Proof.
  destruct t as [|x [|y t]]; simpl; [lia|lia|]. intros [Hn _]%NoDup_cons. exfalso. apply Hn. by left.
Qed.

Lemma default_index t : NoDup (map sl_IsDefault (List.filter sl_IsDefault t)) -> (length (List.filter sl_IsDefault t) <= 1)%nat.
Proof.
  intros Hn. rewrite <- (length_map sl_IsDefault).
  assert (Ha : Forall (fun b => b = true) (map sl_IsDefault (List.filter sl_IsDefault t))).
  { apply Forall_forall. intros b Hb. apply list_elem_of_In, in_map_iff in Hb as (l & <- & Hl). by apply filter_In in Hl as [_ ?]. }
  destruct (map sl_IsDefault (List.filter sl_IsDefault t)) as [|x [|y r]]; simpl; [lia|lia|]. exfalso.
  apply Forall_cons in Ha as [-> Ha]. apply Forall_cons in Ha as [-> _].
  apply NoDup_cons in Hn as [Hn _]. apply Hn. by left.
Qed.

(** On tables that meet their constraints the one-row statements have one
    answer: whatever order the server sends rows in, the default site is the
    only row and the one its handle finds, and the default storage location is
    the only default row and writable; a lookup fails exactly when there is no
    such row.  The listing is every row, once. *)
Theorem registry_reads_agree `{Collation} sites sites' locs locs' :
  sites_ok sites -> sites' ≡ₚ sites -> locations_ok locs -> locs' ≡ₚ locs ->
  GetDefaultSite sites' = GetDefaultSite sites
  /\ (CountSites sites = 1 <-> is_ok (GetDefaultSite sites) = true)
  /\ (forall s, GetDefaultSite sites = Ok s ->
        sites = [s] /\ forall h, GetSiteByHandle h sites = if s_Handle s =s h then Ok s else Err NoRows)
  /\ GetDefaultStorageLocation locs' = GetDefaultStorageLocation locs
  /\ (forall l, GetDefaultStorageLocation locs = Ok l <-> l ∈ locs /\ sl_IsDefault l = true)
  /\ (forall l, GetDefaultStorageLocation locs = Ok l -> sl_ReadOnly l = false)
  /\ ListStorageLocations locs ≡ₚ locs.
Proof.
  intros (_ & _ & _ & Hs%constant_index) Hp (Hchk & _ & _ & Hd%default_index) Hq.
  assert (sites' = sites) as ->.
  { destruct sites as [|s [|s2 r]]; [by apply Permutation_nil_r|by apply Permutation_singleton_r|simpl in Hs; lia]. }
  assert (Hf : List.filter sl_IsDefault locs' = List.filter sl_IsDefault locs).
  { assert (Hpf : List.filter sl_IsDefault locs' ≡ₚ List.filter sl_IsDefault locs).
    { clear -Hq. induction Hq as [|x a b _ IH|x y a|a b c _ IH1 _ IH2]; simpl; [done|by destruct (sl_IsDefault x); rewrite IH| |by rewrite IH1].
      destruct (sl_IsDefault x), (sl_IsDefault y); done || apply perm_swap. }
    destruct (List.filter sl_IsDefault locs) as [|l [|l2 r]];
      [by apply Permutation_nil_r|by apply Permutation_singleton_r|simpl in Hd; lia]. }
  assert (Hget : forall l, GetDefaultStorageLocation locs = Ok l <-> l ∈ locs /\ sl_IsDefault l = true).
  { intros l. unfold GetDefaultStorageLocation. rewrite list_elem_of_In, <- filter_In.
    destruct (List.filter sl_IsDefault locs) as [|x [|y r]]; simpl in *; [done| |lia].
    split; [intros [= ->]; auto|intros [->|[]]; done]. }
  split; [done|]. split; [destruct sites as [|s [|s2 r]]; simpl in *; (done || lia)|]. split.
  { intros s. destruct sites as [|x [|y r]]; simpl in Hs; [done| |lia]. intros [= ->]. split; [done|].
    intros h. unfold GetSiteByHandle. simpl. by destruct (s_Handle s =s h). }
  split; [unfold GetDefaultStorageLocation; by rewrite Hf|]. split; [done|]. split; [|apply listing_perm].
  intros l [Hl Hdef]%Hget. rewrite Forall_forall in Hchk. specialize (Hchk l Hl). simpl in Hchk.
  rewrite !andb_true_iff, Hdef in Hchk. destruct Hchk as (_ & _ & Hr & _). by destruct (sl_ReadOnly l).
Qed.

#[local] Instance bytewise : Collation := String.leb.

(** The seed of the migrations meets the constraints. *)
Lemma seed_sites_ok now : sites_ok (seed_sites now).
Proof. split_and!; [by apply Forall_singleton|apply NoDup_singleton..]. Qed.

Lemma seed_locations_ok now : locations_ok (seed_locations now).
Proof. split_and!; [by apply Forall_singleton|apply NoDup_singleton..]. Qed.

Lemma registry_reads_agree_witness :
  GetDefaultSite (seed_sites 0) = Ok (mkSiteRow "01920000-0000-7000-8000-000000000001" "default" "http://localhost:8080" "public" 0 0)
  /\ CountSites (seed_sites 0) = 1.
Proof.
  split; [reflexivity|].
  apply (registry_reads_agree (seed_sites 0) (seed_sites 0) (seed_locations 0) (seed_locations 0)
           (seed_sites_ok 0) (Permutation_refl _) (seed_locations_ok 0) (Permutation_refl _)). reflexivity.
Defined.

(** A second row, which the index refuses, would not be an error of the
    statement: it answers with the row the server sends first. *)
Example second_site_is_silent :
  let private := mkSiteRow "a" "main" "https://a.example" "private" 0 0 in
  let public := mkSiteRow "b" "test" "https://b.example" "public" 0 0 in
  GetDefaultSite [public; private] = Ok public /\ GetDefaultSite [private; public] = Ok private.
Proof. split; reflexivity. Qed.
