(* ===== verification/Querier.v ===== *)
(** * The statements as one interface (src/internal/store/sqlcgen/querier.go)

    Every method of [Querier], over one store that holds all the tables and the
    advisory locks.  A method that returns one row and finds none is an error of
    the driver ([NoRows]), as it is for the code. *)

From S2P Require Import Prelude Utf8 Pg JobTable OwnerStore SiteTable Gauges Leader.

Record Store := mkStore {
  st_jobs : Table;
  st_identity : Db;
  st_sites : list SiteRow;
  st_storage : list StorageLocation;
  st_locks : Locks
}.

(** A call of a method with its parameters.  Beside them stand what the server
    decides: the rows locked by others ([ClaimJob]), the users the statement's
    snapshot sees ([ClaimOwner], [MintOwnerClaimToken]), the session of a lock. *)
Inductive Call : Type -> Type :=
| C_AdvisoryUnlock (c : session) (k : LockKey) : Call bool
| C_AnyUserExists : Call bool
| C_ClaimJob (locked : list uuid) (by_ : option string) (lease : Z) (kinds : list string) : Call Job
| C_ClaimOwner (snap : list User) (p : ClaimOwnerParams) : Call (User * Z)
| C_CompleteJob (i : uuid) (by_ : option string) : Call Z
| C_CountAuditEvents : Call Z
| C_CountSites : Call Z
| C_CountStaleLeases : Call Z
| C_DeadLetterJob (err : option string) (i : uuid) (by_ : option string) : Call Z
| C_EnqueueJob (p : EnqueueJobParams) : Call Job
| C_FailJob (err : option string) (i : uuid) (by_ : option string) : Call Z
| C_GetDefaultSite : Call SiteRow
| C_GetDefaultStorageLocation : Call StorageLocation
| C_GetJob (i : uuid) : Call Job
| C_GetLiveJobByIdempotencyKey (k : string) (key : option string) : Call Job
| C_GetOwnerClaimToken : Call (TokenRow * bool)
| C_GetSiteByHandle (handle : string) : Call SiteRow
| C_HeartbeatJob (lease : Z) (i : uuid) (by_ : option string) : Call Job
| C_InsertAuditEvent (a : AuditRow) : Call unit
| C_JobDepthByKindState : Call (list (group * Z))
| C_ListStorageLocations : Call (list StorageLocation)
| C_MintOwnerClaimToken (snap : list User) (digest : string) (ttl : Z) : Call TokenRow
| C_OldestQueuedAgeByKind : Call (list (string * Z))
| C_RetryJob (backoff : Z) (err : option string) (i : uuid) (by_ : option string) : Call Z
| C_SupersedeLiveOwnerClaimToken : Call Z
| C_SweepExpiredLeases : Call (list Job)
| C_TryAdvisoryLock (c : session) (k : LockKey) : Call bool.

Definition CountAuditEvents (db : Db) : Z := Z.of_nat (length (audit_events db)).

Section Exec.
Context `{HJ : Jsonb, HS : Server, HC : Collation}.

(** How an answer of one table becomes an answer of the store. *)
Definition on_jobs {A} (s : Store) (r : result PgError (Table * A)) : result DbErr (A * Store) :=
  match r with
  | Ok (t, a) => Ok (a, mkStore t (st_identity s) (st_sites s) (st_storage s) (st_locks s))
  | Err e => Err (FromServer e)
  end.

Definition one_job {A} (r : result DbErr (option A * Store)) : result DbErr (A * Store) :=
  match r with
  | Ok (Some a, s) => Ok (a, s)
  | Ok (None, _) => Err NoRows
  | Err e => Err e
  end.

Definition on_identity {A} (s : Store) (r : result DbErr (Db * A)) : result DbErr (A * Store) :=
  match r with
  | Ok (db, a) => Ok (a, mkStore (st_jobs s) db (st_sites s) (st_storage s) (st_locks s))
  | Err e => Err e
  end.

Definition on_locks (s : Store) (r : bool * Locks) : result DbErr (bool * Store) :=
  Ok (r.1, mkStore (st_jobs s) (st_identity s) (st_sites s) (st_storage s) r.2).

Definition reading {A} (s : Store) (r : result DbErr A) : result DbErr (A * Store) :=
  match r with Ok a => Ok (a, s) | Err e => Err e end.

(** A claim that finds nothing changes nothing, so its missing row may be an
    error. *)
Definition exec {A} (c : Call A) (now : timestamp) (s : Store) : result DbErr (A * Store) :=
  match c in Call A return result DbErr (A * Store) with
  | C_AdvisoryUnlock c k => on_locks s (AdvisoryUnlock c k (st_locks s))
  | C_AnyUserExists => reading s (Ok (AnyUserExists (st_identity s)))
  | C_ClaimJob locked by_ lease kinds => one_job (on_jobs s (ClaimJob locked by_ lease kinds now (st_jobs s)))
  | C_ClaimOwner snap p => on_identity s (ClaimOwner snap p now (st_identity s))
  | C_CompleteJob i by_ => on_jobs s (CompleteJob i by_ now (st_jobs s))
  | C_CountAuditEvents => reading s (Ok (CountAuditEvents (st_identity s)))
  | C_CountSites => reading s (Ok (CountSites (st_sites s)))
  | C_CountStaleLeases => reading s (Ok (CountStaleLeases now (st_jobs s)))
  | C_DeadLetterJob err i by_ => on_jobs s (DeadLetterJob err i by_ now (st_jobs s))
  | C_EnqueueJob p => one_job (on_jobs s (EnqueueJob p now (st_jobs s)))
  | C_FailJob err i by_ => on_jobs s (FailJob err i by_ now (st_jobs s))
  | C_GetDefaultSite => reading s (GetDefaultSite (st_sites s))
  | C_GetDefaultStorageLocation => reading s (GetDefaultStorageLocation (st_storage s))
  | C_GetJob i => reading s (match GetJob i (st_jobs s) with Some j => Ok j | None => Err NoRows end)
  | C_GetLiveJobByIdempotencyKey k key =>
      reading s (match GetLiveJobByIdempotencyKey k key (st_jobs s) with
                 | Ok (Some j) => Ok j | Ok None => Err NoRows | Err e => Err (FromServer e) end)
  | C_GetOwnerClaimToken => reading s (GetOwnerClaimToken now (st_identity s))
  | C_GetSiteByHandle h => reading s (GetSiteByHandle h (st_sites s))
  | C_HeartbeatJob lease i by_ => one_job (on_jobs s (HeartbeatJob lease i by_ now (st_jobs s)))
  | C_InsertAuditEvent a =>
      on_identity s (match InsertAuditEvent a (st_identity s) with Ok db => Ok (db, tt) | Err e => Err e end)
  | C_JobDepthByKindState => reading s (Ok (JobDepthByKindState (st_jobs s)))
  | C_ListStorageLocations => reading s (Ok (ListStorageLocations (st_storage s)))
  | C_MintOwnerClaimToken snap digest ttl => on_identity s (MintOwnerClaimToken snap digest ttl now (st_identity s))
  | C_OldestQueuedAgeByKind => reading s (Ok (OldestQueuedAgeByKind now (st_jobs s)))
  | C_RetryJob backoff err i by_ => on_jobs s (RetryJob backoff err i by_ now (st_jobs s))
  | C_SupersedeLiveOwnerClaimToken => on_identity s (Ok (SupersedeLiveOwnerClaimToken now (st_identity s)))
  | C_SweepExpiredLeases => on_jobs s (SweepExpiredLeases now (st_jobs s))
  | C_TryAdvisoryLock c k => on_locks s (TryAdvisoryLock c k (st_locks s))
  end.

Lemma update_none where_ set_ t t' : update where_ set_ t = Ok (t', []) -> t' = t.
Proof.
  intros H. apply update_inv in H as [-> Hr]. symmetry in Hr. apply map_eq_nil in Hr.
  apply updated_none. intros j Hj. destruct (where_ j) eqn:Hw; [|done].
  assert (Hin : List.In j (List.filter where_ t)) by by apply filter_In. by rewrite Hr in Hin.
Qed.

(** No row means no change: what [exec] forgets with [NoRows] is the table as it
    was. *)
Lemma no_row_no_change now t t' :
  (forall locked by_ lease kinds, ClaimJob locked by_ lease kinds now t = Ok (t', None) -> t' = t)
  /\ (forall p, EnqueueJob p now t = Ok (t', None) -> t' = t)
  /\ (forall lease i by_, HeartbeatJob lease i by_ now t = Ok (t', None) -> t' = t).
Proof.
  split; [|split].
  - intros locked by_ lease kinds. unfold ClaimJob, with_text. destruct (forallb _ _); [|done].
    destruct (first_by_order _); [|by intros [= <-]]. destruct (update _ _ t) as [[t1 [|? ?]]|] eqn:Hu; [|done|done].
    intros [= <-]. by apply update_none in Hu.
  - intros p. unfold EnqueueJob, with_text. destruct (forallb _ _); [|done]. cbv zeta. destruct (row_error _); [done|].
    destruct (_ || _); [by intros [= <-]|done].
  - intros lease i by_. unfold HeartbeatJob, with_text. destruct (forallb _ _); [|done].
    destruct (update _ _ t) as [[t1 [|? ?]]|] eqn:Hu; [|done|done]. intros [= <-]. by apply update_none in Hu.
Qed.

(** ** Which part of the store a method may change *)

Inductive Part := PartJobs | PartIdentity | PartLocks.

Definition writes {A} (c : Call A) : option Part :=
  match c with
  | C_ClaimJob _ _ _ _ | C_CompleteJob _ _ | C_DeadLetterJob _ _ _ | C_EnqueueJob _ | C_FailJob _ _ _
  | C_HeartbeatJob _ _ _ | C_RetryJob _ _ _ _ | C_SweepExpiredLeases => Some PartJobs
  | C_ClaimOwner _ _ | C_InsertAuditEvent _ | C_MintOwnerClaimToken _ _ _ | C_SupersedeLiveOwnerClaimToken => Some PartIdentity
  | C_AdvisoryUnlock _ _ | C_TryAdvisoryLock _ _ => Some PartLocks
  | _ => None
  end.

(** Two stores that differ in one part at most. *)
Definition same_but (p : option Part) (s t : Store) : Prop :=
  st_sites t = st_sites s /\ st_storage t = st_storage s
  /\ (p <> Some PartJobs -> st_jobs t = st_jobs s)
  /\ (p <> Some PartIdentity -> st_identity t = st_identity s)
  /\ (p <> Some PartLocks -> st_locks t = st_locks s).

Lemma on_jobs_frame {A} s (r : result PgError (Table * A)) a t : on_jobs s r = Ok (a, t) -> same_but (Some PartJobs) s t.
Proof. destruct r as [[? ?]|]; [|done]. intros [= <- <-]. repeat split; congruence. Qed.

Lemma one_job_frame {A} s (r : result PgError (Table * option A)) a t :
  one_job (on_jobs s r) = Ok (a, t) -> same_but (Some PartJobs) s t.
Proof. destruct r as [[? [?|]]|]; [|done|done]. intros [= <- <-]. repeat split; congruence. Qed.

Lemma on_identity_frame {A} s (r : result DbErr (Db * A)) a t : on_identity s r = Ok (a, t) -> same_but (Some PartIdentity) s t.
Proof. destruct r as [[? ?]|]; [|done]. intros [= <- <-]. repeat split; congruence. Qed.

Lemma on_locks_frame s r a t : on_locks s r = Ok (a, t) -> same_but (Some PartLocks) s t.
Proof. intros [= <- <-]. repeat split; congruence. Qed.

Lemma reading_frame {A} s (r : result DbErr A) a t : reading s r = Ok (a, t) -> same_but None s t.
Proof. destruct r; [|done]. intros [= <- <-]. repeat split; done. Qed.

#[local] Hint Resolve on_jobs_frame one_job_frame on_identity_frame on_locks_frame reading_frame : core.

(** A method that reads leaves the store; one that writes changes its own part
    only, and no method changes the sites or the storage locations. *)
Lemma exec_frame {A} (c : Call A) now s a t : exec c now s = Ok (a, t) -> same_but (writes c) s t.
Proof. destruct c; cbn [exec writes]; eauto. Qed.
End Exec.
