(* ===== verification/Bytes.v ===== *)
(** * Byte strings as the media code reads and writes them

    encoding/binary in both orders, the checked slice [b[i:j]], and CRC-32
    (hash/crc32, the IEEE polynomial).  A slice outside its bounds panics in
    Go; [Fault] tells that from an error the code returns. *)

From S2P Require Import Prelude Utf8 GoStrings Sha256.

(** ** Failures *)

Inductive Fault :=
| Failed (text : string)
| Panic.

#[export] Instance Fault_eq_dec : EqDecision Fault.
Proof. solve_decision. Defined.

(** ** Slices *)

(** [b[i:j]]. *)
Definition slice (b : string) (i j : Z) : result Fault string :=
  if (0 <=? i) && (i <=? j) && (j <=? len b)
  then Ok (stake (Z.to_nat (j - i)) (sdrop (Z.to_nat i) b)) else Err Panic.

(** [b[i:]]. *)
Definition slice_from (b : string) (i : Z) : result Fault string := slice b i (len b).

(** [b[i]]. *)
Definition at_ (b : string) (i : Z) : result Fault Z :=
  if i <? 0 then Err Panic
  else match sget (Z.to_nat i) b with Some c => Ok (code c) | None => Err Panic end.

(** ** encoding/binary *)

(** [n] bytes, the most significant first; a value too wide is cut. *)
Fixpoint put_be (n : nat) (z : Z) : string :=
  match n with O => "" | S n => String (byte (z / 256 ^ Z.of_nat n)) (put_be n z) end.

Fixpoint put_le (n : nat) (z : Z) : string :=
  match n with O => "" | S n => String (byte z) (put_le n (z / 256)) end.

Fixpoint get_be_from (acc : Z) (s : string) : Z :=
  match s with EmptyString => acc | String c s => get_be_from (256 * acc + code c) s end.

Definition get_be (s : string) : Z := get_be_from 0 s.

Fixpoint get_le (s : string) : Z :=
  match s with EmptyString => 0 | String c s => code c + 256 * get_le s end.

(** ** hash/crc32 with the IEEE polynomial, bit by bit *)

Definition crc_bit (c : Z) : Z :=
  if Z.odd c then Z.lxor (Z.shiftr c 1) 3988292384 else Z.shiftr c 1.

Definition crc_byte (c : Z) (b : ascii) : Z :=
  Nat.iter 8 crc_bit (Z.lxor c (code b)).

Fixpoint crc_update (c : Z) (s : string) : Z :=
  match s with EmptyString => c | String b s => crc_update (crc_byte c b) s end.

Definition ChecksumIEEE (s : string) : Z := Z.lxor (crc_update 4294967295 s) 4294967295.

Example crc_check_value : ChecksumIEEE "123456789" = 3421780262.
Proof. vm_compute. reflexivity. Qed.

(** ** [%X], with at least [n] digits *)

Fixpoint upper_digits (fuel : nat) (n z : Z) (acc : string) : string :=
  match fuel with
  | O => acc
  | S fuel =>
      if (n <=? 0) && (z =? 0) then acc
      else let d := z mod 16 in
           upper_digits fuel (n - 1) (z / 16) (String (byte (if d <? 10 then 48 + d else 55 + d)) acc)
  end.

(** Sixteen digits hold a uint64. *)
Definition HexUpper (n z : Z) : string := upper_digits 16 n z "".

Example HexUpper_sample : HexUpper 2 10 = "0A"%string /\ HexUpper 4 34853 = "8825"%string /\ HexUpper 1 440786851 = "1A45DFA3"%string.
Proof. vm_compute. repeat split. Qed.

(** [%v] of a bool. *)
Definition bool_text (b : bool) : string := if b then "true" else "false".

(** ** Repeated bytes *)

Fixpoint zeros (n : nat) : string := match n with O => "" | S n => String (byte 0) (zeros n) end.

(** [concat] of src/internal/fixtures/mp4.go. *)
Fixpoint concat (parts : list string) : string :=
  match parts with [] => "" | p :: ps => p +:+ concat ps end.

(** ** Lemmas *)

Lemma code_byte z : code (byte z) = z mod 256.
Proof.
  unfold code, byte. pose proof (Z.mod_pos_bound z 256 ltac:(lia)).
  rewrite N_ascii_embedding by lia. lia.
Qed.

Lemma byte_code c : byte (code c) = c.
Proof.
  unfold byte. pose proof (code_range c). rewrite Z.mod_small by lia.
  unfold code. by rewrite N2Z.id, ascii_N_embedding.
Qed.

Lemma length_put_be n z : String.length (put_be n z) = n.
Proof. induction n; simpl; auto. Qed.

Lemma length_put_le n z : String.length (put_le n z) = n.
Proof. revert z; induction n; intros; simpl; auto. Qed.

Lemma len_put_be n z : len (put_be n z) = Z.of_nat n.
Proof. unfold len. by rewrite length_put_be. Qed.

Lemma len_put_le n z : len (put_le n z) = Z.of_nat n.
Proof. unfold len. by rewrite length_put_le. Qed.

Lemma put_be_add n : forall k z, put_be n (k * 256 ^ Z.of_nat n + z) = put_be n z.
Proof.
  assert (H : forall j n k z, (j <= n)%nat -> put_be j (k * 256 ^ Z.of_nat n + z) = put_be j z);
    [|intros; by apply H].
  induction j as [|j IH]; intros n' k z Hj; cbn [put_be]; [done|]. f_equal; [|apply IH; lia].
  unfold byte. do 2 f_equal.
  replace (Z.of_nat n') with (1 + (Z.of_nat n' - Z.of_nat j - 1) + Z.of_nat j) by lia.
  rewrite Z.pow_add_r, Z.mul_assoc, Z.div_add_l by (try apply Z.pow_nonzero; lia).
  rewrite Z.pow_add_r by lia. change (256 ^ 1) with 256.
  rewrite Z.add_mod, (Z.mul_comm 256), Z.mul_assoc, Z.mod_mul, Z.add_0_l, Z.mod_mod by lia. done.
Qed.

Lemma get_be_from_put n : forall acc z,
  0 <= z < 256 ^ Z.of_nat n -> get_be_from acc (put_be n z) = acc * 256 ^ Z.of_nat n + z.
Proof.
  induction n as [|n IH]; intros acc z Hz; [simpl in *; lia|].
  rewrite Nat2Z.inj_succ, Z.pow_succ_r in * by lia. cbn [put_be get_be_from].
  set (p := 256 ^ Z.of_nat n) in *. assert (Hp : 0 < p) by (apply Z.pow_pos_nonneg; lia).
  assert (Hb : put_be n z = put_be n (z mod p)).
  { rewrite <- (put_be_add n (z / p) (z mod p)). fold p. rewrite (Z.mul_comm (z / p)), <- Z.div_mod by lia. done. }
  rewrite Hb, IH by (apply Z.mod_pos_bound; lia).
  rewrite code_byte, Z.mod_small.
  - pose proof (Z.div_mod z p ltac:(lia)). nia.
  - split; [apply Z.div_pos; lia|]. apply Z.div_lt_upper_bound; lia.
Qed.

(** Reading what was written. *)
Lemma get_put_be n z : 0 <= z < 256 ^ Z.of_nat n -> get_be (put_be n z) = z.
Proof. intros. unfold get_be. rewrite get_be_from_put by done. lia. Qed.

Lemma get_put_le n : forall z, 0 <= z < 256 ^ Z.of_nat n -> get_le (put_le n z) = z.
Proof.
  induction n as [|n IH]; intros z Hz; [simpl in *; lia|].
  rewrite Nat2Z.inj_succ, Z.pow_succ_r in Hz by lia. cbn [put_le get_le].
  rewrite code_byte, IH; [pose proof (Z.div_mod z 256 ltac:(lia)); lia|].
  split; [apply Z.div_pos; lia|]. apply Z.div_lt_upper_bound; lia.
Qed.

Lemma get_be_from_bound s : forall acc, 0 <= acc ->
  acc * 256 ^ len s <= get_be_from acc s < (acc + 1) * 256 ^ len s.
Proof.
  induction s as [|c s IH]; intros acc Ha; [change (len "") with 0; simpl; lia|].
  cbn [get_be_from]. pose proof (code_range c). specialize (IH (256 * acc + code c) ltac:(lia)).
  replace (len (String c s)) with (Z.succ (len s)) by (unfold len; simpl; lia).
  rewrite Z.pow_succ_r by apply len_nonneg.
  pose proof (Z.pow_pos_nonneg 256 (len s) ltac:(lia) (len_nonneg s)). nia.
Qed.

Lemma get_be_bound s : 0 <= get_be s < 256 ^ len s.
Proof. unfold get_be. pose proof (get_be_from_bound s 0 ltac:(lia)). lia. Qed.

Lemma get_be_from_acc s : forall acc, get_be_from acc s = acc * 256 ^ len s + get_be s.
Proof.
  unfold get_be. induction s as [|c s IH]; intros acc; [change (len "") with 0; simpl; lia|].
  cbn [get_be_from]. rewrite IH, (IH (256 * 0 + code c)).
  replace (len (String c s)) with (Z.succ (len s)) by (unfold len; simpl; lia).
  rewrite Z.pow_succ_r by apply len_nonneg. lia.
Qed.

(** Writing what was read. *)
Lemma put_get_be s : put_be (String.length s) (get_be s) = s.
Proof.
  induction s as [|c s IH]; [done|]. cbn [String.length put_be].
  change (get_be (String c s)) with (get_be_from (256 * 0 + code c) s).
  rewrite get_be_from_acc. replace (256 * 0 + code c) with (code c) by lia. fold (len s).
  rewrite put_be_add, IH. f_equal.
  pose proof (get_be_bound s). pose proof (Z.pow_pos_nonneg 256 (len s) ltac:(lia) (len_nonneg s)).
  rewrite Z.div_add_l, Z.div_small, Z.add_0_r by lia. apply byte_code.
Qed.

Lemma stake_app_exact a b : stake (String.length a) (a +:+ b) = a.
Proof. induction a as [|c a IH]; [by destruct b|]. autorewrite with str. simpl. by rewrite IH. Qed.

Lemma sdrop_app_exact a b : sdrop (String.length a) (a +:+ b) = b.
Proof. induction a as [|c a IH]; [by destruct b|]. autorewrite with str. simpl. apply IH. Qed.

(** The part [p] of [a ++ p ++ c]. *)
Lemma slice_middle a p c i j :
  i = len a -> j = len a + len p -> slice (a +:+ p +:+ c) i j = Ok p.
Proof.
  intros -> ->. unfold slice. pose proof (len_nonneg a). pose proof (len_nonneg p). pose proof (len_nonneg c).
  rewrite !len_app. rewrite (proj2 (Z.leb_le 0 _)), (proj2 (Z.leb_le (len a) _)), (proj2 (Z.leb_le (_ + _) _)) by lia.
  cbn [andb]. replace (len a + len p - len a) with (len p) by lia. unfold len. rewrite !Nat2Z.id.
  by rewrite sdrop_app_exact, stake_app_exact.
Qed.

Lemma slice_Ok b i j p : slice b i j = Ok p ->
  0 <= i <= j /\ j <= len b /\ len p = j - i.
Proof.
  unfold slice. destruct (_ && _) eqn:H; [|done]. intros; simplify_eq.
  apply andb_true_iff in H as [H Hj]. apply andb_true_iff in H as [Hi Hij].
  split; [lia|]. split; [lia|]. unfold len in *. rewrite length_stake, length_sdrop. lia.
Qed.

Lemma slice_total b i j : 0 <= i <= j -> j <= len b -> exists p, slice b i j = Ok p.
Proof.
  intros. unfold slice. rewrite (proj2 (Z.leb_le 0 i)), (proj2 (Z.leb_le i j)), (proj2 (Z.leb_le j _)) by lia.
  by eexists.
Qed.

(** The bytes before a slice, the slice, and the bytes after it. *)
Lemma at_total b i : 0 <= i < len b -> exists x, at_ b i = Ok x.
Proof.
  intros Hi. unfold at_, len in *. rewrite (proj2 (Z.ltb_ge _ _)) by lia.
  assert (Hn : (Z.to_nat i < String.length b)%nat) by lia. revert Hn. generalize (Z.to_nat i). clear.
  induction b as [|x b IH]; intros [|n] Hn; cbn in *; [lia|lia|by eexists|apply IH; lia].
Qed.

(** Bytes inserted before the place that is read shift it. *)
Lemma sget_insert a m c n : (String.length a <= n)%nat -> sget (n + String.length m) (a +:+ m +:+ c) = sget n (a +:+ c).
Proof.
  intros Hn. replace n with (String.length a + (n - String.length a))%nat by lia. generalize (n - String.length a)%nat. intros k.
  rewrite <- (sget_sdrop k), sdrop_app_exact.
  replace (String.length a + k + String.length m)%nat with (String.length a + (String.length m + k))%nat by lia.
  rewrite <- (sget_sdrop (String.length m + k)), sdrop_app_exact, <- sget_sdrop. by rewrite sdrop_app_exact.
Qed.

Lemma sdrop_insert a m c n : (String.length a <= n)%nat -> sdrop (n + String.length m) (a +:+ m +:+ c) = sdrop n (a +:+ c).
Proof.
  intros Hn. replace n with (String.length a + (n - String.length a))%nat by lia. generalize (n - String.length a)%nat. intros k.
  rewrite <- (sdrop_sdrop k), sdrop_app_exact.
  replace (String.length a + k + String.length m)%nat with (String.length a + (String.length m + k))%nat by lia.
  rewrite <- (sdrop_sdrop (String.length m + k)), sdrop_app_exact, <- sdrop_sdrop. by rewrite sdrop_app_exact.
Qed.

Lemma at_insert a m c i : len a <= i -> at_ (a +:+ m +:+ c) (i + len m) = at_ (a +:+ c) i.
Proof.
  intros Hi. unfold at_, len in *. rewrite !(proj2 (Z.ltb_ge _ _)) by lia.
  replace (Z.to_nat (i + Z.of_nat (String.length m))) with (Z.to_nat i + String.length m)%nat by lia.
  by rewrite sget_insert by lia.
Qed.

Lemma slice_insert a m c i j : len a <= i -> slice (a +:+ m +:+ c) (i + len m) (j + len m) = slice (a +:+ c) i j.
Proof.
  intros Hi. unfold slice. rewrite !len_app. pose proof (len_nonneg a). pose proof (len_nonneg m).
  replace (j + len m - (i + len m)) with (j - i) by lia.
  replace ((0 <=? i + len m) && (i + len m <=? j + len m) && (j + len m <=? len a + (len m + len c)))
    with ((0 <=? i) && (i <=? j) && (j <=? len a + len c)).
  2: { rewrite !(proj2 (Z.leb_le 0 _)) by lia. f_equal; [f_equal|]; apply eq_bool_prop_intro; rewrite !Is_true_true, !Z.leb_le; lia. }
  destruct (_ && _); [|done]. do 2 f_equal. unfold len in *.
  replace (Z.to_nat (i + Z.of_nat (String.length m))) with (Z.to_nat i + String.length m)%nat by lia.
  apply sdrop_insert. lia.
Qed.

(** A slice is not changed by what lies behind the bytes. *)
Lemma slice_app b c i j p : slice b i j = Ok p -> slice (b +:+ c) i j = Ok p.
Proof.
  unfold slice. destruct (_ && _) eqn:H; [|done]. apply andb_true_iff in H as [H1 H3]. apply andb_true_iff in H1 as [H1 H2].
  intros ?; simplify_eq. pose proof (len_nonneg c).
  rewrite len_app, H1, H2, (proj2 (Z.leb_le _ _)) by lia. cbn [andb]. f_equal.
  revert H1 H2 H3. rewrite !Z.leb_le. intros H1 H2 H3.
  unfold len in H3. rewrite sdrop_app, stake_prefix; [done|rewrite length_sdrop; lia|lia].
Qed.

Lemma slice_split b i j p : slice b i j = Ok p ->
  b = stake (Z.to_nat i) b +:+ p +:+ sdrop (Z.to_nat j) b.
Proof.
  intros H. destruct (slice_Ok _ _ _ _ H) as (Hi & Hj & _). unfold slice in H.
  destruct (_ && _); [|done]. simplify_eq. rewrite <- (stake_sdrop (Z.to_nat i) b) at 1. f_equal.
  rewrite <- (stake_sdrop (Z.to_nat (j - i)) (sdrop (Z.to_nat i) b)) at 1. f_equal.
  rewrite sdrop_sdrop. f_equal. lia.
Qed.

(** What is left of [b] from [i] on begins with the slice. *)
Lemma slice_drop b i j p : slice b i j = Ok p ->
  sdrop (Z.to_nat i) b = p +:+ sdrop (Z.to_nat j) b.
Proof.
  intros H. destruct (slice_Ok _ _ _ _ H) as (Hi & Hj & _). unfold slice in H.
  destruct (_ && _); [|done]. simplify_eq.
  rewrite <- (stake_sdrop (Z.to_nat (j - i)) (sdrop (Z.to_nat i) b)) at 1. f_equal.
  rewrite sdrop_sdrop. f_equal. lia.
Qed.

Lemma len_sdrop n b : Z.of_nat n <= len b -> len (sdrop n b) = len b - Z.of_nat n.
Proof. unfold len. rewrite length_sdrop. lia. Qed.

(** A reader at [i] that sees [p] and then [c]. *)
Lemma drop_slice b i p c :
  0 <= i <= len b -> sdrop (Z.to_nat i) b = p +:+ c ->
  i + len p <= len b /\ slice b i (i + len p) = Ok p /\ sdrop (Z.to_nat (i + len p)) b = c.
Proof.
  intros Hi Hd. pose proof (len_nonneg p). pose proof (len_nonneg c).
  assert (Hl : len (sdrop (Z.to_nat i) b) = len b - i) by (rewrite len_sdrop; lia).
  rewrite Hd, len_app in Hl. split; [lia|]. split.
  - unfold slice. rewrite (proj2 (Z.leb_le 0 i)), (proj2 (Z.leb_le i _)), (proj2 (Z.leb_le _ (len b))) by lia.
    cbn [andb]. rewrite Hd. replace (i + len p - i) with (len p) by lia. unfold len. rewrite Nat2Z.id.
    by rewrite stake_app_exact.
  - replace (Z.to_nat (i + len p)) with (Z.to_nat i + String.length p)%nat by (unfold len; lia).
    rewrite <- sdrop_sdrop, Hd. apply sdrop_app_exact.
Qed.

Lemma sdrop_0 b : sdrop 0 b = b.
Proof. by destruct b. Qed.

Lemma sdrop_all b : sdrop (Z.to_nat (len b)) b = ""%string.
Proof. unfold len. rewrite Nat2Z.id. rewrite <- (sapp_nil_r b) at 2. apply sdrop_app_exact. Qed.

Lemma concat_app l1 l2 : concat (l1 ++ l2) = concat l1 +:+ concat l2.
Proof. induction l1 as [|p l1 IH]; simpl; [done|]. by rewrite IH, sapp_assoc. Qed.

Lemma length_zeros n : String.length (zeros n) = n.
Proof. induction n; simpl; auto. Qed.

(** CRC-32 stays within 32 bits. *)
Lemma lxor_bound n a b : 0 <= n -> 0 <= a < 2 ^ n -> 0 <= b < 2 ^ n -> 0 <= Z.lxor a b < 2 ^ n.
Proof.
  intros Hn Ha Hb. destruct (Z.eq_dec n 0) as [->|Hn0].
  { assert (a = 0) as -> by lia. assert (b = 0) as -> by lia. done. }
  assert (Hx : 0 <= Z.lxor a b) by (apply Z.lxor_nonneg; lia). split; [done|].
  destruct (Z.eq_dec (Z.lxor a b) 0) as [->|Hz]; [lia|].
  apply Z.log2_lt_pow2; [lia|]. eapply Z.le_lt_trans; [apply Z.log2_lxor; lia|].
  assert (Hl : forall x, 0 <= x < 2 ^ n -> Z.log2 x < n).
  { intros x Hxn. destruct (Z.eq_dec x 0) as [->|]; [change (Z.log2 0) with 0; lia|].
    apply Z.log2_lt_pow2; lia. }
  apply Z.max_lub_lt; by apply Hl.
Qed.

Lemma crc_bit_bound c : 0 <= c < 2 ^ 32 -> 0 <= crc_bit c < 2 ^ 32.
Proof.
  intros Hc. assert (Hs : 0 <= Z.shiftr c 1 < 2 ^ 32).
  { rewrite Z.shiftr_div_pow2 by lia. change (2 ^ 1) with 2. split; [apply Z.div_pos; lia|].
    apply Z.div_lt_upper_bound; lia. }
  unfold crc_bit. destruct (Z.odd c); [|done]. by apply lxor_bound.
Qed.

Lemma crc_update_bound s : forall c, 0 <= c < 2 ^ 32 -> 0 <= crc_update c s < 2 ^ 32.
Proof.
  induction s as [|b s IH]; intros c Hc; [done|]. cbn [crc_update]. apply IH. unfold crc_byte.
  assert (Hx : 0 <= Z.lxor c (code b) < 2 ^ 32).
  { apply lxor_bound; [lia|done|]. pose proof (code_range b). lia. }
  generalize dependent (Z.lxor c (code b)). intros x Hx.
  generalize 8%nat as n. induction n; [done|]. cbn [Nat.iter]. by apply crc_bit_bound.
Qed.

Lemma ChecksumIEEE_bound s : 0 <= ChecksumIEEE s < 2 ^ 32.
Proof. unfold ChecksumIEEE. apply lxor_bound; [lia| |lia]. by apply crc_update_bound. Qed.

Create Rewrite HintDb blen.
#[export] Hint Rewrite len_put_be len_put_le len_app : blen.
