(* ===== verification/Raster.v ===== *)
(** * The synthetic photograph of the fixtures (src/internal/fixtures/raster.go)

    A fixed linear congruential generator, and a painter that fills the picture
    in three passes over a flat buffer: gradients, blocks averaged in, noise.
    The passes are written as the loops of the source; [scene_is_naive] shows
    that they paint what a function of one pixel would. *)

From stdpp Require Import list_numbers.
From S2P Require Import Prelude Utf8 GoStrings Sha256 Bytes.

(** ** The generator *)

Definition w64 (z : Z) : Z := z mod 18446744073709551616.
Definition u8 (z : Z) : Z := z mod 256.
Definition int8 (z : Z) : Z := (z + 128) mod 256 - 128.

Definition lcg_step (s : Z) : Z := w64 (s * 6364136223846793005 + 1442695040888963407).

(** The state is the last value; [newLCG] steps once from the seed. *)
Definition newLCG (seed : Z) : Z := lcg_step seed.

(** [l.n(max)]: the value and the state after it; the bound is read as unsigned. *)
Definition lcg_n (s max : Z) : Z * Z :=
  let s := lcg_step s in (Z.shiftr s 33 mod w64 max, s).

(** ** Drawing *)

Definition noiseLen : Z := 4096.
Definition noiseMask : Z := noiseLen - 1.

Fixpoint draw_noise (n : nat) (s : Z) : list Z * Z :=
  match n with
  | O => ([], s)
  | S n => let '(v, s) := lcg_n s 17 in
           let '(l, s) := draw_noise n s in (int8 (v - 8) :: l, s)
  end.

Record Block := mkBlock { bx0 : Z; by0 : Z; bx1 : Z; by1 : Z; bcr : Z; bcg : Z; bcb : Z }.

Definition draw_block (w h s : Z) : Block * Z :=
  let '(x0, s) := lcg_n s w in
  let '(y0, s) := lcg_n s h in
  let '(bw, s) := lcg_n s (Z.quot w 6 + 1) in
  let '(bh, s) := lcg_n s (Z.quot h 6 + 1) in
  let x1 := x0 + (1 + bw) in
  let y1 := y0 + (1 + bh) in
  let x1 := if w <? x1 then w else x1 in
  let y1 := if h <? y1 then h else y1 in
  let '(cr, s) := lcg_n s 256 in
  let '(cg, s) := lcg_n s 256 in
  let '(cb, s) := lcg_n s 256 in
  (mkBlock x0 y0 x1 y1 cr cg cb, s).

Fixpoint draw_blocks (n : nat) (w h s : Z) : list Block :=
  match n with
  | O => []
  | S n => let '(b, s) := draw_block w h s in b :: draw_blocks n w h s
  end.

Definition clamp8 (v : Z) : Z := if v <? 0 then 0 else if 255 <? v then 255 else u8 v.

(** ** The passes over the buffers *)

(** [n] values from index [i]. *)
Definition read (n : nat) (a : list Z) (i : Z) : list Z := take n (drop (Z.to_nat i) a).

Definition write (a : list Z) (i : Z) (vs : list Z) : list Z := list_inserts (Z.to_nat i) vs a.

(** [for v := from; v < to; v++]. *)
Definition loop {A} (from to : Z) (body : A -> Z -> A) (a : A) : A := foldl body a (seqZ from (to - from)).

Definition gradient (w h x y : Z) : list Z :=
  [u8 (40 + (200 * x) / w); u8 (30 + (180 * y) / h); u8 (60 + (150 * (x + y) / (w + h)))].

Definition gradient_pass (w h : Z) (base : list Z) : list Z :=
  loop 0 h (fun base y =>
    let row := y * w * 3 in
    loop 0 w (fun base x => write base (row + x * 3) (gradient w h x y)) base) base.

(** Each component averaged with the colour of the block. *)
Definition average (b : Block) (old : list Z) : list Z :=
  zip_with (fun v c => u8 ((v + c) / 2)) old [bcr b; bcg b; bcb b].

Definition block_pass (w : Z) (base : list Z) (b : Block) : list Z :=
  loop (by0 b) (by1 b) (fun base y =>
    let row := y * w * 3 in
    loop (bx0 b) (bx1 b) (fun base x =>
      let i := row + x * 3 in write base i (average b (read 3 base i))) base) base.

(** The noise added to the first two components and taken off the third. *)
Definition noisy (nz : Z) (old : list Z) : list Z :=
  zip_with (fun v s => clamp8 (v + s * nz)) old [1; 1; -1] ++ [255].

Definition noise_pass (w h : Z) (noise base pix : list Z) : list Z :=
  loop 0 h (fun pix y =>
    let row := y * w * 3 in
    let at_row := y * (4 * w) in
    (loop 0 w (fun '(pix, ni) x =>
       (write pix (at_row + x * 4) (noisy (noise !!! Z.to_nat ni) (read 3 base (row + x * 3))),
        Z.land (ni + 17) noiseMask))
     (pix, Z.land (y * 31) noiseMask)).1) pix.

(** The largest slice the runtime makes (48 address bits). *)
Definition maxAlloc : Z := 281474976710656.

(** When the picture cannot be made.  [image.Rect] swaps negative sides, so
    [image.NewRGBA] refuses only what is too large; a buffer of one negative side
    has a negative length; and a side that is empty, or from -6 to -11, divides by
    zero when the first block is drawn. *)
Definition scene_panics (w h : Z) : bool :=
  (maxAlloc <? 4 * (Z.abs w * Z.abs h)) || negb (Bool.eqb (w <? 0) (h <? 0))
  || (w =? 0) || (h =? 0) || (Z.quot w 6 + 1 =? 0) || (Z.quot h 6 + 1 =? 0).

(** The pixels, four bytes each. *)
Definition scene (w h seed : Z) : result Fault (list Z) :=
  if scene_panics w h then Err Panic else
  let r := newLCG seed in
  let '(noise, r) := draw_noise (Z.to_nat noiseLen) r in
  let blocks := draw_blocks 24 w h r in
  let base := replicate (Z.to_nat (w * h * 3)) 0 in
  let base := gradient_pass w h base in
  let base := foldl (block_pass w) base blocks in
  Ok (noise_pass w h noise base (replicate (Z.to_nat (w * h * 4)) 0)).

(** ** The reference: one pixel at a time *)

Definition covers (b : Block) (x y : Z) : bool :=
  (bx0 b <=? x) && (x <? bx1 b) && (by0 b <=? y) && (y <? by1 b).

(** The component after every block that covers the pixel, in order. *)
Definition blend (blocks : list Block) (x y : Z) (colour : Block -> Z) (v : Z) : Z :=
  foldl (fun v b => if covers b x y then (v + colour b) / 2 else v) v blocks.

Definition clip (v : Z) : Z := Z.max 0 (Z.min 255 v).

Definition naive_pixel (w h : Z) (noise : list Z) (blocks : list Block) (x y : Z) : list Z :=
  let nz := noise !!! Z.to_nat ((31 * y + 17 * x) mod noiseLen) in
  [clip (blend blocks x y bcr (40 + 200 * x / w) + nz);
   clip (blend blocks x y bcg (30 + 180 * y / h) + nz);
   clip (blend blocks x y bcb (60 + 150 * (x + y) / (w + h)) - nz);
   255].

(** ** Loops that update disjoint places *)

(** Read the [m] values at each key's place and write as many back. *)
Definition sweep {K} (m : nat) (idx : K -> Z) (f : K -> list Z -> list Z) (a : list Z) (ks : list K) : list Z :=
  foldl (fun a k => write a (idx k) (f k (read m a (idx k)))) a ks.

Definition fits (m : nat) (a : list Z) (i : Z) : Prop := 0 <= i /\ (Z.to_nat i + m <= length a)%nat.

Lemma length_write a i vs : length (write a i vs) = length a.
Proof. apply length_inserts. Qed.

Lemma read_write_same m a i vs : fits m a i -> length vs = m -> read m (write a i vs) i = vs.
Proof.
  intros [Hi Hm] Hl. unfold read, write. apply list_eq. intros j.
  destruct (decide (j < m)%nat) as [Hj|Hj].
  - rewrite lookup_take_lt, lookup_drop, list_lookup_inserts by lia. f_equal. lia.
  - rewrite lookup_take_ge by lia. symmetry. apply lookup_ge_None. lia.
Qed.

Lemma read_write_other m a i j vs :
  0 <= i -> 0 <= j -> length vs = m -> i + Z.of_nat m <= j \/ j + Z.of_nat m <= i ->
  read m (write a i vs) j = read m a j.
Proof.
  intros Hi Hj Hl Hd. unfold read, write. apply list_eq. intros k.
  destruct (decide (k < m)%nat) as [Hk|Hk]; [|by rewrite !lookup_take_ge by lia].
  rewrite !lookup_take_lt, !lookup_drop by lia. destruct Hd.
  - rewrite list_lookup_inserts_ge by lia. done.
  - rewrite list_lookup_inserts_lt by lia. done.
Qed.

Section Sweep.
Context {K : Type} (m : nat) (idx : K -> Z) (f : K -> list Z -> list Z) (good : K -> Prop).
Context (Hf : forall k old, good k -> length old = m -> length (f k old) = m).

Lemma length_read a i : fits m a i -> length (read m a i) = m.
Proof. intros [Hi Hm]. unfold read. rewrite length_take, length_drop. lia. Qed.

Lemma sweep_cons a k ks : sweep m idx f a (k :: ks) = sweep m idx f (write a (idx k) (f k (read m a (idx k)))) ks.
Proof. done. Qed.

Lemma length_sweep ks : forall a, length (sweep m idx f a ks) = length a.
Proof. induction ks as [|k ks IH]; intros a; [done|]. rewrite sweep_cons, IH. apply length_write. Qed.

(** Two keys of the loop have places apart. *)
Definition apart (k k' : K) : Prop := idx k + Z.of_nat m <= idx k' \/ idx k' + Z.of_nat m <= idx k.

Lemma sweep_other ks k : forall a,
  (forall k', k' ∈ ks -> good k' /\ fits m a (idx k') /\ apart k' k) -> 0 <= idx k ->
  read m (sweep m idx f a ks) (idx k) = read m a (idx k).
Proof.
  induction ks as [|k0 ks IH]; intros a Hk H0; [done|]. rewrite sweep_cons.
  destruct (Hk k0 ltac:(by constructor)) as (Hg & Hfit & Hap).
  rewrite IH; [|intros k' Hk'|done].
  - apply read_write_other; [by destruct Hfit|done|apply Hf; [done|by apply length_read]|done].
  - unfold fits. rewrite length_write. apply (Hk k'). by constructor.
Qed.

(** Every place of a loop over keys apart is updated once. *)
Lemma sweep_at ks k : forall a,
  NoDup ks -> (forall k', k' ∈ ks -> good k') -> (forall k', k' ∈ ks -> fits m a (idx k')) ->
  (forall k1 k2, k1 ∈ ks -> k2 ∈ ks -> k1 <> k2 -> apart k1 k2) -> k ∈ ks ->
  read m (sweep m idx f a ks) (idx k) = f k (read m a (idx k)).
Proof.
  induction ks as [|k0 ks IH]; intros a Hnd Hgood Hfit Hap Hin; [by apply not_elem_of_nil in Hin|].
  apply NoDup_cons in Hnd as [Hk0 Hnd]. rewrite sweep_cons.
  assert (Hf0 : fits m a (idx k0)) by (apply Hfit; by constructor).
  assert (Hl0 : length (f k0 (read m a (idx k0))) = m)
    by (apply Hf; [apply Hgood; by constructor|by apply length_read]).
  assert (Hfit' : forall k', k' ∈ ks -> fits m (write a (idx k0) (f k0 (read m a (idx k0)))) (idx k')).
  { intros k' Hk'. unfold fits. rewrite length_write. apply Hfit. by constructor. }
  apply elem_of_cons in Hin as [->|Hin].
  - rewrite sweep_other; [by apply read_write_same| |by destruct Hf0].
    intros k' Hk'. split; [apply Hgood; by constructor|]. split; [by apply Hfit'|]. apply Hap; [by constructor|by constructor|]. by intros ->.
  - rewrite IH; [|done|intros; apply Hgood; by constructor|done| |done].
    + f_equal. apply read_write_other; [by destruct Hf0|by apply Hfit; constructor|done|].
      apply (Hap k0 k); [by constructor|by constructor|]. by intros ->.
    + intros; apply Hap; [by constructor|by constructor|done].
Qed.
End Sweep.

(** ** The loops of a pass as one walk over its cells *)

Definition cells (x0 x1 y0 y1 : Z) : list (Z * Z) :=
  mbind (fun y => (fun x => (x, y)) <$> seqZ x0 (x1 - x0)) (seqZ y0 (y1 - y0)).

Lemma elem_of_cells x0 x1 y0 y1 x y : (x, y) ∈ cells x0 x1 y0 y1 <-> x0 <= x < x1 /\ y0 <= y < y1.
Proof.
  unfold cells. rewrite list_elem_of_bind. split.
  - intros (y' & (x' & ? & Hx%elem_of_seqZ)%list_elem_of_fmap & Hy%elem_of_seqZ). simplify_eq. lia.
  - intros. exists y. split; [apply list_elem_of_fmap; exists x; split; [done|]|]; apply elem_of_seqZ; lia.
Qed.

Lemma NoDup_cells x0 x1 y0 y1 : NoDup (cells x0 x1 y0 y1).
Proof.
  unfold cells. apply NoDup_bind; [| |apply NoDup_seqZ].
  - intros y y' [x z]. rewrite !list_elem_of_fmap. intros _ _ (? & ? & _) (? & ? & _). by simplify_eq.
  - intros y _. apply NoDup_fmap_2; [|apply NoDup_seqZ]. intros x x' ?. by simplify_eq.
Qed.

Lemma nested_loop {A} (g : A -> Z * Z -> A) x0 x1 y0 y1 (a : A) :
  loop y0 y1 (fun a y => loop x0 x1 (fun a x => g a (x, y)) a) a = foldl g a (cells x0 x1 y0 y1).
Proof.
  unfold loop, cells. generalize (seqZ y0 (y1 - y0)) as ys, (seqZ x0 (x1 - x0)) as xs. intros ys xs.
  revert a. induction ys as [|y ys IH]; intros a; [done|]. csimpl. rewrite foldl_app, IH. f_equal.
  clear. revert a. induction xs as [|x xs IH]; intros a; [done|]. csimpl. apply IH.
Qed.

(** Where the [m] values of a cell are. *)
Definition place (m w : Z) (c : Z * Z) : Z := m * (c.2 * w + c.1).

Lemma place_fits (m : nat) w h x y a :
  0 <= x < w -> 0 <= y < h -> length a = Z.to_nat (Z.of_nat m * (w * h)) -> fits m a (place (Z.of_nat m) w (x, y)).
Proof.
  intros Hx Hy Hl. unfold fits, place. cbn [fst snd]. rewrite Hl.
  assert (0 <= y * w + x) by nia. assert (y * w + x + 1 <= w * h) by nia. nia.
Qed.

Lemma place_apart (m : nat) w x y x' y' :
  0 <= x < w -> 0 <= x' < w -> (x, y) <> (x', y') -> apart m (place (Z.of_nat m) w) (x, y) (x', y').
Proof.
  intros Hx Hx' Hne. unfold apart, place. cbn [fst snd].
  assert (y * w + x + 1 <= y' * w + x' \/ y' * w + x' + 1 <= y * w + x) as [|]; [|nia|nia].
  destruct (Z.lt_trichotomy y y') as [|[->|]]; [left; nia| |right; nia].
  destruct (Z.lt_trichotomy x x') as [|[->|]]; [left; lia|done|right; lia].
Qed.

Section Walk.
Context (m : nat) (w h : Z) (f : Z * Z -> list Z -> list Z).

(** Inside the picture. *)
Definition inside (c : Z * Z) : Prop := 0 <= c.1 < w /\ 0 <= c.2 < h.

Context (Hf : forall k old, inside k -> length old = m -> length (f k old) = m).

Lemma walk_at x0 x1 y0 y1 a x y :
  0 <= x0 -> x1 <= w -> 0 <= y0 -> y1 <= h -> length a = Z.to_nat (Z.of_nat m * (w * h)) ->
  0 <= x < w -> 0 <= y < h ->
  read m (sweep m (place (Z.of_nat m) w) f a (cells x0 x1 y0 y1)) (place (Z.of_nat m) w (x, y))
  = if (x0 <=? x) && (x <? x1) && (y0 <=? y) && (y <? y1)
    then f (x, y) (read m a (place (Z.of_nat m) w (x, y))) else read m a (place (Z.of_nat m) w (x, y)).
Proof.
  intros Hx0 Hx1 Hy0 Hy1 Hl Hx Hy.
  assert (Hfits : forall k, k ∈ cells x0 x1 y0 y1 -> fits m a (place (Z.of_nat m) w k)).
  { intros [x' y'] Hk%elem_of_cells. apply (place_fits m w h); lia. }
  assert (Hin : forall k, k ∈ cells x0 x1 y0 y1 -> inside k).
  { intros [x' y'] Hk%elem_of_cells. split; cbn; lia. }
  destruct (_ && _) eqn:Hb; [rewrite !andb_true_iff in Hb|rewrite !andb_false_iff in Hb].
  - apply (sweep_at m _ f inside); [done|apply NoDup_cells|done|done| |apply elem_of_cells; lia].
    intros [] [] ?%elem_of_cells ?%elem_of_cells ?. apply place_apart; [lia|lia|done].
  - apply (sweep_other m _ f inside); [done| |apply Z.mul_nonneg_nonneg; cbn [fst snd]; nia].
    intros [x' y'] Hk. split; [by apply Hin|]. split; [by apply Hfits|]. apply elem_of_cells in Hk.
    apply place_apart; [lia|lia|]. intros ?. simplify_eq. lia.
Qed.
End Walk.

Lemma foldl_same {A B} (f g : A -> B -> A) l : forall a,
  (forall a v, f a v = g a v) -> foldl f a l = foldl g a l.
Proof. induction l as [|v l IH]; intros a H; [done|]. csimpl. rewrite H. by apply IH. Qed.

Lemma loop_ext {A} from to (f g : A -> Z -> A) a :
  (forall a v, f a v = g a v) -> loop from to f a = loop from to g a.
Proof. intros H. by apply foldl_same. Qed.

Lemma gradient_pass_at w h a x y :
  length a = Z.to_nat (3 * (w * h)) -> 0 <= x < w -> 0 <= y < h ->
  read 3 (gradient_pass w h a) (place 3 w (x, y)) = gradient w h x y.
Proof.
  intros Hl Hx Hy.
  assert (Hg : gradient_pass w h a = sweep 3 (place 3 w) (fun c _ => gradient w h c.1 c.2) a (cells 0 w 0 h)).
  { unfold sweep. rewrite <- nested_loop. apply loop_ext. intros b v. apply loop_ext. intros b' u.
    unfold place. cbn [fst snd]. f_equal. lia. }
  rewrite Hg, (walk_at 3 w h) by (done || lia). by rewrite (proj2 (andb_true_iff _ _)) by lia.
Qed.

(** A pass keeps the length of its buffer. *)
Lemma length_foldl_write {K} (i : list Z -> K -> Z) (vs : list Z -> K -> list Z) ks : forall a,
  length (foldl (fun a k => write a (i a k) (vs a k)) a ks) = length a.
Proof. induction ks as [|k ks IH]; intros a; [done|]. csimpl. rewrite IH. apply length_write. Qed.

Lemma length_gradient_pass w h a : length (gradient_pass w h a) = length a.
Proof.
  unfold gradient_pass. rewrite (nested_loop (fun b c => write b (c.2 * w * 3 + c.1 * 3) (gradient w h c.1 c.2))).
  apply (length_foldl_write (fun _ c => c.2 * w * 3 + c.1 * 3) (fun _ c => gradient w h c.1 c.2)).
Qed.

(** ** Blocks *)

Definition block_ok (w h : Z) (b : Block) : Prop :=
  0 <= bx0 b /\ bx1 b <= w /\ 0 <= by0 b /\ by1 b <= h
  /\ 0 <= bcr b <= 255 /\ 0 <= bcg b <= 255 /\ 0 <= bcb b <= 255.

Lemma lcg_n_range s max : 0 < max <= maxAlloc -> 0 <= (lcg_n s max).1 < max.
Proof.
  unfold maxAlloc. intros Hm. unfold lcg_n. cbn [fst]. replace (w64 max) with max by (symmetry; apply Z.mod_small; lia).
  apply Z.mod_pos_bound. lia.
Qed.

(** A side and the bound on the size of a block. *)
Lemma side_range w : 0 < w <= maxAlloc -> 0 < Z.quot w 6 + 1 <= maxAlloc.
Proof.
  unfold maxAlloc. intros Hw. rewrite Z.quot_div_nonneg by lia. pose proof (Z.div_pos w 6). pose proof (Z.div_lt w 6). lia.
Qed.

Lemma draw_block_ok w h s : 0 < w <= maxAlloc -> 0 < h <= maxAlloc -> block_ok w h (draw_block w h s).1.
Proof.
  intros Hw Hh. pose proof (side_range w Hw). pose proof (side_range h Hh).
  assert (0 < 256 <= maxAlloc) by done. unfold draw_block.
  repeat match goal with |- context [let '(_, _) := lcg_n ?s ?m in _] =>
    let H := fresh "R" in assert (H : 0 <= (lcg_n s m).1 < m) by (by apply lcg_n_range);
    destruct (lcg_n s m) as [? ?]; cbn [fst] in H end.
  unfold block_ok. cbn [fst bx0 bx1 by0 by1 bcr bcg bcb].
  split; [lia|]. split; [destruct (Z.ltb_spec w (z + (1 + z3))); lia|]. split; [lia|].
  split; [destruct (Z.ltb_spec h (z1 + (1 + z5))); lia|]. lia.
Qed.

Lemma draw_blocks_ok n w h : forall s, 0 < w <= maxAlloc -> 0 < h <= maxAlloc -> Forall (block_ok w h) (draw_blocks n w h s).
Proof.
  induction n as [|n IH]; intros s Hw Hh; [constructor|]. cbn [draw_blocks].
  pose proof (draw_block_ok w h s Hw Hh). destruct (draw_block w h s) as [b s']. constructor; auto.
Qed.

Definition byte_range (v : Z) : Prop := 0 <= v <= 255.

Lemma length_average b old : length old = 3%nat -> length (average b old) = 3%nat.
Proof. intros Hl. unfold average. rewrite length_zip_with, Hl. done. Qed.

Lemma block_pass_at w h b a x y :
  block_ok w h b -> length a = Z.to_nat (3 * (w * h)) -> 0 <= x < w -> 0 <= y < h ->
  length (block_pass w a b) = length a
  /\ read 3 (block_pass w a b) (place 3 w (x, y))
     = if covers b x y then average b (read 3 a (place 3 w (x, y))) else read 3 a (place 3 w (x, y)).
Proof.
  intros (Hx0 & Hx1 & Hy0 & Hy1 & _) Hl Hx Hy.
  assert (Hg : block_pass w a b
    = sweep 3 (place 3 w) (fun _ old => average b old) a (cells (bx0 b) (bx1 b) (by0 b) (by1 b))).
  { unfold sweep. rewrite <- nested_loop. apply loop_ext. intros c v. apply loop_ext. intros c' u.
    unfold place. cbn [fst snd]. replace (v * w * 3 + u * 3) with (3 * (v * w + u)) by lia. done. }
  rewrite Hg. split; [apply length_sweep|]. rewrite (walk_at 3 w h) by (auto using length_average || lia). done.
Qed.

Lemma u8_small v : byte_range v -> u8 v = v.
Proof. unfold byte_range, u8. intros. apply Z.mod_small. lia. Qed.

Lemma half_range v c : byte_range v -> 0 <= c <= 255 -> byte_range ((v + c) / 2).
Proof.
  unfold byte_range. intros. split; [apply Z.div_pos; lia|].
  apply Z.lt_succ_r, Z.div_lt_upper_bound; lia.
Qed.

Lemma blend_range bs w h x y colour v :
  Forall (block_ok w h) bs -> (forall b, block_ok w h b -> 0 <= colour b <= 255) -> byte_range v ->
  byte_range (blend bs x y colour v).
Proof.
  unfold blend. intros Hbs Hc. revert v. induction Hbs as [|b bs Hb _ IH]; intros v Hv; [done|].
  csimpl. apply IH. destruct (covers b x y); [|done]. by apply half_range; [|apply Hc].
Qed.

Lemma blocks_at bs w h x y : forall a r g b,
  Forall (block_ok w h) bs -> length a = Z.to_nat (3 * (w * h)) -> 0 <= x < w -> 0 <= y < h ->
  read 3 a (place 3 w (x, y)) = [r; g; b] -> byte_range r -> byte_range g -> byte_range b ->
  read 3 (foldl (block_pass w) a bs) (place 3 w (x, y))
  = [blend bs x y bcr r; blend bs x y bcg g; blend bs x y bcb b].
Proof.
  induction bs as [|k bs IH]; intros a r g b Hbs Hl Hx Hy Hr Hr1 Hg1 Hb1; [done|].
  inversion Hbs as [|? ? Hk Hbs']; subst. destruct (block_pass_at w h k a x y Hk Hl Hx Hy) as [Hl' Hp].
  unfold blend. csimpl. rewrite Hr in Hp. destruct Hk as (_ & _ & _ & _ & Hcr & Hcg & Hcb).
  destruct (covers k x y); apply IH; auto; try congruence; try (by apply half_range).
  rewrite Hp. unfold average. csimpl. by rewrite !u8_small by (by apply half_range).
Qed.

(** ** Noise *)

Lemma draw_noise_length n : forall s, length (draw_noise n s).1 = n.
Proof.
  induction n as [|n IH]; intros s; [done|]. cbn [draw_noise]. destruct (lcg_n s 17) as [v s'].
  specialize (IH s'). destruct (draw_noise n s') as [l s'']. cbn in *. by rewrite IH.
Qed.

Lemma mask_mod z : Z.land z noiseMask = z mod noiseLen.
Proof. apply (Z.land_ones z 12). lia. Qed.

(** The index that walks by 17 is a function of the column. *)
Lemma noise_row (noise base : list Z) row at_row y : forall n x pix,
  (foldl (fun '(pix, ni) x =>
     (write pix (at_row + x * 4) (noisy (noise !!! Z.to_nat ni) (read 3 base (row + x * 3))),
      Z.land (ni + 17) noiseMask))
   (pix, (31 * y + 17 * x) mod noiseLen) (seqZ x (Z.of_nat n))).1
  = foldl (fun pix x => write pix (at_row + x * 4)
      (noisy (noise !!! Z.to_nat ((31 * y + 17 * x) mod noiseLen)) (read 3 base (row + x * 3))))
    pix (seqZ x (Z.of_nat n)).
Proof.
  induction n as [|n IH]; intros x pix; [done|]. rewrite seqZ_cons by lia.
  replace (Z.pred (Z.of_nat (S n))) with (Z.of_nat n) by lia. csimpl.
  rewrite <- (IH (Z.succ x)). do 3 f_equal. rewrite mask_mod, Z.add_mod_idemp_l by done. f_equal. lia.
Qed.

Lemma length_noisy nz old : length old = 3%nat -> length (noisy nz old) = 4%nat.
Proof. intros Hl. unfold noisy. rewrite length_app, length_zip_with, Hl. done. Qed.

Lemma noise_pass_at w h (noise base pix : list Z) x y :
  length base = Z.to_nat (3 * (w * h)) -> length pix = Z.to_nat (4 * (w * h)) -> 0 <= x < w -> 0 <= y < h ->
  length (noise_pass w h noise base pix) = length pix
  /\ read 4 (noise_pass w h noise base pix) (place 4 w (x, y))
     = noisy (noise !!! Z.to_nat ((31 * y + 17 * x) mod noiseLen)) (read 3 base (place 3 w (x, y))).
Proof.
  intros Hlb Hlp Hx Hy.
  set (f := fun (c : Z * Z) (_ : list Z) =>
    noisy (noise !!! Z.to_nat ((31 * c.2 + 17 * c.1) mod noiseLen)) (read 3 base (place 3 w c))).
  assert (Hg : noise_pass w h noise base pix = sweep 4 (place 4 w) f pix (cells 0 w 0 h)).
  { unfold sweep. rewrite <- nested_loop. unfold noise_pass. apply loop_ext. intros p v. unfold loop.
    rewrite mask_mod. replace (v * 31) with (31 * v + 17 * 0) by lia.
    replace (w - 0) with (Z.of_nat (Z.to_nat w)) by lia. rewrite noise_row.
    apply foldl_same. intros q u. unfold f, place. cbn [fst snd]. f_equal; [lia|]. do 2 f_equal; lia. }
  rewrite Hg. split; [apply length_sweep|].
  assert (Hf : forall k old, inside w h k -> length old = 4%nat -> length (f k old) = 4%nat).
  { intros [u v] old [Hu Hv] _. apply length_noisy, length_read. apply (place_fits 3 w h); auto. }
  rewrite (walk_at 4 w h) by (done || lia). by rewrite (proj2 (andb_true_iff _ _)) by lia.
Qed.

(** ** The picture *)

Lemma gradient_range num k x w : 0 < w -> 0 <= x < w -> 0 <= k -> 0 < num -> num + k <= 256 -> byte_range (k + num * x / w).
Proof.
  intros. unfold byte_range. assert (0 <= num * x / w) by (apply Z.div_pos; nia).
  assert (num * x / w < num) by (apply Z.div_lt_upper_bound; nia). lia.
Qed.

Lemma clamp8_clip v : clamp8 v = clip v.
Proof.
  unfold clamp8, clip. destruct (Z.ltb_spec v 0); [lia|]. destruct (Z.ltb_spec 255 v); [lia|].
  rewrite u8_small by (split; lia). lia.
Qed.

(** A picture that has pixels and fits is painted. *)
Lemma scene_paints w h : 0 < w -> 0 < h -> 4 * (w * h) <= maxAlloc -> scene_panics w h = false.
Proof.
  intros Hw Hh Hm. unfold scene_panics. rewrite !Z.abs_eq, !Z.quot_div_nonneg by lia.
  pose proof (Z.div_pos w 6). pose proof (Z.div_pos h 6).
  rewrite (proj2 (Z.ltb_ge _ _) Hm), (proj2 (Z.ltb_ge w 0)), (proj2 (Z.ltb_ge h 0)) by lia.
  by rewrite !(proj2 (Z.eqb_neq _ _)) by lia.
Qed.

Lemma scene_total w h seed : 0 < w -> 0 < h -> 4 * (w * h) <= maxAlloc -> exists pix, scene w h seed = Ok pix.
Proof.
  intros Hw Hh Hm. unfold scene. rewrite scene_paints by done. destruct (draw_noise _ _). by eexists.
Qed.

(** C26. The three passes paint what the function of one pixel paints: no component
    is cut by its eight bits, no index leaves its buffer, and the masked walk
    over the noise is the modulo.  The values drawn are the generator's.  The
    picture is one Go can allocate; there no sum or product in the loops overflows
    either. *)
Theorem scene_is_naive w h seed :
  0 < w -> 0 < h -> 4 * (w * h) <= maxAlloc ->
  let noise := (draw_noise 4096 (newLCG seed)).1 in
  let blocks := draw_blocks 24 w h (draw_noise 4096 (newLCG seed)).2 in
  exists pix, scene w h seed = Ok pix /\ length pix = Z.to_nat (4 * (w * h))
    /\ forall x y, 0 <= x < w -> 0 <= y < h ->
       take 4 (drop (Z.to_nat (4 * (y * w + x))) pix) = naive_pixel w h noise blocks x y.
Proof.
  intros Hw Hh Hm noise blocks. unfold scene. rewrite scene_paints by done. change (Z.to_nat noiseLen) with 4096%nat. unfold noise, blocks.
  destruct (draw_noise 4096 (newLCG seed)) as [ns r]. cbn [fst snd].
  set (bs := draw_blocks 24 w h r). assert (Hbs : Forall (block_ok w h) bs) by (apply draw_blocks_ok; nia).
  clearbody bs.
  set (base := gradient_pass w h _).
  assert (Hlb : length base = Z.to_nat (3 * (w * h))).
  { unfold base. rewrite length_gradient_pass, length_replicate. f_equal. lia. }
  assert (Hlb2 : forall bs a, Forall (block_ok w h) bs -> length a = Z.to_nat (3 * (w * h)) ->
            length (foldl (block_pass w) a bs) = Z.to_nat (3 * (w * h))).
  { induction bs0 as [|b bs0 IH]; intros a H Ha; [done|]. inversion H; subst. csimpl. apply IH; [done|].
    by rewrite (proj1 (block_pass_at w h b a 0 0 ltac:(done) Ha ltac:(lia) ltac:(lia))). }
  eexists. split; [done|]. set (pix0 := replicate _ 0).
  assert (Hlp : length pix0 = Z.to_nat (4 * (w * h))) by (unfold pix0; rewrite length_replicate; f_equal; lia).
  split; [rewrite (proj1 (noise_pass_at w h ns _ pix0 0 0 (Hlb2 bs base Hbs Hlb) Hlp ltac:(lia) ltac:(lia))); done|].
  intros x y Hx Hy. change (take 4 (drop _ ?p)) with (read 4 p (place 4 w (x, y))).
  rewrite (proj2 (noise_pass_at w h ns _ pix0 x y (Hlb2 bs base Hbs Hlb) Hlp Hx Hy)).
  assert (Hgr : byte_range (40 + 200 * x / w)) by (apply gradient_range; lia).
  assert (Hgg : byte_range (30 + 180 * y / h)) by (apply gradient_range; lia).
  assert (Hgb : byte_range (60 + 150 * (x + y) / (w + h))) by (apply gradient_range; lia).
  rewrite (blocks_at bs w h x y base (40 + 200 * x / w) (30 + 180 * y / h) (60 + 150 * (x + y) / (w + h)));
    try done.
  - unfold noisy, naive_pixel. generalize (ns !!! Z.to_nat ((31 * y + 17 * x) mod noiseLen)) as nz. intros nz.
    cbn [zip_with app]. rewrite !clamp8_clip, !Z.mul_1_l.
    by replace (-1 * nz) with (- nz) by lia; rewrite Z.add_opp_r.
  - unfold base. rewrite gradient_pass_at; [|rewrite length_replicate; f_equal; lia|done|done].
    unfold gradient. by rewrite !u8_small.
Qed.

Lemma scene_is_naive_witness :
  exists pix, scene 5 3 10 = Ok pix /\ length pix = 60%nat
    /\ take 4 (drop 44 pix)
       = naive_pixel 5 3 (draw_noise 4096 (newLCG 10)).1 (draw_blocks 24 5 3 (draw_noise 4096 (newLCG 10)).2) 1 2.
Proof.
  destruct (scene_is_naive 5 3 10 ltac:(lia) ltac:(lia) ltac:(unfold maxAlloc; lia)) as (pix & Hs & Hl & Hp).
  exists pix. split; [done|]. split; [done|]. apply (Hp 1 2); lia.
Defined.

Example scene_sample :
  match scene 2 2 1 with Ok p => p | Err _ => [] end = [98; 81; 211; 255; 64; 227; 148; 255; 68; 123; 185; 255; 166; 115; 177; 255].
Proof. vm_compute. reflexivity. Qed.

(** Sizes out of range: an empty side, one negative side, a picture of more than
    the address space; two negative sides give a picture no loop has touched. *)
Example scene_sizes :
  map (fun s => scene s.1 s.2 1) [(0, 5); (5, -5); (-6, -1); (16777216, 16777216); (-1, -2)]
  = [Err Panic; Err Panic; Err Panic; Err Panic; Ok (replicate 8 0)].
Proof. vm_compute. reflexivity. Qed.
