(* ===== verification/Codecs.v ===== *)
(** * The codecs of the standard library the fixtures go through

    image/jpeg, image/png, image/gif, compress/zlib and net/http's content
    sniffing are parameters: what they write is not fixed across releases of
    Go, which is why the manifest pins the toolchain. *)

From S2P Require Import Prelude Utf8 GoStrings Sha256 Bytes Raster.

(** [jpeg.Encode] of the pixels of a picture with a quality: its error or its
    bytes. *)
Class JpegEncoder := jpeg_encode : Z -> Z -> list Z -> Z -> result string string.

(** Why a decoder failed: its text, and whether the error is io.EOF or
    io.ErrUnexpectedEOF. *)
Record DecodeError := mkDecodeError { de_text : string; de_eof : bool }.

(** [jpeg.Decode] (whether it fails) and [jpeg.DecodeConfig] (width, height). *)
Class JpegDecoder := {
  jpeg_decode : string -> option DecodeError;
  jpeg_config : string -> result string (Z * Z) }.

(** [encodeJPEG] of src/internal/fixtures/jpeg.go. *)
Definition encodeJPEG `{JpegEncoder} (w h : Z) (pix : list Z) (quality : Z) : result Fault string :=
  match jpeg_encode w h pix quality with Ok b => Ok b | Err t => Err (Failed t) end.

(** [encodeJPEG(scene(w, h, seed), quality)]. *)
Definition painted `{JpegEncoder} (w h seed quality : Z) : result Fault string :=
  let? pix := scene w h seed in encodeJPEG w h pix quality.

(** compress/zlib: the writer at a level, and the reader. *)
Class Zlib := {
  deflate : Z -> string -> result string string;
  inflate : string -> result string string }.

(** image/png: the encoder at the best compression, the alpha of each pixel of
    a decoded picture (16 bits), and the declared size. *)
Class PngCodec := {
  png_encode : Z -> Z -> list Z -> result string string;
  png_alpha : string -> result string (list Z);
  png_config : string -> result string (Z * Z) }.

(** An animation as image/gif has it: palette, width, height, the frames as
    palette indices with their delays, the loop count. *)
Record Gif := mkGif {
  gif_palette : list (Z * Z * Z); gif_w : Z; gif_h : Z;
  gif_frames : list (list Z); gif_delays : list Z; gif_loop : Z }.

(** image/gif: [EncodeAll], [DecodeAll] and [Decode]. *)
Class GifCodec := {
  gif_encode_all : Gif -> result string string;
  gif_decode_all : string -> result string Gif;
  gif_encode_one : Gif -> result string string;
  gif_decode_one : string -> option string }.

(** [fixtures.Version]: a change of the generator that changes a byte of any
    fixture raises it. *)
Definition Version : string := "1".
