(* ===== verification/Files.v ===== *)
(** * Paths and files: path/filepath and os as the tools use them

    A path is reduced with [Clean]; the disk is a map from reduced paths to
    nodes, so two names of one file (a link, or a relative and an absolute
    path) are two keys.  The system may refuse any operation ([Os]); an
    operation that is not refused has its effect. *)

From S2P Require Import Prelude Utf8 GoStrings GoFmt GoJson.

(** ** path/filepath on Unix *)

(** The elements of a path after [.], [..] and empty ones are resolved; [acc]
    has the kept ones, last first. *)
Fixpoint clean_elems (rooted : bool) (acc : list string) (es : list string) : list string :=
  match es with
  | [] => rev acc
  | e :: es =>
      if (e =s "") || (e =s ".") then clean_elems rooted acc es
      else if e =s ".." then
        match acc with
        | [] => clean_elems rooted (if rooted then [] else [".."%string]) es
        | a :: acc' => if a =s ".." then clean_elems rooted (".."%string :: acc) es
                       else clean_elems rooted acc' es
        end
      else clean_elems rooted (e :: acc) es
  end.

Definition is_rooted (p : string) : bool := HasPrefix p "/".

Definition Clean (p : string) : string :=
  let body := Join (clean_elems (is_rooted p) [] (Split "/" p)) "/" in
  if is_rooted p then "/" +:+ body else if body =s "" then "." else body.

(** [filepath.Join]. *)
Fixpoint JoinPath (es : list string) : string :=
  match es with
  | [] => ""
  | e :: es' => if e =s "" then JoinPath es' else Clean (Join es "/")
  end.

(** [filepath.Dir]. *)
Definition Dir (p : string) : string :=
  match cut_last "/" p with
  | Some (d, _) => Clean (d +:+ "/")
  | None => "."
  end.

Example path_samples :
  Clean "a//b/../c/./" = "a/c"%string /\ Clean "/../x" = "/x"%string /\ Clean "../../x/.." = "../.."%string
  /\ Clean "" = "."%string /\ JoinPath [""; "a"; ""; "b"] = "a/b"%string /\ JoinPath ["/tmp/"; "x"] = "/tmp/x"%string
  /\ Dir "fixtures/manifest.json" = "fixtures"%string /\ Dir "x" = "."%string /\ Dir "/x" = "/"%string.
Proof. repeat split; reflexivity. Qed.

(** ** os *)

Inductive Node :=
| FileNode (bytes : string)
| DirNode.

#[export] Instance Node_eq_dec : EqDecision Node.
Proof. solve_decision. Defined.

Abbreviation Disk := (gmap string Node).

Inductive Op := OpRead | OpWrite | OpMkdir | OpReadDir | OpRemove.

(** What the system answers when it refuses an operation on a path. *)
Class Os := os_refuses : Disk -> Op -> string -> option string.

(** A file error: its text, and whether [os.IsNotExist] holds of it. *)
Record IoError := mkIoError { io_text : string; io_missing : bool }.

(** A system that refuses nothing. *)
Definition no_refusal : Os := fun _ _ _ => None.

Section Os.
Context `{HO : Os}.

Definition ReadFile (d : Disk) (p : string) : result IoError string :=
  match os_refuses d OpRead p with
  | Some t => Err (mkIoError t false)
  | None =>
      match d !! Clean p with
      | Some (FileNode b) => Ok b
      | Some DirNode => Err (mkIoError ("read " +:+ p +:+ ": is a directory") false)
      | None => Err (mkIoError ("open " +:+ p +:+ ": no such file or directory") true)
      end
  end.

(** The mode of the file is left out. *)
Definition WriteFile (d : Disk) (p b : string) : result string Disk :=
  match os_refuses d OpWrite p with
  | Some t => Err t
  | None =>
      match d !! Clean p with
      | Some DirNode => Err ("open " +:+ p +:+ ": is a directory")
      | _ => Ok (<[Clean p := FileNode b]> d)
      end
  end.

(** A path and the paths above it, the nearest first. *)
Fixpoint above_fuel (fuel : nat) (p : string) : list string :=
  match fuel with
  | O => []
  | S fuel => if (p =s ".") || (p =s "/") then [p] else p :: above_fuel fuel (Dir p)
  end.

Definition above (p : string) : list string := above_fuel (S (String.length p)) p.

Definition MkdirAll (d : Disk) (p : string) : result string Disk :=
  match os_refuses d OpMkdir p with
  | Some t => Err t
  | None =>
      if existsb (fun q => match d !! q with Some (FileNode _) => true | _ => false end) (above (Clean p))
      then Err ("mkdir " +:+ p +:+ ": not a directory")
      else Ok (foldr (fun q d => <[q := DirNode]> d) d (above (Clean p)))
  end.

(** What the paths below a directory start with. *)
Definition below (dir : string) : string := if dir =s "/" then "/" else dir +:+ "/".

(** The name of a path directly below a directory. *)
Definition child_name (dir p : string) : option string :=
  if HasPrefix p (below dir) then
    let n := TrimPrefix p (below dir) in
    if (n =s "") || has_byte "/" n then None else Some n
  else None.

(** [os.ReadDir]: the entries sorted by name, each with whether it is a
    directory. *)
Definition ReadDir (d : Disk) (p : string) : result string (list (string * bool)) :=
  match os_refuses d OpReadDir p with
  | Some t => Err t
  | None =>
      match d !! Clean p with
      | Some DirNode =>
          Ok (map (fun n => (n, match d !! JoinPath [Clean p; n] with Some DirNode => true | _ => false end))
                  (Strings (omap (child_name (Clean p)) (map fst (map_to_list d)))))
      | Some (FileNode _) => Err ("readdirent " +:+ p +:+ ": not a directory")
      | None => Err ("open " +:+ p +:+ ": no such file or directory")
      end
  end.

(** [k] is [p] or below it. *)
Definition under (p k : string) : bool := (k =s p) || HasPrefix k (below p).

(** [os.RemoveAll]: a path that is not there is no error. *)
Definition RemoveAll (d : Disk) (p : string) : result string Disk :=
  match os_refuses d OpRemove p with
  | Some t => Err t
  | None => Ok (filter (fun kv => under (Clean p) kv.1 = false) d)
  end.

Lemma ReadFile_WriteFile d p b d' :
  WriteFile d p b = Ok d' -> os_refuses d' OpRead p = None -> ReadFile d' p = Ok b.
Proof.
  unfold WriteFile, ReadFile. intros Hw ->. destruct (os_refuses d OpWrite p); [done|].
  destruct (d !! Clean p) as [[]|]; simplify_eq; by rewrite lookup_insert_eq.
Qed.

Lemma WriteFile_lookup d p b d' q :
  WriteFile d p b = Ok d' -> q <> Clean p -> d' !! q = d !! q.
Proof.
  unfold WriteFile. intros Hw Hq. destruct (os_refuses d OpWrite p); [done|].
  destruct (d !! Clean p) as [[]|]; simplify_eq; by rewrite lookup_insert_ne.
Qed.

Lemma RemoveAll_lookup d p d' q :
  RemoveAll d p = Ok d' -> d' !! q = if under (Clean p) q then None else d !! q.
Proof.
  unfold RemoveAll. destruct (os_refuses d OpRemove p); [done|]. intros; simplify_eq.
  rewrite map_lookup_filter. destruct (d !! q) as [n|]; simpl; [|by case_match].
  destruct (under (Clean p) q) eqn:Hu; case_guard; naive_solver.
Qed.
End Os.
