(* ===== verification/LoadCorpus.v ===== *)
(** * The declared load corpus (src/cmd/loadcorpusgen, src/internal/fixtures/loadcorpus.go)

    The megapixel mix and its integer square root, and the run that writes the
    photographs and the declaration of what it wrote.  The painter is [Raster];
    the JPEG encoder of the standard library is a parameter. *)

From Stdlib Require Import Sorted Permutation.
From S2P Require Import Prelude Utf8 Regex GoStrings Decimals GoTime GoFmt GoJson Sha256 Bytes Raster Codecs Files.

(** ** Machine integers *)

Definition int64 (z : Z) : Z := (z + two63) mod (2 * two63) - two63.

Lemma int64_small z : - two63 <= z < two63 -> int64 z = z.
Proof. unfold int64, two63. intros. rewrite Z.mod_small by lia. lia. Qed.

(** ** isqrt *)

(** [for y < x]; no result when the rounds run out. *)
Fixpoint isqrt_loop (fuel : nat) (n x y : Z) : option Z :=
  match fuel with
  | O => None
  | S fuel => if y <? x then isqrt_loop fuel n y (Z.quot (int64 (y + Z.quot n y)) 2) else Some x
  end.

(** The distance to the root halves, so the binary digits of [n] are rounds
    enough: [isqrt_is_sqrt]. *)
Definition isqrt_run (fuel : nat) (n : Z) : option Z :=
  if n <? 2 then Some n else isqrt_loop fuel n n (Z.quot (int64 (n + 1)) 2).

Definition isqrt_rounds (n : Z) : nat := S (S (Z.to_nat (Z.log2 n))).

Definition isqrt (n : Z) : Z := default 0 (isqrt_run (isqrt_rounds n) n).

(** ** parseMix *)

Record sizeSpec := mkSize { mp : Z; sw : Z; sh : Z }.

#[export] Instance sizeSpec_eq_dec : EqDecision sizeSpec.
Proof. solve_decision. Defined.

(** A 4:3 picture of [m] megapixels, both sides even. *)
Definition size_of (m : Z) : sizeSpec :=
  let w := isqrt (Z.quot (m * 1000000 * 4) 3) in
  let w := w - Z.rem w 2 in
  let h := Z.quot (w * 3) 4 in
  let h := h - Z.rem h 2 in
  mkSize m w h.

Fixpoint insert_size (s : sizeSpec) (l : list sizeSpec) : list sizeSpec :=
  match l with
  | [] => [s]
  | t :: l => if mp s <? mp t then t :: insert_size s l else s :: t :: l
  end.

(** [sort.Slice], the largest first: pictures of one size are equal, so the
    order among them cannot be seen. *)
Definition sort_sizes (l : list sizeSpec) : list sizeSpec := foldr insert_size [] l.

Definition comma : ascii := ascii_of_N 44.

Section Tool.
Context `{HP : Printable}.

Fixpoint parse_parts (parts : list string) : result string (list sizeSpec) :=
  match parts with
  | [] => Ok []
  | part :: parts =>
      let part := TrimSpace part in
      if part =s "" then parse_parts parts
      else match ParseInt part with
           | Some m => if (m <? 1) || (200 <? m) then Err ("bad megapixel value " +:+ Quote part +:+ " in -mix")
                       else let? l := parse_parts parts in Ok (size_of m :: l)
           | None => Err ("bad megapixel value " +:+ Quote part +:+ " in -mix")
           end
  end.

Definition parseMix (s : string) : result string (list sizeSpec) :=
  let? out := parse_parts (Split comma s) in
  match out with
  | [] => Err "-mix is empty"%string
  | _ => Ok (sort_sizes out)
  end.

(** ** run *)

Record CorpusFlags := mkCorpusFlags {
  cf_out : string; cf_count : Z; cf_seed : Z; cf_mix : string; cf_quality : Z; cf_dry : bool }.

Record declaration := mkDeclaration {
  d_seed : Z; d_count : Z; d_quality : Z; d_mix : list Z;
  d_total : Z; d_mean : Z;
  d_counts : gmap string Z; d_bytes : gmap string Z; d_samples : gmap string string }.

Context `{HJ : JpegEncoder, HO : Os}.

(** [runtime.Version()]. *)
Context (goversion : string).

Definition LoadCorpusImage (w h seed quality : Z) : result Fault string := painted w h seed quality.


Definition declaration_note : string :=
  "VZ-OPS-007 declared load corpus. Synthetic; not committed; not part of fixtures/manifest.json. Regenerate with the same -count, -seed, -mix and -quality to get the same corpus.".

Definition declaration_json (d : declaration) : Json :=
  JObject [("generator", JString "loadcorpusgen"); ("generator_version", JString Version);
    ("toolchain", JString goversion); ("seed", JInt (d_seed d)); ("count", JInt (d_count d));
    ("quality", JInt (d_quality d)); ("megapixel_mix", JArray (map JInt (d_mix d)));
    ("total_bytes", JInt (d_total d)); ("mean_bytes", JInt (d_mean d));
    ("per_size_counts", json_map JInt (d_counts d)); ("per_size_bytes", json_map JInt (d_bytes d));
    ("sample_sha256", json_map JString (d_samples d)); ("note", JString declaration_note)]%string.

(** [%06d]. *)
Definition pad6 (n : Z) : string :=
  let s := Itoa n in String.concat "" (repeat "0"%string (6 - String.length s)) +:+ s.

Definition image_name (i : Z) (s : sizeSpec) : string :=
  "load-" +:+ pad6 i +:+ "-" +:+ Itoa (mp s) +:+ "mp.jpg".

Definition size_key (s : sizeSpec) : string := Itoa (mp s) +:+ "mp".

(** [m[k] += v]. *)
Definition bump (k : string) (v : Z) (m : gmap string Z) : gmap string Z :=
  <[k := int64 (default 0 (m !! k) + v)]> m.

(** The size of the [i]th file. *)
Definition nth_size (sizes : list sizeSpec) (i : Z) : sizeSpec :=
  nth (Z.to_nat (Z.rem i (Z.of_nat (length sizes)))) sizes (mkSize 0 0 0).

(** What one file adds to the declaration. *)
Definition declare (sizes : list sizeSpec) (i : Z) (b : string) (d : declaration) : declaration :=
  let s := nth_size sizes i in
  let key := size_key s in
  mkDeclaration (d_seed d) (d_count d) (d_quality d) (d_mix d)
    (int64 (d_total d + len b)) (d_mean d)
    (bump key 1 (d_counts d)) (bump key (len b) (d_bytes d))
    (if i <? Z.of_nat (length sizes) then <[image_name i s := hex (Sum256 b)]> (d_samples d) else d_samples d).

(** A run stops with an error, or it panics; the disk is what it left. *)
Fixpoint corpus_loop (f : CorpusFlags) (sizes : list sizeSpec) (n : nat) (i : Z) (d : declaration) (disk : Disk)
    : result Fault declaration * Disk :=
  match n with
  | O => (Ok d, disk)
  | S n =>
      let s := nth_size sizes i in
      let name := image_name i s in
      match LoadCorpusImage (sw s) (sh s) (w64 (cf_seed f + i)) (cf_quality f) with
      | Err (Failed t) => (Err (Failed (name +:+ ": " +:+ t)), disk)
      | Err Panic => (Err Panic, disk)
      | Ok b =>
          let d := declare sizes i b d in
          if cf_dry f then corpus_loop f sizes n (i + 1) d disk
          else match WriteFile disk (JoinPath [cf_out f; name]) b with
               | Err t => (Err (Failed t), disk)
               | Ok disk => corpus_loop f sizes n (i + 1) d disk
               end
      end
  end.

Definition empty_declaration (f : CorpusFlags) (sizes : list sizeSpec) : declaration :=
  mkDeclaration (cf_seed f) (cf_count f) (cf_quality f) (map mp sizes) 0 0 ∅ ∅ ∅.

Definition with_mean (d : declaration) (m : Z) : declaration :=
  mkDeclaration (d_seed d) (d_count d) (d_quality d) (d_mix d) (d_total d) m (d_counts d) (d_bytes d) (d_samples d).

Definition corpus_json (d : declaration) : string := indented 0 (declaration_json d) +:+ newline.

(** [%v] of a slice of integers. *)
Definition int_list (l : list Z) : string := "[" +:+ Join (map Itoa l) " " +:+ "]".

Definition corpus_report (f : CorpusFlags) (d : declaration) (elapsed : Z) : string :=
  "load corpus: " +:+ Itoa (d_count d) +:+ " files, " +:+ Itoa (d_total d) +:+ " bytes total, "
  +:+ Itoa (d_mean d) +:+ " bytes mean, mix " +:+ int_list (d_mix d) +:+ " MP, seed " +:+ Itoa (d_seed d)
  +:+ ", " +:+ DurationString (Round elapsed Millisecond) +:+ newline
  +:+ (if cf_dry f then "(-dry-run: no image files were written; corpus.json describes what would be)" +:+ newline else "")
  +:+ "declaration: " +:+ JoinPath [cf_out f; "corpus.json"%string] +:+ newline.

(** [run] after the flags: what it printed or why it failed, and the disk. *)
Definition run_corpus (f : CorpusFlags) (elapsed : Z) (disk : Disk) : result Fault string * Disk :=
  if cf_out f =s "" then (Err (Failed "-out is required"), disk)
  else if cf_count f <? 1 then (Err (Failed "-count must be at least 1"), disk)
  else match parseMix (cf_mix f) with
  | Err t => (Err (Failed t), disk)
  | Ok sizes =>
      match MkdirAll disk (cf_out f) with
      | Err t => (Err (Failed t), disk)
      | Ok disk =>
          match corpus_loop f sizes (Z.to_nat (cf_count f)) 0 (empty_declaration f sizes) disk with
          | (Err e, disk) => (Err e, disk)
          | (Ok d, disk) =>
              let d := with_mean d (Z.quot (d_total d) (cf_count f)) in
              match WriteFile disk (JoinPath [cf_out f; "corpus.json"%string]) (corpus_json d) with
              | Err t => (Err (Failed t), disk)
              | Ok disk => (Ok (corpus_report f d elapsed), disk)
              end
          end
      end
  end.

(** ** Flags and exit codes *)

Definition corpus_formals : list Formal :=
  [("out", FlagString ""); ("count", FlagInt 10000); ("seed", FlagUint64 1);
   ("mix", FlagString "12,8,4"); ("quality", FlagInt 85); ("dry-run", FlagBool false)]%string.

(** The values after parsing; each flag keeps the kind of its default. *)
Definition corpus_flags (fs : list Formal) : CorpusFlags :=
  let str n := match map_get n fs with Some (FlagString s) => s | _ => ""%string end in
  let num n := match map_get n fs with Some (FlagInt z) => z | Some (FlagUint64 z) => z | _ => 0 end in
  mkCorpusFlags (str "out") (num "count") (num "seed") (str "mix") (num "quality")
    (match map_get "dry-run" fs with Some (FlagBool b) => b | _ => false end)%string.

Definition flag_usage (head what : string) : string :=
  "  -" +:+ head +:+ newline +:+ "    " +:+ String (ascii_of_N 9) what +:+ newline.

Definition corpus_usage (arg0 : string) : string :=
  "Usage of " +:+ arg0 +:+ ":" +:+ newline
  +:+ flag_usage "count int" "number of photographs to generate (ADR-009 declares 10,000) (default 10000)"
  +:+ flag_usage "dry-run" "report what would be produced without writing image files"
  +:+ flag_usage "mix string" ("megapixel mix, comma separated; files are round-robined over it (default " +:+ Quote "12,8,4" +:+ ")")
  +:+ flag_usage "out string" "output directory (required)"
  +:+ flag_usage "quality int" "JPEG quality (default 85)"
  +:+ flag_usage "seed uint" "PRNG seed; the same seed produces the same corpus (default 1)".

(** The process: exit code, standard output, standard error, disk.  The global
    flag set exits with 2 on an error and with 0 on [-h]; a panic exits with 2
    and its trace is left out. *)
Definition corpus_main (arg0 : string) (args : list string) (elapsed : Z) (disk : Disk)
    : Z * string * string * Disk :=
  match Parse_flags args corpus_formals with
  | Err ErrHelp => (0, ""%string, corpus_usage arg0, disk)
  | Err e => (2, ""%string, FlagError_line e +:+ corpus_usage arg0, disk)
  | Ok (_, fs) =>
      match run_corpus (corpus_flags fs) elapsed disk with
      | (Ok out, disk) => (0, out, ""%string, disk)
      | (Err (Failed t), disk) => (1, ""%string, "loadcorpusgen: " +:+ t +:+ newline, disk)
      | (Err Panic, disk) => (2, ""%string, ""%string, disk)
      end
  end.
End Tool.

(** ** The square root *)

Section Newton.
Context (n : Z) (Hn : 0 < n) (Hmax : n < two63 - 1).

Let s := Z.sqrt n.

Let Hs : s * s <= n < (s + 1) * (s + 1).
Proof. pose proof (Z.sqrt_spec n ltac:(lia)) as H. cbv zeta in H. by rewrite <- Z.add_1_r in H. Qed.

Let Hs0 : 1 <= s.
Proof.
  pose proof (Z.sqrt_nonneg n) as H. pose proof Hs as Hb. unfold s in *.
  destruct (Z.eq_dec (Z.sqrt n) 0) as [E|]; [rewrite E in Hb; lia|lia].
Qed.

Lemma newton_sum x : 1 <= x <= n -> 0 <= x + n / x <= n + 1.
Proof.
  intros Hx. pose proof (Z.div_mod n x ltac:(lia)). pose proof (Z.mod_pos_bound n x ltac:(lia)).
  assert (1 <= n / x) by (apply Z.div_le_lower_bound; lia). nia.
Qed.

Lemma newton_step x : 1 <= x <= n -> Z.quot (int64 (x + Z.quot n x)) 2 = (x + n / x) / 2.
Proof.
  intros Hx. rewrite (Z.quot_div_nonneg n x) by lia. pose proof (newton_sum x Hx).
  rewrite int64_small by (unfold two63 in *; lia). apply Z.quot_div_nonneg; lia.
Qed.

(** The next value never falls below the root, *)
Lemma newton_above x : 1 <= x <= n -> s <= (x + n / x) / 2.
Proof.
  intros Hx. apply Z.div_le_lower_bound; [lia|]. pose proof (Z.div_mod n x ltac:(lia)).
  pose proof (Z.mod_pos_bound n x ltac:(lia)). set (q := n / x) in *.
  destruct (Z_le_gt_dec (2 * s) (x + q)) as [|Hlt]; [done|].
  assert (x * (q + 1) <= x * (2 * s - x)) by (apply Z.mul_le_mono_nonneg_l; lia).
  assert (x * (2 * s - x) = s * s - (x - s) * (x - s)) by ring.
  assert (0 <= (x - s) * (x - s)) by apply Z.square_nonneg. lia.
Qed.

(** and halves the distance to it. *)
Lemma newton_halves x : s < x <= n -> (x + n / x) / 2 - s <= (x - s) / 2.
Proof.
  intros Hx. assert (n / x <= s).
  { apply Z.lt_succ_r, Z.div_lt_upper_bound; [lia|]. nia. }
  replace (x - s) with (x + s + (- s) * 2) by lia. rewrite Z.div_add by lia.
  assert ((x + n / x) / 2 <= (x + s) / 2) by (apply Z.div_le_mono; lia). lia.
Qed.

Lemma isqrt_loop_enough k : forall x,
  s <= x <= n -> x - s < 2 ^ Z.of_nat k -> isqrt_loop (S k) n x ((x + n / x) / 2) = Some s.
Proof.
  assert (Hend : forall x, x = s -> ((x + n / x) / 2 <? x) = false).
  { intros x ->. apply Z.ltb_ge. apply newton_above. nia. }
  induction k as [|k IH]; intros x Hx Hk.
  - assert (x = s) as -> by (simpl in Hk; lia). cbn [isqrt_loop]. by rewrite Hend.
  - rewrite Nat2Z.inj_succ, Z.pow_succ_r in Hk by lia. remember (S k) as k'. cbn [isqrt_loop]. subst k'.
    destruct (Z.eq_dec x s) as [->|Hne]; [by rewrite Hend|].
    pose proof (newton_halves x ltac:(lia)) as Hh. pose proof (newton_above x ltac:(lia)) as Ha.
    assert (Hd : (x - s) / 2 < x - s) by (apply Z.div_lt; lia).
    rewrite (proj2 (Z.ltb_lt _ _)) by lia. rewrite newton_step by lia. apply IH; [lia|].
    assert ((x - s) / 2 < 2 ^ Z.of_nat k) by (apply Z.div_lt_upper_bound; lia). lia.
Qed.
End Newton.

(** C37. The loop ends within its rounds, and with the integer square root, for
    every machine integer but the largest, whose successor wraps. *)
Theorem isqrt_is_sqrt n :
  0 <= n < two63 - 1 -> isqrt_run (isqrt_rounds n) n = Some (Z.sqrt n) /\ isqrt n = Z.sqrt n.
Proof.
  intros Hn. assert (H : isqrt_run (isqrt_rounds n) n = Some (Z.sqrt n)); [|unfold isqrt; by rewrite H].
  unfold isqrt_run. destruct (Z.ltb_spec n 2) as [Hlt|Hge].
  { assert (n = 0 \/ n = 1) as [-> | ->] by lia; reflexivity. }
  rewrite int64_small, Z.quot_div_nonneg by (unfold two63 in *; lia).
  replace (n + 1) with (n + n / n) by (rewrite Z.div_same; lia).
  unfold isqrt_rounds. apply isqrt_loop_enough; [lia|lia| |].
  - pose proof (Z.sqrt_le_lin n ltac:(lia)). lia.
  - rewrite Nat2Z.inj_succ, Z2Nat.id by apply Z.log2_nonneg.
    pose proof (Z.log2_spec n ltac:(lia)). pose proof (Z.sqrt_nonneg n). lia.
Qed.

Lemma isqrt_is_sqrt_witness :
  isqrt_run (isqrt_rounds 16000000) 16000000 = Some 4000 /\ isqrt 16000000 = 4000.
Proof.
  assert (H : 0 <= 16000000 < two63 - 1) by (unfold two63; lia).
  destruct (isqrt_is_sqrt 16000000 H) as [H1 H2]. split; [rewrite H1|rewrite H2]; reflexivity.
Defined.

(** The largest machine integer: the successor wraps and the first round
    returns a negative number. *)
Example isqrt_wraps : isqrt_run 3 (two63 - 1) <> Some (Z.sqrt (two63 - 1)).
Proof. vm_compute. discriminate. Qed.

(** ** The mix *)

(** What the comment of [parseMix] promises of a size: even sides in the
    proportion 4:3, and a pixel count just under the megapixels. *)
Definition size_ok (s : sizeSpec) : bool :=
  (1 <=? mp s) && (mp s <=? 200) && (0 <? sw s) && (0 <? sh s) && Z.even (sw s) && Z.even (sh s)
  && (4 * sh s <=? 3 * sw s) && (3 * sw s <? 4 * sh s + 8)
  && (sw s * sh s <=? mp s * 1000000) && (mp s * 997000 <=? sw s * sh s).

Lemma size_of_ok m : 1 <= m <= 200 -> size_ok (size_of m) = true /\ mp (size_of m) = m.
Proof.
  intros Hm. split; [|done].
  assert (H : forallb (fun k => size_ok (size_of (Z.of_nat k))) (seq 1 200) = true) by (vm_compute; reflexivity).
  rewrite forallb_forall in H. replace m with (Z.of_nat (Z.to_nat m)) by lia.
  apply H, in_seq. lia.
Qed.

Definition larger (a b : sizeSpec) : Prop := mp b <= mp a.

Lemma insert_size_perm s l : insert_size s l ≡ₚ s :: l.
Proof.
  induction l as [|t l IH]; simpl; [done|]. destruct (_ <? _); [|done]. rewrite IH. constructor.
Qed.

Lemma sort_sizes_perm l : sort_sizes l ≡ₚ l.
Proof. induction l as [|s l IH]; simpl; [done|]. by rewrite insert_size_perm, IH. Qed.

Lemma insert_size_sorted s l : StronglySorted larger l -> StronglySorted larger (insert_size s l).
Proof.
  induction l as [|t l IH]; intros H; simpl; [repeat constructor|].
  apply StronglySorted_inv in H as [Hl Ht]. destruct (Z.ltb_spec (mp s) (mp t)) as [Hlt|Hge].
  - constructor; [by apply IH|]. rewrite insert_size_perm. constructor; [unfold larger; lia|done].
  - constructor; [by constructor|]. constructor; [done|]. eapply Forall_impl; [exact Ht|].
    unfold larger. intros; simpl in *; lia.
Qed.

Section Run.
Context `{HP : Printable, HJ : JpegEncoder, HO : Os} (goversion : string).

Lemma parse_parts_ok parts : forall l,
  parse_parts parts = Ok l -> Forall (fun s => size_ok s = true) l
  /\ map mp l = omap (fun p => ParseInt (TrimSpace p)) (List.filter (fun p => TrimSpace p <>s "") parts).
Proof.
  induction parts as [|p parts IH]; intros l Hl; simpl in Hl; [by simplify_eq|].
  cbn [List.filter]. destruct (TrimSpace p =s "") eqn:Hb; [by apply IH|]. cbn [negb omap list_omap].
  destruct (ParseInt (TrimSpace p)) as [m|] eqn:Hp; [|done].
  destruct ((m <? 1) || (200 <? m)) eqn:Hr; [done|]. apply orb_false_iff in Hr as [H1 H2].
  destruct (parse_parts parts) as [l'|]; [|done]. simplify_eq. destruct (IH l' eq_refl) as [Hf Hm].
  destruct (size_of_ok m) as [Hok Hmp]; [lia|]. split; [by constructor|]. cbn [map]. by rewrite Hmp, Hm.
Qed.

(** An accepted mix is the sizes of the megapixel values in the flag, the
    largest first, each a picture of what it says. *)
Lemma parseMix_ok s l :
  parseMix s = Ok l ->
  l <> [] /\ Forall (fun z => size_ok z = true) l /\ StronglySorted larger l
  /\ map mp l ≡ₚ omap (fun p => ParseInt (TrimSpace p)) (List.filter (fun p => TrimSpace p <>s "") (Split comma s)).
Proof.
  unfold parseMix. destruct (parse_parts (Split comma s)) as [out|] eqn:Hp; [|done].
  destruct (parse_parts_ok _ _ Hp) as [Hf Hm]. destruct out as [|o out]; [done|]. intros; simplify_eq.
  pose proof (sort_sizes_perm (o :: out)) as Hperm. split; [|split; [|split]].
  - change (sort_sizes (o :: out) <> []). intros Hn. rewrite Hn in Hperm. by apply Permutation_nil_cons in Hperm.
  - change (Forall (fun z => size_ok z = true) (sort_sizes (o :: out))). by rewrite Hperm.
  - change (StronglySorted larger (sort_sizes (o :: out))).
    clear. induction (o :: out) as [|x l IH]; [constructor|by apply insert_size_sorted].
  - rewrite <- Hm. change (map mp (sort_sizes (o :: out)) ≡ₚ map mp (o :: out)). by rewrite Hperm.
Qed.

(** ** What a run declares *)

(** The [i]th photograph. *)
Definition corpus_image (f : CorpusFlags) (sizes : list sizeSpec) (i : Z) : result Fault string :=
  let s := nth_size sizes i in LoadCorpusImage (sw s) (sh s) (w64 (cf_seed f + i)) (cf_quality f).

Fixpoint total_len (l : list string) : Z := match l with [] => 0 | b :: l => len b + total_len l end.

Lemma total_len_nonneg l : 0 <= total_len l.
Proof. induction l as [|b l IH]; simpl; [done|]. pose proof (len_nonneg b). lia. Qed.

(** The declaration of the photographs from the [i]th on. *)
Fixpoint declare_all (sizes : list sizeSpec) (i : Z) (imgs : list string) (d : declaration) : declaration :=
  match imgs with [] => d | b :: imgs => declare_all sizes (i + 1) imgs (declare sizes i b d) end.

Definition declared (f : CorpusFlags) (sizes : list sizeSpec) (imgs : list string) : declaration :=
  with_mean (declare_all sizes 0 imgs (empty_declaration f sizes)) (total_len imgs / cf_count f).

(** The photographs to be written, with their paths; none in a dry run. *)
Fixpoint planned (f : CorpusFlags) (sizes : list sizeSpec) (i : Z) (imgs : list string) : list (string * string) :=
  match imgs with
  | [] => []
  | b :: imgs => (JoinPath [cf_out f; image_name i (nth_size sizes i)], b) :: planned f sizes (i + 1) imgs
  end.

Fixpoint write_all (disk : Disk) (ws : list (string * string)) : result string Disk :=
  match ws with
  | [] => Ok disk
  | (p, b) :: ws => let? disk := WriteFile disk p b in write_all disk ws
  end.

Lemma write_all_app disk ws ws' :
  write_all disk (ws ++ ws') = let? disk := write_all disk ws in write_all disk ws'.
Proof. revert disk. induction ws as [|[p b] ws IH]; intros disk; simpl; [done|]. destruct (WriteFile disk p b); auto. Qed.

Lemma corpus_loop_ok f sizes imgs : forall i d disk disk',
  (forall j b, imgs !! j = Some b -> corpus_image f sizes (i + Z.of_nat j) = Ok b) ->
  write_all disk (if cf_dry f then [] else planned f sizes i imgs) = Ok disk' ->
  corpus_loop f sizes (length imgs) i d disk = (Ok (declare_all sizes i imgs d), disk').
Proof.
  induction imgs as [|b imgs IH]; intros i d disk disk' Hi Hw; [by destruct (cf_dry f); injection Hw as <-|].
  cbn [length corpus_loop declare_all]. pose proof (Hi 0%nat b eq_refl) as H0. rewrite Z.add_0_r in H0.
  unfold corpus_image in H0. rewrite H0.
  assert (Hi' : forall j c, imgs !! j = Some c -> corpus_image f sizes (i + 1 + Z.of_nat j) = Ok c).
  { intros j c Hj. replace (i + 1 + Z.of_nat j) with (i + Z.of_nat (S j)) by lia. by apply Hi. }
  destruct (cf_dry f) eqn:Hd.
  - simplify_eq. apply IH; [done|]. by rewrite ?Hd.
  - cbn [planned write_all] in Hw. destruct (WriteFile disk _ b) as [disk1|]; [|done].
    apply IH; [done|]. by rewrite ?Hd.
Qed.

(** The photographs of one size. *)
Fixpoint of_key (sizes : list sizeSpec) (k : string) (i : Z) (imgs : list string) : list string :=
  match imgs with
  | [] => []
  | b :: imgs => if size_key (nth_size sizes i) =s k then b :: of_key sizes k (i + 1) imgs
                 else of_key sizes k (i + 1) imgs
  end.

Definition get0 (k : string) (m : gmap string Z) : Z := default 0 (m !! k).

Lemma get0_bump k k' v m :
  get0 k (bump k' v m) = if k' =s k then int64 (get0 k m + v) else get0 k m.
Proof.
  unfold get0, bump. destruct (String.eqb_spec k' k) as [->|Hne]; [by rewrite lookup_insert_eq|].
  by rewrite lookup_insert_ne.
Qed.

(** The loop's sums, as long as they fit in 64 bits. *)
Lemma declare_all_sums sizes k imgs : forall i d,
  0 <= d_total d -> 0 <= get0 k (d_counts d) -> 0 <= get0 k (d_bytes d) ->
  d_total d + total_len imgs < two63 -> get0 k (d_counts d) + Z.of_nat (length imgs) < two63 ->
  get0 k (d_bytes d) + total_len imgs < two63 ->
  let d' := declare_all sizes i imgs d in
  d_total d' = d_total d + total_len imgs
  /\ get0 k (d_counts d') = get0 k (d_counts d) + Z.of_nat (length (of_key sizes k i imgs))
  /\ get0 k (d_bytes d') = get0 k (d_bytes d) + total_len (of_key sizes k i imgs).
Proof.
  induction imgs as [|b imgs IH]; intros i d H0 H1 H2 H3 H4 H5; cbn [declare_all total_len of_key length]; [simpl; lia|].
  cbn [total_len length] in H3, H4, H5. pose proof (len_nonneg b). pose proof (total_len_nonneg imgs).
  cbv zeta in *. specialize (IH (i + 1) (declare sizes i b d)). cbn [declare d_total d_counts d_bytes] in IH.
  rewrite !get0_bump, int64_small in IH by (unfold two63 in *; lia).
  destruct (size_key (nth_size sizes i) =s k); cbn [total_len length];
    rewrite ?int64_small in IH by (unfold two63 in *; lia);
    destruct IH as (Ht & Hc & Hb); try lia; rewrite Ht, Hc, Hb; lia.
Qed.

Lemma declare_all_count sizes imgs : forall i d, d_count (declare_all sizes i imgs d) = d_count d.
Proof. induction imgs as [|b imgs IH]; intros i d; [done|]. cbn [declare_all]. by rewrite IH. Qed.

(** A run whose photographs are encoded and written exits well, has written
    exactly them (none in a dry run) and then the declaration, and declares their
    number, total and mean size, and for each size how many there are and how
    many bytes they have.  A dry run declares the same. *)
Theorem corpus_is_declared f elapsed disk disk1 disk2 sizes imgs :
  cf_out f <> ""%string -> 1 <= cf_count f < two63 -> parseMix (cf_mix f) = Ok sizes ->
  length imgs = Z.to_nat (cf_count f) ->
  (forall j b, imgs !! j = Some b -> corpus_image f sizes (Z.of_nat j) = Ok b) ->
  total_len imgs < two63 ->
  MkdirAll disk (cf_out f) = Ok disk1 ->
  let d := declared f sizes imgs in
  write_all disk1 ((if cf_dry f then [] else planned f sizes 0 imgs)
                   ++ [(JoinPath [cf_out f; "corpus.json"%string], corpus_json goversion d)]) = Ok disk2 ->
  run_corpus goversion f elapsed disk = (Ok (corpus_report f d elapsed), disk2)
  /\ d_count d = cf_count f /\ d_total d = total_len imgs /\ d_mean d = total_len imgs / cf_count f
  /\ forall k, get0 k (d_counts d) = Z.of_nat (length (of_key sizes k 0 imgs))
            /\ get0 k (d_bytes d) = total_len (of_key sizes k 0 imgs).
Proof.
  intros Hout Hc Hm Hl Hi Ht Hd d Hw.
  assert (Hsum : forall k, _) by (intros k; apply (declare_all_sums sizes k imgs 0 (empty_declaration f sizes));
    cbn; unfold get0; rewrite ?lookup_empty; cbn; lia).
  cbv zeta in Hsum. cbn [empty_declaration d_total d_counts d_bytes] in Hsum.
  assert (Htot : d_total (declare_all sizes 0 imgs (empty_declaration f sizes)) = total_len imgs)
    by (rewrite (proj1 (Hsum ""%string)); lia).
  split.
  - unfold run_corpus. rewrite (proj2 (String.eqb_neq _ _) Hout), (proj2 (Z.ltb_ge _ _)), Hm, Hd by lia.
    rewrite write_all_app in Hw. destruct (write_all disk1 _) as [disk3|] eqn:Hw1; [|done].
    rewrite <- Hl, (corpus_loop_ok f sizes imgs 0 _ disk1 disk3) by done.
    rewrite Htot, Z.quot_div_nonneg by (pose proof (total_len_nonneg imgs); lia).
    fold (declared f sizes imgs). fold d. cbn [write_all] in Hw. by destruct (WriteFile disk3 _ _); simplify_eq.
  - unfold d, declared. cbn [with_mean d_count d_total d_mean d_counts d_bytes].
    rewrite declare_all_count, Htot. repeat split; try done; destruct (Hsum k) as (_ & Hk1 & Hk2);
      unfold get0 in *; rewrite ?lookup_empty in *; cbn in *; lia.
Qed.
End Run.

(** ** Samples *)

Definition plain_jpeg : JpegEncoder := fun _ _ _ _ => Ok "jpg"%string.

Definition three_files : CorpusFlags := mkCorpusFlags "c" 3 7 "1, 2" 85 false.

Lemma plain_image w h seed q : 0 < w -> 0 < h -> 4 * (w * h) <= maxAlloc -> LoadCorpusImage (HJ := plain_jpeg) w h seed q = Ok "jpg"%string.
Proof. intros Hw Hh Hm. unfold LoadCorpusImage, painted. by destruct (scene_total w h seed Hw Hh Hm) as [pix ->]. Qed.

Lemma corpus_is_declared_witness :
  exists disk2,
  run_corpus (HP := ascii_print) (HJ := plain_jpeg) (HO := no_refusal) "go1.27.1" three_files 0 ∅
  = (Ok (corpus_report three_files (declared three_files [size_of 2; size_of 1] ["jpg"; "jpg"; "jpg"]%string) 0), disk2)
  /\ get0 "2mp" (d_counts (declared three_files [size_of 2; size_of 1] ["jpg"; "jpg"; "jpg"]%string)) = 2.
Proof.
  set (imgs := ["jpg"; "jpg"; "jpg"]%string). set (sizes := [size_of 2; size_of 1]).
  set (ws := planned three_files sizes 0 imgs
         ++ [(JoinPath ["c"; "corpus.json"]%string, corpus_json "go1.27.1" (declared three_files sizes imgs))]).
  assert (Hd : match MkdirAll (HO := no_refusal) ∅ "c" with
               | Ok disk1 => is_ok (write_all (HO := no_refusal) disk1 ws) | Err _ => false end = true)
    by (vm_compute; reflexivity).
  destruct (MkdirAll ∅ "c") as [disk1|] eqn:Hm; [|done].
  destruct (write_all disk1 ws) as [disk2|] eqn:Hw; [|done]. exists disk2.
  destruct (corpus_is_declared (HP := ascii_print) (HJ := plain_jpeg) (HO := no_refusal) "go1.27.1"
    three_files 0 ∅ disk1 disk2 sizes imgs) as (Hr & _ & _ & _ & Hk); [done|unfold two63; cbn; lia| |done| | |done|done|].
  - vm_compute. reflexivity.
  - intros j b Hj. do 3 (destruct j as [|j]; [injection Hj as <-; unfold corpus_image; apply plain_image; vm_compute; (reflexivity || discriminate)|]).
    discriminate Hj.
  - vm_compute. reflexivity.
  - split; [exact Hr|]. rewrite (proj1 (Hk "2mp"%string)). vm_compute. reflexivity.
Defined.

Example corpus_refusals :
  let main args := corpus_main (HP := ascii_print) (HJ := plain_jpeg) (HO := no_refusal) "go1.27.1" "loadcorpusgen" args 0 ∅ in
  (main []).1.1.1 = 1 /\ (main ["-out"; "c"; "-count"; "0"]%string).1.2 = ("loadcorpusgen: -count must be at least 1" +:+ newline)
  /\ (main ["-out"; "c"; "-mix"; " , "]%string).1.2 = ("loadcorpusgen: -mix is empty" +:+ newline)
  /\ (main ["-out"; "c"; "-mix"; "12,201"]%string).1.1.1 = 1
  /\ (main ["-count"; "0x10_000_000_000_000_000"]%string).1.1.1 = 2 /\ (main ["-h"]%string).1.1.1 = 0.
Proof. vm_compute. repeat split. Qed.
