(* ===== verification/TestTmp.v ===== *)
(** * Temporary roots of the test binaries (src/internal/testtmp)

    [Sweep] removes the roots that dead processes left, [Run] gives one test
    binary its own root and removes it.  The state is the disk and the
    environment; which processes live is what kill(pid, 0) answers. *)

From S2P Require Import Prelude Utf8 Regex GoStrings Decimals GoFmt GoJson Files.

(** ** alive *)

Inductive SignalResult := SignalOK | ESRCH | EPERM | SignalError.

(** syscall.Kill(pid, 0). *)
Class Kernel := kill0 : Z -> SignalResult.

Definition alive `{Kernel} (pid : Z) : bool :=
  match kill0 pid with ESRCH => false | _ => true end.

Definition Prefix : string := "vizra-test-".

Section Sweep.
Context `{HO : Os, HK : Kernel}.

(** ** Sweep *)

(** The process a directory entry is the root of, if its name says so. *)
Definition root_pid (name : string) (e : string * bool) : option Z :=
  let stem := Prefix +:+ name +:+ "-" in
  if negb e.2 || negb (HasPrefix e.1 stem) then None
  else match Cut "-" (TrimPrefix e.1 stem) with
       | None => None
       | Some (pidText, _) => ParseInt pidText
       end.

(** Whether the loop goes on to remove the entry. *)
Definition abandoned (name : string) (e : string * bool) : bool :=
  match root_pid name e with
  | Some pid => (0 <? pid) && negb (alive pid)
  | None => false
  end.

Fixpoint sweep_entries (parent name : string) (es : list (string * bool)) (disk : Disk) : list string * Disk :=
  match es with
  | [] => ([], disk)
  | e :: es =>
      if abandoned name e then
        let p := JoinPath [parent; e.1] in
        match RemoveAll disk p with
        | Ok disk => let '(removed, disk) := sweep_entries parent name es disk in (p :: removed, disk)
        | Err _ => sweep_entries parent name es disk
        end
      else sweep_entries parent name es disk
  end.

Definition Sweep (parent name : string) (disk : Disk) : list string * Disk :=
  match ReadDir disk parent with
  | Err _ => ([], disk)
  | Ok entries => sweep_entries parent name entries disk
  end.

(** ** Run *)

Abbreviation Env := (gmap string string).

Definition TempDir (env : Env) : string :=
  match env !! "TMPDIR"%string with Some d => if d =s "" then "/tmp" else d | None => "/tmp" end.

(** os.MkdirTemp: the first of the random endings that names nothing yet. *)
Fixpoint MkdirTemp (parent pattern : string) (endings : list string) (disk : Disk) : result string (string * Disk) :=
  match endings with
  | [] => Err ("mkdirtemp " +:+ parent +:+ ": file exists")
  | r :: endings =>
      let p := JoinPath [parent; pattern +:+ r] in
      match os_refuses disk OpMkdir p with
      | Some t => Err t
      | None => match disk !! Clean p with
                | Some _ => MkdirTemp parent pattern endings disk
                | None => Ok (p, <[Clean p := DirNode]> disk)
                end
      end
  end.

(** What [Run] meets: its process id, the endings MkdirTemp draws, what setenv
    answers, and the tests. *)
Record Binary := mkBinary {
  b_pid : Z;
  b_endings : list string;
  b_setenv : option string;
  b_tests : Env -> Disk -> Z * Env * Disk }.

(** The exit code, the environment, the disk, and what was printed to standard
    error. *)
Record RunResult := mkRunResult { rr_code : Z; rr_env : Env; rr_disk : Disk; rr_err : string }.

Definition Run (m : Binary) (name : string) (env : Env) (disk : Disk) : RunResult :=
  let parent := TempDir env in
  let disk := (Sweep parent name disk).2 in
  match MkdirTemp parent (Prefix +:+ name +:+ "-" +:+ Itoa (b_pid m) +:+ "-") (b_endings m) disk with
  | Err t => mkRunResult 1 env disk
      ("testtmp: cannot create the temporary root for " +:+ name +:+ ": " +:+ t +:+ newline)
  | Ok (root, disk) =>
      match b_setenv m with
      | Some t =>
          mkRunResult 1 env (match RemoveAll disk root with Ok disk => disk | Err _ => disk end)
            ("testtmp: cannot point TMPDIR at " +:+ root +:+ ": " +:+ t +:+ newline)
      | None =>
          let '(code, env', disk) := b_tests m (<["TMPDIR"%string := root]> env) disk in
          let env' := match env !! "TMPDIR"%string with
                      | Some prev => <["TMPDIR"%string := prev]> env'
                      | None => delete "TMPDIR"%string env'
                      end in
          match RemoveAll disk root with
          | Ok disk => mkRunResult code env' disk ""
          | Err t => mkRunResult (if code =? 0 then 1 else code) env' disk
              ("testtmp: could not remove " +:+ root +:+ ": " +:+ t +:+ newline)
          end
      end
  end.

(** ** child.go *)

Definition ChildEnv (tmp : string) (environ : list string) : list string :=
  ("TMPDIR=" +:+ tmp) :: List.filter (fun kv => negb (HasPrefix kv "TMPDIR=")) environ.

(** The elements of a path, compared one by one: the order filepath.WalkDir
    visits, a directory before what it holds. *)
Fixpoint path_before (a b : list string) : bool :=
  match a, b with
  | [], _ => true
  | _, [] => false
  | x :: a, y :: b => if x =s y then path_before a b else String.leb x y
  end.

Fixpoint insert_path (p : string) (l : list string) : list string :=
  match l with
  | [] => [p]
  | q :: l => if path_before (Split "/" p) (Split "/" q) then p :: q :: l else q :: insert_path p l
  end.

Definition Base (p : string) : string := match cut_last "/" p with Some (_, b) => b | None => p end.

(** The first entry under [root], in the order of the walk, whose name starts
    with the marker; empty when there is none. *)
Definition find (disk : Disk) (root marker : string) : string :=
  let below := List.filter (under root) (map fst (map_to_list disk)) in
  match List.find (fun p => negb (p =s root) && HasPrefix (Base p) marker) (foldr insert_path [] below) with
  | Some p => p
  | None => ""
  end.

(** The entries a test binary left, or the error the test stops with. *)
Definition VizraEntries (disk : Disk) (dir : string) : result string (list string) :=
  let? entries := ReadDir disk dir in
  Ok (Strings (List.filter (fun n => HasPrefix n "vizra-") (map fst entries))).

(** ** What a sweep may remove *)

(** A root that a dead process left: its name is the stem, a process id that
    does not exist, and an ending. *)
Definition dead_root (name : string) (e : string * bool) : Prop :=
  e.2 = true /\ exists pidText rest pid,
    e.1 = Prefix +:+ name +:+ "-" +:+ pidText +:+ "-" +:+ rest
    /\ ParseInt pidText = Some pid /\ 0 < pid /\ kill0 pid = ESRCH.

Lemma HasPrefix_split s p : HasPrefix s p = true -> s = p +:+ sdrop (String.length p) s.
Proof.
  revert s. induction p as [|c p IH]; intros s H; [by destruct s|]. destruct s as [|d s]; [done|].
  cbn [HasPrefix] in H. apply andb_true_iff in H as [Hc%Ascii.eqb_eq H]. subst d.
  autorewrite with str. cbn [String.length sdrop]. by rewrite <- (IH s H).
Qed.

Lemma abandoned_dead name e : abandoned name e = true -> dead_root name e.
Proof.
  unfold abandoned, root_pid, alive. destruct e as [n dir]. cbn [fst snd].
  destruct (negb dir || negb (HasPrefix n _)) eqn:Hg; [done|]. apply orb_false_iff in Hg as [Hd Hp].
  apply negb_false_iff in Hd, Hp. unfold TrimPrefix. rewrite Hp.
  destruct (Cut "-" _) as [[pidText rest]|] eqn:Hc; [|done]. destruct (ParseInt pidText) as [pid|] eqn:Hpid; [|done].
  intros [Hpos Ha]%andb_true_iff. split; [done|]. exists pidText, rest, pid. cbn [fst].
  apply Cut_inv in Hc as [Hs _]. apply HasPrefix_split in Hp. rewrite Hp, Hs. rewrite !sapp_assoc.
  split; [done|]. split; [done|]. split; [lia|]. by destruct (kill0 pid).
Qed.

Definition gone (parent : string) (e : string * bool) (q : string) : bool := under (Clean (JoinPath [parent; e.1])) q.

Lemma sweep_entries_spec parent name es : forall disk removed disk',
  sweep_entries parent name es disk = (removed, disk') ->
  (forall q, disk' !! q = disk !! q
     \/ disk' !! q = None /\ exists e, List.In e es /\ abandoned name e = true /\ gone parent e q = true
                                  /\ List.In (JoinPath [parent; e.1]) removed)
  /\ ((forall d p, os_refuses d OpRemove p = None) ->
      forall e q, List.In e es -> abandoned name e = true -> gone parent e q = true -> disk' !! q = None).
Proof.
  induction es as [|e es IH]; intros disk removed disk' H; cbn [sweep_entries] in H; [simplify_eq; split; [by left|done]|].
  destruct (abandoned name e) eqn:Ha.
  2: { destruct (IH _ _ _ H) as [H1 H2]. split.
       - intros q. destruct (H1 q) as [?|(? & e' & ? & ?)]; [by left|right]. split; [done|]. exists e'. simpl. tauto.
       - intros Ho e' q [<-|Hin]; [congruence|by apply H2]. }
  destruct (RemoveAll disk _) as [disk1|t] eqn:Hr.
  2: { destruct (IH _ _ _ H) as [H1 H2]. split.
       - intros q. destruct (H1 q) as [?|(? & e' & ? & ?)]; [by left|right]. split; [done|]. exists e'. simpl. tauto.
       - intros Ho. unfold RemoveAll in Hr. by rewrite Ho in Hr. }
  destruct (sweep_entries parent name es disk1) as [rs disk2] eqn:Hs. simplify_eq.
  destruct (IH _ _ _ Hs) as [H1 H2]. split.
  - intros q. pose proof (RemoveAll_lookup _ _ _ q Hr) as Hq. destruct (H1 q) as [Heq|(Hn & e' & ? & ? & ? & ?)].
    + rewrite Heq, Hq. destruct (under _ q) eqn:Hu; [right|by left]. split; [done|]. exists e. simpl. tauto.
    + right. split; [done|]. exists e'. simpl. tauto.
  - intros Ho e' q [<-|Hin] Hab Hg; [|by apply (H2 Ho e' q)].
    pose proof (RemoveAll_lookup _ _ _ q Hr) as Hq. unfold gone in Hg. rewrite Hg in Hq.
    destruct (H1 q) as [->|[? _]]; done.
Qed.

(** A sweep removes nothing but what is under a root whose name carries the
    package and a process id that no longer exists; a root of a living process,
    another user's included, is never touched.  When the system refuses no
    removal every such root is gone. *)
Theorem sweep_spares_the_living parent name disk removed disk' :
  Sweep parent name disk = (removed, disk') ->
  (forall q, disk' !! q <> disk !! q ->
     disk' !! q = None /\ exists entries e, ReadDir disk parent = Ok entries /\ List.In e entries
       /\ dead_root name e /\ under (Clean (JoinPath [parent; e.1])) q = true
       /\ List.In (JoinPath [parent; e.1]) removed)
  /\ ((forall d p, os_refuses d OpRemove p = None) ->
      forall entries e q, ReadDir disk parent = Ok entries -> List.In e entries -> abandoned name e = true ->
        under (Clean (JoinPath [parent; e.1])) q = true -> disk' !! q = None).
Proof.
  unfold Sweep. destruct (ReadDir disk parent) as [entries|] eqn:Hr; intros H; [|simplify_eq; by split].
  destruct (sweep_entries_spec _ _ _ _ _ _ H) as [H1 H2]. split.
  - intros q Hq. destruct (H1 q) as [?|(Hn & e & Hin & Hab & Hg & Hrm)]; [done|]. split; [done|].
    exists entries, e. split; [done|]. split; [done|]. split; [by apply abandoned_dead|]. by split.
  - intros Ho es e q Hes. simplify_eq. by apply H2.
Qed.

Lemma MkdirTemp_fresh parent pattern endings disk root disk' :
  MkdirTemp parent pattern endings disk = Ok (root, disk') ->
  disk !! Clean root = None /\ disk' = <[Clean root := DirNode]> disk.
Proof.
  induction endings as [|e es IH]; [done|]. cbn [MkdirTemp].
  destruct (os_refuses _ _ _); [done|]. destruct (disk !! Clean (JoinPath _)) eqn:Hs; [exact IH|]. intros; by simplify_eq.
Qed.

(** A binary that exits with 0 ran its tests well in a root that named nothing
    before, left nothing under that root, and put TMPDIR back. *)
Theorem clean_exit_leaves_nothing m name env disk :
  rr_code (Run m name env disk) = 0 ->
  let r := Run m name env disk in
  let swept := (Sweep (TempDir env) name disk).2 in
  exists root env' disk',
    b_tests m (<["TMPDIR"%string := root]> env) (<[Clean root := DirNode]> swept) = (0, env', disk')
    /\ swept !! Clean root = None
    /\ (forall q, rr_disk r !! q = if under (Clean root) q then None else disk' !! q)
    /\ rr_env r !! "TMPDIR"%string = env !! "TMPDIR"%string /\ rr_err r = ""%string.
Proof.
  intros H r swept. unfold r, Run in *. fold swept in H |- *.
  destruct (MkdirTemp _ _ _ swept) as [[root disk1]|] eqn:Hm; [|done]. destruct (b_setenv m); [done|].
  apply MkdirTemp_fresh in Hm as [Hnew ->]. destruct (b_tests m _ _) as [[code env'] disk2] eqn:Ht.
  destruct (RemoveAll disk2 root) as [disk3|] eqn:Hr; cbn [rr_code rr_disk rr_env rr_err] in *;
    [|by destruct (Z.eqb_spec code 0)].
  subst code. exists root, env', disk2. split; [done|]. split; [done|].
  split; [intros q; by rewrite (RemoveAll_lookup _ _ _ q Hr)|]. split; [|done].
  destruct (env !! _) as [prev|] eqn:Hp; [by rewrite lookup_insert_eq|by rewrite lookup_delete_eq].
Qed.

(** A child sees one TMPDIR, the one it was given, and the rest of the
    environment. *)
Lemma ChildEnv_one tmp environ :
  List.filter (fun kv => HasPrefix kv "TMPDIR=") (ChildEnv tmp environ) = ["TMPDIR=" +:+ tmp]
  /\ (forall kv, HasPrefix kv "TMPDIR=" = false -> (List.In kv (ChildEnv tmp environ) <-> List.In kv environ)).
Proof.
  assert (Hp : HasPrefix ("TMPDIR=" +:+ tmp) "TMPDIR=" = true) by (autorewrite with str; by destruct tmp).
  unfold ChildEnv. split.
  - cbn [List.filter]. rewrite Hp. f_equal. induction environ as [|kv l IH]; [done|]. cbn [List.filter].
    destruct (HasPrefix kv "TMPDIR=") eqn:Hk; cbn [negb List.filter]; [done|]. by rewrite Hk.
  - intros kv Hk. simpl. rewrite filter_In, Hk. split; [|tauto]. intros [<-|[? _]]; [congruence|done].
Qed.
End Sweep.

(** ** Samples *)

(** Processes 1 and 77 live, 77 is another user's. *)
Definition two_live : Kernel := fun pid => if pid =? 1 then SignalOK else if pid =? 77 then EPERM else ESRCH.

Definition leftovers : Disk :=
  list_to_map [("/tmp", DirNode); ("/tmp/vizra-test-jobs-42-a", DirNode);
    ("/tmp/vizra-test-jobs-42-a/bin", FileNode "x"); ("/tmp/vizra-test-jobs-77-b", DirNode);
    ("/tmp/vizra-test-jobs-77-b/corpus", FileNode "y"); ("/tmp/vizra-test-jobs-43-c", FileNode "z");
    ("/tmp/other", FileNode "w")]%string.

Lemma sweep_spares_the_living_witness :
  let '(removed, disk') := Sweep (HO := no_refusal) (HK := two_live) "/tmp" "jobs" leftovers in
  removed = ["/tmp/vizra-test-jobs-42-a"%string]
  /\ disk' !! "/tmp/vizra-test-jobs-42-a/bin"%string = None
  /\ disk' !! "/tmp/vizra-test-jobs-77-b/corpus"%string = Some (FileNode "y").
Proof.
  destruct (Sweep (HO := no_refusal) (HK := two_live) "/tmp" "jobs" leftovers) as [removed disk'] eqn:Hs.
  destruct (sweep_spares_the_living (HO := no_refusal) (HK := two_live) _ _ _ _ _ Hs) as [_ Hgone].
  split; [|split].
  - change removed with (removed, disk').1. rewrite <- Hs. vm_compute. reflexivity.
  - apply (Hgone (fun _ _ => eq_refl) [("other", false); ("vizra-test-jobs-42-a", true); ("vizra-test-jobs-43-c", false);
      ("vizra-test-jobs-77-b", true)]%string ("vizra-test-jobs-42-a", true)%string); vm_compute; auto.
  - change disk' with (removed, disk').2. rewrite <- Hs. vm_compute. reflexivity.
Defined.
