(* ===== verification/TestChild.v ===== *)
(** * A test binary driven as a child process (src/internal/testtmp/child.go)

    The helpers run a package's own test binary with a TMPDIR the calling test
    owns.  What is outside is observed: the go tool and the child answer with
    an outcome, and the clock, the disk and the answers of kill(-pgid, 0) are
    read once a round, so they are functions of the round.  A call ends with a
    value or stops the calling test with a message ([Err], t.Fatalf). *)

From S2P Require Import Prelude Utf8 Regex GoStrings Decimals GoTime GoFmt GoJson Files TestTmp.

(** ** exec.Command *)

Record Command := mkCommand { cmd_argv : list string; cmd_env : option (list string); cmd_group : bool }.

(** What CombinedOutput answers: the process exited, a signal ended it
    ([how] is its text, such as [signal: killed]), or there was an error that is
    no exit: it could not be started, or its output not read. *)
Inductive Outcome :=
| Exited (code : Z) (out : string)
| Signaled (how : string) (out : string)
| NotRun (err : string) (out : string).

(** The error CombinedOutput returns with an outcome, if it does. *)
Definition outcome_error (o : Outcome) : option string :=
  match o with
  | Exited c _ => if c =? 0 then None else Some ("exit status " +:+ Itoa c)
  | Signaled how _ => Some how
  | NotRun e _ => Some e
  end.

Definition outcome_output (o : Outcome) : string :=
  match o with Exited _ out | Signaled _ out | NotRun _ out => out end.

(** ** BuildTestBinary and RunChild *)

Definition build_command (tempDir : string) (tags : list string) : Command :=
  mkCommand (["go"%string; "test"%string; "-c"%string; "-o"%string; JoinPath [tempDir; "pkg.test"%string]]
             ++ (if (length tags =? 0)%nat then [] else ["-tags=" +:+ Join tags ","]) ++ ["."%string])%list None false.

Definition BuildTestBinary (tool : Command -> Outcome) (tempDir : string) (tags : list string) : result string string :=
  let o := tool (build_command tempDir tags) in
  match outcome_error o with
  | Some e => Err ("building this package's test binary: " +:+ e +:+ newline +:+ outcome_output o)
  | None => Ok (JoinPath [tempDir; "pkg.test"])
  end.

Definition child_command (bin tmp run : string) (environ : list string) (group : bool) : Command :=
  mkCommand [bin; "-test.run=" +:+ run; "-test.count=1"]%string (Some (ChildEnv tmp environ)) group.

Definition RunChild (child : Command -> Outcome) (environ : list string) (bin tmp run : string) : result string (Z * string) :=
  match child (child_command bin tmp run environ false) with
  | Exited code out => Ok (code, out)
  | Signaled _ out => Ok (-1, out)
  | NotRun e _ => Err ("running " +:+ bin +:+ ": " +:+ e)
  end.

(** ** KillChildWhen *)

(** The calls that reach the child, in order. *)
Inductive Act :=
| Start (c : Command)
| KillGroup (pgid : Z)
| Wait.

Record ChildWorld := mkChildWorld {
  cw_start : result string Z;            (* cmd.Start: the process id, or why not *)
  cw_begin : Z;                          (* the clock as the deadline is set *)
  cw_look : nat -> Z * Disk;             (* clock and disk of each look under tmp *)
  cw_after : Z;                          (* the clock once Wait has returned *)
  cw_probe : nat -> SignalResult * Z }.  (* kill(-pgid, 0) and the clock after it *)

(** The loop that waits for the marker; [i] counts the rounds.  [None]: not over
    within the fuel. *)
Fixpoint look_loop (fuel : nat) (w : ChildWorld) (tmp marker : string) (deadline : Z) (i : nat) (seen : string) : option string :=
  match fuel with
  | O => None
  | S fuel =>
      if (seen =s "") && ((cw_look w i).1 <? deadline)
      then look_loop fuel w tmp marker deadline (S i) (find (cw_look w i).2 tmp marker)
      else Some seen
  end.

(** The loop that waits until the group is gone: whether it is. *)
Fixpoint gone_loop (fuel : nat) (w : ChildWorld) (gone : Z) (i : nat) : option bool :=
  match fuel with
  | O => None
  | S fuel =>
      match (cw_probe w i).1 with
      | ESRCH => Some true
      | _ => if gone <? (cw_probe w i).2 then Some false else gone_loop fuel w gone (S i)
      end
  end.

(** A round sleeps this long. *)
Definition pause : Z := 20 * Millisecond.

Definition looks (wait : Z) : nat := S (S (Z.to_nat (wait / pause))).

Definition probes : nat := S (S (S (Z.to_nat (30 * Second / pause)))).

Definition KillChildWhen (w : ChildWorld) (environ : list string) (bin tmp run marker : string) (wait : Z)
    : option (result string string * list Act) :=
  let c := child_command bin tmp run environ true in
  match cw_start w with
  | Err e => Some (Err ("starting " +:+ bin +:+ ": " +:+ e), [Start c])
  | Ok pgid =>
      match look_loop (looks wait) w tmp marker (cw_begin w + wait) 0 "" with
      | None => None
      | Some seen =>
          let acts := [Start c; KillGroup pgid; Wait] in
          match gone_loop probes w (cw_after w + 30 * Second) 0 with
          | None => None
          | Some false => Some (Err ("processes of the killed child's group " +:+ Itoa pgid
                                     +:+ " are still alive after 30s"), acts)
          | Some true =>
              if seen =s "" then
                Some (Err ("no " +:+ marker +:+ "* entry appeared under the child's TMPDIR within "
                           +:+ DurationString wait +:+ "; the kill proves nothing"), acts)
              else Some (Ok seen, acts)
          end
      end
  end.

(** ** The waits end, and what an answer means *)

(** Sleep sleeps at least as long as it is asked to. *)
Record clock_sleeps (w : ChildWorld) : Prop := {
  look_starts : cw_begin w <= (cw_look w 0).1;
  look_sleeps : forall i, (cw_look w i).1 + pause <= (cw_look w (S i)).1;
  probe_starts : cw_after w <= (cw_probe w 0).2;
  probe_sleeps : forall i, (cw_probe w i).2 + pause <= (cw_probe w (S i)).2 }.

Lemma ticks (f : nat -> Z) a : a <= f O -> (forall i, f i + pause <= f (S i)) -> forall i, a + Z.of_nat i * pause <= f i.
Proof. intros H0 Hs i. induction i as [|i IH]; [lia|]. specialize (Hs i). lia. Qed.

Lemma look_loop_ends w tmp marker deadline : clock_sleeps w -> forall fuel i seen,
  deadline <= cw_begin w + Z.of_nat (pred fuel + i) * pause -> (0 < fuel)%nat ->
  exists s, look_loop fuel w tmp marker deadline i seen = Some s
    /\ (s <> ""%string -> s = seen
        \/ exists j, (cw_look w j).1 < deadline /\ s = find (cw_look w j).2 tmp marker).
Proof.
  intros Hw fuel. induction fuel as [|fuel IH]; intros i seen Hd Hf; [lia|]. cbn [look_loop].
  destruct (andb _ _) eqn:Hg; [|by exists seen; auto]. apply andb_true_iff in Hg as [_ Hlt%Z.ltb_lt].
  pose proof (ticks (fun i => (cw_look w i).1) _ (look_starts w Hw) (look_sleeps w Hw) i) as Ht. cbn beta in Ht.
  destruct fuel as [|fuel]; [cbn [pred Nat.add] in Hd; lia|].
  destruct (IH (S i) (find (cw_look w i).2 tmp marker)) as (s & Hs & Hp);
    [replace (pred (S fuel) + S i)%nat with (pred (S (S fuel)) + i)%nat by lia; exact Hd|lia|].
  exists s. split; [exact Hs|]. intros Hne. right. destruct (Hp Hne) as [->|?]; [by exists i|done].
Qed.

Lemma gone_loop_ends w gone : clock_sleeps w -> forall fuel i,
  gone < cw_after w + Z.of_nat (pred fuel + i) * pause -> (0 < fuel)%nat ->
  exists b, gone_loop fuel w gone i = Some b /\ (b = true -> exists j, (cw_probe w j).1 = ESRCH).
Proof.
  intros Hw fuel. induction fuel as [|fuel IH]; intros i Hd Hf; [lia|]. cbn [gone_loop].
  assert (Hstep : exists b, (if gone <? (cw_probe w i).2 then Some false else gone_loop fuel w gone (S i)) = Some b
            /\ (b = true -> exists j, (cw_probe w j).1 = ESRCH)).
  { destruct (Z.ltb_spec gone (cw_probe w i).2) as [_|Hle]; [by exists false|].
    pose proof (ticks (fun i => (cw_probe w i).2) _ (probe_starts w Hw) (probe_sleeps w Hw) i) as Ht. cbn beta in Ht.
    destruct fuel as [|fuel]; [cbn [pred Nat.add] in Hd; lia|]. apply IH; [|lia].
    replace (pred (S fuel) + S i)%nat with (pred (S (S fuel)) + i)%nat by lia. exact Hd. }
  destruct (cw_probe w i).1 eqn:Hk; [exact Hstep|by exists true; split; [|intros _; exists i]|exact Hstep|exact Hstep].
Qed.

(** The call always ends.  A path it returns was seen under [tmp] before the
    deadline, and then the child's whole group was killed, reaped, and found
    gone; the group of a child that was started is killed on every path. *)
Theorem killed_child_is_gone w environ bin tmp run marker wait :
  clock_sleeps w -> 0 <= wait ->
  exists r acts, KillChildWhen w environ bin tmp run marker wait = Some (r, acts)
    /\ (forall pgid, cw_start w = Ok pgid ->
          acts = [Start (child_command bin tmp run environ true); KillGroup pgid; Wait])
    /\ (forall p, r = Ok p -> p <> ""%string
          /\ (exists i, (cw_look w i).1 < cw_begin w + wait /\ p = find (cw_look w i).2 tmp marker)
          /\ exists j, (cw_probe w j).1 = ESRCH).
Proof.
  intros Hw Hwait. unfold KillChildWhen. destruct (cw_start w) as [pgid|e]; [|by eexists _, _].
  destruct (look_loop_ends w tmp marker (cw_begin w + wait) Hw (looks wait) 0 "") as (seen & -> & Hseen).
  { unfold looks. cbn [pred]. pose proof (Z.mod_pos_bound wait pause). pose proof (Z.div_mod wait pause).
    pose proof (Z.div_pos wait pause). unfold pause, Millisecond in *. nia. }
  { unfold looks. lia. }
  destruct (gone_loop_ends w (cw_after w + 30 * Second) Hw probes 0) as (b & -> & Hb).
  { unfold pause, probes, Second, Millisecond. change (Z.to_nat _) with 1500%nat. lia. }
  { unfold probes. lia. }
  destruct b; [|by eexists _, _; split; [done|]; split; [intros; simplify_eq|]].
  destruct (String.eqb_spec seen "") as [->|Hne]; eexists _, _; (split; [done|]); (split; [intros; by simplify_eq|]);
    intros p Hp; simplify_eq. split; [done|]. split; [|by apply Hb]. by destruct (Hseen Hne).
Qed.

(** ** Samples *)

(** The marker appears before the third look, and the group is gone at the
    second probe. *)
Definition building_child : ChildWorld :=
  mkChildWorld (Ok 4242) 0
    (fun i => (Z.of_nat i * 25 * Millisecond,
               if (i <? 2)%nat then list_to_map [("/t", DirNode)]%string
               else list_to_map [("/t", DirNode); ("/t/r", DirNode); ("/t/r/vizra-bin-1", DirNode)]%string))
    Second (fun i => (if (i <? 1)%nat then SignalOK else ESRCH, Second + Z.of_nat i * 25 * Millisecond)).

Example marker_seen_then_killed :
  KillChildWhen building_child ["PATH=/bin"; "TMPDIR=/tmp"]%string "./pkg.test" "/t" "^TestMain$" "vizra-bin-" (10 * Second)
  = Some (Ok "/t/r/vizra-bin-1"%string,
      [Start (mkCommand ["./pkg.test"; "-test.run=^TestMain$"; "-test.count=1"]%string
                (Some ["TMPDIR=/t"; "PATH=/bin"]%string) true); KillGroup 4242; Wait])
  /\ KillChildWhen building_child []%list "./pkg.test" "/t" "x" "vizra-none" (40 * Millisecond)
     = Some (Err "no vizra-none* entry appeared under the child's TMPDIR within 40ms; the kill proves nothing"%string,
             [Start (child_command "./pkg.test" "/t" "x" [] true); KillGroup 4242; Wait]).
Proof. split; vm_compute; reflexivity. Qed.

(** A signal's end is an answer of [RunChild], with code -1; a binary that cannot
    be run stops the test. *)
Example run_child_answers :
  RunChild (fun _ => Signaled "signal: killed" "x") [] "b" "/t" "r" = Ok (-1, "x"%string)
  /\ RunChild (fun _ => NotRun "fork/exec b: no such file or directory" "") [] "b" "/t" "r"
     = Err "running b: fork/exec b: no such file or directory"%string
  /\ build_command "/t" ["integration"; "unix"]%string
     = mkCommand ["go"; "test"; "-c"; "-o"; "/t/pkg.test"; "-tags=integration,unix"; "."]%string None false.
Proof. repeat split; vm_compute; reflexivity. Qed.
