(* ===== verification/IsoBmff.v ===== *)
(** * ISO base media files (src/internal/fixtures/mp4.go)

    The box writer, the independent box reader, the short MP4 the generator
    assembles from Motion JPEG samples, and the checks it must pass. *)

From Stdlib Require Import SpecFloat.
From S2P Require Import Prelude Utf8 GoStrings GoTime GoFmt Sha256 Bytes Raster Codecs.

(** ** Writing *)

Definition box (typ payload : string) : string := put_be 4 (8 + len payload) +:+ typ +:+ payload.

(** The payload of a full box starts with its version and flags. *)
Definition full (version flags : Z) (payload : string) : string :=
  String (byte version) (String (byte (Z.shiftr flags 16))
    (String (byte (Z.shiftr flags 8)) (String (byte flags) payload))).

Definition fullBox (typ : string) (version flags : Z) (payload : string) : string :=
  box typ (full version flags payload).

Definition be32 (vals : list Z) : string := concat (map (put_be 4) vals).
Definition be16 (vals : list Z) : string := concat (map (put_be 2) vals).

Definition identityMatrix : string := be32 [65536; 0; 0; 0; 65536; 0; 0; 0; 1073741824].

Definition mp4Width : Z := 160.
Definition mp4Height : Z := 120.
Definition mp4Timescale : Z := 600.
Definition mp4Frames : Z := 12.
Definition mp4Delta : Z := 50.

(** ** Reading *)

(** [b_tail] is the array behind the payload: a slice expression on the
    payload is checked against its capacity, not its length. *)
Record mp4Box := mkBox { b_typ : string; b_payload : string; b_tail : string }.

(** What a slice expression on the payload may reach. *)
Definition reach (bx : mp4Box) : string := b_payload bx +:+ b_tail bx.

Fixpoint scan_boxes (fuel : nat) (b tail : string) (i : Z) : result Fault (list mp4Box) :=
  match fuel with
  | O => Err Panic
  | S fuel =>
      if i + 8 <=? len b then
        let? head := slice b i (i + 4) in
        let size := get_be head in
        let? typ := slice b (i + 4) (i + 8) in
        if (size <? 8) || (len b <? i + size)
        then Err (Failed ("box " +:+ typ +:+ " declares size " +:+ Itoa size +:+ " at offset " +:+ Itoa i
                          +:+ ", which does not fit"))
        else
          let? payload := slice b (i + 8) (i + size) in
          let? rest := scan_boxes fuel b tail (i + size) in
          Ok (mkBox typ payload (sdrop (Z.to_nat (i + size)) b +:+ tail) :: rest)
      else if i =? len b then Ok []
      else Err (Failed (Itoa (len b - i) +:+ " trailing bytes after the last box"))
  end.

(** Every box takes eight bytes, so the bytes bound the rounds. *)
Definition scanBoxes (b tail : string) : result Fault (list mp4Box) := scan_boxes (S (String.length b)) b tail 0.

Fixpoint findBox (boxes : list mp4Box) (typ : string) : option mp4Box :=
  match boxes with
  | [] => None
  | bx :: boxes => if b_typ bx =s typ then Some bx else findBox boxes typ
  end.

Fixpoint descend (b tail : string) (path : list string) : result Fault mp4Box :=
  match path with
  | [] => Err (Failed "empty path")
  | want :: path =>
      let? boxes := scanBoxes b tail in
      match findBox boxes want with
      | None => Err (Failed ("no " +:+ want +:+ " box"))
      | Some bx => match path with [] => Ok bx | _ => descend (b_payload bx) (b_tail bx) path end
      end
  end.

(** ** The short MP4 *)

Section Mp4.
Context `{HJ : JpegEncoder, HD : JpegDecoder, HP : Printable}.

Fixpoint mp4_samples (n : nat) (f : Z) : result Fault (list string) :=
  match n with
  | O => Ok []
  | S n => let? b := painted mp4Width mp4Height (100 + f) 80 in
           let? bs := mp4_samples n (f + 1) in Ok (b :: bs)
  end.

Definition compressor : string := String (byte 22) ("Vizra fixturegen MJPEG" +:+ zeros 9).

(** The [build] of [buildMP4], for the sizes of the samples and the offset of
    their chunk. *)
Definition moov_payload (sizes : list Z) (chunkOffset : Z) : string :=
  let mvhd := fullBox "mvhd" 0 0 (concat [be32 [0; 0; mp4Timescale; mp4Frames * mp4Delta]; be32 [65536];
                be16 [256; 0]; be32 [0; 0]; identityMatrix; zeros 24; be32 [2]]) in
  let tkhd := fullBox "tkhd" 0 7 (concat [be32 [0; 0; 1; 0; mp4Frames * mp4Delta]; be32 [0; 0];
                be16 [0; 0; 0; 0]; identityMatrix; be32 [Z.shiftl mp4Width 16; Z.shiftl mp4Height 16]]) in
  let mdhd := fullBox "mdhd" 0 0 (concat [be32 [0; 0; mp4Timescale; mp4Frames * mp4Delta]; be16 [21956; 0]]) in
  let hdlr := fullBox "hdlr" 0 0 (concat [be32 [0]; "vide"; zeros 12; "VideoHandler" +:+ zeros 1])%string in
  let vmhd := fullBox "vmhd" 0 1 (concat [be16 [0]; zeros 6]) in
  let dref := fullBox "dref" 0 0 (concat [be32 [1]; fullBox "url " 0 1 ""]) in
  let dinf := box "dinf" dref in
  let sampleEntry := box "jpeg" (concat [zeros 6; be16 [1]; be16 [0; 0]; zeros 12; be16 [mp4Width; mp4Height];
                be32 [4718592; 4718592]; be32 [0]; be16 [1]; compressor; be16 [24];
                String (byte 255) (String (byte 255) "")]) in
  let stsd := fullBox "stsd" 0 0 (concat [be32 [1]; sampleEntry]) in
  let stts := fullBox "stts" 0 0 (be32 [1; mp4Frames; mp4Delta]) in
  let stsc := fullBox "stsc" 0 0 (be32 [1; 1; mp4Frames; 1]) in
  let stsz := fullBox "stsz" 0 0 (concat [be32 [0; mp4Frames]; be32 sizes]) in
  let stco := fullBox "stco" 0 0 (be32 [1; chunkOffset]) in
  let stbl := box "stbl" (concat [stsd; stts; stsc; stsz; stco]) in
  let minf := box "minf" (concat [vmhd; dinf; stbl]) in
  let mdia := box "mdia" (concat [mdhd; hdlr; minf]) in
  let trak := box "trak" (concat [tkhd; mdia]) in
  concat [mvhd; trak].

Definition mp4_moov (sizes : list Z) (chunkOffset : Z) : string := box "moov" (moov_payload sizes chunkOffset).

Definition mp4_ftyp : string := box "ftyp" ("isom" +:+ be32 [512] +:+ "isomiso2mp41").

(** The file around the samples: the size of the moov box does not depend on
    the offset in it, so it is built twice. *)
Definition mp4_file (samples : list string) : result Fault string :=
  let mdatPayload := concat samples in
  let sizes := map len samples in
  let moovLen := len (mp4_moov sizes 0) in
  let chunkOffset := len mp4_ftyp + moovLen + 8 in
  let moov := mp4_moov sizes chunkOffset in
  if negb (len moov =? moovLen)
  then Err (Failed "moov length changed when the chunk offset was filled in")
  else Ok (concat [mp4_ftyp; moov; box "mdat" mdatPayload]).

Definition buildMP4 : result Fault string :=
  let? samples := mp4_samples (Z.to_nat mp4Frames) 0 in mp4_file samples.

(** ** Its checks *)

(** 0.9 and 1.1 as float64 constants. *)
Definition nine_tenths : spec_float := S754_finite false 8106479329266893 (-53).
Definition eleven_tenths : spec_float := S754_finite false 4953959590107546 (-52).

(** [secs < 0.9 || secs > 1.1] for the quotient of two integers. *)
Definition not_a_second (dur ts : Z) : bool :=
  let secs := SFdiv 53 1024 (float64 dur) (float64 ts) in SFltb secs nine_tenths || SFltb eleven_tenths secs.

(** Each sample from [off] on must decode; [i] counts up to [count]. *)
Fixpoint check_samples (n : nat) (i : Z) (off : Z) (stsz b : string) : result Fault unit :=
  match n with
  | O => Ok tt
  | S n =>
      let? field := slice stsz (12 + 4 * i) (16 + 4 * i) in
      let sz := get_be field in
      if len b <? off + sz then Err (Failed ("sample " +:+ Itoa i +:+ " runs past the end of the file"))
      else
        let? s := slice b off (off + sz) in
        match jpeg_decode s with
        | Some e => Err (Failed ("sample " +:+ Itoa i +:+ " is not a decodable JPEG: " +:+ de_text e))
        | None => check_samples n (i + 1) (off + sz) stsz b
        end
  end.

(** [%v] of the boxes in two messages and [%.3f] in one are left out; the file itself is a slice
    that fills its array. *)
Definition verifyMP4 (b : string) : result Fault unit :=
  let? boxes := scanBoxes b "" in
  match boxes with
  | ftyp :: moov :: mdat :: _ =>
    if (b_typ ftyp <>s "ftyp") || (b_typ moov <>s "moov") || (b_typ mdat <>s "mdat")
    then Err (Failed "box order, want ftyp, moov, mdat") else
    let? brand := slice (reach ftyp) 0 4 in
    if brand <>s "isom" then Err (Failed ("major brand is " +:+ Quote brand +:+ ", want isom")) else
    let? hdlr := descend b "" ["moov"; "trak"; "mdia"; "hdlr"]%string in
    let? got := slice (reach hdlr) 8 12 in
    if got <>s "vide" then Err (Failed ("handler type is " +:+ Quote got +:+ ", want vide")) else
    let? stsd := descend b "" ["moov"; "trak"; "mdia"; "minf"; "stbl"; "stsd"]%string in
    let? inner := slice_from (b_payload stsd) 8 in
    let? entries := scanBoxes inner (b_tail stsd) in
    match entries with
    | [entry] =>
      if b_typ entry <>s "jpeg" then Err (Failed "sample entry, want exactly one jpeg entry") else
      let se := reach entry in
      let? w := slice se 24 26 in
      let? h := slice se 26 28 in
      if negb (get_be w =? mp4Width) || negb (get_be h =? mp4Height) then Err (Failed ("the sample entry declares " +:+ Itoa (get_be w) +:+ "x" +:+ Itoa (get_be h) +:+ ", want 160x120")) else
      let? mdhd := descend b "" ["moov"; "trak"; "mdia"; "mdhd"]%string in
      let? ts := slice (reach mdhd) 12 16 in
      let? dur := slice (reach mdhd) 16 20 in
      if (get_be ts =? 0) || (get_be dur =? 0) then Err (Failed ("timescale " +:+ Itoa (get_be ts) +:+ " duration " +:+ Itoa (get_be dur) +:+ ": the track declares no duration")) else
      if not_a_second (get_be dur) (get_be ts) then Err (Failed "declared duration, want about 1 s") else
      let? stsz := descend b "" ["moov"; "trak"; "mdia"; "minf"; "stbl"; "stsz"]%string in
      let? count := slice (reach stsz) 8 12 in
      if negb (get_be count =? mp4Frames) then Err (Failed (Itoa (get_be count) +:+ " samples, want 12")) else
      let? stco := descend b "" ["moov"; "trak"; "mdia"; "minf"; "stbl"; "stco"]%string in
      let? offb := slice (reach stco) 8 12 in
      let off := get_be offb in
      if len b <? off + 8 then Err (Failed ("the chunk offset " +:+ Itoa off +:+ " does not point just past an mdat header")) else
      let? tag := slice b (off - 8 + 4) (off - 8 + 8) in
      if tag <>s "mdat" then Err (Failed ("the chunk offset " +:+ Itoa off +:+ " does not point just past an mdat header")) else
      check_samples (Z.to_nat (get_be count)) 0 off (reach stsz) b
    | _ => Err (Failed "sample entry, want exactly one jpeg entry")
    end
  | _ => Err (Failed "box order, want ftyp, moov, mdat")
  end.
End Mp4.

(** ** The reader is the inverse of the writer *)

Definition write_box (bx : mp4Box) : string := box (b_typ bx) (b_payload bx).

(** A box whose type has four bytes and whose size fits its field. *)
Definition box_ok (bx : mp4Box) : Prop := len (b_typ bx) = 4 /\ 8 + len (b_payload bx) < 2 ^ 32.

(** Behind each payload lie the boxes after it, then what lies behind them
    all. *)
Fixpoint chained (l : list mp4Box) (tail : string) : Prop :=
  match l with
  | [] => True
  | bx :: l => b_tail bx = concat (map write_box l) +:+ tail /\ chained l tail
  end.

Lemma len_write_box bx : box_ok bx -> len (write_box bx) = 8 + len (b_payload bx).
Proof. intros [Ht _]. unfold write_box, box. autorewrite with blen. lia. Qed.

Lemma scan_boxes_sound fuel b tail : forall i l, 0 <= i <= len b ->
  scan_boxes fuel b tail i = Ok l ->
  sdrop (Z.to_nat i) b = concat (map write_box l) /\ Forall box_ok l /\ chained l tail.
Proof.
  induction fuel as [|fuel IH]; intros i l Hi H; [done|]. cbn [scan_boxes] in H.
  destruct (Z.leb_spec (i + 8) (len b)) as [H8|H8].
  2: { destruct (Z.eqb_spec i (len b)) as [->|]; [|done]. simplify_eq. split; [apply sdrop_all|]. split; [constructor|done]. }
  destruct (slice b i (i + 4)) as [head|] eqn:Hh; [|done].
  destruct (slice b (i + 4) (i + 8)) as [typ|] eqn:Ht; [|done]. cbv zeta in H.
  destruct (_ || _) eqn:Hc; [done|]. apply orb_false_iff in Hc as [Hc1 Hc2].
  destruct (slice b (i + 8) (i + get_be head)) as [payload|] eqn:Hp; [|done].
  destruct (scan_boxes fuel b tail _) as [rest|] eqn:Hr; [|done]. simplify_eq.
  destruct (IH (i + get_be head) rest ltac:(lia) Hr) as (Hd & Hf & Hch).
  destruct (slice_Ok _ _ _ _ Hh) as (_ & _ & Hlh). destruct (slice_Ok _ _ _ _ Ht) as (_ & _ & Hlt).
  destruct (slice_Ok _ _ _ _ Hp) as (_ & _ & Hlp).
  pose proof (get_be_bound head) as Hb. replace (len head) with 4 in Hb by lia.
  split; [|split; [constructor; [split; cbn; [lia|change (256 ^ 4) with (2 ^ 32) in Hb; lia]|done]|]].
  2: { cbn. by rewrite Hd. }
  rewrite (slice_drop _ _ _ _ Hh), (slice_drop _ _ _ _ Ht), (slice_drop _ _ _ _ Hp), Hd. cbn [map concat].
  unfold write_box, box. cbn [b_typ b_payload]. rewrite !sapp_assoc. f_equal.
  replace (8 + len payload) with (get_be head) by lia.
  rewrite <- (put_get_be head) at 1. f_equal. unfold len in Hlh. lia.
Qed.

Lemma scan_boxes_complete tail l : forall fuel b i, (length l < fuel)%nat -> 0 <= i <= len b ->
  sdrop (Z.to_nat i) b = concat (map write_box l) -> Forall box_ok l -> chained l tail ->
  scan_boxes fuel b tail i = Ok l.
Proof.
  induction l as [|bx l IH]; intros [|fuel] b i Hf Hi Hd Hok Hch; cbn [length] in Hf; try lia; cbn [scan_boxes].
  - assert (Hl : len (sdrop (Z.to_nat i) b) = len b - i) by (rewrite len_sdrop; lia). rewrite Hd in Hl.
    change (len (concat (map write_box []))) with 0 in Hl.
    rewrite (proj2 (Z.leb_gt _ _)), (proj2 (Z.eqb_eq _ _)) by lia. done.
  - inversion Hok as [|? ? [Ht Hs] Hok']; subst. cbn [map concat] in Hd. destruct Hch as [Htail Hch].
    change (write_box bx) with (put_be 4 (8 + len (b_payload bx)) +:+ b_typ bx +:+ b_payload bx) in Hd.
    rewrite !sapp_assoc in Hd. pose proof (len_nonneg (b_payload bx)).
    destruct (drop_slice _ _ _ _ Hi Hd) as (Hl1 & Hs1 & Hd1). rewrite len_put_be in Hl1, Hs1, Hd1.
    change (Z.of_nat 4) with 4 in *.
    destruct (drop_slice b (i + 4) _ _ ltac:(lia) Hd1) as (Hl2 & Hs2 & Hd2). rewrite Ht in Hl2, Hs2, Hd2.
    replace (i + 4 + 4) with (i + 8) in * by lia.
    destruct (drop_slice b (i + 8) _ _ ltac:(lia) Hd2) as (Hl3 & Hs3 & Hd3).
    rewrite (proj2 (Z.leb_le _ _)), Hs1, Hs2 by lia.
    rewrite get_put_be by (change (256 ^ Z.of_nat 4) with (2 ^ 32); lia).
    rewrite (proj2 (Z.ltb_ge _ _)), (proj2 (Z.ltb_ge _ _)) by lia. cbn [orb].
    replace (i + (8 + len (b_payload bx))) with (i + 8 + len (b_payload bx)) by lia. rewrite Hs3.
    rewrite (IH fuel b _) by (done || lia). rewrite Hd3, <- Htail. by destruct bx.
Qed.

Lemma length_boxes l : Forall box_ok l -> (length l <= String.length (concat (map write_box l)))%nat.
Proof.
  induction 1 as [|bx l Hb _ IH]; [done|]. cbn [map concat length]. rewrite length_sapp.
  pose proof (len_write_box bx Hb). pose proof (len_nonneg (b_payload bx)). unfold len in *. lia.
Qed.

Lemma scanBoxes_write l tail : Forall box_ok l -> chained l tail -> scanBoxes (concat (map write_box l)) tail = Ok l.
Proof.
  intros Hl Hch. unfold scanBoxes.
  apply scan_boxes_complete; [|pose proof (len_nonneg (concat (map write_box l))); lia|apply sdrop_0|done|done].
  pose proof (length_boxes l Hl). lia.
Qed.

(** The fuel is enough and no slice is out of range. *)
Lemma scan_boxes_total fuel b tail : forall i, 0 <= i <= len b -> (Z.to_nat (len b - i) < fuel)%nat ->
  scan_boxes fuel b tail i <> Err Panic.
Proof.
  induction fuel as [|fuel IH]; intros i Hi Hf; [lia|]. cbn [scan_boxes].
  destruct (Z.leb_spec (i + 8) (len b)) as [H8|H8]; [|by destruct (i =? len b)].
  destruct (slice_total b i (i + 4)) as [head ->]; [lia|lia|].
  destruct (slice_total b (i + 4) (i + 8)) as [typ ->]; [lia|lia|]. cbv zeta.
  destruct (_ || _) eqn:Hc; [done|]. apply orb_false_iff in Hc as [Hc1 Hc2].
  destruct (slice_total b (i + 8) (i + get_be head)) as [payload ->]; [lia|lia|].
  assert (Hr : scan_boxes fuel b tail (i + get_be head) <> Err Panic) by (apply IH; lia).
  destruct (scan_boxes fuel b tail _) as [|e]; congruence.
Qed.

(** The reader accepts exactly the files that are a sequence of boxes, and
    returns that sequence; on any other file it reports an error, and on no
    file does it read outside the bytes. *)
Theorem boxes_exact b tail :
  (forall l, scanBoxes b tail = Ok l <-> b = concat (map write_box l) /\ Forall box_ok l /\ chained l tail)
  /\ scanBoxes b tail <> Err Panic.
Proof.
  split; [|apply scan_boxes_total; [pose proof (len_nonneg b); lia|unfold len; lia]].
  intros l. split.
  - intros H. apply scan_boxes_sound in H; [|pose proof (len_nonneg b); lia]. by rewrite sdrop_0 in H.
  - intros (-> & Hl & Hch). by apply scanBoxes_write.
Qed.

(** ** The generated file passes the checks *)

Lemma len_be32 l : len (be32 l) = 4 * Z.of_nat (length l).
Proof.
  unfold be32. induction l as [|v l IH]; [done|]. cbn [map concat length]. rewrite len_app, len_put_be, IH. lia.
Qed.

Ltac chars s H := repeat (destruct s as [|? s]; [discriminate H|]); destruct s; [|discriminate H].

(** Only the bytes of the size table and of the offset are unknown in a moov
    box, so what a reader finds in it is computed. *)
Ltac moov_bytes sizes off Hs :=
  unfold moov_payload;
  let H1 := fresh in pose proof (len_be32 sizes) as H1; rewrite Hs in H1;
  let H2 := fresh in pose proof (len_be32 [1; off]) as H2; unfold len in H1, H2; cbn [length] in H2;
  let H1' := fresh in assert (H1' : String.length (be32 sizes) = 48%nat) by lia;
  let H2' := fresh in assert (H2' : String.length (be32 [1; off]) = 8%nat) by lia; clear H1 H2;
  generalize dependent (be32 sizes); generalize dependent (be32 [1; off]);
  let o := fresh in let Ho := fresh in let s := fresh in let H := fresh in
  intros o Ho s H; chars o Ho; chars s H.

(** The type and the payload of the box a search found. *)
Definition content (r : result Fault mp4Box) : result Fault (string * string) :=
  match r with Ok bx => Ok (b_typ bx, b_payload bx) | Err f => Err f end.

Lemma content_inv r t p : content r = Ok (t, p) -> exists tl, r = Ok (mkBox t p tl).
Proof. destruct r as [[t' p' tl]|]; cbn; intros; simplify_eq; eauto. Qed.

Section Moov.
Context (sizes : list Z) (off : Z) (tail : string) (Hs : length sizes = 12%nat).

Abbreviation found path := (content (descend (moov_payload sizes off) tail path)).

Definition sample_entry : string :=
  concat [zeros 6; be16 [1]; be16 [0; 0]; zeros 12; be16 [mp4Width; mp4Height];
          be32 [4718592; 4718592]; be32 [0]; be16 [1]; compressor; be16 [24]; String (byte 255) (String (byte 255) "")].

Lemma moov_parts :
  len (moov_payload sizes off) = 607
  /\ found ["trak"; "mdia"; "hdlr"]%string
     = Ok ("hdlr"%string, full 0 0 (concat [be32 [0]; "vide"; zeros 12; "VideoHandler" +:+ zeros 1])%string)
  /\ found ["trak"; "mdia"; "mdhd"]%string
     = Ok ("mdhd"%string, full 0 0 (concat [be32 [0; 0; mp4Timescale; mp4Frames * mp4Delta]; be16 [21956; 0]]))
  /\ found ["trak"; "mdia"; "minf"; "stbl"; "stsz"]%string
     = Ok ("stsz"%string, full 0 0 (be32 [0; mp4Frames] +:+ be32 sizes))
  /\ found ["trak"; "mdia"; "minf"; "stbl"; "stco"]%string = Ok ("stco"%string, full 0 0 (be32 [1; off]))
  /\ found ["trak"; "mdia"; "minf"; "stbl"; "stsd"]%string
     = Ok ("stsd"%string, full 0 0 (be32 [1] +:+ box "jpeg" sample_entry)).
Proof. moov_bytes sizes off Hs. vm_compute. repeat split. Qed.
End Moov.

Section Verified.
Context `{HD : JpegDecoder, HP : Printable}.

(** The samples from [off] on, with their sizes in the table. *)
Lemma check_samples_ok samples : forall i off stsz b behind tail,
  Forall (fun s => jpeg_decode s = None) samples -> Forall (fun s => len s < 2 ^ 32) samples ->
  0 <= i -> 12 + 4 * i <= len stsz -> 0 <= off <= len b ->
  sdrop (Z.to_nat (12 + 4 * i)) stsz = be32 (map len samples) +:+ behind ->
  sdrop (Z.to_nat off) b = concat samples +:+ tail ->
  check_samples (length samples) i off stsz b = Ok tt.
Proof.
  induction samples as [|s samples IH]; intros i off stsz b behind tail Hd Hl Hi Hi2 Ho Hz Hb; [done|].
  inversion Hd; inversion Hl; subst. cbn [length check_samples].
  cbn [map] in Hz. change (be32 (len s :: map len samples)) with (put_be 4 (len s) +:+ be32 (map len samples)) in Hz.
  rewrite sapp_assoc in Hz.
  destruct (drop_slice stsz (12 + 4 * i) _ _ ltac:(lia) Hz) as (Hz1 & Hz2 & Hz3). rewrite len_put_be in Hz1, Hz2, Hz3.
  change (Z.of_nat 4) with 4 in *. replace (12 + 4 * i + 4) with (16 + 4 * i) in * by lia. rewrite Hz2.
  pose proof (len_nonneg s). rewrite get_put_be by (change (256 ^ Z.of_nat 4) with (2 ^ 32); lia).
  cbn [concat] in Hb. rewrite sapp_assoc in Hb. destruct (drop_slice b off _ _ ltac:(lia) Hb) as (Hb1 & Hb2 & Hb3).
  cbv zeta. rewrite (proj2 (Z.ltb_ge _ _)), Hb2 by lia. rewrite H1.
  apply (IH (i + 1) _ _ _ behind tail); try done; try lia. by replace (12 + 4 * (i + 1)) with (16 + 4 * i) by lia.
Qed.

Lemma len_in_concat s samples : List.In s samples -> len s <= len (concat samples).
Proof.
  induction samples as [|x l IH]; intros H; [done|]. cbn [concat]. rewrite len_app.
  pose proof (len_nonneg x). pose proof (len_nonneg (concat l)). destruct H as [->|H]; [lia|]. specialize (IH H). lia.
Qed.

Lemma slice_reach bx i j p : slice (b_payload bx) i j = Ok p -> slice (reach bx) i j = Ok p.
Proof. apply slice_app. Qed.

Section File.
Context (samples : list string) (Hn : length samples = 12%nat).

Let sizes := map len samples.
Let Hsizes : length sizes = 12%nat.
Proof. unfold sizes. by rewrite length_map. Qed.

Definition mdat_box : mp4Box := mkBox "mdat" (concat samples) "".
Definition moov_box : mp4Box := mkBox "moov" (moov_payload sizes 651) (box "mdat" (concat samples)).
Definition ftyp_box : mp4Box :=
  mkBox "ftyp" ("isom" +:+ be32 [512] +:+ "isomiso2mp41") (mp4_moov sizes 651 +:+ box "mdat" (concat samples)).

Definition mp4_bytes : string := concat (map write_box [ftyp_box; moov_box; mdat_box]).

Lemma len_moov off : len (mp4_moov sizes off) = 615.
Proof.
  unfold mp4_moov, box. autorewrite with blen. rewrite (proj1 (moov_parts sizes off "" Hsizes)). reflexivity.
Qed.

Lemma mp4_file_bytes : mp4_file samples = Ok mp4_bytes.
Proof.
  unfold mp4_file. fold sizes. cbv zeta. rewrite !len_moov. change (len mp4_ftyp + 615 + 8) with 651.
  reflexivity.
Qed.

Context (Hl : 8 <= len (concat samples) < 2 ^ 32 - 8).

Lemma mp4_scans : scanBoxes mp4_bytes "" = Ok [ftyp_box; moov_box; mdat_box].
Proof.
  apply scanBoxes_write.
  - repeat constructor; cbn [b_typ b_payload ftyp_box moov_box mdat_box]; try reflexivity; [|change (2 ^ 32) with 4294967296 in *; lia].
    rewrite (proj1 (moov_parts sizes 651 "" Hsizes)). reflexivity.
  - cbn [chained b_tail ftyp_box moov_box mdat_box map concat]. rewrite !sapp_nil_r. repeat split.
Qed.

Lemma mp4_descend p ps :
  descend mp4_bytes "" ("moov"%string :: p :: ps) = descend (moov_payload sizes 651) (b_tail moov_box) (p :: ps).
Proof. cbn [descend]. rewrite mp4_scans. reflexivity. Qed.

(** The bytes before the samples end with the header of the mdat box. *)
Lemma mp4_layout : exists pre, len pre = 647 /\ mp4_bytes = pre +:+ "mdat" +:+ concat samples.
Proof.
  exists (concat [mp4_ftyp; mp4_moov sizes 651; put_be 4 (8 + len (concat samples))]). split.
  - cbn [concat]. rewrite !len_app, len_put_be, len_moov. reflexivity.
  - unfold mp4_bytes. cbn [map concat]. unfold write_box at 3, box at 1. cbn [b_typ b_payload mdat_box].
    rewrite !sapp_nil_r, !sapp_assoc. reflexivity.
Qed.

Lemma mp4_samples_found tl :
  Forall (fun s => jpeg_decode s = None) samples ->
  check_samples 12 0 651 (full 0 0 (be32 [0; mp4Frames] +:+ be32 sizes) +:+ tl) mp4_bytes = Ok tt.
Proof.
  intros Hd. destruct mp4_layout as (pre & Hpre & Hb). rewrite <- Hn.
  apply (check_samples_ok samples 0 651 _ _ tl ""); try done; try lia.
  - apply List.Forall_forall. intros s Hs. apply len_in_concat in Hs. lia.
  - change (full 0 0 (be32 [0; mp4Frames] +:+ be32 sizes)) with (full 0 0 (be32 [0; mp4Frames]) +:+ be32 sizes).
    rewrite !len_app, len_be32, Hsizes. pose proof (len_nonneg tl). change (len (full 0 0 (be32 [0; mp4Frames]))) with 12. lia.
  - rewrite Hb, !len_app, Hpre. change (len "mdat") with 4. lia.
  - rewrite sapp_nil_r, Hb, <- sapp_assoc.
    replace (Z.to_nat 651) with (String.length (pre +:+ "mdat")); [apply sdrop_app_exact|].
    rewrite length_sapp. unfold len in Hpre. change (String.length "mdat") with 4%nat. lia.
Qed.

(** The file assembled around twelve samples that decode is accepted by the
    independent reader: the boxes are in order, the track declares its size and
    one second, and the chunk offset and the size table lead to each sample. *)
Lemma mp4_file_verifies : Forall (fun s => jpeg_decode s = None) samples -> verifyMP4 mp4_bytes = Ok tt.
Proof.
  intros Hd. destruct (moov_parts sizes 651 (b_tail moov_box) Hsizes) as (_ & Hhdlr & Hmdhd & Hstsz & Hstco & Hstsd).
  destruct (content_inv _ _ _ Hhdlr) as [t1 H1]. destruct (content_inv _ _ _ Hmdhd) as [t2 H2].
  destruct (content_inv _ _ _ Hstsz) as [t3 H3]. destruct (content_inv _ _ _ Hstco) as [t4 H4].
  destruct (content_inv _ _ _ Hstsd) as [t5 H5]. destruct mp4_layout as (pre & Hpre & Hb).
  assert (Hin : slice_from (full 0 0 (be32 [1] +:+ box "jpeg" sample_entry)) 8 = Ok (box "jpeg" sample_entry)) by reflexivity.
  assert (Hse : scanBoxes (box "jpeg" sample_entry) t5 = Ok [mkBox "jpeg" sample_entry t5]).
  { by rewrite <- (sapp_nil_r (box "jpeg" sample_entry)), (scanBoxes_write [mkBox "jpeg" sample_entry t5]) by (repeat constructor). }
  pose proof (len_nonneg (concat samples)).
  unfold verifyMP4. rewrite mp4_scans. cbn [b_typ ftyp_box moov_box mdat_box String.eqb negb orb].
  rewrite !mp4_descend, H1, H2, H3, H4, H5. cbn [b_payload b_tail]. rewrite Hin, Hse. cbn [b_typ].
  rewrite (slice_reach ftyp_box 0 4 "isom") by reflexivity.
  rewrite (slice_reach (mkBox "hdlr" _ t1) 8 12 "vide") by reflexivity.
  rewrite (slice_reach (mkBox "jpeg" _ t5) 24 26 (put_be 2 mp4Width)), (slice_reach (mkBox "jpeg" _ t5) 26 28 (put_be 2 mp4Height)) by reflexivity.
  rewrite (slice_reach (mkBox "mdhd" _ t2) 12 16 (put_be 4 mp4Timescale)), (slice_reach (mkBox "mdhd" _ t2) 16 20 (put_be 4 (mp4Frames * mp4Delta))) by reflexivity.
  rewrite (slice_reach (mkBox "stsz" _ t3) 8 12 (put_be 4 mp4Frames)) by
    (apply (slice_middle (full 0 0 (put_be 4 0)) (put_be 4 mp4Frames) (be32 sizes)); reflexivity).
  rewrite (slice_reach (mkBox "stco" _ t4) 8 12 (put_be 4 651)) by reflexivity.
  change (get_be (put_be 4 651)) with 651. cbn [Z.add].
  assert (Htag : slice mp4_bytes (651 - 8 + 4) (651 - 8 + 8) = Ok "mdat"%string).
  { rewrite Hb. apply slice_middle; change (len "mdat") with 4; lia. }
  rewrite Htag. rewrite (proj2 (Z.ltb_ge _ _)) by (rewrite Hb, !len_app, Hpre; change (len "mdat") with 4; lia).
  exact (mp4_samples_found t3 Hd).
Qed.
End File.

(** What jpeg.Encode writes jpeg.Decode reads, and no sample of the film is
    longer than 256 MiB. *)
Definition codec_agrees `{JpegEncoder} : Prop :=
  forall w h pix q b, jpeg_encode w h pix q = Ok b -> jpeg_decode b = None /\ 1 <= len b <= 2 ^ 28.

Lemma mp4_samples_ok `{HJ : JpegEncoder} n f l : codec_agrees -> mp4_samples n f = Ok l ->
  length l = n /\ Forall (fun s => jpeg_decode s = None) l
  /\ Z.of_nat n <= len (concat l) <= Z.of_nat n * 2 ^ 28.
Proof.
  intros Hc. revert f l. induction n as [|n IH]; intros f l H; cbn [mp4_samples] in H; [by simplify_eq|].
  unfold painted, encodeJPEG in H. destruct (scene _ _ _) as [pix|]; [|done].
  destruct (jpeg_encode _ _ pix 80) as [b|] eqn:He; [|done]. destruct (mp4_samples n _) as [l'|] eqn:Hl; [|done].
  simplify_eq. destruct (IH _ _ Hl) as (H1 & H2 & H3). destruct (Hc _ _ _ _ _ He) as [Hd Hb].
  split; [cbn; lia|]. split; [by constructor|]. cbn [concat]. rewrite len_app. lia.
Qed.

(** The generated film passes its own checks. *)
Theorem built_film_verifies `{HJ : JpegEncoder} b : codec_agrees -> buildMP4 = Ok b -> verifyMP4 b = Ok tt.
Proof.
  intros Hc. unfold buildMP4. destruct (mp4_samples _ _) as [l|] eqn:Hl; [|done].
  destruct (mp4_samples_ok _ _ _ Hc Hl) as (Hn & Hd & Hs). change (Z.to_nat mp4Frames) with 12%nat in *.
  rewrite mp4_file_bytes by done. intros ?; simplify_eq. apply mp4_file_verifies; [done|lia|done].
Qed.
End Verified.

(** An encoder that writes one byte, and a decoder that reads it. *)
Lemma built_film_verifies_witness :
  let HP : Printable := ascii_print in
  let HJ : JpegEncoder := fun _ _ _ _ => Ok "j"%string in
  let HD : JpegDecoder := {| jpeg_decode := fun _ => None; jpeg_config := fun _ => Ok (160, 120) |} in
  exists b, buildMP4 = Ok b /\ verifyMP4 b = Ok tt.
Proof.
  intros HP HJ HD. assert (Hc : codec_agrees) by (intros ? ? ? ? b Hb; injection Hb as <-; done).
  assert (He : forall n f, exists l, mp4_samples n f = Ok l).
  { induction n as [|n IH]; intros f; [by eexists|]. cbn [mp4_samples]. unfold painted.
    destruct (scene_total mp4Width mp4Height (100 + f)) as [pix ->]; [done|done|done|]. destruct (IH (f + 1)) as [l ->]. by eexists. }
  destruct (He (Z.to_nat mp4Frames) 0) as [l Hl]. exists (mp4_bytes l).
  assert (Hb : buildMP4 = Ok (mp4_bytes l)).
  { unfold buildMP4. rewrite Hl. apply mp4_file_bytes, (mp4_samples_ok _ _ _ Hc Hl). }
  split; [done|]. by apply built_film_verifies.
Defined.
