(* ===== verification/WebP.v ===== *)
(** * Animated WebP (src/internal/fixtures/webp.go)

    The bit writer and reader of VP8L, the solid-colour frame and its
    independent reader, the RIFF container, and the animation the generator
    writes with the checks it must pass. *)

From stdpp Require Import list_numbers.
From S2P Require Import Prelude Utf8 GoStrings GoFmt Sha256 Bytes.

(** ** Bits, least significant first *)

Record bitWriter := mkWriter { w_buf : string; w_cur : Z; w_n : Z }.

Definition write_bit (w : bitWriter) (bit : Z) : bitWriter :=
  let cur := Z.lor (w_cur w) (Z.shiftl bit (w_n w)) in
  let n := w_n w + 1 in
  if n =? 8 then mkWriter (w_buf w +:+ String (byte cur) "") 0 0 else mkWriter (w_buf w) cur n.

Fixpoint write_bits (w : bitWriter) (v i : Z) (bits : nat) : bitWriter :=
  match bits with
  | O => w
  | S bits => write_bits (write_bit w (Z.land (Z.shiftr v i) 1)) v (i + 1) bits
  end.

(** [bw.write(v, bits)]. *)
Definition bw_write (w : bitWriter) (v : Z) (bits : nat) : bitWriter := write_bits w v 0 bits.

(** [bw.bytes()]: a byte begun is completed with zero bits. *)
Definition bw_bytes (w : bitWriter) : string :=
  if 0 <? w_n w then w_buf w +:+ String (byte (w_cur w)) "" else w_buf w.

Record bitReader := mkReader { r_b : string; r_pos : Z; r_failed : bool }.

(** The bits from [i] on, put into [v], and whether the bytes ended first. *)
Fixpoint read_bits (r : bitReader) (v i : Z) (bits : nat) : Z * bool :=
  match bits with
  | O => (v, false)
  | S bits =>
      match sget (Z.to_nat ((r_pos r + i) / 8)) (r_b r) with
      | None => (v, true)
      | Some c => read_bits r (Z.lor v (Z.shiftl (Z.land (Z.shiftr (code c) ((r_pos r + i) mod 8)) 1) i)) (i + 1) bits
      end
  end.

(** [r.read(bits)]: a read past the end notes the failure, returns the bits it
    has and does not advance. *)
Definition br_read (r : bitReader) (bits : nat) : Z * bitReader :=
  let '(v, ended) := read_bits r 0 0 bits in
  (v, if ended then mkReader (r_b r) (r_pos r) true else mkReader (r_b r) (r_pos r + Z.of_nat bits) (r_failed r)).

(** ** The solid-colour frame *)

Record NRGBA := mkNRGBA { c_R : Z; c_G : Z; c_B : Z; c_A : Z }.

#[export] Instance NRGBA_eq_dec : EqDecision NRGBA.
Proof. solve_decision. Defined.

Definition vp8lSignature : Z := 47.

(** A Huffman code declared with one symbol of eight bits. *)
Definition simple (w : bitWriter) (symbol : Z) : bitWriter :=
  bw_write (bw_write (bw_write (bw_write w 1 1) 0 1) 1 1) symbol 8.

(** The header and the five codes. *)
Definition solid_writer (w h : Z) (c : NRGBA) : bitWriter :=
  let bw := mkWriter "" 0 0 in
  let bw := bw_write bw (w - 1) 14 in
  let bw := bw_write bw (h - 1) 14 in
  let bw := bw_write bw (if c_A c <? 255 then 1 else 0) 1 in
  let bw := bw_write bw 0 3 in
  let bw := bw_write bw 0 1 in
  let bw := bw_write bw 0 1 in
  let bw := bw_write bw 0 1 in
  let bw := simple bw (c_G c) in
  let bw := simple bw (c_R c) in
  let bw := simple bw (c_B c) in
  let bw := simple bw (c_A c) in
  simple bw 0.

Definition vp8lSolid (w h : Z) (c : NRGBA) : result Fault string :=
  if (w <? 1) || (h <? 1) || (16384 <? w) || (16384 <? h)
  then Err (Failed ("VP8L dimensions out of range: " +:+ Itoa w +:+ "x" +:+ Itoa h))
  else Ok (String (byte vp8lSignature) (bw_bytes (solid_writer w h c))).

Fixpoint read_symbols (n : nat) (i : Z) (r : bitReader) : result Fault (list Z * bitReader) :=
  match n with
  | O => Ok ([], r)
  | S n =>
      let '(v, r) := br_read r 1 in
      if negb (v =? 1) then Err (Failed ("Huffman code " +:+ Itoa i +:+ " is not a simple code")) else
      let '(k, r) := br_read r 1 in
      if negb (k =? 0) then Err (Failed ("Huffman code " +:+ Itoa i +:+ " declares " +:+ Itoa (k + 1) +:+ " symbols, want 1")) else
      let '(v, r) := br_read r 1 in
      if negb (v =? 1) then Err (Failed ("Huffman code " +:+ Itoa i +:+ " does not use an 8-bit symbol")) else
      let '(s, r) := br_read r 8 in
      let? p := read_symbols n (i + 1) r in
      let '(l, r) := p in Ok (s :: l, r)
  end.

Definition vp8lReadSolid (b : string) : result Fault (Z * Z * NRGBA) :=
  match b with
  | String sig rest =>
    if (len b <? 6) || negb (code sig =? vp8lSignature) then Err (Failed "not a VP8L bitstream") else
    let r := mkReader rest 0 false in
    let '(w, r) := br_read r 14 in
    let '(h, r) := br_read r 14 in
    let '(alpha, r) := br_read r 1 in
    let '(v, r) := br_read r 3 in
    if negb (v =? 0) then Err (Failed ("VP8L version is " +:+ Itoa v +:+ ", want 0")) else
    let '(v, r) := br_read r 1 in
    if negb (v =? 0) then Err (Failed "this reader does not handle VP8L transforms") else
    let '(v, r) := br_read r 1 in
    if negb (v =? 0) then Err (Failed "this reader does not handle a colour cache") else
    let '(v, r) := br_read r 1 in
    if negb (v =? 0) then Err (Failed "this reader does not handle a meta-Huffman image") else
    let? p := read_symbols 5 0 r in
    match p with
    | ([g; red; b; a; _], r) =>
      if r_failed r then Err (Failed "VP8L bitstream ended early") else
      let c := mkNRGBA red g b a in
      if negb (Bool.eqb (alpha =? 1) (c_A c <? 255))
      then Err (Failed ("alpha_is_used is " +:+ bool_text (alpha =? 1) +:+ " but the alpha symbol is " +:+ Itoa (c_A c)))
      else Ok (w + 1, h + 1, c)
    | _ => Err Panic
    end
  | EmptyString => Err (Failed "not a VP8L bitstream")
  end.

(** ** RIFF *)

Definition riffChunk (fourCC payload : string) : string :=
  fourCC +:+ put_le 4 (len payload) +:+ payload +:+ (if Z.odd (len payload) then zeros 1 else "").

Definition put24 (v : Z) : string :=
  String (byte v) (String (byte (Z.shiftr v 8)) (String (byte (Z.shiftr v 16)) "")).

Definition vp8xAnimation : Z := 2.
Definition vp8xAlpha : Z := 16.

Definition animatedWebPFrames : list (NRGBA * Z) :=
  [(mkNRGBA 51 102 153 255, 120); (mkNRGBA 204 68 34 128, 120); (mkNRGBA 17 170 85 64, 160)].

Definition webp_dim : Z := 32.

Fixpoint webp_frames (fs : list (NRGBA * Z)) : result Fault string :=
  match fs with
  | [] => Ok ""%string
  | (c, duration) :: fs =>
      let? frame := vp8lSolid webp_dim webp_dim c in
      let anmf := put24 0 +:+ put24 0 +:+ put24 (webp_dim - 1) +:+ put24 (webp_dim - 1) +:+ put24 duration
                  +:+ zeros 1 +:+ riffChunk "VP8L" frame in
      let? rest := webp_frames fs in
      Ok (riffChunk "ANMF" anmf +:+ rest)
  end.

Definition riff_file (body : string) : string := "RIFF" +:+ put_le 4 (4 + len body) +:+ "WEBP" +:+ body.

Definition buildAnimatedWebP : result Fault string :=
  let vp8x := String (byte (Z.lor vp8xAnimation vp8xAlpha)) (zeros 3) +:+ put24 (webp_dim - 1) +:+ put24 (webp_dim - 1) in
  let anim := zeros 4 +:+ put_le 2 0 in
  let? frames := webp_frames animatedWebPFrames in
  Ok (riff_file (riffChunk "VP8X" vp8x +:+ riffChunk "ANIM" anim +:+ frames)).

(** ** Its checks *)

(** [ck_tail] is the file behind the payload, which a slice expression on the
    payload may reach: it is checked against the capacity. *)
Record riffChunkRef := mkChunk { fourCC : string; ck_payload : string; ck_tail : string }.

Fixpoint scan_chunks (fuel : nat) (b : string) (i : Z) : result Fault (list riffChunkRef) :=
  match fuel with
  | O => Err Panic
  | S fuel =>
      if i + 8 <=? len b then
        let? cc := slice b i (i + 4) in
        let? field := slice b (i + 4) (i + 8) in
        let n := get_le field in
        if len b <? i + 8 + n then Err (Failed ("chunk " +:+ cc +:+ " runs past the end"))
        else
          let? payload := slice b (i + 8) (i + 8 + n) in
          let? rest := scan_chunks fuel b (i + 8 + n + (if Z.odd n then 1 else 0)) in
          Ok (mkChunk cc payload (sdrop (Z.to_nat (i + 8 + n)) b) :: rest)
      else Ok []
  end.

Definition scanRIFF (b : string) : result Fault (list riffChunkRef) :=
  if (len b <? 12) || (stake 4 b <>s "RIFF") || (stake 4 (sdrop 8 b) <>s "WEBP")
  then Err (Failed "not a RIFF/WEBP file")
  else
    let? field := slice b 4 8 in
    if negb (get_le field =? len b - 8)
    then Err (Failed ("the RIFF size field says " +:+ Itoa (get_le field) +:+ ", the file has "
                      +:+ Itoa (len b - 8) +:+ " bytes after it"))
    else scan_chunks (S (String.length b)) b 12.

Fixpoint check_frames (cs : list riffChunkRef) (frames : Z) : result Fault Z :=
  match cs with
  | [] => Ok frames
  | c :: cs =>
      if fourCC c <>s "ANMF" then Err (Failed ("unexpected chunk " +:+ fourCC c +:+ " after ANIM")) else
      if len (ck_payload c) <? 16 + 8 then Err (Failed "ANMF is too short to hold a frame header and a sub-chunk") else
      let? d := slice (ck_payload c) 12 15 in
      if get_le d =? 0 then Err (Failed ("frame " +:+ Itoa frames +:+ " has a zero duration")) else
      let? sub := slice_from (ck_payload c) 16 in
      if stake 4 sub <>s "VP8L"
      then Err (Failed ("frame " +:+ Itoa frames +:+ " carries a " +:+ stake 4 sub +:+ " sub-chunk, want VP8L")) else
      let? field := slice sub 4 8 in
      let n := get_le field in
      if len sub <? 8 + n then Err (Failed ("frame " +:+ Itoa frames +:+ " sub-chunk runs past the ANMF payload")) else
      let? body := slice sub 8 (8 + n) in
      match vp8lReadSolid body with
      | Err (Failed t) => Err (Failed ("frame " +:+ Itoa frames +:+ ": " +:+ t))
      | Err Panic => Err Panic
      | Ok (w, h, col) =>
          if negb (w =? 32) || negb (h =? 32)
          then Err (Failed ("frame " +:+ Itoa frames +:+ " decodes to " +:+ Itoa w +:+ "x" +:+ Itoa h +:+ ", want 32x32")) else
          match nth_error animatedWebPFrames (Z.to_nat frames) with
          | None => Err Panic
          | Some (want, _) => if decide (col = want) then check_frames cs (frames + 1)
                              else Err (Failed ("frame " +:+ Itoa frames +:+ " decodes to another colour"))
          end
      end
  end.

Definition verifyAnimatedWebP (b : string) : result Fault unit :=
  let? chunks := scanRIFF b in
  match chunks with
  | c0 :: c1 :: ((_ :: _) as rest) =>
      if fourCC c0 <>s "VP8X" then Err (Failed ("the first chunk is " +:+ fourCC c0 +:+ ", want VP8X")) else
      let? flags := at_ (ck_payload c0) 0 in
      if Z.land flags vp8xAnimation =? 0
      then Err (Failed "the VP8X ANIMATION flag is not set, so this is not an animated WebP") else
      if Z.land flags vp8xAlpha =? 0 then Err (Failed "the VP8X ALPHA flag is not set") else
      if fourCC c1 <>s "ANIM" then Err (Failed ("the second chunk is " +:+ fourCC c1 +:+ ", want ANIM")) else
      let? field := slice (ck_payload c1 +:+ ck_tail c1) 4 6 in
      if negb (get_le field =? 0) then Err (Failed ("loop count is " +:+ Itoa (get_le field) +:+ ", want 0 (infinite)")) else
      let? frames := check_frames rest 0 in
      if negb (frames =? Z.of_nat (length animatedWebPFrames))
      then Err (Failed (Itoa frames +:+ " frames, want " +:+ Itoa (Z.of_nat (length animatedWebPFrames))))
      else Ok tt
  | _ => Err (Failed (Itoa (Z.of_nat (length chunks)) +:+ " chunks, want VP8X, ANIM and at least one ANMF"))
  end.

(** The animation the generator writes passes its checks. *)
Example webp_verifies :
  match buildAnimatedWebP with Ok b => verifyAnimatedWebP b | Err f => Err f end = Ok tt.
Proof. vm_compute. reflexivity. Qed.

(** A fourth frame is not counted: its colour is looked up first. *)
Example fourth_frame_panics :
  match webp_frames (animatedWebPFrames ++ [(mkNRGBA 1 2 3 4, 100)]) with
  | Ok frames => verifyAnimatedWebP (riff_file (riffChunk "VP8X" (String (byte 18) (zeros 9))
                   +:+ riffChunk "ANIM" (zeros 6) +:+ frames))
  | Err f => Err f
  end = Err Panic.
Proof. vm_compute. reflexivity. Qed.

(** ** The bits a writer holds *)

(** [n] bits of a number from the [i]th on. *)
Definition bits_from (v i : Z) (n : nat) : list bool := Z.testbit v <$> seqZ i (Z.of_nat n).

Lemma bits_from_S v i n : bits_from v i (S n) = Z.testbit v i :: bits_from v (i + 1) n.
Proof.
  unfold bits_from. rewrite seqZ_cons by lia. replace (Z.pred (Z.of_nat (S n))) with (Z.of_nat n) by lia.
  by rewrite <- Z.add_1_r.
Qed.

Lemma bits_from_snoc v i n : bits_from v i (S n) = bits_from v i n ++ [Z.testbit v (i + Z.of_nat n)].
Proof.
  unfold bits_from. replace (Z.of_nat (S n)) with (Z.of_nat n + 1) by lia.
  rewrite seqZ_app by lia. rewrite fmap_app. done.
Qed.

Fixpoint bits_of (s : string) : list bool :=
  match s with EmptyString => [] | String c s => bits_from (code c) 0 8 ++ bits_of s end.

Lemma bits_of_app a b : bits_of (a +:+ b) = bits_of a ++ bits_of b.
Proof. induction a as [|c a IH]; [done|]. autorewrite with str. cbn [bits_of]. by rewrite IH, app_assoc. Qed.

Definition stream (w : bitWriter) : list bool := bits_of (w_buf w) ++ bits_from (w_cur w) 0 (Z.to_nat (w_n w)).

Definition writer_ok (w : bitWriter) : Prop := 0 <= w_n w < 8 /\ 0 <= w_cur w < 2 ^ w_n w.

Lemma bits_from_same v v' i n :
  (forall k, i <= k < i + Z.of_nat n -> Z.testbit v k = Z.testbit v' k) -> bits_from v i n = bits_from v' i n.
Proof.
  revert i. induction n as [|n IH]; intros i H; [done|]. rewrite !bits_from_S. f_equal; [apply H; lia|].
  apply IH. intros k Hk. apply H. lia.
Qed.

Lemma testbit_high v n k : 0 <= v < 2 ^ n -> 0 <= n <= k -> Z.testbit v k = false.
Proof. intros Hv Hn. rewrite <- (Z.mod_small v (2 ^ n)) by done. by apply Z.mod_pow2_bits_high. Qed.

(** One more bit on top of the [n] there are. *)
Lemma push_bit cur n (b : bool) :
  0 <= n -> 0 <= cur < 2 ^ n ->
  let cur' := Z.lor cur (Z.shiftl (Z.b2z b) n) in
  bits_from cur' 0 (Z.to_nat (n + 1)) = bits_from cur 0 (Z.to_nat n) ++ [b] /\ 0 <= cur' < 2 ^ (n + 1).
Proof.
  intros Hn Hc cur'. unfold cur'. replace (Z.to_nat (n + 1)) with (S (Z.to_nat n)) by lia.
  rewrite bits_from_snoc. rewrite Z.add_0_l, Z2Nat.id by lia. split.
  - f_equal; [|f_equal].
    + apply bits_from_same. intros k Hk. rewrite Z.lor_spec, Z.shiftl_spec_low by lia. apply orb_false_r.
    + rewrite Z.lor_spec, (testbit_high cur n n), Z.shiftl_spec, Z.sub_diag by lia. by destruct b.
  - assert (Hd : Z.land cur (Z.shiftl (Z.b2z b) n) = 0).
    { apply Z.bits_inj'. intros k Hk. rewrite Z.land_spec, Z.bits_0.
      destruct (Z.lt_ge_cases k n) as [Hlt|Hge]; [by rewrite Z.shiftl_spec_low, andb_false_r|].
      by rewrite (testbit_high cur n k) by lia. }
    assert (He : Z.lor cur (Z.shiftl (Z.b2z b) n) = cur + Z.shiftl (Z.b2z b) n).
    { pose proof (Z.add_lor_land cur (Z.shiftl (Z.b2z b) n)). lia. }
    rewrite He, Z.shiftl_mul_pow2, Z.pow_add_r by lia. change (2 ^ 1) with 2. destruct b; cbn [Z.b2z]; lia.
Qed.

Lemma land_one v i : 0 <= i -> Z.land (Z.shiftr v i) 1 = Z.b2z (Z.testbit v i).
Proof.
  intros Hi. change 1 with (Z.ones 1). rewrite Z.land_ones by lia. change (2 ^ 1) with 2.
  by rewrite <- Z.bit0_mod, Z.shiftr_spec, Z.add_0_l by lia.
Qed.

Lemma stream_write_bit w b : writer_ok w ->
  stream (write_bit w (Z.b2z b)) = stream w ++ [b] /\ writer_ok (write_bit w (Z.b2z b)).
Proof.
  intros [Hn Hc]. destruct (push_bit (w_cur w) (w_n w) b ltac:(lia) Hc) as [Hb Hr]. unfold write_bit.
  set (cur := Z.lor _ _) in *. destruct (Z.eqb_spec (w_n w + 1) 8) as [H8|H8].
  - split; [|split; cbn; lia]. unfold stream. cbn [w_buf w_cur w_n].
    rewrite bits_of_app. cbn [bits_of]. rewrite H8 in Hb, Hr. change (Z.to_nat 8) with 8%nat in Hb.
    rewrite code_byte, Z.mod_small by (change 256 with (2 ^ 8); lia). rewrite Hb, !app_nil_r, app_assoc. done.
  - split; [|split; cbn; lia]. unfold stream. cbn [w_buf w_cur w_n]. by rewrite Hb, app_assoc.
Qed.

Lemma stream_write_bits v n : forall w i, writer_ok w -> 0 <= i ->
  stream (write_bits w v i n) = stream w ++ bits_from v i n /\ writer_ok (write_bits w v i n).
Proof.
  induction n as [|n IH]; intros w i Hw Hi; [by rewrite app_nil_r|]. cbn [write_bits].
  rewrite land_one by done. destruct (stream_write_bit w (Z.testbit v i) Hw) as [Hs Hok].
  destruct (IH _ (i + 1) Hok ltac:(lia)) as [-> Hok']. split; [|done].
  by rewrite Hs, bits_from_S, <- app_assoc.
Qed.

Lemma stream_write w v n : writer_ok w ->
  stream (bw_write w v n) = stream w ++ bits_from v 0 n /\ writer_ok (bw_write w v n).
Proof. intros. by apply stream_write_bits. Qed.

Lemma stream_bytes w : writer_ok w -> exists pad, bits_of (bw_bytes w) = stream w ++ pad.
Proof.
  intros [Hn Hc]. unfold bw_bytes, stream. destruct (Z.ltb_spec 0 (w_n w)) as [Hp|Hz].
  - rewrite bits_of_app. cbn [bits_of]. rewrite code_byte, Z.mod_small, app_nil_r.
    2: { split; [lia|]. eapply Z.lt_le_trans; [apply Hc|]. change 256 with (2 ^ 8). apply Z.pow_le_mono_r; lia. }
    exists (bits_from (w_cur w) (w_n w) (8 - Z.to_nat (w_n w))). rewrite <- app_assoc. f_equal.
    unfold bits_from. rewrite <- fmap_app. f_equal.
    replace (Z.of_nat 8) with (w_n w + (8 - w_n w)) by lia. rewrite seqZ_app by lia. f_equal; f_equal; lia.
  - exists []. replace (w_n w) with 0 by lia. by rewrite !app_nil_r.
Qed.

(** ** Reading the bits back *)

Lemma lookup_bits_from v i n k : (k < n)%nat -> bits_from v i n !! k = Some (Z.testbit v (i + Z.of_nat k)).
Proof. intros H. unfold bits_from. rewrite list_lookup_fmap, lookup_seqZ_lt by lia. done. Qed.

Lemma length_bits_from v i n : length (bits_from v i n) = n.
Proof. unfold bits_from. rewrite length_fmap, length_seqZ. lia. Qed.

Lemma lookup_bits_of s : forall k, 0 <= k -> bits_of s !! Z.to_nat k
  = match sget (Z.to_nat (k / 8)) s with Some c => Some (Z.testbit (code c) (k mod 8)) | None => None end.
Proof.
  induction s as [|c s IH]; intros k Hk; [by destruct (Z.to_nat (k / 8))|]. cbn [bits_of].
  destruct (Z.lt_ge_cases k 8) as [Hlt|Hge].
  - rewrite lookup_app_l by (rewrite length_bits_from; lia).
    rewrite lookup_bits_from by lia. rewrite (Z.div_small k 8), (Z.mod_small k 8) by lia. cbn [Z.to_nat sget].
    do 2 f_equal. lia.
  - rewrite lookup_app_r by (rewrite length_bits_from; lia). rewrite length_bits_from.
    replace (Z.to_nat k - 8)%nat with (Z.to_nat (k - 8)) by lia. rewrite IH by lia.
    assert (Hq : k / 8 = (k - 8) / 8 + 1) by (Z.div_mod_to_equations; lia).
    assert (Hm : k mod 8 = (k - 8) mod 8) by (Z.div_mod_to_equations; lia). rewrite Hq, Hm.
    assert (0 <= (k - 8) / 8) by (apply Z.div_pos; lia).
    replace (Z.to_nat ((k - 8) / 8 + 1)) with (S (Z.to_nat ((k - 8) / 8))) by lia. done.
Qed.

Lemma mod_push x i : 0 <= i -> Z.lor (x mod 2 ^ i) (Z.shiftl (Z.b2z (Z.testbit x i)) i) = x mod 2 ^ (i + 1).
Proof.
  intros Hi. apply Z.bits_inj'. intros k Hk. rewrite Z.lor_spec.
  destruct (Z.lt_ge_cases k i) as [Hlt|Hge].
  - rewrite Z.shiftl_spec_low, orb_false_r by done. rewrite !Z.mod_pow2_bits_low by lia. done.
  - rewrite Z.mod_pow2_bits_high, orb_false_l, Z.shiftl_spec by lia.
    destruct (Z.eq_dec k i) as [->|Hne].
    + rewrite Z.sub_diag, Z.mod_pow2_bits_low by lia. by destruct (Z.testbit x i).
    + rewrite Z.mod_pow2_bits_high by lia. destruct (Z.testbit x i); cbn [Z.b2z].
      * apply (testbit_high 1 1); [done|lia].
      * apply Z.bits_0.
Qed.

Lemma read_bits_ok r x n : forall i, 0 <= r_pos r -> 0 <= i ->
  (forall k, (k < n)%nat -> bits_of (r_b r) !! Z.to_nat (r_pos r + i + Z.of_nat k) = Some (Z.testbit x (i + Z.of_nat k))) ->
  read_bits r (x mod 2 ^ i) i n = (x mod 2 ^ (i + Z.of_nat n), false).
Proof.
  induction n as [|n IH]; intros i Hp Hi H; cbn [read_bits]; [by rewrite Z.add_0_r|].
  pose proof (H 0%nat ltac:(lia)) as H0. rewrite !Z.add_0_r in H0. rewrite lookup_bits_of in H0 by lia.
  destruct (sget _ _) as [c|]; [|done]. injection H0 as H0.
  rewrite land_one by (apply Z.mod_pos_bound; lia). rewrite H0, mod_push by done.
  rewrite IH; [do 2 f_equal; f_equal; lia|done|lia|]. intros k Hk.
  replace (r_pos r + (i + 1) + Z.of_nat k) with (r_pos r + i + Z.of_nat (S k)) by lia.
  rewrite H by lia. do 2 f_equal. lia.
Qed.

(** A reader that has a number and then [rest] ahead. *)
Lemma br_read_ok r x n rest :
  0 <= r_pos r -> 0 <= x < 2 ^ Z.of_nat n ->
  drop (Z.to_nat (r_pos r)) (bits_of (r_b r)) = bits_from x 0 n ++ rest ->
  br_read r n = (x, mkReader (r_b r) (r_pos r + Z.of_nat n) (r_failed r))
  /\ drop (Z.to_nat (r_pos r + Z.of_nat n)) (bits_of (r_b r)) = rest.
Proof.
  intros Hp Hx Hd. unfold br_read. split.
  - replace 0 with (x mod 2 ^ 0) at 1 by apply Z.mod_1_r. rewrite (read_bits_ok r x n 0); [|done|done|].
    + rewrite Z.add_0_l, Z.mod_small by done. done.
    + intros k Hk. rewrite Z.add_0_r, Z.add_0_l. replace (Z.to_nat (r_pos r + Z.of_nat k)) with (Z.to_nat (r_pos r) + k)%nat by lia.
      rewrite <- lookup_drop, Hd, lookup_app_l by (rewrite length_bits_from; lia). by rewrite lookup_bits_from.
  - replace (Z.to_nat (r_pos r + Z.of_nat n)) with (Z.to_nat (r_pos r) + n)%nat by lia.
    rewrite <- drop_drop, Hd. by rewrite drop_app_length' by (by rewrite length_bits_from).
Qed.

Lemma br_next b pos x n rest :
  0 <= x < 2 ^ Z.of_nat n -> 0 <= pos ->
  drop (Z.to_nat pos) (bits_of b) = bits_from x 0 n ++ rest ->
  br_read (mkReader b pos false) n = (x, mkReader b (pos + Z.of_nat n) false)
  /\ 0 <= pos + Z.of_nat n /\ drop (Z.to_nat (pos + Z.of_nat n)) (bits_of b) = rest.
Proof.
  intros Hx Hp Hd. destruct (br_read_ok (mkReader b pos false) x n rest Hp Hx Hd) as [Hr Hd'].
  split; [exact Hr|]. split; [lia|exact Hd'].
Qed.

(** ** A frame is read back *)

Definition fields_bits (fs : list (Z * nat)) : list bool := mbind (fun f => bits_from f.1 0 f.2) fs.

Lemma stream_fields fs : forall w, writer_ok w ->
  let w' := foldl (fun w f => bw_write w f.1 f.2) w fs in
  stream w' = stream w ++ fields_bits fs /\ writer_ok w'.
Proof.
  induction fs as [|[v n] fs IH]; intros w Hw; [by rewrite app_nil_r|]. csimpl.
  destruct (stream_write w v n Hw) as [Hs Hok]. destruct (IH _ Hok) as [Hs' Hok'].
  split; [|done]. etransitivity; [exact Hs'|]. rewrite Hs, <- app_assoc. done.
Qed.

Lemma length_bits_of s : length (bits_of s) = (8 * String.length s)%nat.
Proof. induction s as [|c s IH]; [done|]. cbn [bits_of String.length]. rewrite length_app, length_bits_from, IH. lia. Qed.

Definition symbol_fields (s : Z) : list (Z * nat) := [(1, 1%nat); (0, 1%nat); (1, 1%nat); (s, 8%nat)].

Definition byte_ok (v : Z) : Prop := 0 <= v <= 255.

Lemma read_symbols_ok syms : forall b pos i rest,
  Forall byte_ok syms -> 0 <= pos ->
  drop (Z.to_nat pos) (bits_of b) = fields_bits (mbind symbol_fields syms) ++ rest ->
  exists pos', read_symbols (length syms) i (mkReader b pos false) = Ok (syms, mkReader b pos' false).
Proof.
  induction syms as [|s syms IH]; intros b pos i rest Hok Hp Hd; [by exists pos|].
  inversion Hok as [|? ? Hs Hok']; subst. unfold byte_ok in Hs.
  change (fields_bits (mbind symbol_fields (s :: syms))) with
    (bits_from 1 0 1 ++ bits_from 0 0 1 ++ bits_from 1 0 1 ++ bits_from s 0 8 ++ fields_bits (mbind symbol_fields syms)) in Hd.
  rewrite <- !app_assoc in Hd. cbn [length read_symbols].
  destruct (br_next _ _ 1 1 _ ltac:(done) Hp Hd) as (-> & Hp1 & Hd1).
  destruct (br_next _ _ 0 1 _ ltac:(done) Hp1 Hd1) as (-> & Hp2 & Hd2).
  destruct (br_next _ _ 1 1 _ ltac:(done) Hp2 Hd2) as (-> & Hp3 & Hd3).
  destruct (br_next _ _ s 8 _ ltac:(change (2 ^ Z.of_nat 8) with 256; lia) Hp3 Hd3) as (-> & Hp4 & Hd4).
  cbn [Z.eqb negb Pos.eqb].
  destruct (IH b _ (i + 1) rest Hok' Hp4 Hd4) as [pos' ->]. by exists pos'.
Qed.

Definition solid_fields (w h : Z) (c : NRGBA) : list (Z * nat) :=
  [(w - 1, 14%nat); (h - 1, 14%nat); (if c_A c <? 255 then 1 else 0, 1%nat); (0, 3%nat); (0, 1%nat); (0, 1%nat); (0, 1%nat)]
  ++ mbind symbol_fields [c_G c; c_R c; c_B c; c_A c; 0].

Lemma solid_writer_fields w h c :
  solid_writer w h c = foldl (fun w f => bw_write w f.1 f.2) (mkWriter "" 0 0) (solid_fields w h c).
Proof. unfold solid_writer, simple, solid_fields, symbol_fields. cbn -[bw_write]. reflexivity. Qed.

(** What the frame writer writes, the independent reader reads: the size and
    the colour, for every size VP8L has and every colour. *)
Theorem vp8l_reads_back w h c :
  1 <= w <= 16384 -> 1 <= h <= 16384 ->
  byte_ok (c_R c) -> byte_ok (c_G c) -> byte_ok (c_B c) -> byte_ok (c_A c) ->
  exists b, vp8lSolid w h c = Ok b /\ vp8lReadSolid b = Ok (w, h, c).
Proof.
  intros Hw Hh HR HG HB HA. unfold vp8lSolid.
  rewrite (proj2 (Z.ltb_ge w 1)), (proj2 (Z.ltb_ge h 1)), (proj2 (Z.ltb_ge 16384 w)), (proj2 (Z.ltb_ge 16384 h)) by lia.
  cbn [orb]. cbv zeta. eexists. split; [reflexivity|].
  set (alpha := if c_A c <? 255 then 1 else 0). set (syms := [c_G c; c_R c; c_B c; c_A c; 0]).
  rewrite solid_writer_fields. set (fs := solid_fields w h c).
  destruct (stream_fields fs (mkWriter "" 0 0)) as [Hs Hok]; [split; cbn; lia|].
  destruct (stream_bytes _ Hok) as [pad Hb]. cbv zeta in Hs. rewrite Hs in Hb. clear Hs Hok.
  set (b := bw_bytes _) in *. clearbody b. change (stream (mkWriter "" 0 0)) with (@nil bool) in Hb. cbn [app] in Hb.
  assert (Hlen : 6 <= len (String (byte vp8lSignature) b)).
  { pose proof (length_bits_of b) as Hl. rewrite Hb, length_app in Hl. unfold len. cbn [String.length].
    assert (length (fields_bits fs) = 90%nat) by reflexivity. lia. }
  unfold vp8lReadSolid. rewrite (proj2 (Z.ltb_ge _ _)) by exact Hlen.
  change (code (byte vp8lSignature) =? vp8lSignature) with true. cbn [negb orb].
  assert (Hd0 : drop (Z.to_nat 0) (bits_of b) = bits_from (w - 1) 0 14 ++ bits_from (h - 1) 0 14 ++ bits_from alpha 0 1
    ++ bits_from 0 0 3 ++ bits_from 0 0 1 ++ bits_from 0 0 1 ++ bits_from 0 0 1
    ++ fields_bits (mbind symbol_fields syms) ++ pad).
  { rewrite drop_0, Hb. reflexivity. }
  assert (Hal : 0 <= alpha < 2 ^ Z.of_nat 1) by (unfold alpha; destruct (c_A c <? 255); done).
  destruct (br_next _ 0 (w - 1) 14 _ ltac:(change (2 ^ Z.of_nat 14) with 16384; lia) ltac:(done) Hd0) as (-> & Hp1 & Hd1).
  destruct (br_next _ _ (h - 1) 14 _ ltac:(change (2 ^ Z.of_nat 14) with 16384; lia) Hp1 Hd1) as (-> & Hp2 & Hd2).
  destruct (br_next _ _ alpha 1 _ Hal Hp2 Hd2) as (-> & Hp3 & Hd3).
  destruct (br_next _ _ 0 3 _ ltac:(done) Hp3 Hd3) as (-> & Hp4 & Hd4).
  destruct (br_next _ _ 0 1 _ ltac:(done) Hp4 Hd4) as (-> & Hp5 & Hd5).
  destruct (br_next _ _ 0 1 _ ltac:(done) Hp5 Hd5) as (-> & Hp6 & Hd6).
  destruct (br_next _ _ 0 1 _ ltac:(done) Hp6 Hd6) as (-> & Hp7 & Hd7).
  cbn [Z.eqb negb].
  destruct (read_symbols_ok syms b _ 0 pad ltac:(repeat constructor; unfold byte_ok in *; lia) Hp7 Hd7) as [pos' Hsy].
  change (length syms) with 5%nat in Hsy. rewrite Hsy. unfold syms. cbn [r_failed c_A].
  replace (w - 1 + 1) with w by lia. replace (h - 1 + 1) with h by lia.
  unfold alpha. by destruct c as [? ? ? a]; cbn [c_A c_R c_G c_B]; destruct (a <? 255).
Qed.

Lemma vp8l_reads_back_witness :
  exists b, vp8lSolid 32 7 (mkNRGBA 204 68 34 128) = Ok b /\ vp8lReadSolid b = Ok (32, 7, mkNRGBA 204 68 34 128).
Proof. apply vp8l_reads_back; unfold byte_ok; cbn; lia. Defined.

(** ** The container is read back *)

Definition write_chunk (c : riffChunkRef) : string := riffChunk (fourCC c) (ck_payload c).

Definition chunk_ok (c : riffChunkRef) : Prop := len (fourCC c) = 4 /\ len (ck_payload c) < 2 ^ 32.

Definition chunk_pad (c : riffChunkRef) : string := if Z.odd (len (ck_payload c)) then zeros 1 else "".

(** Behind each payload lie its padding and the chunks after it. *)
Fixpoint chunks_chained (l : list riffChunkRef) : Prop :=
  match l with
  | [] => True
  | c :: l => ck_tail c = chunk_pad c +:+ concat (map write_chunk l) /\ chunks_chained l
  end.

Lemma scan_chunks_complete l : forall fuel b i, (length l < fuel)%nat -> 0 <= i <= len b ->
  sdrop (Z.to_nat i) b = concat (map write_chunk l) -> Forall chunk_ok l -> chunks_chained l ->
  scan_chunks fuel b i = Ok l.
Proof.
  induction l as [|c l IH]; intros [|fuel] b i Hf Hi Hd Hok Hch; cbn [length] in Hf; try lia; cbn [scan_chunks].
  - assert (Hl : len (sdrop (Z.to_nat i) b) = len b - i) by (rewrite len_sdrop; lia). rewrite Hd in Hl.
    change (len (concat (map write_chunk []))) with 0 in Hl. rewrite (proj2 (Z.leb_gt _ _)) by lia. done.
  - inversion Hok as [|? ? [Hc Hs] Hok']; subst. cbn [map concat] in Hd. destruct Hch as [Htail Hch].
    set (pad := if Z.odd (len (ck_payload c)) then zeros 1 else ""%string).
    change (write_chunk c) with (fourCC c +:+ put_le 4 (len (ck_payload c)) +:+ ck_payload c +:+ pad) in Hd.
    rewrite !sapp_assoc in Hd. pose proof (len_nonneg (ck_payload c)).
    destruct (drop_slice _ _ _ _ Hi Hd) as (Hl1 & Hs1 & Hd1). rewrite Hc in Hl1, Hs1, Hd1.
    destruct (drop_slice b (i + 4) _ _ ltac:(lia) Hd1) as (Hl2 & Hs2 & Hd2). rewrite len_put_le in Hl2, Hs2, Hd2.
    change (Z.of_nat 4) with 4 in *. replace (i + 4 + 4) with (i + 8) in * by lia.
    destruct (drop_slice b (i + 8) _ _ ltac:(lia) Hd2) as (Hl3 & Hs3 & Hd3).
    destruct (drop_slice b (i + 8 + len (ck_payload c)) _ _ ltac:(lia) Hd3) as (Hl4 & _ & Hd4).
    assert (Hpad : len pad = if Z.odd (len (ck_payload c)) then 1 else 0) by (unfold pad; by destruct (Z.odd _)).
    rewrite Hpad in Hl4, Hd4. rewrite (proj2 (Z.leb_le _ _)), Hs1, Hs2 by lia.
    rewrite get_put_le by (change (256 ^ Z.of_nat 4) with (2 ^ 32); lia).
    rewrite (proj2 (Z.ltb_ge _ _)), Hs3 by lia.
    rewrite (IH fuel b _) by first [done|lia|destruct (Z.odd (len (ck_payload c))); lia].
    rewrite Hd3. unfold pad. fold (chunk_pad c). rewrite <- Htail. by destruct c.
Qed.

(** A container written chunk by chunk is read as those chunks. *)
Lemma riff_reads_back l :
  Forall chunk_ok l -> chunks_chained l -> 4 + len (concat (map write_chunk l)) < 2 ^ 32 ->
  scanRIFF (riff_file (concat (map write_chunk l))) = Ok l.
Proof.
  intros Hl Hch Hs. set (body := concat (map write_chunk l)) in *. pose proof (len_nonneg body).
  assert (Hlen : len (riff_file body) = 12 + len body).
  { unfold riff_file. rewrite !len_app, len_put_le. change (len "RIFF") with 4. change (len "WEBP") with 4. lia. }
  assert (Hfield : slice (riff_file body) 4 8 = Ok (put_le 4 (4 + len body))).
  { unfold riff_file. apply (slice_middle "RIFF" (put_le 4 (4 + len body))); reflexivity. }
  unfold scanRIFF. rewrite Hlen, (proj2 (Z.ltb_ge _ _)) by lia. rewrite Hfield.
  change (stake 4 (riff_file body)) with "RIFF"%string.
  change (stake 4 (sdrop 8 (riff_file body))) with (stake 4 ("WEBP" +:+ body)).
  change (stake 4 ("WEBP" +:+ body)) with "WEBP"%string. cbn [String.eqb negb orb].
  rewrite get_put_le by (change (256 ^ Z.of_nat 4) with (2 ^ 32); lia).
  rewrite (proj2 (Z.eqb_eq _ _)) by lia. cbn [negb].
  apply scan_chunks_complete; [|lia|reflexivity|done|done].
  assert (Hn : (length l <= String.length body)%nat).
  { unfold body. clear -Hl. induction Hl as [|c l [Hc _] _ IH]; [done|]. cbn [map concat length].
    rewrite length_sapp. change (write_chunk c) with (fourCC c +:+ (put_le 4 (len (ck_payload c)) +:+ ck_payload c
      +:+ (if Z.odd (len (ck_payload c)) then zeros 1 else ""))). rewrite length_sapp. unfold len in Hc at 1. lia. }
  unfold len in Hlen. lia.
Qed.
