(* ===== verification/Png.v ===== *)
(** * PNG files (src/internal/fixtures/png.go)

    The chunk writer with its CRC, the independent reader, the raw raster
    writer behind the oversized picture and the decoder bomb, and their
    checks.  zlib and image/png are parameters. *)

From stdpp Require Import list_numbers.
From S2P Require Import Prelude Utf8 GoStrings GoFmt Sha256 Bytes Codecs.

Definition oversizedDim : Z := 30000.
Definition bombDim : Z := 4200.

(** zlib.BestSpeed. *)
Definition bigRasterLevel : Z := 1.

(** ** Writing *)

Definition pngMagic : string :=
  String (byte 137) ("PNG" +:+ String (byte 13) (String (byte 10) (String (byte 26) (String (byte 10) "")))).

Definition pngChunk (typ data : string) : string :=
  put_be 4 (len data) +:+ typ +:+ data +:+ put_be 4 (ChecksumIEEE (typ +:+ data)).

Definition ihdr (w h bitDepth colorType : Z) : string :=
  put_be 4 w +:+ put_be 4 h +:+ String (byte bitDepth) (String (byte colorType) (zeros 3)).

(** The rows, each after its filter byte. *)
Definition raster (h : Z) (rowFn : Z -> string) : string :=
  concat (map (fun y => String (byte 0) (rowFn y)) (seqZ 0 h)).

Section Png.
Context `{HZ : Zlib, HP : PngCodec}.

(** [rowFn] gives the bytes it leaves in a cleared row. *)
Definition rawPNG (w h bitDepth colorType level : Z) (rowFn : Z -> string) : result Fault string :=
  match deflate level (raster h rowFn) with
  | Err t => Err (Failed t)
  | Ok idat => Ok (pngMagic +:+ pngChunk "IHDR" (ihdr w h bitDepth colorType) +:+ pngChunk "IDAT" idat +:+ pngChunk "IEND" "")
  end.

(** The picture with the three kinds of alpha: red, green, blue, alpha of each
    pixel, row by row. *)
Definition alpha_dim : Z := 96.

Definition alpha_pixel (x y : Z) : list Z :=
  let n := alpha_dim in
  let a := if y <? n / 6 then 0 else if n - n / 6 <=? y then 255 else (x * 255 / (n - 1)) mod 256 in
  [(255 - x * 255 / (n - 1)) mod 256; (y * 255 / (n - 1)) mod 256; ((x + y) * 255 / (2 * (n - 1))) mod 256; a].

Definition alpha_pixels : list Z :=
  mbind (fun y => mbind (fun x => alpha_pixel x y) (seqZ 0 alpha_dim)) (seqZ 0 alpha_dim).

Definition buildAlphaPNG : result Fault string :=
  match png_encode alpha_dim alpha_dim alpha_pixels with Ok b => Ok b | Err t => Err (Failed t) end.

Fixpoint repeated (c : ascii) (n : nat) : string := match n with O => "" | S n => String c (repeated c n) end.

Definition oversized_row (y : Z) : string :=
  let rowBytes := Z.to_nat ((oversizedDim + 7) / 8) in
  if y mod 1024 =? 0 then repeated (byte 170) rowBytes else zeros rowBytes.

Definition buildOversizedPNG : result Fault string :=
  rawPNG oversizedDim oversizedDim 1 0 bigRasterLevel oversized_row.

Definition buildBombPNG : result Fault string :=
  rawPNG bombDim bombDim 8 6 bigRasterLevel (fun _ => zeros (Z.to_nat (bombDim * 4))).

(** ** Reading *)

Record pngHeader := mkHeader { h_w : Z; h_h : Z; h_bitDepth : Z; h_colorType : Z; h_idat : string }.

Definition no_header : pngHeader := mkHeader 0 0 0 0 "".

(** One chunk of a type other than IEND: the header after it.  The fields of
    IHDR are read without a check of its length.  [data[0:4]] and [data[4:8]]
    are checked against the capacity of the slice and may reach behind a short
    chunk, but then [data[8]] is out of its length: shorter than ten bytes, the
    chunk panics either way. *)
Definition read_chunk (h : pngHeader) (typ data : string) : result Fault pngHeader :=
  if typ =s "IHDR" then
    let? w := slice data 0 4 in
    let? hh := slice data 4 8 in
    let? bd := at_ data 8 in
    let? ct := at_ data 9 in
    Ok (mkHeader (get_be w) (get_be hh) bd ct (h_idat h))
  else if typ =s "IDAT" then Ok (mkHeader (h_w h) (h_h h) (h_bitDepth h) (h_colorType h) (h_idat h +:+ data))
  else Ok h.

Fixpoint scan_png (fuel : nat) (b : string) (i : Z) (h : pngHeader) (seenIHDR : bool) : result Fault pngHeader :=
  match fuel with
  | O => Err Panic
  | S fuel =>
      if i + 8 <=? len b then
        let? field := slice b i (i + 4) in
        let n := get_be field in
        let? typ := slice b (i + 4) (i + 8) in
        if len b <? i + 12 + n then Err (Failed ("chunk " +:+ typ +:+ " runs past the end"))
        else
          let? data := slice b (i + 8) (i + 8 + n) in
          let? want := slice b (i + 8 + n) (i + 12 + n) in
          let? body := slice b (i + 4) (i + 8 + n) in
          if negb (ChecksumIEEE body =? get_be want) then Err (Failed ("chunk " +:+ typ +:+ " has a bad CRC"))
          else if typ =s "IEND" then
            if seenIHDR then Ok h else Err (Failed "IEND before IHDR")
          else
            let? h := read_chunk h typ data in
            scan_png fuel b (i + 12 + n) h (seenIHDR || (typ =s "IHDR"))
      else Err (Failed "no IEND chunk")
  end.

Definition scanPNG (b : string) : result Fault pngHeader :=
  if (len b <? 8) || (stake 8 b <>s pngMagic) then Err (Failed "not a PNG: bad signature")
  else scan_png (S (String.length b)) b 8 no_header false.

(** ** Checks *)

Definition inflatedSize (idat : string) : result Fault Z :=
  match inflate idat with
  | Ok s => Ok (len s)
  | Err t => Err (Failed ("the IDAT stream does not inflate cleanly: " +:+ t))
  end.

Definition verifyAlphaPNG (b : string) : result Fault unit :=
  let? h := scanPNG b in
  if negb (h_colorType h =? 6) || negb (h_bitDepth h =? 8)
  then Err (Failed ("colour type " +:+ Itoa (h_colorType h) +:+ " bit depth " +:+ Itoa (h_bitDepth h) +:+ ", want 6/8 (RGBA)"))
  else match png_alpha b with
       | Err t => Err (Failed t)
       | Ok alphas =>
           let sawZero := existsb (Z.eqb 0) alphas in
           let sawOpaque := existsb (Z.eqb 65535) alphas in
           let sawPartial := existsb (fun a => negb (a =? 0) && negb (a =? 65535)) alphas in
           if sawZero && sawPartial && sawOpaque then Ok tt else Err (Failed ("alpha coverage incomplete: transparent="
             +:+ bool_text sawZero +:+ " partial=" +:+ bool_text sawPartial +:+ " opaque=" +:+ bool_text sawOpaque))
       end.

Definition verifyOversizedPNG (b : string) : result Fault unit :=
  let? h := scanPNG b in
  if negb (h_w h =? oversizedDim) || negb (h_h h =? oversizedDim)
  then Err (Failed ("IHDR declares " +:+ Itoa (h_w h) +:+ "x" +:+ Itoa (h_h h) +:+ ", want 30000x30000"))
  else if negb (h_w h * h_h h =? 900000000) then Err (Failed (Itoa (h_w h * h_h h) +:+ " declared pixels, want 900,000,000"))
  else if 512 * 1024 <? len b then Err (Failed ("the fixture is " +:+ Itoa (len b) +:+ " bytes; it must stay under 512 KiB or file size becomes a usable proxy for the risk it models"))
  else match png_config b with
       | Err t => Err (Failed ("DecodeConfig must succeed — the guard has to refuse on the DECLARED size, not on a parse error: " +:+ t))
       | Ok (w, hh) => if negb (w =? oversizedDim) || negb (hh =? oversizedDim)
                       then Err (Failed ("DecodeConfig reports " +:+ Itoa w +:+ "x" +:+ Itoa hh)) else Ok tt
       end.

Definition verifyBombPNG (b : string) : result Fault unit :=
  let? h := scanPNG b in
  if negb (h_w h =? bombDim) || negb (h_h h =? bombDim)
  then Err (Failed ("IHDR declares " +:+ Itoa (h_w h) +:+ "x" +:+ Itoa (h_h h) +:+ ", want 4200x4200"))
  else if 20000000 <? h_w h * h_h h then Err (Failed (Itoa (h_w h * h_h h) +:+ " declared pixels: too many. This fixture must slip past a pixel-count guard so that the BYTE budget is what catches it"))
  else
    let? n := inflatedSize (h_idat h) in
    let want := bombDim * (1 + bombDim * 4) in
    if negb (n =? want) then Err (Failed ("the IDAT inflates to " +:+ Itoa n +:+ " bytes, want " +:+ Itoa want))
    else if n <? 64 * 1024 * 1024 then Err (Failed ("the decompressed raster is " +:+ Itoa n +:+ " bytes; it must exceed 64 MiB"))
    else if len (h_idat h) =? 0 then Err Panic
    else if Z.quot n (len (h_idat h)) <? 500
    then Err (Failed ("the IDAT expansion ratio is " +:+ Itoa (Z.quot n (len (h_idat h))) +:+ ":1, want at least 500:1"))
    else Ok tt.
End Png.

(** An IHDR of fewer than ten bytes is not reported: reading it panics. *)
Example short_ihdr_panics : scanPNG (pngMagic +:+ pngChunk "IHDR" "abcdefgh") = Err Panic.
Proof. vm_compute. reflexivity. Qed.

(** ** The reader meets a chunk *)

Lemma scan_png_raw fuel b i h seen typ data crc rest :
  0 <= i <= len b -> len typ = 4 -> len data < 2 ^ 32 -> len crc = 4 ->
  sdrop (Z.to_nat i) b = put_be 4 (len data) +:+ typ +:+ data +:+ crc +:+ rest ->
  i + 12 + len data <= len b /\ sdrop (Z.to_nat (i + 12 + len data)) b = rest
  /\ scan_png (S fuel) b i h seen
     = if negb (ChecksumIEEE (typ +:+ data) =? get_be crc) then Err (Failed ("chunk " +:+ typ +:+ " has a bad CRC"))
       else if typ =s "IEND" then if seen then Ok h else Err (Failed "IEND before IHDR")
       else let? h := read_chunk h typ data in
            scan_png fuel b (i + 12 + len data) h (seen || (typ =s "IHDR")).
Proof.
  intros Hi Ht Hd Hcrc Hb. pose proof (len_nonneg data).
  assert (Hbody : sdrop (Z.to_nat i) b = put_be 4 (len data) +:+ (typ +:+ data) +:+ crc +:+ rest)
    by (rewrite Hb, !sapp_assoc; done).
  destruct (drop_slice _ _ _ _ Hi Hb) as (Hl1 & Hs1 & Hd1). rewrite len_put_be in Hl1, Hs1, Hd1. change (Z.of_nat 4) with 4 in *.
  destruct (drop_slice b (i + 4) _ _ ltac:(lia) Hd1) as (Hl2 & Hs2 & Hd2). rewrite Ht in Hl2, Hs2, Hd2.
  replace (i + 4 + 4) with (i + 8) in * by lia.
  destruct (drop_slice b (i + 8) _ _ ltac:(lia) Hd2) as (Hl3 & Hs3 & Hd3).
  destruct (drop_slice b (i + 8 + len data) _ _ ltac:(lia) Hd3) as (Hl4 & Hs4 & Hd4). rewrite Hcrc in Hl4, Hs4, Hd4.
  destruct (drop_slice _ _ _ _ Hi Hbody) as (_ & _ & Hd5). rewrite len_put_be in Hd5. change (Z.of_nat 4) with 4 in *.
  destruct (drop_slice b (i + 4) _ _ ltac:(lia) Hd5) as (_ & Hs5 & _). rewrite len_app, Ht in Hs5.
  replace (i + 4 + (4 + len data)) with (i + 8 + len data) in Hs5 by lia.
  replace (i + 8 + len data + 4) with (i + 12 + len data) in * by lia.
  split; [lia|]. split; [done|]. cbn [scan_png]. rewrite (proj2 (Z.leb_le _ _)), Hs1, Hs2 by lia.
  rewrite get_put_be by (change (256 ^ Z.of_nat 4) with (2 ^ 32); lia).
  by rewrite (proj2 (Z.ltb_ge _ _)), Hs3, Hs4, Hs5 by lia.
Qed.

Lemma get_crc s : get_be (put_be 4 (ChecksumIEEE s)) = ChecksumIEEE s.
Proof. apply get_put_be. change (256 ^ Z.of_nat 4) with (2 ^ 32). apply ChecksumIEEE_bound. Qed.

Lemma scan_png_chunk fuel b i h seen typ data rest :
  0 <= i <= len b -> len typ = 4 -> len data < 2 ^ 32 ->
  sdrop (Z.to_nat i) b = pngChunk typ data +:+ rest ->
  i + 12 + len data <= len b /\ sdrop (Z.to_nat (i + 12 + len data)) b = rest
  /\ scan_png (S fuel) b i h seen
     = if typ =s "IEND" then if seen then Ok h else Err (Failed "IEND before IHDR")
       else let? h := read_chunk h typ data in
            scan_png fuel b (i + 12 + len data) h (seen || (typ =s "IHDR")).
Proof.
  intros Hi Ht Hd Hb. unfold pngChunk in Hb. rewrite !sapp_assoc in Hb.
  destruct (scan_png_raw fuel b i h seen _ _ _ _ Hi Ht Hd (len_put_be 4 _) Hb) as (H1 & H2 & H3).
  rewrite H3, get_crc, Z.eqb_refl. done.
Qed.

Lemma ihdr_read w h bd ct hd :
  0 <= w < 2 ^ 32 -> 0 <= h < 2 ^ 32 -> 0 <= bd <= 255 -> 0 <= ct <= 255 ->
  read_chunk hd "IHDR" (ihdr w h bd ct) = Ok (mkHeader w h bd ct (h_idat hd)).
Proof.
  intros Hw Hh Hb Hc. unfold read_chunk. rewrite String.eqb_refl.
  assert (H1 : slice (ihdr w h bd ct) 0 4 = Ok (put_be 4 w)) by reflexivity.
  assert (H2 : slice (ihdr w h bd ct) 4 8 = Ok (put_be 4 h)) by reflexivity.
  assert (H3 : at_ (ihdr w h bd ct) 8 = Ok (code (byte bd))) by reflexivity.
  assert (H4 : at_ (ihdr w h bd ct) 9 = Ok (code (byte ct))) by reflexivity.
  rewrite H1, H2, H3, H4, !get_put_be by (change (256 ^ Z.of_nat 4) with (2 ^ 32); lia).
  by rewrite !code_byte, !Z.mod_small by lia.
Qed.

(** A file written by [rawPNG] is read as the header and the compressed data it
    was written with. *)
Lemma png_reads_back w h bd ct idat :
  0 <= w < 2 ^ 32 -> 0 <= h < 2 ^ 32 -> 0 <= bd <= 255 -> 0 <= ct <= 255 -> len idat < 2 ^ 32 ->
  scanPNG (pngMagic +:+ pngChunk "IHDR" (ihdr w h bd ct) +:+ pngChunk "IDAT" idat +:+ pngChunk "IEND" "")
  = Ok (mkHeader w h bd ct idat).
Proof.
  intros Hw Hh Hb Hc Hi. set (b := pngMagic +:+ _).
  assert (Hl : len b = 8 + (25 + ((12 + len idat) + 12))).
  { unfold b, pngChunk. rewrite !len_app, !len_put_be. change (len (ihdr w h bd ct)) with 13. change (len pngMagic) with 8.
    change (len "IHDR") with 4. change (len "IDAT") with 4. change (len "IEND") with 4. change (len "") with 0. lia. }
  pose proof (len_nonneg idat). unfold scanPNG. rewrite (proj2 (Z.ltb_ge _ _)) by lia.
  change (stake 8 b) with pngMagic. rewrite String.eqb_refl. cbn [negb orb].
  assert (Hf : exists f, String.length b = S (S (S f))) by (exists (String.length b - 3)%nat; unfold len in Hl; lia).
  destruct Hf as [f ->].
  destruct (scan_png_chunk (S (S (S f))) b 8 no_header false "IHDR" (ihdr w h bd ct)
    (pngChunk "IDAT" idat +:+ pngChunk "IEND" "")) as (H1 & H2 & ->); [lia|done|done|done|].
  rewrite ihdr_read by done. cbn [String.eqb Ascii.eqb Bool.eqb orb].
  destruct (scan_png_chunk (S (S f)) b (8 + 12 + len (ihdr w h bd ct)) (mkHeader w h bd ct (h_idat no_header)) true
    "IDAT" idat (pngChunk "IEND" "")) as (H3 & H4 & ->); [split; [done|exact H1]|done|done|exact H2|].
  destruct (scan_png_chunk (S f) b (8 + 12 + len (ihdr w h bd ct) + 12 + len idat) (mkHeader w h bd ct idat) true
    "IEND" "" "") as (H5 & H6 & H7); [split; [change (len (ihdr w h bd ct)) with 13; lia|exact H3]|done|done|by rewrite H4, sapp_nil_r|].
  exact H7.
Qed.

(** ** One wrong byte is caught *)

(** A step of the CRC can be undone: its top bit tells what was shifted out. *)
Lemma crc_bit_inj c d : 0 <= c < 2 ^ 32 -> 0 <= d < 2 ^ 32 -> crc_bit c = crc_bit d -> c = d.
Proof.
  assert (Htop : forall c, 0 <= c < 2 ^ 32 -> Z.testbit (crc_bit c) 31 = Z.odd c).
  { intros c' Hc. unfold crc_bit. assert (Hs : Z.testbit (Z.shiftr c' 1) 31 = false).
    { rewrite Z.shiftr_spec by lia. rewrite <- (Z.mod_small c' (2 ^ 32)) by done. apply Z.mod_pow2_bits_high. lia. }
    destruct (Z.odd c'); [|done]. by rewrite Z.lxor_spec, Hs. }
  intros Hc Hd He. pose proof (Htop c Hc) as H1. pose proof (Htop d Hd) as H2. rewrite He, H2 in H1.
  assert (Hs : Z.shiftr c 1 = Z.shiftr d 1).
  { unfold crc_bit in He. rewrite <- H1 in He. destruct (Z.odd d); [|done].
    apply (f_equal (fun z => Z.lxor z 3988292384)) in He.
    by rewrite !Z.lxor_assoc, !Z.lxor_nilpotent, !Z.lxor_0_r in He. }
  rewrite (Z.div_mod c 2), (Z.div_mod d 2) by lia. rewrite !Z.shiftr_div_pow2 in Hs by lia. change (2 ^ 1) with 2 in Hs.
  by rewrite Hs, !Zmod_odd, H1.
Qed.

Lemma crc_iter_inj n : forall c d, 0 <= c < 2 ^ 32 -> 0 <= d < 2 ^ 32 ->
  Nat.iter n crc_bit c = Nat.iter n crc_bit d -> c = d.
Proof.
  assert (Hr : forall n c, 0 <= c < 2 ^ 32 -> 0 <= Nat.iter n crc_bit c < 2 ^ 32).
  { induction n0; intros; [done|]. apply crc_bit_bound. by apply IHn0. }
  induction n as [|n IH]; intros c d Hc Hd He; [done|]. apply IH; [done|done|].
  apply crc_bit_inj; [by apply Hr|by apply Hr|done].
Qed.

Lemma lxor_cancel a b c : Z.lxor a b = Z.lxor a c -> b = c.
Proof.
  intros H. apply (f_equal (Z.lxor a)) in H. by rewrite <- !Z.lxor_assoc, !Z.lxor_nilpotent, !Z.lxor_0_l in H.
Qed.

Lemma code_inj x y : code x = code y -> x = y.
Proof. intros H. by rewrite <- (byte_code x), H, byte_code. Qed.

Lemma byte_in_range c x : 0 <= c < 2 ^ 32 -> 0 <= Z.lxor c (code x) < 2 ^ 32.
Proof. intros. apply lxor_bound; [lia|done|]. pose proof (code_range x). lia. Qed.

Lemma crc_byte_differs c x y : 0 <= c < 2 ^ 32 -> x <> y -> crc_byte c x <> crc_byte c y.
Proof.
  intros Hc Hxy He. apply Hxy, code_inj, (lxor_cancel c).
  apply (crc_iter_inj 8); [by apply byte_in_range|by apply byte_in_range|done].
Qed.

Lemma crc_byte_bound c x : 0 <= c < 2 ^ 32 -> 0 <= crc_byte c x < 2 ^ 32.
Proof. intros. apply (crc_update_bound (String x "") c H). Qed.

Lemma crc_update_inj s : forall c d, 0 <= c < 2 ^ 32 -> 0 <= d < 2 ^ 32 -> crc_update c s = crc_update d s -> c = d.
Proof.
  induction s as [|x s IH]; intros c d Hc Hd He; [done|]. cbn [crc_update] in He.
  apply IH in He; [|by apply crc_byte_bound|by apply crc_byte_bound].
  apply crc_iter_inj in He; [|by apply byte_in_range|by apply byte_in_range].
  rewrite !(Z.lxor_comm _ (code x)) in He. by apply lxor_cancel in He.
Qed.

Lemma crc_update_app a : forall c s, crc_update c (a +:+ s) = crc_update (crc_update c a) s.
Proof. induction a as [|x a IH]; intros c s; [done|]. autorewrite with str. cbn [crc_update]. apply IH. Qed.

(** Two texts that differ in one byte have different checksums. *)
Lemma crc_one_byte a x y c : x <> y -> ChecksumIEEE (a +:+ String x c) <> ChecksumIEEE (a +:+ String y c).
Proof.
  intros Hxy He. unfold ChecksumIEEE in He. rewrite !(Z.lxor_comm _ 4294967295) in He. apply lxor_cancel in He.
  rewrite !crc_update_app in He. cbn [crc_update] in He.
  assert (Hr : 0 <= crc_update 4294967295 a < 2 ^ 32) by by apply crc_update_bound.
  apply crc_update_inj in He; [|by apply crc_byte_bound|by apply crc_byte_bound].
  by apply (crc_byte_differs _ x y Hr Hxy).
Qed.

(** Chunks that the reader passes over before it meets the one in question. *)
Fixpoint passes (h : pngHeader) (cs : list (string * string)) : Prop :=
  match cs with
  | [] => True
  | (typ, data) :: cs =>
      len typ = 4 /\ len data < 2 ^ 32 /\ typ <> "IEND"%string
      /\ exists h', read_chunk h typ data = Ok h' /\ passes h' cs
  end.

Definition chunks_text (cs : list (string * string)) : string := concat (map (fun c => pngChunk c.1 c.2) cs).

Lemma scan_png_passes cs : forall fuel b i h seen rest,
  passes h cs -> 0 <= i <= len b -> sdrop (Z.to_nat i) b = chunks_text cs +:+ rest ->
  exists i' h' seen', 0 <= i' <= len b /\ sdrop (Z.to_nat i') b = rest
    /\ scan_png (length cs + fuel) b i h seen = scan_png fuel b i' h' seen'.
Proof.
  induction cs as [|[typ data] cs IH]; intros fuel b i h seen rest Hp Hi Hd; [by exists i, h, seen|].
  destruct Hp as (Ht & Hl & Hne & h' & Hr & Hp). unfold chunks_text in Hd. cbn [map concat fst snd] in Hd.
  rewrite sapp_assoc in Hd. pose proof (len_nonneg data).
  destruct (scan_png_chunk (length cs + fuel) b i h seen typ data _ Hi Ht Hl Hd) as (H1 & H2 & H3).
  destruct (IH fuel b (i + 12 + len data) h' (seen || (typ =s "IHDR")) rest Hp ltac:(lia) H2) as (i' & h'' & s' & Hi' & Hd' & He).
  exists i', h'', s'. split; [done|]. split; [done|]. cbn [length Nat.add]. rewrite H3.
  rewrite (proj2 (String.eqb_neq _ _) Hne), Hr. exact He.
Qed.

(** A file in which one byte of a chunk's type or data is not the one its CRC
    was computed over is refused, whatever chunks come before and whatever
    follows. *)
Theorem one_wrong_byte_is_caught cs typ data typ' data' a x y c rest :
  passes no_header cs -> len typ = 4 -> len typ' = 4 -> len data' = len data -> len data < 2 ^ 32 -> x <> y ->
  typ +:+ data = a +:+ String x c -> typ' +:+ data' = a +:+ String y c ->
  scanPNG (pngMagic +:+ chunks_text cs
           +:+ put_be 4 (len data) +:+ typ' +:+ data' +:+ put_be 4 (ChecksumIEEE (typ +:+ data)) +:+ rest)
  = Err (Failed ("chunk " +:+ typ' +:+ " has a bad CRC")).
Proof.
  intros Hp Ht Ht' Hld Hl Hxy Hb Hb'. set (crc := put_be 4 (ChecksumIEEE (typ +:+ data))).
  set (tail := put_be 4 (len data) +:+ typ' +:+ data' +:+ crc +:+ rest).
  set (b := pngMagic +:+ chunks_text cs +:+ tail). pose proof (len_nonneg data). pose proof (len_nonneg rest).
  assert (Hcrc : len crc = 4) by apply len_put_be.
  assert (Hcs : Z.of_nat (length cs) <= len (chunks_text cs)).
  { clear -Hp. revert Hp. generalize no_header. induction cs as [|[t d] cs IH]; intros h Hp; [done|].
    destruct Hp as (Ht & _ & _ & h' & _ & Hp). specialize (IH h' Hp). unfold chunks_text in *. cbn [map concat length fst snd].
    unfold pngChunk at 1. rewrite !len_app, Ht. pose proof (len_nonneg d). rewrite !len_put_be. lia. }
  assert (Htl : len tail = 12 + len data + len rest) by (unfold tail; rewrite !len_app, len_put_be; lia).
  assert (Hlb : len b = 8 + (len (chunks_text cs) + len tail)) by (unfold b; rewrite !len_app; done).
  unfold scanPNG. fold b. rewrite (proj2 (Z.ltb_ge _ _)) by lia. change (stake 8 b) with pngMagic.
  rewrite String.eqb_refl. cbn [negb orb].
  replace (S (String.length b)) with (length cs + S (String.length b - length cs))%nat by (unfold len in *; lia).
  destruct (scan_png_passes cs (S (String.length b - length cs)) b 8 no_header false tail Hp ltac:(lia)) as (i & h & seen & Hi & Hd & ->);
    [reflexivity|].
  unfold tail in Hd. rewrite <- Hld in Hd.
  destruct (scan_png_raw (String.length b - length cs) b i h seen typ' data' crc rest Hi Ht' ltac:(lia) Hcrc Hd) as (_ & _ & ->).
  unfold crc. rewrite get_crc, (proj2 (Z.eqb_neq _ _)); [done|]. rewrite Hb, Hb'. apply crc_one_byte. congruence.
Qed.

Lemma one_wrong_byte_is_caught_witness :
  scanPNG (pngMagic +:+ chunks_text [("IHDR", ihdr 4 4 8 6)]%string
           +:+ put_be 4 3 +:+ "IDAT" +:+ "abd" +:+ put_be 4 (ChecksumIEEE ("IDAT" +:+ "abc")) +:+ pngChunk "IEND" "")
  = Err (Failed ("chunk " +:+ "IDAT" +:+ " has a bad CRC")).
Proof.
  apply (one_wrong_byte_is_caught [("IHDR", ihdr 4 4 8 6)]%string "IDAT" "abc" "IDAT" "abd" "IDATab" "c" "d" "");
    try reflexivity; [|discriminate].
  cbn [passes]. repeat split; [discriminate|]. eexists. split; [vm_compute; reflexivity|done].
Defined.

(** ** The two big pictures pass their checks *)

Lemma length_repeated c n : String.length (repeated c n) = n.
Proof. induction n; simpl; auto. Qed.

Lemma len_raster h rowFn n : 0 <= h -> (forall y, len (rowFn y) = n) -> len (raster h rowFn) = h * (1 + n).
Proof.
  intros Hh Hr. unfold raster. replace h with (Z.of_nat (length (seqZ 0 h))) at 2 by (rewrite length_seqZ; lia).
  induction (seqZ 0 h) as [|y l IH]; [done|]. cbn [map concat length]. rewrite len_app, IH.
  replace (len (String (byte 0) (rowFn y))) with (1 + len (rowFn y)) by (unfold len; cbn [String.length]; lia).
  rewrite Hr. lia.
Qed.

Definition bomb_raster : string := raster bombDim (fun _ => zeros (Z.to_nat (bombDim * 4))).

Lemma len_bomb_raster : len bomb_raster = 70564200.
Proof.
  unfold bomb_raster. generalize (Z2Nat.id (bombDim * 4) ltac:(unfold bombDim; lia)).
  generalize (Z.to_nat (bombDim * 4)) as n. intros n Hn.
  rewrite (len_raster bombDim (fun _ => zeros n) (bombDim * 4)); [reflexivity|unfold bombDim; lia|].
  intros _. unfold len. by rewrite length_zeros.
Qed.

Section Checked.
Context `{HZ : Zlib, HP : PngCodec}.

(** zlib gives back what it compressed. *)
Hypothesis inflates : forall level s idat, deflate level s = Ok idat -> inflate idat = Ok s.

(** The bomb declares few pixels and inflates to 70 million bytes: it passes
    when zlib compresses the raster at least 500 times. *)
Lemma bomb_verifies b idat :
  deflate bigRasterLevel bomb_raster = Ok idat ->
  0 < len idat -> 500 * len idat <= 70564200 -> buildBombPNG = Ok b -> verifyBombPNG b = Ok tt.
Proof.
  intros Hz Hpos Hr Hb. unfold buildBombPNG, rawPNG in Hb. fold bomb_raster in Hb. rewrite Hz in Hb. simplify_eq.
  pose proof len_bomb_raster as Hl. pose proof (inflates _ _ _ Hz) as Hi. generalize dependent bomb_raster. intros r Hz Hl Hi.
  unfold verifyBombPNG. rewrite png_reads_back by (unfold bombDim; lia). cbn [h_w h_h h_idat].
  unfold inflatedSize. rewrite Hi, Hl.
  change (bombDim * (1 + bombDim * 4)) with 70564200.
  change (bombDim =? bombDim) with true. change (20000000 <? bombDim * bombDim) with false.
  change (70564200 <? 64 * 1024 * 1024) with false. rewrite Z.eqb_refl. cbn [negb orb].
  rewrite (proj2 (Z.eqb_neq (len idat) 0)) by lia. rewrite Z.quot_div_nonneg by lia.
  rewrite (proj2 (Z.ltb_ge _ _)); [done|]. apply Z.div_le_lower_bound; lia.
Qed.

(** The oversized picture passes when zlib keeps it small and the decoder reads
    the declared size. *)
Lemma oversized_verifies b idat :
  deflate bigRasterLevel (raster oversizedDim oversized_row) = Ok idat -> len idat <= 500000 ->
  buildOversizedPNG = Ok b -> png_config b = Ok (oversizedDim, oversizedDim) -> verifyOversizedPNG b = Ok tt.
Proof.
  intros Hz Hl Hb Hc. unfold buildOversizedPNG, rawPNG in Hb. rewrite Hz in Hb. clear Hz.
  injection Hb as Hb. unfold verifyOversizedPNG. rewrite <- Hb in Hc |- *. clear Hb.
  rewrite png_reads_back by (unfold oversizedDim; lia). cbn [h_w h_h]. rewrite Hc, Z.eqb_refl.
  change (oversizedDim * oversizedDim =? 900000000) with true. cbn [negb orb].
  rewrite (proj2 (Z.ltb_ge _ _)); [done|]. unfold pngChunk. rewrite !len_app, !len_put_be.
  change (len (ihdr oversizedDim oversizedDim 1 0)) with 13. change (len pngMagic) with 8.
  change (len "IHDR") with 4. change (len "IDAT") with 4. change (len "IEND") with 4. change (len "") with 0. lia.
Qed.
End Checked.
