(* ===== verification/Jpeg.v ===== *)
(** * JPEG files and EXIF (src/internal/fixtures/jpeg.go)

    The EXIF writer with its explicit layout and the independent parser, the
    splicing of a segment after SOI, the marker scanner, and the three JPEG
    fixtures with their checks. *)

From S2P Require Import Prelude Utf8 GoStrings GoFmt Sha256 Bytes Raster Codecs.

Definition budgetW : Z := 4000.
Definition budgetH : Z := 3000.

(** ** Writing EXIF *)

Definition typeByte : Z := 1.
Definition typeASCII : Z := 2.
Definition typeShort : Z := 3.
Definition typeLong : Z := 4.
Definition typeRational : Z := 5.
Definition tagMake : Z := 271.
Definition tagModel : Z := 272.
Definition tagOrientation : Z := 274.
Definition tagGPSIFD : Z := 34853.

(** The value of an entry: in its four bytes, in the data area, or the offset
    of the GPS directory. *)
Inductive ifdValue :=
| Inline (four : string)
| Payload (data : string)
| DeferredIFD.

Record ifdEntry := mkEntry { e_typ : Z; e_count : Z; e_value : ifdValue }.

(** [copy] into four zero bytes. *)
Definition four_bytes (b : string) : string := b +:+ zeros (4 - String.length b).

Definition fitting (b : string) : ifdValue := if len b <=? 4 then Inline (four_bytes b) else Payload b.

Definition short (v : Z) : ifdEntry := mkEntry typeShort 1 (Inline (four_bytes (put_be 2 v))).
Definition ascii_entry (s : string) : ifdEntry :=
  let b := s +:+ zeros 1 in mkEntry typeASCII (len b) (fitting b).
Definition bytesEntry (b : string) : ifdEntry := mkEntry typeByte (len b) (fitting b).
Definition rationals (vals : list (Z * Z)) : ifdEntry :=
  mkEntry typeRational (Z.of_nat (length vals)) (Payload (concat (map (fun v => put_be 4 v.1 +:+ put_be 4 v.2) vals))).

Definition ifd0 : list (Z * ifdEntry) :=
  [(tagMake, ascii_entry "Vizra"); (tagModel, ascii_entry "fixturegen synthetic camera");
   (tagOrientation, short 6); (tagGPSIFD, mkEntry typeLong 1 DeferredIFD)].

Definition gps_ifd : list (Z * ifdEntry) :=
  [(0, bytesEntry (String (byte 2) (String (byte 3) (zeros 2)))); (1, ascii_entry "N");
   (2, rationals [(51, 1); (28, 1); (4012, 100)]); (3, ascii_entry "W");
   (4, rationals [(0, 1); (0, 1); (531, 100)]); (5, bytesEntry (zeros 1)); (6, rationals [(4700, 100)])].

(** [writeIFD]: the bytes of the directory and the data area after it. *)
Fixpoint write_entries (dataOff gpsOffset : Z) (es : list (Z * ifdEntry)) (data : string) : string * string :=
  match es with
  | [] => (""%string, data)
  | (tag, e) :: es =>
      let head := put_be 2 tag +:+ put_be 2 (e_typ e) +:+ put_be 4 (e_count e) in
      let '(field, data) :=
        match e_value e with
        | DeferredIFD => (put_be 4 gpsOffset, data)
        | Payload p =>
            let off := dataOff + len data in
            let data := data +:+ p in
            (put_be 4 off, if Z.odd (len data) then data +:+ zeros 1 else data)
        | Inline four => (four, data)
        end in
      let '(rest, data) := write_entries dataOff gpsOffset es data in
      (head +:+ field +:+ rest, data)
  end.

Definition writeIFD (dataOff gpsOffset : Z) (es : list (Z * ifdEntry)) (data : string) : string * string :=
  let '(body, data) := write_entries dataOff gpsOffset es data in
  (put_be 2 (Z.of_nat (length es)) +:+ body +:+ put_be 4 0, data).

Definition ifd_len (es : list (Z * ifdEntry)) : Z := 2 + 12 * Z.of_nat (length es) + 4.

Definition buildEXIF : string :=
  let gpsOff := 8 + ifd_len ifd0 in
  let dataOff := gpsOff + ifd_len gps_ifd in
  let '(ifd0Buf, data) := writeIFD dataOff gpsOff ifd0 "" in
  let '(gpsBuf, data) := writeIFD dataOff 0 gps_ifd data in
  "Exif" +:+ zeros 2 +:+ "MM" +:+ put_be 2 42 +:+ put_be 4 8 +:+ ifd0Buf +:+ gpsBuf +:+ data.

(** ** Splicing *)

Definition SOI : string := String (byte 255) (String (byte 216) "").

Definition spliceAPP1 (jpegBytes payload : string) : result Fault string :=
  if stake 2 jpegBytes <>s SOI then Err (Failed "not a JPEG: no SOI")
  else if 65535 <? len payload + 2 then Err (Failed "APP1 payload too large")
  else Ok (stake 2 jpegBytes +:+ String (byte 255) (String (byte 225) "") +:+ put_be 2 (len payload + 2)
           +:+ payload +:+ sdrop 2 jpegBytes).

(** ** The marker scanner *)

Record jpegInfo := mkInfo { j_app1 : option string; j_hasEOI : bool; j_sof : Z; j_w : Z; j_h : Z; j_comps : Z }.

Definition no_info : jpegInfo := mkInfo None false 0 0 0 0.

Definition with_eoi (j : jpegInfo) (e : bool) : jpegInfo := mkInfo (j_app1 j) e (j_sof j) (j_w j) (j_h j) (j_comps j).

(** What a segment adds. *)
Definition read_segment (info : jpegInfo) (m : Z) (seg : string) : jpegInfo :=
  if m =? 225 then mkInfo (Some seg) (j_hasEOI info) (j_sof info) (j_w info) (j_h info) (j_comps info)
  else if (192 <=? m) && (m <=? 207) && negb (m =? 196) && negb (m =? 200) && negb (m =? 204) then
    if 6 <=? len seg
    then mkInfo (j_app1 info) (j_hasEOI info) m (get_be (stake 2 (sdrop 3 seg))) (get_be (stake 2 (sdrop 1 seg)))
           (get_be (stake 1 (sdrop 5 seg)))
    else mkInfo (j_app1 info) (j_hasEOI info) m (j_w info) (j_h info) (j_comps info)
  else info.

Definition ends_with_EOI (b : string) : bool := HasSuffix b (String (byte 255) (String (byte 217) "")).

Fixpoint scan_jpeg (fuel : nat) (b : string) (i : Z) (info : jpegInfo) : result Fault jpegInfo :=
  match fuel with
  | O => Err Panic
  | S fuel =>
      if i + 3 <? len b then
        let? x := at_ b i in
        if negb (x =? 255)
        then Err (Failed ("expected a marker at offset " +:+ Itoa i +:+ ", found 0x" +:+ HexUpper 2 x))
        else
          let? m := at_ b (i + 1) in
          if m =? 217 then Ok (with_eoi info true)
          else
            let? field := slice b (i + 2) (i + 4) in
            let size := get_be field in
            if (size <? 2) || (len b <? i + 2 + size) then Err (Failed "segment runs past the end of the file")
            else
              let? seg := slice b (i + 4) (i + 2 + size) in
              let info := read_segment info m seg in
              if m =? 218 then Ok (with_eoi info (ends_with_EOI b))
              else scan_jpeg fuel b (i + 2 + size) info
      else Ok info
  end.

Definition scanJPEG (b : string) : result Fault jpegInfo :=
  if stake 2 b <>s SOI then Err (Failed "no SOI") else scan_jpeg (S (String.length b)) b 2 no_info.

(** ** Parsing EXIF *)

Abbreviation Tags := (gmap Z string).

(** A uint32; offsets and sizes in the file are, and so are the sums of them
    that bound a slice, while the checks before it are made in the wider int. *)
Definition u32 (z : Z) : Z := z mod 4294967296.

(** The bytes of a value, its width cut to 32 bits; a type outside the five is
    an error. *)
Definition value_size (typ cnt : Z) : result Fault Z :=
  if (typ =? typeByte) || (typ =? typeASCII) then Ok cnt
  else if typ =? typeShort then Ok (u32 (cnt * 2))
  else if typ =? typeLong then Ok (u32 (cnt * 4))
  else if typ =? typeRational then Ok (u32 (cnt * 8))
  else Err (Failed ("unexpected field type " +:+ Itoa typ)).

Fixpoint read_entries (n : nat) (t : string) (off i prevTag : Z) (m : Tags) (gpsOff : Z) : result Fault (Tags * Z) :=
  match n with
  | O => Ok (m, gpsOff)
  | S n =>
      let p := off + 2 + i * 12 in
      if len t <? p + 12 then Err (Failed "IFD entry past end") else
      let? tagb := slice t p (p + 2) in
      let tag := get_be tagb in
      if tag <=? prevTag then Err (Failed ("IFD tags are not in ascending order at tag 0x" +:+ HexUpper 4 tag)) else
      let? typb := slice t (p + 2) (p + 4) in
      let? cntb := slice t (p + 4) (p + 8) in
      let? size := value_size (get_be typb) (get_be cntb) in
      let? field := slice t (p + 8) (p + 12) in
      let? val :=
        if size <=? 4 then slice t (p + 8) (p + 8 + size)
        else let o := get_be field in
             if len t <? o + size then Err (Failed ("value offset for tag 0x" +:+ HexUpper 4 tag +:+ " runs past the end")) else slice t o (u32 (o + size)) in
      read_entries n t off (i + 1) tag (<[tag := val]> m) (if tag =? tagGPSIFD then get_be field else gpsOff)
  end.

Definition readIFD (t : string) (off : Z) : result Fault (Tags * Z) :=
  if len t <? off + 2 then Err (Failed "IFD offset past end") else
  let? nb := slice t off (u32 (off + 2)) in
  read_entries (Z.to_nat (get_be nb)) t off 0 (-1) ∅ 0.

Definition parseEXIF (app1 : string) : result Fault (Tags * Tags) :=
  if (len app1 <? 14) || (stake 6 app1 <>s ("Exif" +:+ zeros 2)) then Err (Failed "APP1 is not an Exif segment") else
  let t := sdrop 6 app1 in
  let? magic := slice t 2 4 in
  if (stake 2 t <>s "MM") || negb (get_be magic =? 42) then Err (Failed "TIFF header is not big-endian 0x002A") else
  let? offb := slice t 4 8 in
  let? d := readIFD t (get_be offb) in
  let '(ifd0, gpsOff) := d in
  if gpsOff =? 0 then Err (Failed "no GPS IFD pointer") else
  match readIFD t gpsOff with
  | Err (Failed e) => Err (Failed ("GPS IFD: " +:+ e))
  | Err Panic => Err Panic
  | Ok (gps, _) => Ok (ifd0, gps)
  end.

(** ** Fixtures and checks *)

Section Fixtures.
Context `{HJ : JpegEncoder, HD : JpegDecoder, HP : Printable}.

Definition buildOrientationGPSJPEG : result Fault string :=
  let? base := painted 64 48 1 90 in spliceAPP1 base buildEXIF.

Definition buildTruncatedJPEG : result Fault string :=
  let? full := painted 64 48 2 90 in
  let cut := len full * 3 / 4 + 1 in
  if len full - 2 <=? cut then Err (Failed "truncation point is not inside the scan")
  else Ok (stake (Z.to_nat cut) full).

Definition buildBudgetJPEG : result Fault string := painted budgetW budgetH 10 85.

Definition gps_wanted : list (Z * string) :=
  [(1, "GPSLatitudeRef"); (2, "GPSLatitude"); (3, "GPSLongitudeRef"); (4, "GPSLongitude")]%string.

Definition tag_present (gps : Tags) (tag : Z) : bool :=
  match gps !! tag with Some v => negb (v =s "") | None => false end.

Definition verifyOrientationGPSJPEG (b : string) : result Fault unit :=
  let? info := scanJPEG b in
  match j_app1 info with
  | None => Err (Failed "no APP1 segment")
  | Some app1 =>
    if negb (j_w info =? 64) || negb (j_h info =? 48) then Err (Failed ("stored dimensions are " +:+ Itoa (j_w info) +:+ "x" +:+ Itoa (j_h info) +:+ ", want 64x48")) else
    let? mark := slice b 2 4 in
    if mark <>s String (byte 255) (String (byte 225) "") then Err (Failed "APP1 is not the first marker after SOI") else
    let? d := parseEXIF app1 in
    let '(ifd0, gps) := d in
    match ifd0 !! tagOrientation with
    | None => Err (Failed "no Orientation tag")
    | Some o =>
      let? two := slice o 0 2 in
      if negb (get_be two =? 6) then Err (Failed ("Orientation is " +:+ Itoa (get_be two) +:+ ", want 6")) else
      match List.find (fun w => negb (tag_present gps w.1)) gps_wanted with
      | Some (_, name) => Err (Failed ("no " +:+ name +:+ " in the GPS IFD — this fixture exists to prove GPS is stripped, and it cannot prove that without GPS"))
      | None =>
        let got := len (default ""%string (gps !! 2)) in
        if negb (got =? 24) then Err (Failed ("GPSLatitude is " +:+ Itoa got +:+ " bytes, want 24 (three rationals)")) else
        match jpeg_decode b with
        | Some e => Err (Failed ("the fixture does not decode: " +:+ de_text e))
        | None => Ok tt
        end
      end
    end
  end.

Definition verifyTruncatedJPEG (b : string) : result Fault unit :=
  let? info := scanJPEG b in
  if negb (j_sof info =? 192) then Err (Failed ("SOF marker is 0x" +:+ HexUpper 2 (j_sof info) +:+ ", want 0xC0 (baseline)"))
  else if j_hasEOI info then Err (Failed "the fixture has an EOI marker, so it is not truncated")
  else match jpeg_decode b with
       | None => Err (Failed "the truncated fixture decoded successfully; it cannot prove a partial upload is rejected")
       | Some e => if de_eof e || Contains (de_text e) "short Huffman data" then Ok tt
                   else Err (Failed ("decode failed with " +:+ Quote (de_text e) +:+ ", want a truncated-stream error"))
       end.

Definition verifyBudgetJPEG (b : string) : result Fault unit :=
  let? info := scanJPEG b in
  if negb (j_w info =? budgetW) || negb (j_h info =? budgetH) then Err (Failed ("dimensions are " +:+ Itoa (j_w info) +:+ "x" +:+ Itoa (j_h info) +:+ ", want 4000x3000"))
  else if negb (j_w info * j_h info =? 12000000) then Err (Failed (Itoa (j_w info * j_h info) +:+ " pixels, want exactly 12,000,000"))
  else if negb (j_sof info =? 192) then Err (Failed ("SOF marker is 0x" +:+ HexUpper 2 (j_sof info) +:+ ", want 0xC0 (baseline)"))
  else if negb (j_comps info =? 3) then Err (Failed (Itoa (j_comps info) +:+ " components, want 3"))
  else if (len b <? 1048576) || (8388608 <? len b) then Err (Failed ("encoded size is " +:+ Itoa (len b)
    +:+ " bytes; the budget fixture must be between 1 MiB and 8 MiB or the derivative run is measuring a flat colour"))
  else match jpeg_config b with
       | Err t => Err (Failed t)
       | Ok (w, h) => if negb (w =? budgetW) || negb (h =? budgetH) then Err (Failed ("DecodeConfig reports " +:+ Itoa w +:+ "x" +:+ Itoa h)) else Ok tt
       end.
End Fixtures.

(** The EXIF the generator lays out is what the independent parser reads. *)
Example exif_reads_back :
  match parseEXIF buildEXIF with
  | Ok (ifd0, gps) =>
      ifd0 !! tagOrientation = Some (put_be 2 6)
      /\ ifd0 !! tagMake = Some ("Vizra" +:+ zeros 1)
      /\ ifd0 !! tagModel = Some ("fixturegen synthetic camera" +:+ zeros 1)
      /\ gps !! 1 = Some ("N" +:+ zeros 1)
      /\ gps !! 2 = Some (put_be 4 51 +:+ put_be 4 1 +:+ put_be 4 28 +:+ put_be 4 1 +:+ put_be 4 4012 +:+ put_be 4 100)
      /\ gps !! 4 = Some (put_be 4 0 +:+ put_be 4 1 +:+ put_be 4 0 +:+ put_be 4 1 +:+ put_be 4 531 +:+ put_be 4 100)
      /\ gps !! 6 = Some (put_be 4 4700 +:+ put_be 4 100)
  | Err _ => False
  end.
Proof. vm_compute. repeat split. Qed.

(** ** The scanner never reads outside the file, and always ends *)

Lemma scan_jpeg_total fuel b : forall i info, 0 <= i -> (Z.to_nat (len b - i) < fuel)%nat ->
  scan_jpeg fuel b i info <> Err Panic.
Proof.
  induction fuel as [|fuel IH]; intros i info Hi Hf; [lia|]. cbn [scan_jpeg].
  destruct (Z.ltb_spec (i + 3) (len b)) as [H3|]; [|done].
  destruct (at_total b i) as [x ->]; [lia|]. destruct (negb _); [done|].
  destruct (at_total b (i + 1)) as [m ->]; [lia|]. destruct (m =? 217); [done|].
  destruct (slice_total b (i + 2) (i + 4)) as [field ->]; [lia|lia|]. cbv zeta.
  destruct (_ || _) eqn:Hc; [done|]. apply orb_false_iff in Hc as [Hc1 Hc2].
  destruct (slice_total b (i + 4) (i + 2 + get_be field)) as [seg ->]; [lia|lia|].
  destruct (m =? 218); [done|]. apply IH; lia.
Qed.

Lemma scanJPEG_total b : scanJPEG b <> Err Panic.
Proof. unfold scanJPEG. destruct (_ <>s _); [done|]. apply scan_jpeg_total; [lia|unfold len; lia]. Qed.

Lemma value_size_bound typ cnt size : 0 <= cnt -> value_size typ cnt = Ok size -> 0 <= size.
Proof.
  intros Hc. unfold value_size, u32. pose proof (Z.mod_pos_bound (cnt * 2) 4294967296 ltac:(lia)).
  pose proof (Z.mod_pos_bound (cnt * 4) 4294967296 ltac:(lia)). pose proof (Z.mod_pos_bound (cnt * 8) 4294967296 ltac:(lia)).
  repeat case_match; intros; simplify_eq; lia.
Qed.

Lemma u32_small z : 0 <= z < 4294967296 -> u32 z = z.
Proof. apply Z.mod_small. Qed.

Lemma read_entries_total n t off : len t < 4294967296 -> 0 <= off -> forall i prev m gps, 0 <= i ->
  read_entries n t off i prev m gps <> Err Panic.
Proof.
  intros Ht Ho. induction n as [|n IH]; intros i prev m gps Hi; [done|]. cbn [read_entries]. cbv zeta.
  set (p := off + 2 + i * 12). destruct (Z.ltb_spec (len t) (p + 12)) as [|Hp]; [done|].
  destruct (slice_total t p (p + 2)) as [tagb ->]; [lia|lia|]. destruct (_ <=? prev); [done|].
  destruct (slice_total t (p + 2) (p + 4)) as [typb ->]; [lia|lia|].
  destruct (slice_total t (p + 4) (p + 8)) as [cntb ->]; [lia|lia|].
  destruct (value_size _ _) as [size|e] eqn:Hs; [|unfold value_size in Hs; repeat case_match; by simplify_eq].
  apply value_size_bound in Hs; [|apply get_be_bound].
  destruct (slice_total t (p + 8) (p + 12)) as [field ->]; [lia|lia|]. pose proof (get_be_bound field) as Hg.
  destruct (Z.leb_spec size 4) as [H4|H4].
  - destruct (slice_total t (p + 8) (p + 8 + size)) as [v ->]; [lia|lia|]. apply IH. lia.
  - destruct (Z.ltb_spec (len t) (get_be field + size)) as [|Hv]; [done|].
    rewrite u32_small by lia.
    destruct (slice_total t (get_be field) (get_be field + size)) as [v ->]; [lia|lia|]. apply IH. lia.
Qed.

Lemma readIFD_total t off : len t < 4294967296 -> 0 <= off -> readIFD t off <> Err Panic.
Proof.
  intros Ht Ho. unfold readIFD. destruct (Z.ltb_spec (len t) (off + 2)) as [|Hl]; [done|].
  rewrite u32_small by lia.
  destruct (slice_total t off (off + 2)) as [nb ->]; [lia|lia|]. by apply read_entries_total.
Qed.

Lemma read_entries_gps n t off : forall i prev m gps m' gps', 0 <= gps ->
  read_entries n t off i prev m gps = Ok (m', gps') -> 0 <= gps'.
Proof.
  induction n as [|n IH]; intros i prev m gps m' gps' Hg H; cbn [read_entries] in H; [by simplify_eq|].
  cbv zeta in H. repeat case_match; try done. all: eapply IH; [|exact H]. all: repeat case_match; first [apply get_be_bound|done].
Qed.

Lemma readIFD_gps t off m gps : readIFD t off = Ok (m, gps) -> 0 <= gps.
Proof.
  unfold readIFD. destruct (_ <? _); [done|]. destruct (slice _ _ _); [|done]. by apply read_entries_gps.
Qed.

(** The block behind the six bytes of the header has to be addressable by the
    32-bit bounds. *)
Lemma parseEXIF_total app1 : len app1 < 4294967296 + 6 -> parseEXIF app1 <> Err Panic.
Proof.
  intros Hlt. unfold parseEXIF. destruct (Z.ltb_spec (len app1) 14) as [|Hl]; [done|]. cbn [orb]. destruct (_ <>s _); [done|].
  cbv zeta. assert (Ht : 8 <= len (sdrop 6 app1) < 4294967296) by (rewrite len_sdrop; lia).
  generalize dependent (sdrop 6 app1). intros t Ht.
  destruct (slice_total t 2 4) as [magic ->]; [lia|lia|]. destruct (_ || _); [done|].
  destruct (slice_total t 4 8) as [offb ->]; [lia|lia|]. pose proof (get_be_bound offb).
  pose proof (readIFD_total t (get_be offb) ltac:(lia) ltac:(lia)) as H1. destruct (readIFD t (get_be offb)) as [[ifd0 gpsOff]|e] eqn:E; [|congruence].
  destruct (gpsOff =? 0); [done|].
  apply readIFD_gps in E. pose proof (readIFD_total t gpsOff ltac:(lia) E). by destruct (readIFD t gpsOff) as [[? ?]|[|]].
Qed.

(** A segment the scanner finds is shorter than its 16-bit length can say. *)
Definition short_app1 (info : jpegInfo) : Prop := forall p, j_app1 info = Some p -> len p < 65536.

Lemma scan_jpeg_short fuel b : forall i info info', short_app1 info -> scan_jpeg fuel b i info = Ok info' -> short_app1 info'.
Proof.
  induction fuel as [|fuel IH]; intros i info info' Hs H; [done|]. cbn [scan_jpeg] in H.
  destruct (_ <? _); [|by simplify_eq]. destruct (at_ b i) as [x|]; [|done]. destruct (negb _); [done|].
  destruct (at_ b (i + 1)) as [m|]; [|done]. destruct (m =? 217); [by simplify_eq|].
  destruct (slice b (i + 2) (i + 4)) as [field|] eqn:Hf; [|done]. cbv zeta in H. destruct (_ || _); [done|].
  destruct (slice _ (i + 4) _) as [seg|] eqn:Hg; [|done].
  assert (Hlen : len seg < 65536).
  { apply slice_Ok in Hf as (_ & _ & Hlf), Hg as (_ & _ & ->). pose proof (get_be_bound field) as Hb.
    replace (len field) with 2 in Hb by lia. lia. }
  assert (Hr : short_app1 (read_segment info m seg)).
  { intros p. unfold read_segment. repeat case_match; cbn [j_app1]; first [by intros [= <-]|apply Hs]. }
  destruct (m =? 218); [by simplify_eq|by eapply IH].
Qed.

Lemma scanJPEG_short b info : scanJPEG b = Ok info -> short_app1 info.
Proof. unfold scanJPEG. destruct (_ <>s _); [done|]. by apply scan_jpeg_short. Qed.

(** On a block of 4 GiB and more the check passes and the wrapped bound is below
    the offset: with the first directory at 0xFFFFFFFF the parser panics. *)
Example exif_offset_wraps rest :
  4294967296 - 7 <= len rest ->
  parseEXIF ("Exif" +:+ zeros 2 +:+ "MM" +:+ put_be 2 42 +:+ put_be 4 4294967295 +:+ rest) = Err Panic.
Proof.
  intros Hr. unfold parseEXIF. rewrite !len_app.
  change (len "Exif") with 4. change (len (zeros 2)) with 2. change (len "MM") with 2. rewrite !len_put_be.
  rewrite (proj2 (Z.ltb_ge _ _)) by lia. cbv zeta.
  set (t := "MM" +:+ put_be 2 42 +:+ put_be 4 4294967295 +:+ rest).
  change (sdrop 6 ("Exif" +:+ zeros 2 +:+ t)) with t. change (stake 6 ("Exif" +:+ zeros 2 +:+ t)) with ("Exif" +:+ zeros 2).
  change (("Exif" +:+ zeros 2) <>s ("Exif" +:+ zeros 2)) with false. cbn [orb].
  assert (H24 : slice t 2 4 = Ok (put_be 2 42)) by (by apply slice_middle).
  assert (H48 : slice t 4 8 = Ok (put_be 4 4294967295)).
  { unfold t. rewrite <- (sapp_assoc "MM"). by apply slice_middle. }
  rewrite H24, H48. change (get_be (put_be 2 42) =? 42) with true. change (stake 2 t) with "MM"%string.
  change (("MM"%string <>s "MM") || negb true) with false. cbv iota.
  change (get_be (put_be 4 4294967295)) with 4294967295. unfold readIFD.
  assert (Hl : len t = 8 + len rest) by (unfold t; rewrite !len_app, !len_put_be; change (len "MM") with 2; lia).
  rewrite Hl, (proj2 (Z.ltb_ge _ _)) by lia. unfold slice at 1.
  change (4294967295 <=? u32 (4294967295 + 2)) with false. by rewrite andb_false_r.
Qed.

(** ** A spliced segment is found, and nothing else moves *)

Definition set_app1 (p : string) (j : jpegInfo) : jpegInfo :=
  mkInfo (Some p) (j_hasEOI j) (j_sof j) (j_w j) (j_h j) (j_comps j).

Lemma read_segment_app1 info m seg :
  j_app1 (read_segment info m seg) = if m =? 225 then Some seg else j_app1 info.
Proof. unfold read_segment. destruct (m =? 225); [done|]. by repeat case_match. Qed.

Lemma read_segment_set p info m seg : (m =? 225) = false ->
  read_segment (set_app1 p info) m seg = set_app1 p (read_segment info m seg).
Proof. intros Hm. unfold read_segment. rewrite Hm. by repeat case_match. Qed.

(** A segment once found is not lost. *)
Lemma scan_jpeg_keeps fuel b : forall i info info', scan_jpeg fuel b i info = Ok info' ->
  j_app1 info' = None -> j_app1 info = None.
Proof.
  induction fuel as [|fuel IH]; intros i info info' H Hn; [done|]. cbn [scan_jpeg] in H.
  destruct (_ <? _); [|by simplify_eq]. destruct (at_ b i) as [x|]; [|done]. destruct (negb _); [done|].
  destruct (at_ b (i + 1)) as [m|]; [|done]. destruct (m =? 217); [by simplify_eq|].
  destruct (slice b (i + 2) (i + 4)) as [field|]; [|done]. cbv zeta in H. destruct (_ || _); [done|].
  destruct (slice _ (i + 4) _) as [seg|]; [|done].
  assert (Hr : j_app1 (read_segment info m seg) = None) by (destruct (m =? 218); [by simplify_eq|by eapply IH]).
  rewrite read_segment_app1 in Hr. by destruct (m =? 225).
Qed.

Lemma HasSuffix_app a b p : (String.length p <= String.length b)%nat -> HasSuffix (a +:+ b) p = HasSuffix b p.
Proof.
  intros Hp. induction a as [|x a IH]; [done|]. autorewrite with str. cbn [HasSuffix]. rewrite IH.
  destruct (String.eqb_spec (String x (a +:+ b)) p) as [<-|]; [|done].
  cbn [String.length] in Hp. rewrite length_sapp in Hp. lia.
Qed.

Section Splice.
Context (a m c : string).

(** The same markers are found behind the inserted bytes. *)
Lemma scan_jpeg_insert p fuel : forall fuel' i info info',
  (fuel <= fuel')%nat -> len a <= i -> 2 <= len c ->
  scan_jpeg fuel (a +:+ c) i info = Ok info' -> j_app1 info' = None ->
  scan_jpeg fuel' (a +:+ m +:+ c) (i + len m) (set_app1 p info) = Ok (set_app1 p info').
Proof.
  induction fuel as [|fuel IH]; intros [|fuel'] i info info' Hf Hi Hc H Hn; try done; try lia.
  pose proof (scan_jpeg_keeps _ _ _ _ _ H Hn) as Hn0. cbn [scan_jpeg] in H |- *. rewrite !len_app in *.
  destruct (Z.ltb_spec (i + 3) (len a + len c)) as [H3|H3].
  2: { simplify_eq. by rewrite (proj2 (Z.ltb_ge _ _)) by lia. }
  rewrite (proj2 (Z.ltb_lt _ _)), at_insert by lia. destruct (at_ (a +:+ c) i) as [x|]; [|done].
  destruct (negb (x =? 255)); [done|].
  replace (i + len m + 1) with (i + 1 + len m) by lia. rewrite at_insert by lia.
  destruct (at_ (a +:+ c) (i + 1)) as [k|]; [|done]. destruct (k =? 217); [by simplify_eq|].
  replace (i + len m + 2) with (i + 2 + len m) by lia. replace (i + len m + 4) with (i + 4 + len m) by lia.
  rewrite slice_insert by lia. destruct (slice (a +:+ c) (i + 2) (i + 4)) as [field|]; [|done]. cbv zeta in H |- *.
  destruct (_ || _) eqn:Hb in H; [done|]. apply orb_false_iff in Hb as [Hb1 Hb2].
  rewrite Hb1, (proj2 (Z.ltb_ge _ _)) by lia. cbn [orb].
  replace (i + 2 + len m + get_be field) with (i + 2 + get_be field + len m) by lia.
  rewrite slice_insert by lia. destruct (slice (a +:+ c) (i + 4) _) as [seg|]; [|done].
  assert (Hk : j_app1 (read_segment info k seg) = None)
    by (destruct (k =? 218); [by simplify_eq|by eapply scan_jpeg_keeps]).
  rewrite read_segment_app1 in Hk. destruct (k =? 225) eqn:Ek; [done|]. rewrite read_segment_set by done.
  destruct (k =? 218); [|by apply IH; try lia].
  simplify_eq. unfold ends_with_EOI. rewrite <- (sapp_assoc a m c), !HasSuffix_app by (unfold len in Hc; cbn; lia). done.
Qed.
End Splice.

Lemma Ok_inv {E A} (x y : A) : @Ok E A x = Ok y -> y = x.
Proof. congruence. Qed.

(** A segment spliced into a file that has none is the one the scanner then
    finds, first after SOI; the frame, its size and the end of the file are
    reported as before. *)
Lemma splice_is_found j p b info :
  spliceAPP1 j p = Ok b -> scanJPEG j = Ok info -> j_app1 info = None -> 4 <= len j ->
  scanJPEG b = Ok (set_app1 p info) /\ slice b 2 4 = Ok (String (byte 255) (String (byte 225) "")).
Proof.
  unfold spliceAPP1, scanJPEG. destruct (String.eqb_spec (stake 2 j) SOI) as [Hj|]; [|done]. cbn [negb].
  destruct (Z.ltb_spec 65535 (len p + 2)) as [|Hp]; [done|]. intros Hb Hs Hn Hl. apply Ok_inv in Hb. subst b.
  rewrite Hj. pose proof (stake_sdrop 2 j) as Hsplit. rewrite Hj in Hsplit.
  set (c := sdrop 2 j) in *. set (mk := String (byte 255) (String (byte 225) "")). pose proof (len_nonneg p).
  assert (Hc : 2 <= len c) by (unfold c; rewrite len_sdrop; lia).
  set (m := mk +:+ put_be 2 (len p + 2) +:+ p). assert (Hm : len m = 4 + len p) by (unfold m; rewrite !len_app, len_put_be; change (len mk) with 2; lia).
  replace (SOI +:+ mk +:+ put_be 2 (len p + 2) +:+ p +:+ c) with (SOI +:+ m +:+ c) by (unfold m; by rewrite !sapp_assoc).
  split; [|apply (slice_middle SOI mk); reflexivity].
  change (stake 2 (SOI +:+ m +:+ c)) with SOI. change (SOI <>s SOI) with false. cbv iota.
  assert (Hlen : len (SOI +:+ m +:+ c) = 6 + len p + len c) by (rewrite !len_app, Hm; change (len SOI) with 2; lia).
  cbn [scan_jpeg]. rewrite Hlen, (proj2 (Z.ltb_lt _ _)) by lia.
  change (at_ (SOI +:+ m +:+ c) 2) with (@Ok Fault Z 255). change (at_ (SOI +:+ m +:+ c) (2 + 1)) with (@Ok Fault Z 225).
  cbn [Z.eqb Pos.eqb negb].
  assert (Hf : slice (SOI +:+ m +:+ c) (2 + 2) (2 + 4) = Ok (put_be 2 (len p + 2))).
  { unfold m. rewrite !sapp_assoc. rewrite <- (sapp_assoc SOI mk). apply slice_middle; reflexivity. }
  rewrite Hf. cbv zeta. rewrite get_put_be by (change (256 ^ Z.of_nat 2) with 65536; lia).
  rewrite !(proj2 (Z.ltb_ge _ _)) by lia. cbn [orb].
  assert (Hg : slice (SOI +:+ m +:+ c) (2 + 4) (2 + 2 + (len p + 2)) = Ok p).
  { set (pre := SOI +:+ mk +:+ put_be 2 (len p + 2)).
    assert (Hpre : len pre = 6) by (unfold pre; rewrite !len_app, len_put_be; reflexivity).
    replace (SOI +:+ m +:+ c) with (pre +:+ p +:+ c) by (unfold pre, m; by rewrite !sapp_assoc).
    apply slice_middle; lia. }
  rewrite Hg. change (read_segment no_info 225 p) with (set_app1 p no_info).
  replace (2 + 2 + (len p + 2)) with (2 + len m) by lia.
  apply (scan_jpeg_insert SOI m c p (S (String.length j))); [|done|done|by rewrite Hsplit|done].
  rewrite <- Hsplit, !length_sapp. unfold len in Hm. lia.
Qed.

(** What image/jpeg promises of the frame it writes: its markers scan, it has
    no APP1 of its own, and its size is the picture's. *)
Definition encodes_frames `{JpegEncoder} (w h : Z) : Prop :=
  forall pix q b, jpeg_encode w h pix q = Ok b ->
    exists info, scanJPEG b = Ok info /\ j_app1 info = None /\ j_w info = w /\ j_h info = h /\ 4 <= len b.

(** What the checks ask of the parsed EXIF. *)
Definition exif_wanted (r : result Fault (Tags * Tags)) : Prop :=
  match r with
  | Ok (ifd0, gps) => ifd0 !! tagOrientation = Some (put_be 2 6)
      /\ List.find (fun w => negb (tag_present gps w.1)) gps_wanted = None /\ len (default ""%string (gps !! 2)) = 24
  | Err _ => False
  end.

Lemma exif_wanted_inv r : exif_wanted r -> exists ifd0 gps, r = Ok (ifd0, gps) /\ exif_wanted (Ok (ifd0, gps)).
Proof. destruct r as [[ifd0 gps]|]; [|done]. intros H. by exists ifd0, gps. Qed.

Lemma exif_parsed : exif_wanted (parseEXIF buildEXIF).
Proof. vm_compute. repeat split. Qed.

(** The orientation fixture passes its own checks: the EXIF laid out by hand,
    spliced into whatever the encoder wrote, is found and read back by the
    independent reader with the orientation and the four GPS fields. *)
Theorem orientation_fixture_verifies `{HJ : JpegEncoder, HD : JpegDecoder, HP : Printable} b :
  encodes_frames 64 48 -> buildOrientationGPSJPEG = Ok b -> jpeg_decode b = None ->
  verifyOrientationGPSJPEG b = Ok tt.
Proof.
  intros He Hb Hd. unfold buildOrientationGPSJPEG, painted, encodeJPEG in Hb.
  destruct (scene 64 48 1) as [pix|]; [|done]. destruct (jpeg_encode 64 48 pix 90) as [base|] eqn:Hj; [|done].
  destruct (He _ _ _ Hj) as (info & Hs & Hn & Hw & Hh & Hl).
  destruct (splice_is_found _ _ _ _ Hb Hs Hn Hl) as [Hscan Hmark].
  destruct (exif_wanted_inv _ exif_parsed) as (ifd0 & gps & Hp & Ho & Hf & H24).
  unfold verifyOrientationGPSJPEG. rewrite Hscan. unfold set_app1. cbn [j_app1 j_w j_h]. rewrite Hw, Hh. cbn [Z.eqb Pos.eqb negb orb].
  rewrite Hmark, Hp, Ho. change (slice (put_be 2 6) 0 2) with (@Ok Fault string (put_be 2 6)).
  change (String (byte 255) (String (byte 225) "") <>s String (byte 255) (String (byte 225) "")) with false.
  change (get_be (put_be 2 6) =? 6) with true. cbn [negb]. rewrite Hf, H24, Hd. done.
Qed.

(** A frame of markers alone: SOI, a baseline SOF of the picture's size, EOI. *)
Definition toy_frame (w h : Z) : string :=
  SOI +:+ String (byte 255) (String (byte 192) (put_be 2 17 +:+ String (byte 8) (put_be 2 h +:+ put_be 2 w
      +:+ String (byte 3) (zeros 9)))) +:+ String (byte 255) (String (byte 217) (zeros 2)).

Lemma orientation_fixture_verifies_witness :
  let HP : Printable := ascii_print in
  let HJ : JpegEncoder := fun w h _ _ => Ok (toy_frame w h) in
  let HD : JpegDecoder := {| jpeg_decode := fun _ => None; jpeg_config := fun _ => Ok (64, 48) |} in
  exists b, buildOrientationGPSJPEG = Ok b /\ verifyOrientationGPSJPEG b = Ok tt.
Proof.
  intros HP HJ HD. assert (Hs : spliceAPP1 (toy_frame 64 48) buildEXIF = Ok (SOI +:+ String (byte 255) (String (byte 225) "")
    +:+ put_be 2 (len buildEXIF + 2) +:+ buildEXIF +:+ sdrop 2 (toy_frame 64 48))) by (vm_compute; reflexivity).
  eexists. assert (Hb : buildOrientationGPSJPEG = spliceAPP1 (toy_frame 64 48) buildEXIF).
  { unfold buildOrientationGPSJPEG, painted. destruct (scene_total 64 48 1) as [pix ->]; done. }
  rewrite Hb, Hs. split; [reflexivity|]. apply orientation_fixture_verifies; [|by rewrite Hb|done].
  intros pix q b Hq. apply Ok_inv in Hq. subst b. exists (mkInfo None true 192 64 48 3). by vm_compute.
Defined.
