(* ===== verification/Ebml.v ===== *)
(** * The codec tier: AVIF and WebM (src/internal/fixtures/codec.go)

    The committed AVIF and WebM files and the source picture are parameters:
    their bytes are data of the repository, not code.  The checks are the code's:
    the AVIF through the box walker of IsoBmff.v, the WebM through an EBML
    reader with its variable-length numbers. *)

From S2P Require Import Prelude Utf8 Regex GoStrings GoFmt Sha256 Bytes Raster Codecs IsoBmff.

(** The files compiled into the program with [//go:embed]. *)
Class CodecFiles := { codecSourcePNG : string; codecAVIF : string; codecWebM : string }.


Record CodecOrigin := mkOrigin {
  o_path : string; o_sha256 : string; o_bytes : Z; o_tool : string; o_toolVersion : string;
  o_argv : list string; o_note : string }.

Definition codecSourceSeed : Z := 9.

Definition buildCodecSourcePNG `{PngCodec} : result Fault string :=
  let? pix := scene 64 64 codecSourceSeed in
  match png_encode 64 64 pix with Ok b => Ok b | Err t => Err (Failed t) end.

Definition CodecInputs : list CodecOrigin :=
  [mkOrigin "internal/fixtures/codec/source.png" "" 0 "vizra-core internal/fixtures" ("generator " +:+ Version)
     ["scene(64,64,9)"; "png.Encoder{CompressionLevel: BestCompression}"]
     "The encoder input. TestCommittedCodecSourceIsGeneratorOutput asserts this file equals what the generator produces today.";
   mkOrigin "internal/fixtures/codec/avif-still.avif" "" 0 "libvips (heifsave, libheif/aom)" "vips-8.18.2, libheif 1.21.2, darwin/arm64"
     ["vips"; "copy"; "codec/source.png"; "avif-still.avif[compression=av1,Q=60,effort=4,subsample-mode=off]"]
     "Repeatable on this toolchain: two consecutive runs produced identical bytes.";
   mkOrigin "internal/fixtures/codec/webm-short.webm" "" 0 "ffmpeg (libvpx VP8) + TrackUID normalisation" "ffmpeg 8.1, darwin/arm64"
     ["ffmpeg"; "-nostdin"; "-hide_banner"; "-loglevel"; "error"; "-y"; "-fflags"; "+bitexact"; "-flags:v"; "+bitexact";
      "-loop"; "1"; "-i"; "codec/source.png"; "-t"; "1"; "-r"; "12"; "-c:v"; "libvpx"; "-b:v"; "200k"; "-threads"; "1";
      "-deadline"; "good"; "-cpu-used"; "4"; "-f"; "webm"; "webm-short.webm"]
     ("ffmpeg's Matroska muxer writes a RANDOM 8-byte TrackUID even with +bitexact, so two runs of the identical command differ. "
      +:+ "The repin step rewrites every occurrence of that UID to the fixed value 56495a5241464958 (" +:+ dquote +:+ "VIZRAFIX" +:+ dquote
      +:+ "); with that normalisation the command reproduces byte-for-byte.")]%string.

Definition codecTrackUID : string := "VIZRAFIX".

Definition buildAVIF `{CodecFiles} : result Fault string := Ok codecAVIF.
Definition buildWebM `{CodecFiles} : result Fault string := Ok codecWebM.

(** ** AVIF *)

(** The properties of the item: whether an av1C was seen, and the last size an
    ispe declared. *)
Definition item_property (acc : bool * Z * Z) (p : mp4Box) : bool * Z * Z :=
  let '(av1c, w, h) := acc in
  if b_typ p =s "av1C" then (true, w, h)
  else if (b_typ p =s "ispe") && (12 <=? len (b_payload p))
  then (av1c, get_be (stake 4 (sdrop 4 (b_payload p))), get_be (stake 4 (sdrop 8 (b_payload p))))
  else acc.

Definition verifyAVIF `{Printable} (b : string) : result Fault unit :=
  let? boxes := scanBoxes b "" in
  match boxes with
  | ftyp :: _ :: _ =>
    if b_typ ftyp <>s "ftyp" then Err (Failed "no ftyp box") else
    let? brand := slice (reach ftyp) 0 4 in
    if brand <>s "avif" then Err (Failed ("ftyp major brand is " +:+ Quote brand +:+ ", want avif")) else
    match findBox boxes "meta" with
    | None => Err (Failed "no meta box")
    | Some meta =>
      if len (b_payload meta) <? 4 then Err (Failed "meta box is too short") else
      let? inner := slice_from (b_payload meta) 4 in
      match descend inner (b_tail meta) ["iprp"; "ipco"]%string with
      | Err (Failed t) => Err (Failed ("meta/iprp/ipco: " +:+ t))
      | Err Panic => Err Panic
      | Ok iprp =>
        let? props := scanBoxes (b_payload iprp) (b_tail iprp) in
        let '(av1c, w, h) := fold_left item_property props (false, 0, 0) in
        if negb av1c then Err (Failed "no av1C configuration property: this is not an AV1-coded image") else
        if negb (w =? 64) || negb (h =? 64) then Err (Failed ("ispe declares " +:+ Itoa w +:+ "x" +:+ Itoa h +:+ ", want 64x64")) else
        match findBox boxes "mdat" with
        | None => Err (Failed "no mdat box: the file declares an image and carries no coded data")
        | Some _ => Ok tt
        end
      end
    end
  | _ => Err (Failed "no ftyp box")
  end.

(** ** EBML *)

(** How many bytes a number takes: one more than the zeros before its marker
    bit, 0 when the first byte has none. *)
Fixpoint vint_len (n : nat) (i : Z) (first : Z) : Z :=
  match n with
  | O => 0
  | S n => if Z.land first (Z.shiftr 128 i) =? 0 then vint_len n (i + 1) first else i + 1
  end.
Definition vintLen (first : Z) : Z := vint_len 8 0 first.

(** The element at a position: its identifier with the marker, its payload, and
    the position after it.  A size that runs past the end, or is all ones, takes
    the rest. *)
Definition element (b : string) (pos : Z) : result Fault (Z * string * Z) :=
  if len b <=? pos then Err (Failed "end of stream") else
  let? first := at_ b pos in
  let n := vintLen first in
  if (n =? 0) || (len b <? pos + n) then Err (Failed "malformed element id") else
  let? idb := slice b pos (pos + n) in
  let pos := pos + n in
  if len b <=? pos then Err (Failed "truncated element size") else
  let? sfirst := at_ b pos in
  let sn := vintLen sfirst in
  if (sn =? 0) || (len b <? pos + sn) then Err (Failed "malformed element size") else
  let? more := slice b (pos + 1) (pos + sn) in
  let mask := Z.shiftr 255 sn in
  let size := get_be_from (Z.land sfirst mask) more in
  let unknown := (Z.land sfirst mask =? mask) && sall (fun c => code c =? 255) more in
  let pos := pos + sn in
  if unknown || (len b <? pos + size) then let? rest := slice_from b pos in Ok (get_be idb, rest, len b)
  else let? payload := slice b pos (pos + size) in Ok (get_be idb, payload, pos + size).

(** The first element of the level with the identifier; an error ends the
    search as the end of the level does. *)
Fixpoint find_element (fuel : nat) (b : string) (pos want : Z) : result Fault (option string) :=
  match fuel with
  | O => Err Panic
  | S fuel =>
      if pos <? len b then
        match element b pos with
        | Err (Failed _) => Ok None
        | Err Panic => Err Panic
        | Ok (id, payload, pos) => if id =? want then Ok (Some payload) else find_element fuel b pos want
        end
      else Ok None
  end.

Fixpoint find_ebml (b : string) (level : Z) (path : list Z) : result Fault string :=
  match path with
  | [] => Ok b
  | want :: path =>
      let? found := find_element (S (String.length b)) b 0 want in
      match found with
      | None => Err (Failed ("no EBML element 0x" +:+ HexUpper 1 want +:+ " at level " +:+ Itoa level))
      | Some payload => find_ebml payload (level + 1) path
      end
  end.

Definition findEBML (b : string) (path : list Z) : result Fault string := find_ebml b 0 path.

Definition ebmlHeader : Z := 440786851.
Definition ebmlDocType : Z := 17026.
Definition ebmlSegment : Z := 408125543.
Definition ebmlTracks : Z := 374648427.
Definition ebmlEntry : Z := 174.
Definition ebmlCodecID : Z := 134.
Definition ebmlTrackUID : Z := 29637.
Definition ebmlCluster : Z := 524531317.
Definition ebmlSimpleBk : Z := 163.
Definition ebmlVideo : Z := 224.
Definition ebmlPixelW : Z := 176.
Definition ebmlPixelH : Z := 186.

Definition uint64 (z : Z) : Z := z mod 2 ^ 64.

(** Eight bytes and more: the first ones are shifted out. *)
Definition uintFromEBML (b : string) : Z := uint64 (get_be b).

(** [bytes.TrimRight(b, 0)]. *)
Definition TrimZeros (b : string) : string := trim_right_set (fun c => code c =? 0) b.

Definition in_context (what : string) {A} (r : result Fault A) : result Fault A :=
  match r with Err (Failed t) => Err (Failed (what +:+ ": " +:+ t)) | r => r end.

Definition verifyWebM `{Printable} (b : string) : result Fault unit :=
  let? hdr := findEBML b [ebmlHeader] in
  let? dt := findEBML hdr [ebmlDocType] in
  if TrimZeros dt <>s "webm" then Err (Failed ("DocType is " +:+ Quote (TrimZeros dt) +:+ ", want webm")) else
  let? seg := findEBML b [ebmlSegment] in
  let? entry := findEBML seg [ebmlTracks; ebmlEntry] in
  let? codec := findEBML entry [ebmlCodecID] in
  if TrimZeros codec <>s "V_VP8" then Err (Failed ("CodecID is " +:+ Quote (TrimZeros codec) +:+ ", want V_VP8")) else
  let? uid := findEBML entry [ebmlTrackUID] in
  if uid <>s codecTrackUID
  then Err (Failed ("TrackUID is " +:+ hex uid +:+ ", want the normalised " +:+ hex codecTrackUID
                    +:+ " — without that normalisation this file is not reproducible")) else
  let? video := findEBML entry [ebmlVideo] in
  let? pw := findEBML video [ebmlPixelW] in
  let? ph := findEBML video [ebmlPixelH] in
  if negb (uintFromEBML pw =? 64) || negb (uintFromEBML ph =? 64)
  then Err (Failed ("pixel dimensions are " +:+ Itoa (uintFromEBML pw) +:+ "x" +:+ Itoa (uintFromEBML ph) +:+ ", want 64x64")) else
  let? cluster := in_context "no cluster: a video with no frames is not a video" (findEBML seg [ebmlCluster]) in
  let? _ := in_context "no SimpleBlock in the first cluster" (findEBML cluster [ebmlSimpleBk]) in
  Ok tt.

(** ** The reader is total *)

Lemma vint_len_bound n : forall i first, 0 <= i -> vint_len n i first = 0 \/ i < vint_len n i first <= i + Z.of_nat n.
Proof.
  induction n as [|n IH]; intros i first Hi; cbn [vint_len]; [by left|].
  destruct (_ =? 0); [|right; lia]. destruct (IH (i + 1) first); [lia|by left|right; lia].
Qed.

Lemma vintLen_bound first : 0 <= vintLen first <= 8.
Proof. unfold vintLen. destruct (vint_len_bound 8 0 first); lia. Qed.

(** What an element can be: an error it reports, or a place further on. *)
Lemma element_total b pos : 0 <= pos ->
  match element b pos with
  | Ok (_, _, pos') => pos < pos' <= len b
  | Err f => f <> Panic
  end.
Proof.
  intros Hp. unfold element. destruct (Z.leb_spec (len b) pos) as [|H1]; [done|].
  destruct (at_total b pos) as [first ->]; [lia|]. cbv zeta. set (n := vintLen first).
  pose proof (vintLen_bound first) as Hn. fold n in Hn.
  destruct (_ || _) eqn:Hc; [done|]. apply orb_false_iff in Hc as [Hc1 Hc2].
  destruct (slice_total b pos (pos + n)) as [idb ->]; [lia|lia|].
  destruct (Z.leb_spec (len b) (pos + n)) as [|H2]; [done|].
  destruct (at_total b (pos + n)) as [sfirst ->]; [lia|]. set (sn := vintLen sfirst).
  pose proof (vintLen_bound sfirst) as Hs. fold sn in Hs.
  destruct (_ || _) eqn:Hd; [done|]. apply orb_false_iff in Hd as [Hd1 Hd2].
  destruct (slice_total b (pos + n + 1) (pos + n + sn)) as [more ->]; [lia|lia|].
  set (size := get_be_from _ more).
  assert (Hl : 0 <= Z.land sfirst (Z.shiftr 255 sn)) by (apply Z.land_nonneg; right; apply Z.shiftr_nonneg; lia).
  assert (Hsize : 0 <= size) by (pose proof (get_be_from_bound more _ Hl); unfold size; nia).
  destruct (_ || _) eqn:He.
  - unfold slice_from. destruct (slice_total b (pos + n + sn) (len b)) as [rest ->]; lia.
  - apply orb_false_iff in He as [_ He]. destruct (slice_total b (pos + n + sn) (pos + n + sn + size)) as [p ->]; lia.
Qed.

Lemma find_element_total fuel b want : forall pos, 0 <= pos -> (Z.to_nat (len b - pos) < fuel)%nat ->
  find_element fuel b pos want <> Err Panic.
Proof.
  induction fuel as [|fuel IH]; intros pos Hp Hf; [lia|]. cbn [find_element].
  destruct (Z.ltb_spec pos (len b)) as [H1|]; [|done]. pose proof (element_total b pos Hp) as He.
  destruct (element b pos) as [[[id payload] pos']|[|]]; [|done|done]. destruct (id =? want); [done|]. apply IH; lia.
Qed.

Lemma find_ebml_total path : forall b level, find_ebml b level path <> Err Panic.
Proof.
  induction path as [|want path IH]; intros b level; cbn [find_ebml]; [done|].
  pose proof (find_element_total (S (String.length b)) b want 0 ltac:(lia) ltac:(unfold len; lia)).
  destruct (find_element _ b 0 want) as [[p|]|]; [apply IH|done|congruence].
Qed.

Lemma in_context_total {A} what (r : result Fault A) : r <> Err Panic -> in_context what r <> Err Panic.
Proof. by destruct r as [|[|]]. Qed.

Ltac no_panic :=
  repeat match goal with
  | |- context [findEBML ?b ?p] =>
      let H := fresh in pose proof (find_ebml_total p b 0 : findEBML b p <> Err Panic) as H;
      destruct (findEBML b p) as [?|[?|]]; [clear H|done|done]
  | |- context [if ?c then _ else _] => destruct c; [done|]
  | |- context [in_context _ _] => cbn [in_context]
  end.

(** No file makes the check of the WebM panic or run on. *)
Lemma verifyWebM_total `{Printable} b : verifyWebM b <> Err Panic.
Proof. unfold verifyWebM. no_panic. done. Qed.

(** An element with a one-byte size, and a film of such elements: the check
    accepts it, and names the part that is missing. *)
Definition el (id : list Z) (payload : string) : string :=
  concat (map (put_be 1) id) +:+ put_be 1 (128 + len payload) +:+ payload.

Definition toy_webm (codec : string) (cluster : string) : string :=
  el [26; 69; 223; 163] (el [66; 130] ("webm" +:+ zeros 1))
  +:+ el [24; 83; 128; 103]
        (el [22; 84; 174; 107] (el [174] (el [134] codec +:+ el [115; 197] codecTrackUID
           +:+ el [224] (el [176] (put_be 1 64) +:+ el [186] (put_be 2 64))))
         +:+ cluster).

Example webm_samples `{Printable} :
  verifyWebM (toy_webm "V_VP8" (el [31; 67; 182; 117] (el [163] "frame"))) = Ok tt
  /\ verifyWebM (toy_webm "V_VP8" (el [31; 67; 182; 117] ""))
     = Err (Failed "no SimpleBlock in the first cluster: no EBML element 0xA3 at level 0")
  /\ verifyWebM (toy_webm "V_VP8" "")
     = Err (Failed "no cluster: a video with no frames is not a video: no EBML element 0x1F43B675 at level 0")
  /\ verifyWebM "" = Err (Failed "no EBML element 0x1A45DFA3 at level 0").
Proof. vm_compute. repeat split. Qed.
