(* ===== verification/MediaReaders.v ===== *)
(** * The media readers on arbitrary bytes

    The scanners of src/internal/fixtures are written to read any file: each
    ends, and reports a malformed file as an error instead of reading outside
    it. *)

From S2P Require Import Prelude Utf8 GoStrings GoFmt Sha256 Bytes Raster Codecs IsoBmff WebP Png Jpeg Ebml.

Lemma scanBoxes_total b tail : scanBoxes b tail <> Err Panic.
Proof. apply scan_boxes_total; [pose proof (len_nonneg b); lia|unfold len; lia]. Qed.

Lemma descend_total path : forall b tail, descend b tail path <> Err Panic.
Proof.
  induction path as [|want path IH]; intros b tail; cbn [descend]; [done|].
  pose proof (scanBoxes_total b tail). destruct (scanBoxes b tail) as [l|[|]]; [|done|done].
  destruct (findBox l want) as [bx|]; [|done]. destruct path; [done|]. apply IH.
Qed.

Lemma get_le_nonneg s : 0 <= get_le s.
Proof.
  induction s as [|c s IH]; cbn [get_le]; [lia|]. unfold code. pose proof (N_ascii_bounded c). lia.
Qed.

Lemma scan_chunks_total fuel b : forall i, 0 <= i -> (Z.to_nat (len b - i) < fuel)%nat ->
  scan_chunks fuel b i <> Err Panic.
Proof.
  induction fuel as [|fuel IH]; intros i Hi Hf; [lia|]. cbn [scan_chunks].
  destruct (Z.leb_spec (i + 8) (len b)) as [H8|]; [|done].
  destruct (slice_total b i (i + 4)) as [cc ->]; [lia|lia|].
  destruct (slice_total b (i + 4) (i + 8)) as [field ->]; [lia|lia|]. cbv zeta. pose proof (get_le_nonneg field).
  destruct (Z.ltb_spec (len b) (i + 8 + get_le field)) as [|Hn]; [done|].
  destruct (slice_total b (i + 8) (i + 8 + get_le field)) as [payload ->]; [lia|lia|].
  assert (Hr : scan_chunks fuel b (i + 8 + get_le field + (if Z.odd (get_le field) then 1 else 0)) <> Err Panic)
    by (destruct (Z.odd (get_le field)); apply IH; lia).
  destruct (scan_chunks fuel b _) as [|e]; congruence.
Qed.

Lemma scanRIFF_total b : scanRIFF b <> Err Panic.
Proof.
  unfold scanRIFF. destruct (Z.ltb_spec (len b) 12) as [|Hl]; [done|]. cbn [orb]. destruct (_ || _); [done|].
  destruct (slice_total b 4 8) as [field ->]; [lia|lia|]. destruct (negb _); [done|].
  apply scan_chunks_total; [lia|unfold len; lia].
Qed.

Lemma read_symbols_total n : forall i r,
  match read_symbols n i r with Ok (l, _) => length l = n | Err f => f <> Panic end.
Proof.
  induction n as [|n IH]; intros i r; cbn [read_symbols]; [done|].
  destruct (br_read r 1) as [v1 r1]. destruct (negb _); [done|].
  destruct (br_read r1 1) as [v2 r2]. destruct (negb _); [done|].
  destruct (br_read r2 1) as [v3 r3]. destruct (negb _); [done|].
  destruct (br_read r3 8) as [s r4]. specialize (IH (i + 1) r4).
  destruct (read_symbols n (i + 1) r4) as [[l r5]|f]; [cbn; by f_equal|done].
Qed.

Lemma vp8lReadSolid_total b : vp8lReadSolid b <> Err Panic.
Proof.
  unfold vp8lReadSolid. destruct b as [|sig rest]; [done|]. destruct (_ || _); [done|]. cbv zeta.
  repeat (match goal with |- context [br_read ?r ?n] => destruct (br_read r n) as [? ?] end; try (destruct (negb _); [done|])).
  match goal with |- context [read_symbols 5 0 ?r] => pose proof (read_symbols_total 5 0 r) as Hs; destruct (read_symbols 5 0 r) as [[l r']|[|]] end;
    [|done|done].
  do 5 (destruct l as [|? l]; [done|]). destruct l; [|done]. destruct (r_failed r'); [done|]. by destruct (negb _).
Qed.

(** *** PNG: one way to panic *)

(** At [i] stands an IHDR chunk of fewer than ten bytes. *)
Definition short_ihdr (b : string) (i : Z) : Prop :=
  slice b (i + 4) (i + 8) = Ok "IHDR"%string /\ exists field, slice b i (i + 4) = Ok field /\ get_be field < 10.

Lemma read_chunk_total h typ data : read_chunk h typ data = Err Panic -> typ = "IHDR"%string /\ len data < 10.
Proof.
  unfold read_chunk. destruct (String.eqb_spec typ "IHDR") as [->|]; [|by destruct (typ =s "IDAT")].
  intros H. split; [done|]. destruct (Z.ltb_spec (len data) 10) as [|Hl]; [done|]. exfalso. revert H.
  destruct (slice_total data 0 4) as [w ->]; [lia|lia|]. destruct (slice_total data 4 8) as [hh ->]; [lia|lia|].
  destruct (at_total data 8) as [bd ->]; [lia|]. by destruct (at_total data 9) as [ct ->]; [lia|].
Qed.

Lemma read_chunk_failed h typ data t : read_chunk h typ data <> Err (Failed t).
Proof.
  unfold read_chunk. destruct (typ =s "IHDR"); [|by destruct (typ =s "IDAT")].
  unfold slice, at_. repeat case_match; congruence.
Qed.

Lemma scan_png_panic fuel b : forall i h seen, 0 <= i -> (Z.to_nat (len b - i) < fuel)%nat ->
  scan_png fuel b i h seen = Err Panic -> exists j, i <= j /\ short_ihdr b j.
Proof.
  induction fuel as [|fuel IH]; intros i h seen Hi Hf; [lia|]. cbn [scan_png].
  destruct (Z.leb_spec (i + 8) (len b)) as [H8|]; [|done].
  destruct (slice_total b i (i + 4)) as [field Hfield]; [lia|lia|]. rewrite Hfield.
  destruct (slice_total b (i + 4) (i + 8)) as [typ Htyp]; [lia|lia|]. rewrite Htyp. cbv zeta.
  pose proof (get_be_bound field). destruct (Z.ltb_spec (len b) (i + 12 + get_be field)) as [|Hn]; [done|].
  destruct (slice_total b (i + 8) (i + 8 + get_be field)) as [data Hdata]; [lia|lia|]. rewrite Hdata.
  destruct (slice_total b (i + 8 + get_be field) (i + 12 + get_be field)) as [want ->]; [lia|lia|].
  destruct (slice_total b (i + 4) (i + 8 + get_be field)) as [body ->]; [lia|lia|].
  destruct (negb _); [done|]. destruct (typ =s "IEND"); [by destruct seen|].
  destruct (read_chunk h typ data) as [h'|[t|]] eqn:Hr; [| |].
  - intros Hs. apply IH in Hs as (j & Hj & Hsj); [|lia|lia]. exists j. split; [lia|done].
  - by apply read_chunk_failed in Hr.
  - intros _. apply read_chunk_total in Hr as [-> Hl]. exists i. split; [lia|]. split; [done|]. exists field. split; [done|].
    apply slice_Ok in Hdata as (_ & _ & Hld). lia.
Qed.

Lemma scanPNG_panic b : scanPNG b = Err Panic -> exists i, 8 <= i /\ short_ihdr b i.
Proof.
  unfold scanPNG. destruct (_ || _); [done|]. intros H. apply scan_png_panic in H; [done|lia|unfold len; lia].
Qed.

(** C36. Whatever the bytes, the box walker and its descent, the RIFF scanner, the
    VP8L reader, the JPEG marker scanner and the EBML search end with a result or
    an error and read nothing outside their input.  So does the EXIF parser on
    every segment the marker scanner can find, and on every block that 32-bit
    offsets can address; and the PNG scanner, except in a file with an IHDR chunk
    of fewer than ten bytes. *)
Theorem media_readers_never_panic b tail path ids :
  scanBoxes b tail <> Err Panic /\ descend b tail path <> Err Panic /\ scanRIFF b <> Err Panic
  /\ vp8lReadSolid b <> Err Panic /\ scanJPEG b <> Err Panic
  /\ (forall info app1, scanJPEG b = Ok info -> j_app1 info = Some app1 -> parseEXIF app1 <> Err Panic)
  /\ (len b < 4294967296 + 6 -> parseEXIF b <> Err Panic)
  /\ findEBML b ids <> Err Panic /\ (scanPNG b = Err Panic -> exists i, 8 <= i /\ short_ihdr b i).
Proof.
  split; [apply scanBoxes_total|]. split; [apply descend_total|]. split; [apply scanRIFF_total|].
  split; [apply vp8lReadSolid_total|]. split; [apply scanJPEG_total|]. split; [|split; [apply parseEXIF_total|]].
  - intros info app1 Hs Ha. apply parseEXIF_total. pose proof (scanJPEG_short _ _ Hs _ Ha). lia.
  - split; [apply find_ebml_total|apply scanPNG_panic].
Qed.
