(* ===== verification/GifFiles.v ===== *)
(** * The animated GIF and the polyglot (src/internal/fixtures/gif.go)

    image/gif, net/http's content sniffing and encoding/xml are parameters; the
    frames, the active document and every check are the code's. *)

From stdpp Require Import list_numbers.
From S2P Require Import Prelude Utf8 GoStrings GoFmt Sha256 Bytes Raster Codecs.

(** [http.DetectContentType], and the local name of the root element
    [xml.Unmarshal] finds, or its error. *)
Class Sniffer := DetectContentType : string -> string.
Class XmlReader := xml_root : string -> result string string.

(** [bytes.Index]; [bytes.IndexByte] is the same for one byte. *)
Fixpoint Index (s p : string) : option nat :=
  if HasPrefix s p then Some O
  else match s with EmptyString => None | String _ s => option_map S (Index s p) end.

(** ** The animation *)

Definition gif_dim : Z := 64.

Definition bar_palette : list (Z * Z * Z) := map (fun i => (i * 32, 255 - i * 32, i * 16)) (seqZ 0 8).

(** A bar that moves with the frame. *)
Definition bar_index (f x y : Z) : Z := ((x + f * 16) / 8 + y / 16) mod 8.

Definition bar_frame (f : Z) : list Z :=
  flat_map (fun y => map (fun x => bar_index f x y) (seqZ 0 gif_dim)) (seqZ 0 gif_dim).

Definition bar_animation : Gif :=
  mkGif bar_palette gif_dim gif_dim (map bar_frame (seqZ 0 4)) (map (fun _ => 10) (seqZ 0 4)) 0.

Definition failing {A} (r : result string A) : result Fault A :=
  match r with Ok a => Ok a | Err t => Err (Failed t) end.

Section Gif.
Context `{HG : GifCodec, HS : Sniffer, HX : XmlReader, HP : Printable}.

Definition buildAnimatedGIF : result Fault string := failing (gif_encode_all bar_animation).

(** The first frame without a delay. *)
Fixpoint no_delay (i : Z) (ds : list Z) : option Z :=
  match ds with [] => None | d :: ds => if d <=? 0 then Some i else no_delay (i + 1) ds end.

Definition verifyAnimatedGIF (b : string) : result Fault unit :=
  let? g := failing (gif_decode_all b) in
  if negb (Z.of_nat (length (gif_frames g)) =? 4)
  then Err (Failed (Itoa (Z.of_nat (length (gif_frames g))) +:+ " frames, want 4")) else
  match no_delay 0 (gif_delays g) with
  | Some i => Err (Failed ("frame " +:+ Itoa i +:+ " has no delay; a zero-delay animation is not one"))
  | None =>
    if negb (gif_loop g =? 0)
    then Err (Failed ("loop count is " +:+ Itoa (gif_loop g) +:+ ", want 0 (infinite, set by a NETSCAPE2.0 extension)")) else
    if negb (Contains b "NETSCAPE2.0")
    then Err (Failed "no NETSCAPE2.0 application extension, so the loop count is not actually in the file") else
    match gif_frames g with
    | [] => Err Panic
    | first :: others =>
        if forallb (fun im => bool_decide (first = im)) others then Err (Failed "every frame is identical") else Ok tt
    end
  end.

(** ** The polyglot *)

Definition activeSVG : string := ReplaceAll
"<?xml version='1.0' encoding='UTF-8'?>
<svg xmlns='http://www.w3.org/2000/svg' xmlns:xlink='http://www.w3.org/1999/xlink'
     width='4' height='4' viewBox='0 0 4 4' onload='fixtureActiveContentRan()'>
  <script type='application/ecmascript'><![CDATA[
    // Synthetic active content. If a Vizra surface ever executes this, the
    // upload path has served an SVG as a document instead of as an image.
    function fixtureActiveContentRan() { document.title = 'vizra-fixture-svg-script-executed'; }
  ]]></script>
  <image xlink:href='http://169.254.169.254/latest/meta-data/' x='0' y='0' width='1' height='1'/>
  <rect width='4' height='4' fill='#336699'/>
</svg>
" "'" dquote.

Definition polyglot_image : Gif :=
  mkGif [(51, 102, 153); (0, 0, 0)] 4 4 [map (fun i => i mod 2) (seqZ 0 16)] [0] 0.

Definition polyglot (head : string) : string := head +:+ newline +:+ activeSVG.

Definition buildPolyglot : result Fault string :=
  let? head := failing (gif_encode_one polyglot_image) in Ok (polyglot head).

Definition active_parts : list string := ["<script"; "onload="; "169.254.169.254"]%string.

(** The trailer is the first byte 0x3B of the file. *)
Definition verifyPolyglot (b : string) : result Fault unit :=
  if (len b <? 6) || (stake 6 b <>s "GIF89a")
  then Err (Failed "the first six bytes are not GIF89a, so content sniffing will not disagree with the .svg name") else
  if DetectContentType b <>s "image/gif"
  then Err (Failed ("http.DetectContentType says " +:+ Quote (DetectContentType b) +:+ ", want image/gif")) else
  match gif_decode_one b with
  | Some t => Err (Failed ("the GIF prefix does not decode: " +:+ t))
  | None =>
    match Index b ";" with
    | None => Err (Failed "no GIF trailer")
    | Some trailer =>
      let tail := sdrop (S trailer) b in
      match Index tail "<?xml" with
      | None => Err (Failed "no XML declaration after the GIF trailer")
      | Some x =>
        let doc := sdrop x tail in
        match xml_root doc with
        | Err t => Err (Failed ("the tail is not well-formed XML: " +:+ t))
        | Ok root =>
          if root <>s "svg" then Err (Failed ("the XML root is " +:+ Quote root +:+ ", want svg")) else
          match List.find (fun want => negb (Contains doc want)) active_parts with
          | Some want => Err (Failed ("the SVG does not carry " +:+ Quote want +:+ ", so it is not an active-content fixture"))
          | None => Ok tt
          end
        end
      end
    end
  end.
End Gif.

(** ** The fixtures pass their checks *)

(** No two frames of the animation are the same picture. *)
Lemma bar_frames_differ : NoDup (map bar_frame (seqZ 0 4)).
Proof. apply (bool_decide_unpack _). vm_compute. exact I. Qed.

Lemma Index_found s p k : Index s p = Some k -> HasPrefix (sdrop k s) p = true.
Proof.
  revert k. induction s as [|c s IH]; intros k; cbn [Index].
  - destruct (HasPrefix "" p) eqn:E; [|done]. intros; by simplify_eq.
  - destruct (HasPrefix (String c s) p) eqn:E; [intros; by simplify_eq|].
    destruct (Index s p) as [k'|]; [|done]. cbn. intros; simplify_eq. by apply IH.
Qed.

Section Checked.
Context `{HG : GifCodec, HS : Sniffer, HX : XmlReader, HP : Printable}.

(** What a polyglot that passes the check is: a file sniffed as a GIF whose GIF
    part decodes, and in it, behind a trailer byte, an XML document with an svg
    root and all three pieces of active content. *)
Lemma polyglot_checked b : verifyPolyglot b = Ok tt ->
  HasPrefix b "GIF89a" = true /\ DetectContentType b = "image/gif"%string /\ gif_decode_one b = None
  /\ exists doc k, doc = sdrop k b /\ HasPrefix doc "<?xml" = true /\ xml_root doc = Ok "svg"%string
     /\ Forall (fun want => Contains doc want = true) active_parts.
Proof.
  unfold verifyPolyglot. destruct (_ || _) eqn:Hh; [done|]. apply orb_false_iff in Hh as [_ Hh].
  destruct (String.eqb_spec (DetectContentType b) "image/gif") as [Hd|]; [cbn [negb]|done].
  destruct (gif_decode_one b); [done|]. destruct (Index b ";") as [tr|]; [|done]. cbv zeta.
  destruct (Index (sdrop (S tr) b) "<?xml") as [x|] eqn:Hx; [|done]. apply Index_found in Hx.
  set (doc := sdrop x (sdrop (S tr) b)) in *. destruct (xml_root doc) as [root|] eqn:Hr; [|done].
  destruct (String.eqb_spec root "svg") as [->|]; [cbn [negb]|done].
  destruct (List.find _ active_parts) as [w|] eqn:Hf; [done|]. intros _.
  split; [|split; [done|split; [done|]]].
  - apply negb_false_iff, String.eqb_eq in Hh. rewrite <- (stake_sdrop 6 b), Hh. by destruct (sdrop 6 b).
  - exists doc, (S tr + x)%nat. split; [unfold doc; by rewrite sdrop_sdrop|]. split; [done|]. split; [done|].
    apply List.Forall_forall. intros w Hw. pose proof (List.find_none _ _ Hf w Hw) as Hn. by apply negb_false_iff in Hn.
Qed.
End Checked.
