(* ===== verification/Fixtures.v ===== *)
(** * The correctness corpus (src/internal/fixtures/fixtures.go)

    The twelve fixtures with what each is for, the generator that checks every
    fixture before it writes it, and the check of a corpus on disk.  The generator and the check take the
    corpus as an argument; the code passes [Corpus]. *)

From S2P Require Import Prelude Utf8 GoStrings GoFmt GoJson Sha256 Bytes Raster Codecs Files.
From S2P Require Import IsoBmff WebP Png Jpeg Ebml GifFiles.

Inductive Tier := TierNative | TierCodec.
Definition tier_text (t : Tier) : string := match t with TierNative => "native" | TierCodec => "codec" end.

Inductive Decode := DecodeOK | DecodeRejectTruncate | DecodeRejectPixels | DecodeRejectExpand | DecodeRejectType.
Definition decode_text (d : Decode) : string :=
  match d with
  | DecodeOK => "ok"
  | DecodeRejectTruncate => "reject:truncated"
  | DecodeRejectPixels => "reject:pixel-limit"
  | DecodeRejectExpand => "reject:byte-budget"
  | DecodeRejectType => "reject:type"
  end.

Record Spec := mkSpec {
  s_id : string; s_path : string; s_format : string; s_tier : Tier; s_adr009 : Z; s_purpose : string;
  s_decode : Decode; s_width : Z; s_height : Z; s_asserts : list string; s_license : string;
  s_build : result Fault string;
  s_verify : string -> result Fault unit }.

Definition genLicense : string :=
  "Synthesised by vizra-core internal/fixtures. No third-party material; no licence attaches.".

Definition ADR009Count : Z := 12.

Section Corpus.
Context `{HJ : JpegEncoder, HD : JpegDecoder, HZ : Zlib, HPC : PngCodec, HG : GifCodec}.
Context `{HS : Sniffer, HX : XmlReader, HF : CodecFiles, HP : Printable}.

(** The three texts with [Sprintf] are written out. *)
Definition Corpus : list Spec :=
  [mkSpec "jpeg-exif-orientation6-gps" "jpeg-exif-orientation6-gps.jpg" "jpeg" TierNative 1
     "EXIF orientation must be applied to derivatives and GPS must never survive into one (ADR-006)."
     DecodeOK 64 48
     ["APP1 Exif header is the first marker after SOI";
      "EXIF Orientation (0x0112) is 6 (rotate 90 CW)";
      "a GPS IFD is present with GPSLatitude, GPSLongitude and both refs";
      "the stored pixel dimensions are 64x48, so an orientation-aware pipeline must report 48x64"]
     genLicense buildOrientationGPSJPEG verifyOrientationGPSJPEG;
   mkSpec "png-alpha" "png-alpha.png" "png" TierNative 2
     "Transparency must be preserved through derivatives (ADR-006)."
     DecodeOK 96 96
     ["IHDR colour type 6 (truecolour with alpha), bit depth 8";
      "the image contains fully transparent, partially transparent and fully opaque pixels"]
     genLicense buildAlphaPNG verifyAlphaPNG;
   mkSpec "jpeg-truncated" "jpeg-truncated.jpg" "jpeg" TierNative 3
     "A partial upload must be rejected, not stored as a half image."
     DecodeRejectTruncate 64 48
     ["starts with a valid JPEG SOI and SOF0";
      "has NO EOI marker";
      ("image.Decode fails with a truncated-stream error (unexpected EOF, or image/jpeg's " +:+ dquote +:+ "short Huffman data" +:+ dquote +:+ ")")]
     genLicense buildTruncatedJPEG verifyTruncatedJPEG;
   mkSpec "png-oversized-dimensions" "png-oversized-dimensions.png" "png" TierNative 4
     "The pixel-count guard must refuse on DECLARED dimensions, before any pixel buffer is allocated."
     DecodeRejectPixels oversizedDim oversizedDim
     ["IHDR declares 30000x30000 = 900 megapixels";
      "the file itself stays under 512 KiB, so size is not a usable proxy for the risk";
      "the PNG stream is valid: image.DecodeConfig succeeds and reports the declared dimensions"]
     genLicense buildOversizedPNG verifyOversizedPNG;
   mkSpec "png-decoder-bomb" "png-decoder-bomb.png" "png" TierNative 5
     "The decoder byte budget must bound the DECOMPRESSED stream, not the file."
     DecodeRejectExpand bombDim bombDim
     ["modest declared dimensions (4200x4200 = 17.6 megapixels), so the pixel-count guard alone does not catch it";
      "the IDAT stream inflates by a factor of at least 500";
      "the decompressed raster exceeds 64 MiB"]
     genLicense buildBombPNG verifyBombPNG;
   mkSpec "polyglot-gif-svg-active" "polyglot-gif-svg-active.svg" "polyglot" TierNative 6
     "Content sniffing and the claimed type disagree, and the payload carries active content: never trust the client's MIME or filename (AGENTS.md)."
     DecodeRejectType 4 4
     ["the file is named .svg";
      "the first six bytes are GIF89a and the prefix is a VALID, decodable GIF";
      "http.DetectContentType reports image/gif";
      "the tail after the GIF trailer is a well-formed XML svg document";
      "that document contains a <script> element, an onload handler and a remote xlink:href (SSRF bait)"]
     genLicense buildPolyglot verifyPolyglot;
   mkSpec "gif-animated" "gif-animated.gif" "gif" TierNative 7
     "Animation must be preserved as a first-frame thumbnail plus an animated display (ADR-006)."
     DecodeOK 64 64
     ["4 frames";
      "a per-frame delay is set on every frame";
      "a NETSCAPE2.0 application extension sets an infinite loop count";
      "the frames are not identical to each other"]
     genLicense buildAnimatedGIF verifyAnimatedGIF;
   mkSpec "webp-animated" "webp-animated.webp" "webp" TierNative 8
     "Animated WebP is a distinct decoder path from GIF and from still WebP; it also carries alpha."
     DecodeOK 32 32
     ["RIFF/WEBP container";
      "a VP8X chunk with the ANIMATION and ALPHA flags set";
      "an ANIM chunk with an infinite loop count";
      "3 ANMF frames, each with a non-zero duration and a VP8L sub-chunk";
      "each VP8L frame decodes to its declared solid colour (checked by an independent VP8L reader in the property test)"]
     genLicense buildAnimatedWebP verifyAnimatedWebP;
   mkSpec "avif-still" "avif-still.avif" "avif" TierCodec 9
     "AVIF is in the format matrix (ADR-006); this is the still-image AV1 path."
     DecodeOK 64 64
     ["ftyp major brand is avif";
      "a meta box carries an ipco with an av1C configuration and an ispe declaring 64x64";
      "an mdat box carries the AV1 OBUs"]
     genLicense buildAVIF verifyAVIF;
   mkSpec "jpeg-12mp-budget" "jpeg-12mp-budget.jpg" "jpeg" TierNative 10
     "The derivative-set budget of ADR-009 is quoted for a 12 MP JPEG; this is that JPEG."
     DecodeOK budgetW budgetH
     ["4000x3000 = 12.0 megapixels exactly";
      "baseline (SOF0) JPEG, 3 components";
      "the encoded size is between 1 MiB and 8 MiB, so the budget run is not measuring a flat colour"]
     genLicense buildBudgetJPEG verifyBudgetJPEG;
   mkSpec "mp4-short" "mp4-short.mp4" "mp4" TierNative 11
     "Video probe and poster extraction operate on a container, not on a pixel decoder in the api (ADR-006)."
     DecodeOK 160 120
     ["ISOBMFF: ftyp, moov and mdat boxes, in that order";
      "one trak with an hdlr handler_type of vide";
      "a stsd sample entry of jpeg declaring 160x120";
      "12 samples over a 1.000 s declared duration";
      "every sample is an independently decodable JPEG"]
     genLicense buildMP4 verifyMP4;
   mkSpec "webm-short" "webm-short.webm" "webm" TierCodec 12
     "The second video container; a different demuxer from MP4."
     DecodeOK 64 64
     ["EBML header with DocType webm";
      "a Segment with a Tracks element";
      "a video track whose CodecID is V_VP8";
      "at least one SimpleBlock cluster"]
     genLicense buildWebM verifyWebM]%string.
End Corpus.

Record FileInfo := mkFileInfo { fi_sha256 : string; fi_bytes : Z }.

Definition sha256Hex (b : string) : string := hex (Sum256 b).

Definition file_info (b : string) : FileInfo := mkFileInfo (sha256Hex b) (len b).

Section Disk.
Context `{HO : Os}.

(** A fixture is checked for what it is for before it is written; a failure
    leaves the files written so far. *)
Fixpoint generate_files (dir : string) (specs : list Spec) (out : gmap string FileInfo) (d : Disk)
    : result Fault (gmap string FileInfo) * Disk :=
  match specs with
  | [] => (Ok out, d)
  | s :: specs =>
      match s_build s with
      | Err (Failed t) => (Err (Failed ("fixture " +:+ s_id s +:+ ": " +:+ t)), d)
      | Err Panic => (Err Panic, d)
      | Ok b =>
          match s_verify s b with
          | Err (Failed t) => (Err (Failed ("fixture " +:+ s_id s +:+ " failed its own property assertions: " +:+ t)), d)
          | Err Panic => (Err Panic, d)
          | Ok _ =>
              match WriteFile d (JoinPath [dir; s_path s]) b with
              | Err t => (Err (Failed t), d)
              | Ok d => generate_files dir specs (<[s_path s := file_info b]> out) d
              end
          end
      end
  end.

Definition Generate (specs : list Spec) (dir : string) (d : Disk) : result Fault (gmap string FileInfo) * Disk :=
  match MkdirAll d dir with
  | Err t => (Err (Failed t), d)
  | Ok d => generate_files dir specs ∅ d
  end.

Definition joinLines (l : list string) : string := Join l (newline +:+ "  ").

(** What one fixture on disk is reported for. *)
Definition spec_problem (dir : string) (d : Disk) (s : Spec) : result Fault (list string) :=
  match ReadFile d (JoinPath [dir; s_path s]) with
  | Err e => Ok [s_id s +:+ ": " +:+ io_text e]
  | Ok b =>
      match s_verify s b with
      | Ok _ => Ok []
      | Err (Failed t) => Ok [s_id s +:+ ": " +:+ t]
      | Err Panic => Err Panic
      end
  end.

Fixpoint spec_problems (dir : string) (d : Disk) (specs : list Spec) : result Fault (list string) :=
  match specs with
  | [] => Ok []
  | s :: specs => let? p := spec_problem dir d s in let? ps := spec_problems dir d specs in Ok (p ++ ps)
  end.

Definition Verify (specs : list Spec) (dir : string) (d : Disk) : result Fault unit :=
  let? problems := spec_problems dir d specs in
  match Strings problems with
  | [] => Ok tt
  | l => Err (Failed ("fixture property assertions failed:" +:+ newline +:+ "  " +:+ joinLines l))
  end.

(** ** A corpus that was generated passes the check *)

(** What [Generate] promises of one fixture. *)
Definition generated (dir : string) (d : Disk) (files : gmap string FileInfo) (s : Spec) : Prop :=
  exists b, s_build s = Ok b /\ s_verify s b = Ok tt /\ d !! Clean (JoinPath [dir; s_path s]) = Some (FileNode b)
         /\ files !! s_path s = Some (file_info b).

Definition place (dir : string) (s : Spec) : string := Clean (JoinPath [dir; s_path s]).

Lemma generate_files_keeps dir specs : forall out d files d' p,
  generate_files dir specs out d = (Ok files, d') -> p ∉ map (place dir) specs -> d' !! p = d !! p.
Proof.
  induction specs as [|s specs IH]; intros out d files d' p H Hp; cbn [generate_files] in H; [by simplify_eq|].
  destruct (s_build s) as [b|[]]; [|done|done]. destruct (s_verify s b) as [|[]]; [|done|done].
  destruct (WriteFile d _ b) as [d1|] eqn:Hw; [|done]. cbn [map] in Hp. apply not_elem_of_cons in Hp as [Hp1 Hp2].
  rewrite (IH _ _ _ _ _ H Hp2). by eapply WriteFile_lookup.
Qed.

Lemma generate_files_out dir specs : forall out d files d' p,
  generate_files dir specs out d = (Ok files, d') -> p ∉ map s_path specs -> files !! p = out !! p.
Proof.
  induction specs as [|s specs IH]; intros out d files d' p H Hp; cbn [generate_files] in H; [by simplify_eq|].
  destruct (s_build s) as [b|[]]; [|done|done]. destruct (s_verify s b) as [|[]]; [|done|done].
  destruct (WriteFile d _ b) as [d1|] eqn:Hw; [|done]. cbn [map] in Hp. apply not_elem_of_cons in Hp as [Hp1 Hp2].
  rewrite (IH _ _ _ _ _ H Hp2). by rewrite lookup_insert_ne by done.
Qed.

Lemma generate_files_ok dir specs : forall out d files d',
  NoDup (map s_path specs) -> NoDup (map (place dir) specs) ->
  generate_files dir specs out d = (Ok files, d') -> Forall (generated dir d' files) specs.
Proof.
  induction specs as [|s specs IH]; intros out d files d' Hn Hn' H; cbn [generate_files] in H; [constructor|].
  cbn [map] in Hn, Hn'. apply NoDup_cons in Hn as [Hs Hn]. apply NoDup_cons in Hn' as [Hs' Hn'].
  destruct (s_build s) as [b|[]] eqn:Hb; [|done|done]. destruct (s_verify s b) as [[]|[]] eqn:Hv; [|done|done].
  destruct (WriteFile d _ b) as [d1|] eqn:Hw; [|done]. constructor; [|by eapply IH].
  exists b. split; [done|]. split; [done|]. split.
  - change (Clean (JoinPath [dir; s_path s])) with (place dir s). rewrite (generate_files_keeps _ _ _ _ _ _ _ H Hs').
    unfold WriteFile in Hw. destruct (os_refuses d OpWrite _); [done|].
    destruct (d !! Clean _) as [[]|]; simplify_eq; by apply lookup_insert_eq.
  - rewrite (generate_files_out _ _ _ _ _ _ _ H Hs). by apply lookup_insert_eq.
Qed.

Lemma spec_problems_none dir d specs :
  Forall (fun s => spec_problem dir d s = Ok []) specs -> spec_problems dir d specs = Ok [].
Proof. induction 1 as [|s specs Hs _ IH]; [done|]. cbn [spec_problems]. by rewrite Hs, IH. Qed.

(** A generated corpus is on disk as it was built, each fixture passing its own
    assertions, with the digest and the size of what was written; the check of
    the directory finds nothing. *)
Theorem generated_corpus_verifies specs dir d files d' :
  NoDup (map s_path specs) -> NoDup (map (place dir) specs) ->
  (forall p, os_refuses d' OpRead p = None) ->
  Generate specs dir d = (Ok files, d') ->
  Forall (generated dir d' files) specs /\ Verify specs dir d' = Ok tt.
Proof.
  intros Hn Hn' Ho. unfold Generate. destruct (MkdirAll d dir) as [d1|]; [|done]. intros H.
  pose proof (generate_files_ok _ _ _ _ _ _ Hn Hn' H) as Hg. split; [done|].
  unfold Verify. rewrite spec_problems_none; [done|]. eapply Forall_impl; [exact Hg|].
  intros s (b & _ & Hv & Hl & _). unfold spec_problem, ReadFile. by rewrite Ho, Hl, Hv.
Qed.
End Disk.

(** Two small fixtures. *)
Definition toy_spec (n : Z) (name bytes : string) : Spec :=
  mkSpec name name "toy" TierNative n "a sample" DecodeOK 1 1 [] genLicense (Ok bytes)
    (fun b => if b =s bytes then Ok tt else Err (Failed "changed")).

Lemma generated_corpus_verifies_witness :
  exists files d', Generate (HO := no_refusal) [toy_spec 1 "a" "one"; toy_spec 2 "b" "two"] "out" ∅ = (Ok files, d')
    /\ Verify (HO := no_refusal) [toy_spec 1 "a" "one"; toy_spec 2 "b" "two"] "out" d' = Ok tt.
Proof.
  set (specs := [toy_spec 1 "a" "one"; toy_spec 2 "b" "two"]).
  destruct (Generate (HO := no_refusal) specs "out" ∅) as [[files|f] d'] eqn:H; [|vm_compute in H; discriminate H].
  exists files, d'. split; [done|]. apply (generated_corpus_verifies (HO := no_refusal) specs "out" ∅ files d'); try done.
  - apply (bool_decide_unpack _). vm_compute. exact I.
  - apply (bool_decide_unpack _). vm_compute. exact I.
Defined.
