(* ===== verification/FixtureManifest.v ===== *)
(** * The fixture manifest (src/internal/fixtures/manifest.go)

    What the manifest records, how it is built and written, and the check that
    regenerates the corpus and compares it with the manifest.  The file is
    read with the decoder of GoJsonParse.v and written with the encoder of
    GoJson.v; the text of a decoder's error is a parameter ([JsonErrors]). *)

From stdpp Require Import list_numbers.
From S2P Require Import Prelude Utf8 GoStrings GoFmt GoJson GoJsonParse Sha256 Bytes Codecs Files Ebml Fixtures.

Import JsonRead(GoType, GoVal, TString, TInt, TSlice, TStruct, Unmarshal, text_of, texts_of, int_of, field).

Definition ManifestPath : string := "fixtures/manifest.json".
Definition OutputDir : string := "testdata/fixtures".

Definition GeneratorSourceFiles : list string :=
  ["internal/fixtures/codec.go"; "internal/fixtures/fixtures.go"; "internal/fixtures/gif.go";
   "internal/fixtures/jpeg.go"; "internal/fixtures/loadcorpus.go"; "internal/fixtures/manifest.go";
   "internal/fixtures/mp4.go"; "internal/fixtures/png.go"; "internal/fixtures/raster.go";
   "internal/fixtures/webp.go"; "cmd/fixturegen/main.go"]%string.

Record GeneratorInfo := mkGenerator { g_name : string; g_version : string; g_sourceSHA256 : string; g_sourceFiles : list string }.
Record ToolchainInfo := mkToolchain { t_go : string; t_goMod : string }.

(** The tier and the decode outcome are strings in the manifest. *)
Record Entry := mkEntry {
  e_id : string; e_path : string; e_format : string; e_tier : string; e_adr009 : Z; e_sha256 : string; e_bytes : Z;
  e_width : Z; e_height : Z; e_decode : string; e_purpose : string; e_asserts : list string; e_license : string }.

Record Manifest := mkManifest {
  m_schema : Z; m_note : string; m_generator : GeneratorInfo; m_toolchain : ToolchainInfo; m_outputDir : string;
  m_codecInputs : list CodecOrigin; m_fixtures : list Entry }.

Definition manifestNote : string :=
  "VZ-FOUND-007 / ADR-009. Generated by `make fixtures-manifest`; verified by `make fixtures-verify`. "
  +:+ "The corpus itself is NOT committed: this manifest is the committed artefact and the generator reproduces the bytes.".

(** The text of the error with which [json.Unmarshal] refuses a document, and
    [runtime.Version()]. *)
Class JsonErrors := json_error_text : string -> string.
Class GoRuntime := runtime_version : string.

(** ** Reading the tree *)

(** [strings.Fields]; [cur] is the field being read. *)
Fixpoint fields_fuel (fuel : nat) (cur s : string) : list string :=
  let flush rest := if cur =s "" then rest else cur :: rest in
  match fuel, s with
  | O, _ | _, EmptyString => flush []
  | S fuel, String c r =>
      match space_size s with
      | O => fields_fuel fuel (cur +:+ String c "") r
      | n => flush (fields_fuel fuel "" (sdrop n s))
      end
  end.

Definition Fields (s : string) : list string := fields_fuel (S (String.length s)) "" s.

Example Fields_sample : Fields ("  go " +:+ String (byte 9) "1.26.0 ") = ["go"; "1.26.0"]%string /\ Fields " " = [].
Proof. split; reflexivity. Qed.

Definition go_line (line : string) : option string :=
  match Fields line with [k; v] => if k =s "go" then Some v else None | _ => None end.

Fixpoint first_some {A B} (f : A -> option B) (l : list A) : option B :=
  match l with [] => None | x :: l => match f x with Some y => Some y | None => first_some f l end end.

Section Tree.
Context `{HO : Os}.

Definition repo_path (root rel : string) : string := JoinPath [root; rel].

Definition goDirective (root : string) (d : Disk) : result string string :=
  match ReadFile d (repo_path root "go.mod") with
  | Err e => Err (io_text e)
  | Ok b => match first_some go_line (Split (ascii_of_N 10) b) with
            | Some v => Ok v
            | None => Err "no `go` directive in go.mod"%string
            end
  end.

(** What is hashed: each file's path, its size and its bytes. *)
Fixpoint source_bytes (root : string) (files : list string) (d : Disk) : result string string :=
  match files with
  | [] => Ok ""%string
  | rel :: files =>
      match ReadFile d (repo_path root rel) with
      | Err e => Err ("generator source " +:+ rel +:+ ": " +:+ io_text e)
      | Ok b => let? rest := source_bytes root files d in
                Ok (rel +:+ newline +:+ Itoa (len b) +:+ newline +:+ b +:+ rest)
      end
  end.

Definition SourceDigest (root : string) (d : Disk) : result string string :=
  let? b := source_bytes root GeneratorSourceFiles d in Ok (sha256Hex b).

(** ** Building the manifest *)

Definition with_file (o : CodecOrigin) (b : string) : CodecOrigin :=
  mkOrigin (o_path o) (sha256Hex b) (len b) (o_tool o) (o_toolVersion o) (o_argv o) (o_note o).

Fixpoint codec_records (root : string) (os : list CodecOrigin) (d : Disk) : result string (list CodecOrigin) :=
  match os with
  | [] => Ok []
  | o :: os =>
      match ReadFile d (repo_path root (o_path o)) with
      | Err e => Err (io_text e)
      | Ok b => let? rest := codec_records root os d in Ok (with_file o b :: rest)
      end
  end.

Definition entry_of (s : Spec) (fi : FileInfo) : Entry :=
  mkEntry (s_id s) (s_path s) (s_format s) (tier_text (s_tier s)) (s_adr009 s) (fi_sha256 fi) (fi_bytes fi)
    (s_width s) (s_height s) (decode_text (s_decode s)) (s_purpose s) (s_asserts s) (s_license s).

Fixpoint entries_of (specs : list Spec) (files : gmap string FileInfo) : result string (list Entry) :=
  match specs with
  | [] => Ok []
  | s :: specs =>
      match files !! s_path s with
      | None => Err ("generator produced no " +:+ s_path s)
      | Some fi => let? rest := entries_of specs files in Ok (entry_of s fi :: rest)
      end
  end.

Context `{HR : GoRuntime}.

Definition build_manifest (digest goMod : string) (codecs : list CodecOrigin) (fixtures : list Entry) : Manifest :=
  mkManifest 1 manifestNote (mkGenerator "fixturegen" Version digest GeneratorSourceFiles)
    (mkToolchain runtime_version goMod) OutputDir codecs fixtures.

(** The corpus is generated before the codec inputs are read. *)
Definition Build (specs : list Spec) (root : string) (d : Disk) : result Fault Manifest * Disk :=
  match SourceDigest root d with
  | Err t => (Err (Failed t), d)
  | Ok digest =>
      match goDirective root d with
      | Err t => (Err (Failed t), d)
      | Ok goMod =>
          match Generate specs (repo_path root OutputDir) d with
          | (Err e, d) => (Err e, d)
          | (Ok files, d) =>
              match codec_records root CodecInputs d with
              | Err t => (Err (Failed t), d)
              | Ok codecs =>
                  match entries_of specs files with
                  | Err t => (Err (Failed t), d)
                  | Ok es => (Ok (build_manifest digest goMod codecs es), d)
                  end
              end
          end
      end
  end.

(** ** The file *)

Definition strings_json (l : list string) : Json := JArray (map JString l).

Definition origin_json (o : CodecOrigin) : Json :=
  JObject ([("path", JString (o_path o)); ("sha256", JString (o_sha256 o)); ("bytes", JInt (o_bytes o));
            ("tool", JString (o_tool o)); ("tool_version", JString (o_toolVersion o)); ("argv", strings_json (o_argv o))]%string
           ++ (if o_note o =s "" then [] else [("note"%string, JString (o_note o))])).

Definition entry_json (e : Entry) : Json :=
  JObject [("id", JString (e_id e)); ("path", JString (e_path e)); ("format", JString (e_format e));
           ("tier", JString (e_tier e)); ("adr009_item", JInt (e_adr009 e)); ("sha256", JString (e_sha256 e));
           ("bytes", JInt (e_bytes e)); ("width", JInt (e_width e)); ("height", JInt (e_height e));
           ("expected_decode", JString (e_decode e)); ("purpose", JString (e_purpose e));
           ("asserts", strings_json (e_asserts e)); ("license", JString (e_license e))]%string.

(** A slice grown from nil with [append]: nothing appended is null. *)
Definition grown (l : list Json) : Json := match l with [] => JNull | _ => JArray l end.

Definition manifest_json (m : Manifest) : Json :=
  let g := m_generator m in let t := m_toolchain m in
  JObject [("schema", JInt (m_schema m)); ("note", JString (m_note m));
           ("generator", JObject [("name", JString (g_name g)); ("version", JString (g_version g));
              ("source_sha256", JString (g_sourceSHA256 g)); ("source_files", strings_json (g_sourceFiles g))]);
           ("toolchain", JObject [("go", JString (t_go t)); ("go_mod_language_version", JString (t_goMod t))]);
           ("output_dir", JString (m_outputDir m)); ("codec_inputs", grown (map origin_json (m_codecInputs m)));
           ("fixtures", grown (map entry_json (m_fixtures m)))]%string.

Definition manifest_text (m : Manifest) : string := indented 0 (manifest_json m) +:+ newline.

Definition WriteManifest (root : string) (m : Manifest) (d : Disk) : result string Disk :=
  let p := repo_path root ManifestPath in
  let? d := MkdirAll d (Dir p) in WriteFile d p (manifest_text m).

(** The types the file is decoded into: the names of the members are those of
    the encoder, in the order of the records. *)
Definition origin_type : GoType :=
  TStruct [("path", TString); ("sha256", TString); ("bytes", TInt); ("tool", TString); ("tool_version", TString);
           ("argv", TSlice TString); ("note", TString)]%string.

Definition entry_type : GoType :=
  TStruct [("id", TString); ("path", TString); ("format", TString); ("tier", TString); ("adr009_item", TInt);
           ("sha256", TString); ("bytes", TInt); ("width", TInt); ("height", TInt); ("expected_decode", TString);
           ("purpose", TString); ("asserts", TSlice TString); ("license", TString)]%string.

Definition generator_type : GoType :=
  TStruct [("name", TString); ("version", TString); ("source_sha256", TString); ("source_files", TSlice TString)]%string.

Definition toolchain_type : GoType := TStruct [("go", TString); ("go_mod_language_version", TString)]%string.

Definition manifest_type : GoType :=
  TStruct [("schema", TInt); ("note", TString); ("generator", generator_type); ("toolchain", toolchain_type);
           ("output_dir", TString); ("codec_inputs", TSlice origin_type); ("fixtures", TSlice entry_type)]%string.

Definition origin_of (g : GoVal) : CodecOrigin :=
  mkOrigin (text_of (field 0 g)) (text_of (field 1 g)) (int_of (field 2 g)) (text_of (field 3 g)) (text_of (field 4 g))
    (texts_of (field 5 g)) (text_of (field 6 g)).

Definition read_entry (g : GoVal) : Entry :=
  mkEntry (text_of (field 0 g)) (text_of (field 1 g)) (text_of (field 2 g)) (text_of (field 3 g)) (int_of (field 4 g))
    (text_of (field 5 g)) (int_of (field 6 g)) (int_of (field 7 g)) (int_of (field 8 g)) (text_of (field 9 g))
    (text_of (field 10 g)) (texts_of (field 11 g)) (text_of (field 12 g)).

Definition manifest_of (g : GoVal) : Manifest :=
  let gen := field 2 g in
  mkManifest (int_of (field 0 g)) (text_of (field 1 g))
    (mkGenerator (text_of (field 0 gen)) (text_of (field 1 gen)) (text_of (field 2 gen)) (texts_of (field 3 gen)))
    (mkToolchain (text_of (field 0 (field 3 g))) (text_of (field 1 (field 3 g)))) (text_of (field 4 g))
    (map origin_of (JsonRead.items_of (field 5 g))) (map read_entry (JsonRead.items_of (field 6 g))).

Context `{HM : JsonErrors}.

Definition unmarshal_manifest (b : string) : result string Manifest :=
  match Unmarshal manifest_type b with Some g => Ok (manifest_of g) | None => Err (json_error_text b) end.

Definition ReadManifest (root : string) (d : Disk) : result string Manifest :=
  match ReadFile d (repo_path root ManifestPath) with
  | Err e => Err (io_text e)
  | Ok b => match unmarshal_manifest b with
            | Err t => Err (ManifestPath +:+ " is not valid JSON: " +:+ t)
            | Ok m => Ok m
            end
  end.

(** ** The check against the manifest *)

Record Problem := mkProblem { p_kind : string; p_detail : string }.

Definition Problem_String (p : Problem) : string := p_kind p +:+ ": " +:+ p_detail p.

Definition problem_leb (p q : Problem) : bool :=
  if p_kind p =s p_kind q then String.leb (p_detail p) (p_detail q) else String.leb (p_kind p) (p_kind q).

Fixpoint insert_problem (p : Problem) (l : list Problem) : list Problem :=
  match l with
  | [] => [p]
  | q :: l => if problem_leb p q then p :: q :: l else q :: insert_problem p l
  end.

(** Kind and detail are all there is of a problem, so the order of a map that
    was walked does not show after sorting. *)
Definition sortProblems (l : list Problem) : list Problem := foldr insert_problem [] l.

Fixpoint equalStrings (a b : list string) : bool :=
  match a, b with
  | [], [] => true
  | x :: a, y :: b => (x =s y) && equalStrings a b
  | _, _ => false
  end.

(** *** The declared set: the manifest and the corpus, each against ADR-009 *)

Definition items_of (entries : list (Z * string)) : gmap Z (list string) :=
  fold_left (fun m e => <[e.1 := default [] (m !! e.1) ++ [e.2]]> m) entries ∅.

Definition item_problems (what : string) (items : gmap Z (list string)) (item : Z) : list Problem :=
  match default [] (items !! item) with
  | [] => [mkProblem "declared-set" ("ADR-009 item " +:+ Itoa item +:+ " is missing: " +:+ what +:+ " no fixture for it")]
  | [_] => []
  | paths => [mkProblem "declared-set" ("ADR-009 item " +:+ Itoa item +:+ " is claimed " +:+ Itoa (Z.of_nat (length paths))
               +:+ " times where " +:+ what +:+ ": " +:+ Join (Strings paths) ", ")]
  end.

Definition outside_problems (what : string) (kv : Z * list string) : list Problem :=
  let '(item, paths) := kv in
  if (item <? 1) || (ADR009Count <? item)
  then [mkProblem "declared-set" (what +:+ " an entry claiming ADR-009 item " +:+ Itoa item +:+ ", which is outside 1.."
         +:+ Itoa ADR009Count +:+ ": " +:+ Join (Strings paths) ", ")]
  else [].

Definition side_problems (what : string) (entries : list (Z * string)) : list Problem :=
  let items := items_of entries in
  let count := Z.of_nat (length entries) in
  (if count =? ADR009Count then []
   else [mkProblem "declared-set" (what +:+ " " +:+ Itoa count +:+ " fixture(s); ADR-009 names " +:+ Itoa ADR009Count
          +:+ " and says none is dropped. A corpus that lost a fixture would still report `ok` while every later media assertion made against it silently covered less than it claims.")])
  ++ flat_map (item_problems what items) (seqZ 1 ADR009Count)
  ++ flat_map (outside_problems what) (map_to_list items).

Definition checkDeclaredSet (specs : list Spec) (m : Manifest) : list Problem :=
  side_problems "the committed manifest lists" (map (fun e => (e_adr009 e, e_path e)) (m_fixtures m))
  ++ side_problems "the generator's Corpus() produces" (map (fun s => (s_adr009 s, s_path s)) specs).

(** *** The toolchain and the generator *)

Definition go_problems (m : Manifest) : list Problem :=
  if runtime_version =s t_go (m_toolchain m) then []
  else [mkProblem "toolchain-pin" ("the manifest was produced with " +:+ t_go (m_toolchain m) +:+ ", this toolchain is "
    +:+ runtime_version +:+ ". A byte comparison across Go releases proves nothing; build with the pinned toolchain, or re-pin deliberately with `make fixtures-manifest`.")].

Definition gomod_problems (goMod : string) (m : Manifest) : list Problem :=
  if goMod =s t_goMod (m_toolchain m) then []
  else [mkProblem "toolchain-pin" ("go.mod's language version is " +:+ goMod +:+ ", the manifest records "
    +:+ t_goMod (m_toolchain m) +:+ ". That directive sets the standard library's GODEBUG compatibility defaults, and under GOTOOLCHAIN=auto it also selects which toolchain runs the generator — and the toolchain demonstrably changes these bytes. Re-pin with `make fixtures-manifest` and review which fixture hashes moved.")].

(** [s[:n]] of a string: a panic when it is shorter. *)
Definition prefix_of (s : string) (n : Z) : result Fault string := slice s 0 n.

(** The recorded digest is cut to sixteen digits for the message. *)
Definition digest_problems (digest : string) (m : Manifest) : result Fault (list Problem) :=
  let recorded := g_sourceSHA256 (m_generator m) in
  if digest =s recorded then Ok []
  else let? a := prefix_of digest 16 in
       let? b := prefix_of recorded 16 in
       Ok [mkProblem "generator-source" ("the generator source digest is " +:+ a +:+ "…, the manifest records " +:+ b
         +:+ "…. The generator changed and the manifest was not regenerated: run `make fixtures-manifest` and review the fixture hashes in the diff.")].

Context `{HP : Printable}.

Definition generator_problems (m : Manifest) : list Problem :=
  let g := m_generator m in
  (if g_version g =s Version then []
   else [mkProblem "generator-version" ("the manifest records generator version " +:+ Quote (g_version g)
          +:+ ", this generator is " +:+ Quote Version)])
  ++ (if equalStrings (g_sourceFiles g) GeneratorSourceFiles then []
      else [mkProblem "generator-source-list" "the manifest's source_files list differs from GeneratorSourceFiles; a file added to the generator and not to that list is not covered by the digest"]).

(** *** What is recorded, against what is there *)

(** A walk over the wanted items that takes each out of the recorded map, then
    over what is left.  [check] reports what is wrong with a recorded item, and
    whether it is taken out. *)
Fixpoint reconcile {S E} (key : S -> string) (check : S -> E -> list Problem * bool) (missing : S -> Problem)
    (unused : string -> Problem) (wanted : list S) (recorded : gmap string E) : list Problem :=
  match wanted with
  | [] => map (fun kv => unused kv.1) (map_to_list recorded)
  | s :: wanted =>
      match recorded !! key s with
      | None => missing s :: reconcile key check missing unused wanted recorded
      | Some e =>
          let '(ps, taken) := check s e in
          ps ++ reconcile key check missing unused wanted (if taken then delete (key s) recorded else recorded)
      end
  end.

Definition codec_check (root : string) (d : Disk) (o rec : CodecOrigin) : list Problem * bool :=
  match ReadFile d (repo_path root (o_path o)) with
  | Err e => ([mkProblem "codec-input" (o_path o +:+ ": " +:+ io_text e)], false)
  | Ok b =>
      ((if sha256Hex b =s o_sha256 rec then []
        else [mkProblem "codec-input" (o_path o +:+ " has sha256 " +:+ sha256Hex b +:+ ", the manifest records " +:+ o_sha256 rec)])
       ++ (if o_toolVersion rec =s o_toolVersion o then []
           else [mkProblem "codec-tool-pin" (o_path o +:+ " was produced by " +:+ Quote (o_toolVersion o) +:+ ", the manifest records "
                  +:+ Quote (o_toolVersion rec) +:+ ". A codec pin moved without the corpus being re-pinned.")]), true)
  end.

(** A map from a list: of two entries with one key the last stays. *)
Definition by_key {E} (key : E -> string) (l : list E) : gmap string E :=
  fold_left (fun m e => <[key e := e]> m) l ∅.

Definition codec_problems (root : string) (d : Disk) (m : Manifest) : list Problem :=
  reconcile o_path (codec_check root d)
    (fun o => mkProblem "codec-input" (o_path o +:+ " is not in the manifest"))
    (fun p => mkProblem "codec-input" ("the manifest records " +:+ p +:+ ", which the generator no longer uses"))
    CodecInputs (by_key o_path (m_codecInputs m)).

(** *** The corpus on disk *)

Definition on_disk_problems (root : string) (d : Disk) (e : Entry) : list Problem :=
  match ReadFile d (JoinPath [repo_path root OutputDir; e_path e]) with
  | Err er => if io_missing er then []
              else [mkProblem "fixture-on-disk" (e_path e +:+ ": " +:+ io_text er)]
  | Ok b => if sha256Hex b =s e_sha256 e then []
            else [mkProblem "fixture-on-disk" (e_path e +:+ " in " +:+ OutputDir +:+ " has sha256 " +:+ sha256Hex b
                   +:+ ", the manifest records " +:+ e_sha256 e +:+ " — the corpus on disk is not the corpus the manifest describes")]
  end.

Definition undeclared_problem (declared : list string) (de : string * bool) : list Problem :=
  let '(name, isDir) := de in
  if HasPrefix name "." || one_of name declared then []
  else [mkProblem "undeclared-fixture" (name +:+ " in " +:+ OutputDir +:+ " is a " +:+ (if isDir then "directory" else "file")
         +:+ " that no manifest entry declares. Every byte in the corpus has a recorded origin, an expected decode outcome and a licence line; a file with none of those is not a fixture, and a later slice that globs this directory would treat it as one. Remove it, or add it to the generator and re-pin with `make fixtures-manifest`.")].

Definition undeclared_problems (root : string) (d : Disk) (m : Manifest) : list Problem :=
  match ReadDir d (repo_path root OutputDir) with
  | Err _ => []
  | Ok entries => flat_map (undeclared_problem (map e_path (m_fixtures m))) entries
  end.

(** *** The regenerated bytes *)

Definition bytes_check (files : gmap string FileInfo) (s : Spec) (e : Entry) : list Problem * bool :=
  let got := default (mkFileInfo "" 0) (files !! s_path s) in
  ((if fi_sha256 got =s e_sha256 e then []
    else [mkProblem "fixture-bytes" (s_path s +:+ ": regenerated sha256 " +:+ fi_sha256 got +:+ " (" +:+ Itoa (fi_bytes got)
           +:+ " bytes), the manifest records " +:+ e_sha256 e +:+ " (" +:+ Itoa (e_bytes e) +:+ " bytes)")]), true).

Definition bytes_problems (specs : list Spec) (files : gmap string FileInfo) (m : Manifest) : list Problem :=
  reconcile s_path (bytes_check files)
    (fun s => mkProblem "fixture-missing-from-manifest" (s_path s))
    (fun p => mkProblem "fixture-not-generated" ("the manifest records " +:+ p +:+ ", which the generator does not produce"))
    specs (by_key e_path (m_fixtures m)).

Definition not_compared : Problem := mkProblem "not-compared"
  "the fixture bytes were NOT regenerated and compared, because something cheaper already disagrees with the manifest. Fix the problems above and run again; a byte comparison made under a different pin, a different generator source or beside a stale corpus is not evidence about anything.".

(** Everything that is checked before the corpus is regenerated. *)
Definition cheap_problems (specs : list Spec) (root : string) (m : Manifest) (d : Disk) : result Fault (list Problem) :=
  match goDirective root d with
  | Err t => Err (Failed t)
  | Ok goMod =>
      match SourceDigest root d with
      | Err t => Err (Failed t)
      | Ok digest =>
          let? dp := digest_problems digest m in
          Ok (checkDeclaredSet specs m ++ go_problems m ++ gomod_problems goMod m ++ dp ++ generator_problems m
              ++ codec_problems root d m ++ flat_map (on_disk_problems root d) (m_fixtures m)
              ++ undeclared_problems root d m)
      end
  end.

Definition VerifyAgainstManifest (specs : list Spec) (root scratch : string) (d : Disk)
    : result Fault (list Problem) * Disk :=
  match ReadManifest root d with
  | Err t => (Err (Failed t), d)
  | Ok m =>
      match cheap_problems specs root m d with
      | Err e => (Err e, d)
      | Ok [] =>
          match Generate specs scratch d with
          | (Err e, d) => (Err e, d)
          | (Ok files, d) => (Ok (sortProblems (bytes_problems specs files m)), d)
          end
      | Ok probs => (Ok (sortProblems (probs ++ [not_compared])), d)
      end
  end.

(** [Summary]: the digest is cut to twelve digits. *)
Definition Summary (m : Manifest) : result Fault string :=
  let? digest := prefix_of (g_sourceSHA256 (m_generator m)) 12 in
  Ok (Itoa (Z.of_nat (length (m_fixtures m))) +:+ " fixtures, " +:+ Itoa (foldr Z.add 0 (map e_bytes (m_fixtures m)))
      +:+ " bytes, generator " +:+ g_version (m_generator m) +:+ " (" +:+ digest +:+ "), toolchain " +:+ t_go (m_toolchain m)).
(** ** When nothing is reported *)

(** The recorded items are those wanted, each once, and each is good. *)
Definition accounts {S E} (key : S -> string) (good : S -> E -> Prop) (wanted : list S) (recorded : gmap string E) : Prop :=
  NoDup (map key wanted) /\ dom recorded = (list_to_set (map key wanted) : gset string)
  /\ Forall (fun s => exists e, recorded !! key s = Some e /\ good s e) wanted.

Lemma reconcile_nil {S E} key (check : S -> E -> list Problem * bool) missing unused wanted :
  (forall s e t, check s e = ([], t) -> t = true) ->
  forall recorded, reconcile key check missing unused wanted recorded = []
    <-> accounts key (fun s e => check s e = ([], true)) wanted recorded.
Proof.
  intros Hc. induction wanted as [|s wanted IH]; intros rec; cbn [reconcile map list_to_set].
  - split.
    + intros H. apply map_eq_nil, map_to_list_empty_iff in H. subst rec. split; [constructor|]. split; [set_solver|constructor].
    + intros (_ & Hd & _). apply (dom_empty_inv_L (D := gset string)) in Hd. by subst rec.
  - unfold accounts. cbn [map list_to_set]. rewrite NoDup_cons, Forall_cons.
    destruct (rec !! key s) as [e|] eqn:Hr; [|split; [done|]; intros (_ & _ & (e & ? & _) & _); simplify_eq].
    destruct (check s e) as [ps t] eqn:Hk. split.
    + intros H. apply app_eq_nil in H as [-> H]. pose proof (Hc _ _ _ Hk) as ->. apply IH in H as (Hn & Hd & Hf).
      rewrite dom_delete_L in Hd. assert (Hin : key s ∈ dom rec) by by apply elem_of_dom_2 in Hr.
      assert (Hs : key s ∉ map key wanted) by (rewrite <- (elem_of_list_to_set (C := gset string)), <- Hd; set_solver).
      split; [done|]. split; [|split].
      * rewrite <- Hd. apply set_eq. intros x. destruct (decide (x = key s)); set_solver.
      * by exists e.
      * eapply Forall_impl; [exact Hf|]. intros s' (e' & Hl & Hg). exists e'. by apply lookup_delete_Some in Hl as [_ ?].
    + intros ([Hs Hn] & Hd & (e' & ? & Hg) & Hf). simplify_eq. rewrite Hk in Hg. simplify_eq. cbn [app].
      apply IH. split; [done|]. split.
      * rewrite dom_delete_L, Hd. rewrite <- (elem_of_list_to_set (C := gset string)) in Hs. set_solver.
      * rewrite Forall_forall in Hf |- *. intros s' Hs'. destruct (Hf s' Hs') as (e2 & Hl & Hg'). exists e2. split; [|done].
        apply lookup_delete_Some. split; [|done]. intros E'. apply Hs. rewrite E'. by apply list_elem_of_fmap_2.
Qed.

Lemma sortProblems_nil l : sortProblems l = [] <-> l = [].
Proof.
  split; [|by intros ->]. destruct l as [|p l]; [done|]. cbn [sortProblems foldr].
  by destruct (foldr insert_problem [] l) as [|q r]; cbn; [|destruct (problem_leb p q)].
Qed.

Lemma if_nil {A} (b : bool) (x : A) : (if b then [] else [x]) = [] <-> b = true.
Proof. by destruct b. Qed.

Lemma app_nil_iff {A} (a b : list A) : a ++ b = [] <-> a = [] /\ b = [].
Proof. split; [apply app_eq_nil|by intros [-> ->]]. Qed.

Lemma flat_map_nil_iff {A B} (f : A -> list B) l : flat_map f l = [] <-> Forall (fun x => f x = []) l.
Proof.
  induction l as [|x l IH]; cbn [flat_map]; [split; [constructor|done]|]. by rewrite app_nil_iff, Forall_cons, IH.
Qed.

Lemma equalStrings_eq a b : equalStrings a b = true <-> a = b.
Proof.
  revert b. induction a as [|x a IH]; intros [|y b]; cbn [equalStrings]; try done.
  rewrite andb_true_iff, IH, String.eqb_eq. naive_solver.
Qed.

(** *** The declared set is the twelve items, each once *)

Definition claimed (k : Z) (entries : list (Z * string)) : list string :=
  map snd (List.filter (fun e => e.1 =? k) entries).

Lemma claimed_count k entries : length (claimed k entries) = count_occ Z.eq_dec (map fst entries) k.
Proof.
  unfold claimed. rewrite length_map. induction entries as [|e l IH]; [done|]. cbn [List.filter map count_occ].
  destruct (Z.eqb_spec e.1 k), (Z.eq_dec e.1 k); cbn [length]; by rewrite ?IH.
Qed.

Lemma items_from entries : forall (m : gmap Z (list string)) k,
  let m' := fold_left (fun m e => <[e.1 := default [] (m !! e.1) ++ [e.2]]> m) entries m in
  default [] (m' !! k) = default [] (m !! k) ++ claimed k entries
  /\ (is_Some (m' !! k) <-> is_Some (m !! k) \/ k ∈ map fst entries).
Proof.
  induction entries as [|e l IH]; intros m k; cbn [fold_left].
  - split; [by rewrite app_nil_r|]. cbn [map]. split; [by left|]. intros [|H]; [done|by apply not_elem_of_nil in H].
  - destruct (IH (<[e.1 := default [] (m !! e.1) ++ [e.2]]> m) k) as [H1 H2]. unfold claimed in *. cbn [List.filter map].
    rewrite H1, H2, elem_of_cons. destruct (Z.eqb_spec e.1 k) as [E|E].
    + subst k. rewrite lookup_insert_eq. split; [cbn; by rewrite <- app_assoc|]. split; [naive_solver|]. intros _. left. by eexists.
    + rewrite lookup_insert_ne by done. split; [done|]. naive_solver.
Qed.

Lemma item_problems_nil what entries k :
  item_problems what (items_of entries) k = [] <-> count_occ Z.eq_dec (map fst entries) k = 1%nat.
Proof.
  unfold item_problems, items_of. rewrite (proj1 (items_from entries ∅ k)), lookup_empty. cbn [default app].
  rewrite <- claimed_count. by destruct (claimed k entries) as [|? [|? ?]].
Qed.

Lemma side_problems_nil what entries : side_problems what entries = [] <-> map fst entries ≡ₚ seqZ 1 ADR009Count.
Proof.
  unfold side_problems. rewrite !app_nil_iff, if_nil, !flat_map_nil_iff, Z.eqb_eq.
  assert (Hout : Forall (fun kv => outside_problems what kv = []) (map_to_list (items_of entries))
                 <-> (forall k, k ∈ map fst entries -> 1 <= k <= ADR009Count)).
  { rewrite Forall_forall. split.
    - intros H k Hk. destruct (proj2 (proj2 (items_from entries ∅ k)) (or_intror Hk)) as [ps Hps].
      specialize (H (k, ps) (proj2 (elem_of_map_to_list _ _ _) Hps)). cbn in H.
      destruct (Z.ltb_spec k 1), (Z.ltb_spec ADR009Count k); cbn in H; first [done|lia].
    - intros H [k ps] Hk. apply elem_of_map_to_list in Hk.
      assert (Hin : k ∈ map fst entries).
      { destruct (proj1 (proj2 (items_from entries ∅ k)) (mk_is_Some _ _ Hk)) as [[? Hx]|]; [by rewrite lookup_empty in Hx|done]. }
      specialize (H k Hin). cbn. by rewrite (proj2 (Z.ltb_ge _ _)), (proj2 (Z.ltb_ge _ _)) by lia. }
  rewrite Hout. split.
  - intros (_ & H1 & H2). apply (Permutation_count_occ Z.eq_dec). intros k.
    destruct (decide (1 <= k <= ADR009Count)) as [Hk|Hk].
    + assert (Hin : k ∈ seqZ 1 ADR009Count) by (apply elem_of_seqZ; lia).
      rewrite (proj1 (item_problems_nil what entries k) (proj1 (Forall_forall _ _) H1 k Hin)).
      symmetry. apply NoDup_count_occ'; [apply NoDup_ListNoDup, NoDup_seqZ|by apply list_elem_of_In].
    + rewrite !(proj1 (count_occ_not_In _ _ _)); [done| |].
      * intros Hin. apply list_elem_of_In, elem_of_seqZ in Hin. lia.
      * intros Hin. apply list_elem_of_In in Hin. by apply H2 in Hin.
  - intros Hp. split; [|split].
    + apply Permutation_length in Hp. rewrite length_map, length_seqZ in Hp. unfold ADR009Count in *. lia.
    + apply Forall_forall. intros k Hk. apply item_problems_nil. rewrite (proj1 (Permutation_count_occ Z.eq_dec _ _) Hp k).
      apply NoDup_count_occ'; [apply NoDup_ListNoDup, NoDup_seqZ|by apply list_elem_of_In].
    + intros k Hk. rewrite Hp in Hk. apply elem_of_seqZ in Hk. lia.
Qed.

(** *** What the manifest must say of the tree *)

Definition codec_good (root : string) (d : Disk) (o rec : CodecOrigin) : Prop :=
  o_toolVersion rec = o_toolVersion o
  /\ exists b, ReadFile d (repo_path root (o_path o)) = Ok b /\ sha256Hex b = o_sha256 rec.

Lemma codec_check_good root d o rec t :
  (codec_check root d o rec = ([], t) -> t = true) /\ (codec_check root d o rec = ([], true) <-> codec_good root d o rec).
Proof.
  unfold codec_check, codec_good. destruct (ReadFile d _) as [b|e] eqn:Hr; [|naive_solver].
  destruct (String.eqb_spec (sha256Hex b) (o_sha256 rec)), (String.eqb_spec (o_toolVersion rec) (o_toolVersion o)); naive_solver.
Qed.

(** A fixture on disk has the recorded digest, or is not there. *)
Definition disk_good (root : string) (d : Disk) (e : Entry) : Prop :=
  match ReadFile d (JoinPath [repo_path root OutputDir; e_path e]) with
  | Ok b => sha256Hex b = e_sha256 e
  | Err er => io_missing er = true
  end.

Definition name_good (m : Manifest) (de : string * bool) : Prop :=
  HasPrefix de.1 "." = true \/ one_of de.1 (map e_path (m_fixtures m)) = true.

(** The manifest describes the tree: both sides are the twelve items, the pins
    are the toolchain's and the sources', the codec inputs are those recorded,
    and the corpus on disk has no byte the manifest does not describe. *)
Record Describes (specs : list Spec) (root : string) (m : Manifest) (d : Disk) : Prop := {
  ds_manifest : map e_adr009 (m_fixtures m) ≡ₚ seqZ 1 ADR009Count;
  ds_corpus : map s_adr009 specs ≡ₚ seqZ 1 ADR009Count;
  ds_go : runtime_version = t_go (m_toolchain m);
  ds_gomod : goDirective root d = Ok (t_goMod (m_toolchain m));
  ds_digest : SourceDigest root d = Ok (g_sourceSHA256 (m_generator m));
  ds_version : g_version (m_generator m) = Version;
  ds_sources : g_sourceFiles (m_generator m) = GeneratorSourceFiles;
  ds_codecs : accounts o_path (codec_good root d) CodecInputs (by_key o_path (m_codecInputs m));
  ds_disk : Forall (disk_good root d) (m_fixtures m);
  ds_names : match ReadDir d (repo_path root OutputDir) with Ok l => Forall (name_good m) l | Err _ => True end }.

Lemma accounts_iff {S E} key (P Q : S -> E -> Prop) wanted recorded :
  (forall s e, P s e <-> Q s e) -> accounts key P wanted recorded <-> accounts key Q wanted recorded.
Proof.
  intros H. unfold accounts. rewrite !Forall_forall. split; intros (? & ? & Hf); (split; [done|]); (split; [done|]);
    intros s Hs; destruct (Hf s Hs) as (e & ? & He); exists e; by rewrite ?H, <- ?H in *.
Qed.

Lemma digest_problems_nil digest m : digest_problems digest m = Ok [] <-> digest = g_sourceSHA256 (m_generator m).
Proof.
  unfold digest_problems. destruct (String.eqb_spec digest (g_sourceSHA256 (m_generator m))) as [|Hn]; [done|].
  split; [|done]. destruct (prefix_of digest 16); [|done]. by destruct (prefix_of _ 16).
Qed.

Lemma on_disk_nil root d e : on_disk_problems root d e = [] <-> disk_good root d e.
Proof.
  unfold on_disk_problems, disk_good. destruct (ReadFile d _) as [b|er]; [by rewrite if_nil, String.eqb_eq|by rewrite if_nil].
Qed.

Lemma undeclared_nil root d m : undeclared_problems root d m = [] <->
  match ReadDir d (repo_path root OutputDir) with Ok l => Forall (name_good m) l | Err _ => True end.
Proof.
  unfold undeclared_problems. destruct (ReadDir d _) as [l|]; [|done]. rewrite flat_map_nil_iff.
  apply Forall_iff. intros [name dir]. unfold undeclared_problem, name_good. by rewrite if_nil, orb_true_iff.
Qed.

Lemma cheap_problems_nil specs root m d : cheap_problems specs root m d = Ok [] <-> Describes specs root m d.
Proof.
  assert (Hcodec : codec_problems root d m = [] <-> accounts o_path (codec_good root d) CodecInputs (by_key o_path (m_codecInputs m))).
  { unfold codec_problems. rewrite reconcile_nil by (intros o rec t; apply (codec_check_good root d o rec t)).
    apply accounts_iff. intros o rec. apply (codec_check_good root d o rec true). }
  assert (Hset : checkDeclaredSet specs m = [] <-> map e_adr009 (m_fixtures m) ≡ₚ seqZ 1 ADR009Count
                                                 /\ map s_adr009 specs ≡ₚ seqZ 1 ADR009Count).
  { unfold checkDeclaredSet. by rewrite app_nil_iff, !side_problems_nil, !map_map. }
  unfold cheap_problems. destruct (goDirective root d) as [goMod|t] eqn:Hg; [|split; [done|intros []; congruence]].
  destruct (SourceDigest root d) as [digest|t] eqn:Hd; [|split; [done|intros []; congruence]].
  split.
  - destruct (digest_problems digest m) as [dp|] eqn:Hp; [|done]. intros H. injection H as H.
    rewrite !app_nil_iff, Hset, Hcodec, undeclared_nil, flat_map_nil_iff in H. destruct H as ([? ?] & H1 & H2 & -> & H3 & ? & H5 & ?).
    unfold go_problems, gomod_problems, generator_problems in *. rewrite app_nil_iff, !if_nil, String.eqb_eq, equalStrings_eq in *.
    apply digest_problems_nil in Hp. destruct H3. constructor; try done; try congruence.
    eapply Forall_impl; [exact H5|]. intros e. apply on_disk_nil.
  - intros []. assert (digest_problems digest m = Ok []) as -> by (apply digest_problems_nil; congruence). f_equal.
    rewrite !app_nil_iff, Hset, Hcodec, undeclared_nil, flat_map_nil_iff. unfold go_problems, gomod_problems, generator_problems.
    rewrite app_nil_iff, !if_nil, !String.eqb_eq, equalStrings_eq. repeat split; try done; try congruence; try apply ds_codecs0.
    eapply Forall_impl; [exact ds_disk0|]. intros e. apply on_disk_nil.
Qed.

(** The regenerated file of a fixture has the recorded digest. *)
Definition bytes_good (files : gmap string FileInfo) (s : Spec) (e : Entry) : Prop :=
  fi_sha256 (default (mkFileInfo "" 0) (files !! s_path s)) = e_sha256 e.

Lemma bytes_problems_nil specs files m :
  bytes_problems specs files m = [] <-> accounts s_path (bytes_good files) specs (by_key e_path (m_fixtures m)).
Proof.
  unfold bytes_problems. rewrite reconcile_nil by (unfold bytes_check; naive_solver). apply accounts_iff.
  intros s e. unfold bytes_check, bytes_good. destruct (String.eqb_spec (fi_sha256 (default (mkFileInfo "" 0) (files !! s_path s))) (e_sha256 e)); naive_solver.
Qed.

(** C22. The check reports nothing exactly when the manifest describes the tree and
    the corpus that is regenerated is the one it records, fixture by fixture. *)
Theorem verify_reports_nothing_iff specs root scratch d :
  (exists d', VerifyAgainstManifest specs root scratch d = (Ok [], d'))
  <-> exists m files d', ReadManifest root d = Ok m /\ Describes specs root m d
        /\ Generate specs scratch d = (Ok files, d')
        /\ accounts s_path (bytes_good files) specs (by_key e_path (m_fixtures m)).
Proof.
  unfold VerifyAgainstManifest. destruct (ReadManifest root d) as [m|t]; [|naive_solver].
  destruct (cheap_problems specs root m d) as [[|p ps]|e] eqn:Hc.
  - pose proof (proj1 (cheap_problems_nil _ _ _ _) Hc) as Hd.
    destruct (Generate specs scratch d) as [[files|e] d1].
    + split.
      * intros [d' H]. injection H as H _. apply sortProblems_nil, bytes_problems_nil in H. by exists m, files, d1.
      * intros (m' & files' & d' & Hm & _ & Hg & Ha). simplify_eq. exists d'.
        by rewrite (proj2 (bytes_problems_nil _ _ _) Ha).
    + split; [by intros [d' ?]|]. by intros (? & ? & ? & _ & _ & ? & _).
  - split; [intros [d' H]; injection H as H _; by apply (sortProblems_nil ((p :: ps) ++ [not_compared])) in H|].
    intros (m' & ? & ? & Hm & Hd & _). simplify_eq. apply cheap_problems_nil in Hd. congruence.
  - split; [by intros [d' ?]|]. intros (m' & ? & ? & Hm & Hd & _). simplify_eq. apply cheap_problems_nil in Hd. congruence.
Qed.
End Tree.


(** ** What was written is read back *)

Definition valid_texts (l : list string) : bool := forallb ValidString l.

Definition origin_ok (o : CodecOrigin) : bool :=
  valid_texts ([o_path o; o_sha256 o; o_tool o; o_toolVersion o; o_note o] ++ o_argv o) && JsonRead.int64_range (o_bytes o).

Definition entry_ok (e : Entry) : bool :=
  valid_texts ([e_id e; e_path e; e_format e; e_tier e; e_sha256 e; e_decode e; e_purpose e; e_license e] ++ e_asserts e)
  && forallb JsonRead.int64_range [e_adr009 e; e_bytes e; e_width e; e_height e].

(** Every text of the manifest is UTF-8 and every number an int. *)
Definition manifest_ok (m : Manifest) : bool :=
  let g := m_generator m in let t := m_toolchain m in
  valid_texts ([m_note m; g_name g; g_version g; g_sourceSHA256 g; t_go t; t_goMod t; m_outputDir m] ++ g_sourceFiles g)
  && JsonRead.int64_range (m_schema m) && forallb origin_ok (m_codecInputs m) && forallb entry_ok (m_fixtures m).

Lemma valid_texts_Forall l : valid_texts l = true -> Forall (fun s => ValidString s = true) l.
Proof. intros Hl. apply Forall_forall. intros s Hs. by apply (proj1 (forallb_forall _ _) Hl), list_elem_of_In. Qed.

(** A member of an object the encoder wrote, decoded into its field. *)
Ltac stored_fields :=
  repeat (apply Forall3_cons; [split; [vm_compute; reflexivity|]|]); try apply Forall3_nil;
  cbn [snd]; first [by apply JsonRead.decode_text|by apply JsonRead.decode_int|by apply JsonRead.decode_strings|idtac].

Ltac no_twice := apply (bool_decide_unpack _); vm_compute; exact I.

Lemma origin_back o : origin_ok o = true -> exists g,
  JsonRead.decode false (JsonRead.val_of (origin_json o)) origin_type (JsonRead.zero origin_type) = Some g /\ origin_of g = o.
Proof.
  intros [Ht%valid_texts_Forall Hi]%andb_true_iff. rewrite Forall_app, !Forall_cons in Ht.
  destruct Ht as [(H1 & H2 & H3 & H4 & H5 & _) Ha]. unfold origin_json. destruct (String.eqb_spec (o_note o) "") as [Hn|Hn].
  - eexists. split; [refine (JsonRead.decode_struct 6 false _ _ _ _ _); [no_twice|stored_fields]|].
    unfold origin_of. cbn [field app nth drop map text_of int_of]. rewrite JsonRead.texts_strings. destruct o. cbn in *. by subst.
  - eexists. split; [refine (JsonRead.decode_struct 7 false _ _ _ _ _); [no_twice|stored_fields]|].
    unfold origin_of. cbn [field app nth drop map text_of int_of]. rewrite JsonRead.texts_strings. by destruct o.
Qed.

Lemma entry_back e : entry_ok e = true -> exists g,
  JsonRead.decode false (JsonRead.val_of (entry_json e)) entry_type (JsonRead.zero entry_type) = Some g /\ read_entry g = e.
Proof.
  intros [Ht%valid_texts_Forall Hi]%andb_true_iff. rewrite Forall_app, !Forall_cons in Ht.
  destruct Ht as [(H1 & H2 & H3 & H4 & H5 & H6 & H7 & H8 & _) Ha]. cbn [forallb] in Hi. rewrite !andb_true_iff in Hi.
  destruct Hi as (I1 & I2 & I3 & I4 & _).
  eexists. split; [refine (JsonRead.decode_struct 13 false _ _ _ _ _); [no_twice|stored_fields]|].
  unfold read_entry. cbn [field app nth drop map text_of int_of]. rewrite JsonRead.texts_strings. by destruct e.
Qed.

(** A slice grown with [append], read back element by element. *)
Lemma grown_back {A} (json : A -> Json) (read : GoVal -> A) (t : GoType) (l : list A) :
  Forall (fun x => exists g, JsonRead.decode false (JsonRead.val_of (json x)) t (JsonRead.zero t) = Some g /\ read g = x) l ->
  exists g, JsonRead.decode false (JsonRead.val_of (grown (map json l))) (TSlice t) (JsonRead.zero (TSlice t)) = Some g
    /\ map read (JsonRead.items_of g) = l.
Proof.
  intros Hl. destruct l as [|x l]; [by eexists|].
  assert (Hg : exists gs, Forall2 (fun v g => JsonRead.decode false v t (JsonRead.zero t) = Some g)
                            (map JsonRead.val_of (map json (x :: l))) gs /\ map read gs = x :: l).
  { clear -Hl. remember (x :: l) as xs eqn:E. clear E. induction Hl as [|y xs (g & Hd & Hr) _ (gs & Hgs & Hm)]; [by exists []; split; [constructor|]|].
    exists (g :: gs). split; [by constructor|]. cbn. by rewrite Hr, Hm. }
  destruct Hg as (gs & Hgs & Hm). exists (JsonRead.GSlice gs (length gs)). rewrite JsonRead.items_slice. split; [|done].
  by apply JsonRead.decode_slice.
Qed.

Lemma generator_back g : valid_texts ([g_name g; g_version g; g_sourceSHA256 g] ++ g_sourceFiles g) = true -> exists v,
  JsonRead.decode false (JsonRead.val_of (JObject [("name", JString (g_name g)); ("version", JString (g_version g));
      ("source_sha256", JString (g_sourceSHA256 g)); ("source_files", strings_json (g_sourceFiles g))]%string))
    generator_type (JsonRead.zero generator_type) = Some v
  /\ mkGenerator (text_of (field 0 v)) (text_of (field 1 v)) (text_of (field 2 v)) (texts_of (field 3 v)) = g.
Proof.
  intros Ht%valid_texts_Forall. rewrite Forall_app, !Forall_cons in Ht. destruct Ht as [(H1 & H2 & H3 & _) Ha].
  eexists. split; [refine (JsonRead.decode_struct 4 false _ _ _ _ _); [no_twice|stored_fields]|].
  cbn [field app nth drop map text_of]. rewrite JsonRead.texts_strings. by destruct g.
Qed.

Lemma toolchain_back t : valid_texts [t_go t; t_goMod t] = true -> exists v,
  JsonRead.decode false (JsonRead.val_of (JObject [("go", JString (t_go t)); ("go_mod_language_version", JString (t_goMod t))]%string))
    toolchain_type (JsonRead.zero toolchain_type) = Some v
  /\ mkToolchain (text_of (field 0 v)) (text_of (field 1 v)) = t.
Proof.
  intros Ht%valid_texts_Forall. rewrite !Forall_cons in Ht. destruct Ht as (H1 & H2 & _).
  eexists. split; [refine (JsonRead.decode_struct 2 false _ _ _ _ _); [no_twice|stored_fields]|]. by destruct t.
Qed.

Lemma manifest_decodes m : manifest_ok m = true -> exists g,
  JsonRead.decode false (JsonRead.val_of (manifest_json m)) manifest_type (JsonRead.zero manifest_type) = Some g /\ manifest_of g = m.
Proof.
  intros [[[Ht Hs]%andb_true_iff Ho]%andb_true_iff He]%andb_true_iff. cbn [app] in Ht.
  cbn [valid_texts forallb] in Ht. rewrite !andb_true_iff in Ht. destruct Ht as (H1 & H2 & H3 & H4 & H5 & H6 & H7 & Hf).
  destruct (generator_back (m_generator m)) as (gv & Hgv & Hg); [cbn; by rewrite H2, H3, H4|].
  destruct (toolchain_back (m_toolchain m)) as (tv & Htv & Hto); [cbn; by rewrite H5, H6|].
  destruct (grown_back origin_json origin_of origin_type (m_codecInputs m)) as (cv & Hcv & Hc).
  { apply Forall_forall. intros o Hin%list_elem_of_In. apply origin_back. by eapply forallb_forall. }
  destruct (grown_back entry_json read_entry entry_type (m_fixtures m)) as (fv & Hfv & Hfx).
  { apply Forall_forall. intros e Hin%list_elem_of_In. apply entry_back. by eapply forallb_forall. }
  eexists. split; [refine (JsonRead.decode_struct 7 false _ _ _ _ _); [no_twice|]|].
  { repeat (apply Forall3_cons; [split; [vm_compute; reflexivity|]|]); try apply Forall3_nil; cbn [snd];
      first [by apply JsonRead.decode_text|by apply JsonRead.decode_int|eassumption]. }
  unfold manifest_of. cbn [field app nth drop map text_of int_of]. rewrite Hg, Hto, Hc, Hfx. by destruct m.
Qed.

Lemma nesting_array (l : list Json) n : 0 <= n -> Forall (fun j => JsonRead.nesting j <= n) l -> JsonRead.nesting (JArray l) <= n + 1.
Proof. intros Hn Hl. cbn [JsonRead.nesting]. induction Hl; cbn [foldr]; lia. Qed.

Lemma nesting_grown l n : 0 <= n -> Forall (fun j => JsonRead.nesting j <= n) l -> JsonRead.nesting (grown l) <= n + 1.
Proof. intros Hn Hl. destruct l; [cbn; lia|]. by apply nesting_array. Qed.

Lemma nesting_strings l : JsonRead.nesting (strings_json l) <= 1.
Proof. apply (nesting_array _ 0); [done|]. apply Forall_fmap, Forall_true. cbn. lia. Qed.

Lemma nesting_manifest m : JsonRead.nesting (manifest_json m) <= 5.
Proof.
  assert (Ho : Forall (fun j => JsonRead.nesting j <= 2) (map origin_json (m_codecInputs m))).
  { apply Forall_fmap, Forall_true. intros o. unfold origin_json. pose proof (nesting_strings (o_argv o)).
    cbn -[strings_json Z.max Z.add Z.le]. destruct (String.eqb (o_note o) _); cbn -[strings_json Z.max Z.add Z.le]; lia. }
  assert (He : Forall (fun j => JsonRead.nesting j <= 2) (map entry_json (m_fixtures m))).
  { apply Forall_fmap, Forall_true. intros e. pose proof (nesting_strings (e_asserts e)). cbn -[strings_json Z.max Z.add Z.le]. lia. }
  apply nesting_grown in Ho; [|done]. apply nesting_grown in He; [|done].
  pose proof (nesting_strings (g_sourceFiles (m_generator m))). cbn -[strings_json grown Z.max Z.add Z.le]. lia.
Qed.

Section RoundTrip.
Context `{HO : Os, HM : JsonErrors}.

(** C23. The manifest that was written is the manifest that is read: texts with
    quotes, angle brackets, control characters or any other rune included, as
    long as they are UTF-8, whatever was in the file before. *)
Theorem manifest_round_trip root m d d' :
  manifest_ok m = true -> WriteManifest root m d = Ok d' -> os_refuses d' OpRead (repo_path root ManifestPath) = None ->
  ReadManifest root d' = Ok m.
Proof.
  intros Hm Hw Hr. unfold WriteManifest in Hw. destruct (MkdirAll d _) as [d1|]; [|done]. unfold WriteFile in Hw.
  destruct (os_refuses d1 OpWrite _); [done|].
  assert (d' = <[Clean (repo_path root ManifestPath) := FileNode (manifest_text m)]> d1) as -> by (by repeat case_match; simplify_eq).
  unfold ReadManifest, ReadFile. rewrite Hr, lookup_insert_eq. unfold unmarshal_manifest, Unmarshal, manifest_text.
  rewrite JsonRead.parse_indented; [|pose proof (nesting_manifest m); unfold JsonRead.maxNestingDepth; lia|done].
  destruct (manifest_decodes m Hm) as (g & -> & ->). done.
Qed.
End RoundTrip.

(** A manifest whose texts need escapes, with an empty slice and an omitted
    note. *)
Definition sample_manifest : Manifest :=
  mkManifest 1 ("a <b> & " +:+ dquote +:+ newline +:+ RuneError) (mkGenerator "g" "1" "" ["x"; "y"]%string)
    (mkToolchain "go1.27.1" "1.26.0") "out" [mkOrigin "p" "00" 3 "t" "1" [] ""]
    [mkEntry "e" "f" "png" "generated" 1 "ff" 12 (-3) 0 "ok" "" ["a"%string] "CC0"].

#[local] Instance sample_os : Os := no_refusal.
#[local] Instance sample_errors : JsonErrors := fun _ => ""%string.

Lemma manifest_round_trip_witness :
  exists d, WriteManifest "/r" sample_manifest ∅ = Ok d /\ ReadManifest "/r" d = Ok sample_manifest.
Proof.
  eexists. split; [vm_compute; reflexivity|].
  apply (manifest_round_trip "/r" sample_manifest ∅); [vm_compute; reflexivity|vm_compute; reflexivity|reflexivity].
Defined.
