(* ===== verification/FixtureGen.v ===== *)
(** * The fixture command (src/cmd/fixturegen/main.go)

    generate, manifest and verify over the manifest of FixtureManifest.v, with
    the flags, the exit codes and what is printed. *)

From stdpp Require Import list_numbers.
From S2P Require Import Prelude Utf8 GoStrings GoFmt GoJson Sha256 Bytes Codecs Files TestTmp Ebml GifFiles Fixtures FixtureManifest.

(** What a process of the tool meets: the directory it runs in or why there is
    none, its environment, and the endings os.MkdirTemp draws. *)
Record Host := mkHost { h_cwd : result string string; h_env : gmap string string; h_endings : list string }.

(** [filepath.Abs]. *)
Definition Abs (h : Host) (p : string) : result string string :=
  if is_rooted p then Ok (Clean p)
  else let? cwd := h_cwd h in Ok (JoinPath [cwd; p]).

(** [%8d]. *)
Definition pad_left (n : Z) (s : string) : string := spaces (Z.to_nat (n - RuneCount s)) +:+ s.

Section Command.
Context `{HO : Os, HR : GoRuntime, HM : JsonErrors, HP : Printable}.
Context (specs : list Spec).

(** What a run leaves: its error, what it printed on standard output and on
    standard error, the disk. *)
Record Outcome := mkOutcome { o_res : result Fault unit; o_out : string; o_err : string; o_disk : Disk }.

Definition stop (e : Fault) (d : Disk) : Outcome := mkOutcome (Err e) "" "" d.

Definition entry_line (e : Entry) : result Fault string :=
  let? digest := prefix_of (e_sha256 e) 16 in
  Ok ("  " +:+ pad_right 34 (e_path e) +:+ " " +:+ pad_left 8 (Itoa (e_bytes e)) +:+ "  " +:+ digest +:+ "  "
      +:+ e_tier e +:+ newline).

Fixpoint entry_lines (es : list Entry) : result Fault string :=
  match es with
  | [] => Ok ""%string
  | e :: es => let? l := entry_line e in let? ls := entry_lines es in Ok (l +:+ ls)
  end.

Definition run_generate (root : string) (d : Disk) : Outcome :=
  match Build specs root d with
  | (Err e, d) => stop e d
  | (Ok m, d) =>
      match Summary m, entry_lines (m_fixtures m) with
      | Ok sum, Ok ls => mkOutcome (Ok tt) ("generated " +:+ sum +:+ " into " +:+ OutputDir +:+ newline +:+ ls) "" d
      | Err e, _ | _, Err e => stop e d
      end
  end.

Definition run_manifest (root : string) (d : Disk) : Outcome :=
  match Build specs root d with
  | (Err e, d) => stop e d
  | (Ok m, d) =>
      match WriteManifest root m d with
      | Err t => stop (Failed t) d
      | Ok d =>
          match Summary m with
          | Err e => stop e d
          | Ok sum => mkOutcome (Ok tt)
              ("wrote " +:+ ManifestPath +:+ ": " +:+ sum +:+ newline
               +:+ "Review the diff: a changed fixture hash means the bytes every later media" +:+ newline
               +:+ "assertion is compared against have moved." +:+ newline) "" d
          end
      end
  end.

Definition problem_lines (ps : list Problem) : string :=
  concat (map (fun p => "  " +:+ p_kind p +:+ newline +:+ "      " +:+ p_detail p +:+ newline) ps).

(** The comparison in a given directory. *)
Definition verify_in (root dir : string) (d : Disk) : Outcome :=
  match VerifyAgainstManifest specs root dir d with
  | (Err e, d) => stop e d
  | (Ok [], d) =>
      match ReadManifest root d with
      | Err t => stop (Failed t) d
      | Ok m =>
          match Summary m with
          | Err e => stop e d
          | Ok sum => mkOutcome (Ok tt)
              ("fixtures-verify: ok — " +:+ sum +:+ newline
               +:+ "  every fixture regenerated byte-identically, the generator source digest matches," +:+ newline
               +:+ "  the committed codec inputs match, and the toolchain is the pinned one." +:+ newline) "" d
          end
      end
  | (Ok ps, d) =>
      mkOutcome (Err (Failed "the corpus does not match the committed manifest")) ""
        ("fixtures-verify: FAILED with " +:+ Itoa (Z.of_nat (length ps)) +:+ " problem(s)" +:+ newline +:+ newline
         +:+ problem_lines ps +:+ newline) d
  end.

(** The deferred removal of the temporary directory; its error is dropped.  It
    runs on a panic too. *)
Definition removing (dir : string) (o : Outcome) : Outcome :=
  mkOutcome (o_res o) (o_out o) (o_err o)
    (match RemoveAll (o_disk o) dir with Ok d => d | Err _ => o_disk o end).

Definition run_verify (h : Host) (root scratch : string) (d : Disk) : Outcome :=
  if scratch =s "" then
    match MkdirTemp (TempDir (h_env h)) "vizra-fixtures-verify-" (h_endings h) d with
    | Err t => stop (Failed t) d
    | Ok (dir, d) => removing dir (verify_in root dir d)
    end
  else verify_in root scratch d.

Definition fixture_formals : list Formal := [("repo", FlagString "."); ("scratch", FlagString "")]%string.

Definition fixture_usage : string :=
  "Usage of fixturegen:" +:+ newline
  +:+ "  -repo string" +:+ newline +:+ "    " +:+ String (ascii_of_N 9) ("repository root (default " +:+ Quote "." +:+ ")") +:+ newline
  +:+ "  -scratch verify" +:+ newline +:+ "    " +:+ String (ascii_of_N 9) "directory to regenerate into for verify (default: a temporary directory)" +:+ newline.

(** The text of a flag error, as [Parse] returns it. *)
Definition flag_error_text (e : FlagError) : string :=
  match e with ErrHelp => "flag: help requested" | e => TrimSuffix (FlagError_line e) newline end.

Definition on_err (text : string) (o : Outcome) : Outcome := mkOutcome (o_res o) (o_out o) (text +:+ o_err o) (o_disk o).

(** [run]: a flag error is printed with the usage by the flag set, then
    returned. *)
Definition run_fixture (h : Host) (args : list string) (d : Disk) : Outcome :=
  match Parse_flags args fixture_formals with
  | Err e => on_err (FlagError_line e +:+ fixture_usage) (stop (Failed (flag_error_text e)) d)
  | Ok (rest, fs) =>
      let str n := match map_get n fs with Some (FlagString s) => s | _ => ""%string end in
      match rest with
      | [cmd] =>
          match Abs h (str "repo"%string) with
          | Err t => stop (Failed t) d
          | Ok root =>
              if cmd =s "generate" then run_generate root d
              else if cmd =s "manifest" then run_manifest root d
              else if cmd =s "verify" then run_verify h root (str "scratch"%string) d
              else stop (Failed ("unknown command " +:+ Quote cmd)) d
          end
      | _ => on_err fixture_usage (stop (Failed "expected exactly one command: generate, manifest or verify") d)
      end
  end.

(** The process: exit code, standard output, standard error, disk.  A panic
    exits with 2 and its trace is left out. *)
Definition fixture_main (h : Host) (args : list string) (d : Disk) : Z * string * string * Disk :=
  let o := run_fixture h args d in
  match o_res o with
  | Ok _ => (0, o_out o, o_err o, o_disk o)
  | Err (Failed t) => (1, o_out o, o_err o +:+ "fixturegen: " +:+ t +:+ newline, o_disk o)
  | Err Panic => (2, o_out o, o_err o, o_disk o)
  end.
End Command.

(** ** The verdict printed is the verdict *)

Section Verdict.
Context `{HO : Os, HR : GoRuntime, HM : JsonErrors, HP : Printable}.
Context (specs : list Spec).

(** The temporary directory is gone after the comparison, whatever it found. *)
Lemma verify_leaves_no_scratch h root d dir d1 :
  MkdirTemp (TempDir (h_env h)) "vizra-fixtures-verify-" (h_endings h) d = Ok (dir, d1) ->
  (forall d, os_refuses d OpRemove dir = None) ->
  forall p, under (Clean dir) p = true -> o_disk (run_verify specs h root "" d) !! p = None.
Proof.
  intros Hm Ho p Hp. unfold run_verify. change (("" =s "")%string) with true. cbv iota. rewrite Hm. unfold removing. cbn [o_disk].
  set (d2 := o_disk (verify_in specs root dir d1)).
  destruct (RemoveAll d2 dir) as [d3|] eqn:Hr; [|unfold RemoveAll in Hr; by rewrite Ho in Hr].
  by rewrite (RemoveAll_lookup _ _ _ p Hr), Hp.
Qed.
End Verdict.

(** ** A tree with a corpus of twelve small fixtures *)

Definition toy_corpus : list Spec := map (fun n => toy_spec n ("f" +:+ Itoa n) (Itoa n)) (seqZ 1 12).

Definition toy_tree : Disk :=
  let put rel b d := <[Clean (repo_path "/r" rel) := FileNode b]> d in
  put "go.mod" ("module x" +:+ newline +:+ "go 1.26.0" +:+ newline)
    (foldr (fun rel d => put rel "s" d)
       (foldr (fun o d => put (o_path o) ("input " +:+ o_path o) d) ∅ CodecInputs) GeneratorSourceFiles)%string.

#[local] Instance toy_go : GoRuntime := "go1.27.1"%string.
#[local] Instance toy_os : Os := no_refusal.
#[local] Instance toy_print : Printable := ascii_print.

Definition toy_host : Host := mkHost (Ok "/r"%string) ∅ ["1"%string].

(** The manifest [Build] makes of the tree, and the tree after [fixturegen
    manifest], computed once. *)
Definition toy_manifest : Manifest := Eval vm_compute in
  match (Build toy_corpus "/r" toy_tree).1 with Ok m => m | Err _ => build_manifest "" "" [] [] end.

#[local] Instance toy_errors : JsonErrors := fun _ => "unexpected end of JSON input"%string.

Definition pinned_files : list (string * Node) := Eval vm_compute in
  map_to_list (o_disk (run_fixture toy_corpus toy_host ["manifest"%string] toy_tree)).

(** Entries with every field but the path, the item and the digest changed. *)
Definition edited (m : Manifest) : Manifest :=
  mkManifest (m_schema m) (m_note m) (m_generator m) (m_toolchain m) (m_outputDir m) (m_codecInputs m)
    (map (fun e => mkEntry (e_id e) (e_path e) "svg" (e_tier e) (e_adr009 e) (e_sha256 e) 0 7 7 "ok" (e_purpose e) [] "")
         (m_fixtures m)).

Definition undigested (m : Manifest) : Manifest :=
  mkManifest (m_schema m) (m_note m) (mkGenerator "fixturegen" Version "" GeneratorSourceFiles) (m_toolchain m) (m_outputDir m)
    (m_codecInputs m) (m_fixtures m).

Definition pinned : Disk := list_to_map pinned_files.

Definition with_manifest (text : string) : Disk := <["/r/fixtures/manifest.json"%string := FileNode text]> pinned.

Definition verdict (d : Disk) : result Fault (list Problem) := (VerifyAgainstManifest toy_corpus "/r" "/tmp/x" d).1.

(** What [fixturegen manifest] wrote, [fixturegen verify] reports nothing of. *)
Example pinned_then_verified :
  o_res (run_fixture toy_corpus toy_host ["verify"%string] pinned) = Ok tt.
Proof. vm_compute. reflexivity. Qed.

(** A changed source, a stray file and a changed fixture are each reported. *)
Example drift_is_reported :
  match verdict (<["/r/cmd/fixturegen/main.go"%string := FileNode "edited"]>
                (<["/r/testdata/fixtures/extra"%string := FileNode "x"]>
                (<["/r/testdata/fixtures/f3"%string := FileNode "x"]> pinned))) with
  | Ok ps => map p_kind ps = ["fixture-on-disk"; "generator-source"; "not-compared"; "undeclared-fixture"]%string
  | Err _ => False
  end.
Proof. vm_compute. reflexivity. Qed.

(** The size, the dimensions, the format, the decode outcome, the assertions
    and the licence an entry records are not compared. *)
Example edited_entries_pass : verdict (with_manifest (manifest_text (edited toy_manifest))) = Ok [].
Proof. vm_compute. reflexivity. Qed.

(** A manifest without a source digest panics instead of being reported. *)
Example empty_digest_panics : verdict (with_manifest (manifest_text (undigested toy_manifest))) = Err Panic.
Proof. vm_compute. reflexivity. Qed.

(** A codec input that cannot be read is also reported as one the generator no
    longer uses. *)
Example unreadable_input_is_reported_twice :
  map p_detail (codec_problems "/r" (delete "/r/internal/fixtures/codec/source.png"%string pinned) toy_manifest)
  = ["internal/fixtures/codec/source.png: open /r/internal/fixtures/codec/source.png: no such file or directory";
     "the manifest records internal/fixtures/codec/source.png, which the generator no longer uses"]%string.
Proof. vm_compute. reflexivity. Qed.
